(* ===== verification/_CoqProject ===== *)
-Q . S2P
Prelude.v
Page.v
Address.v
Bytes.v
Buddy.v
BuddyLists.v
BuddyZone.v
BuddySpec.v
BuddyTheorems.v
BuddyLaws.v
StaticAlloc.v
Mapping.v
Sv39.v
Arm64Page.v
MappingSpec.v
MappingDestroy.v
PageFormats.v
MappingTheorems.v
PageTheorems.v
KernelPt.v
CryptoFramework.v
Aes.v
AesSpec.v
AesKeys.v
AesTheorems.v
CryptoTheorems.v
ChaCha20.v
ChaCha20Theorems.v
Sha256.v
Sha256Theorems.v
HmacTheorems.v
Spinlock.v
Rand.v
RandTheorems.v
Text.v
Path.v
BTree.v
Device.v
Kmsg.v
Vfs.v
Devfs.v
FsTheorems.v
Elf.v
ElfTheorems.v
Dtb.v
DtbSpec.v
DtbTheorems.v
RiscvCpu.v
Arch.v
Mcache.v
McacheSpec.v
McacheManager.v
McacheFree.v
McacheAlloc.v
McacheTheorems.v
Heap.v
Task.v
UserCopy.v
Sched.v
SchedSpec.v
TaskTheorems.v
Gic.v
Syscall.v
SyscallTheorems.v
Trap.v
TrapTheorems.v
GicTheorems.v
Arm64Trap.v
Arm64TrapTheorems.v
Main.v
MainTheorems.v
BootPlan.v
BootTheorems.v
