(* ===== verification/Prelude.v ===== *)
(** * 31kernel: a verification development

    31kernel is a small kernel in Rust for RISC-V (Sv39) and Arm64.  This library
    models its code as executable functions and states what they do.  The profile
    is the debug one: arithmetic overflow and failed [debug_assert!] are panics.

    ** The program and its parts

    - The buddy allocator (src/src/page/buddy_allocator.rs) hands out blocks of
      pages; a static bitmap allocator (page/static_allocator.rs) serves the tables
      of the first page table, and a small-object allocator (mcache.rs) on top of
      it is the kernel's heap.  Page tables are built by the generic trait [Mapper]
      (page/mapping.rs) with the entry formats of the architectures
      (arch/riscv64/page.rs, arch/arm64/page.rs).
    - Tasks and the scheduler (task.rs) own a page table and pages per task; a
      task is made from an ELF file (lib/elf), runs until a trap
      (arch/riscv64/trap.rs, arch/arm64/trap.rs) and enters the kernel by system
      calls (arch/riscv64/syscall.rs, arch/arm64/syscall.rs, syscall.rs).
    - Start-up (main.rs) clears the memory of variables, sets up the processor
      (arch/riscv64.rs, arch/arm64/cpu.rs), the allocators and the kernel's page
      table, parses the device tree (lib/dtb), starts the interrupt controller
      (arch/arm64/gic.rs) and attaches the console.
    - System calls reach files through the virtual file system (vfs.rs, path.rs),
      where the device file system (devfs.rs) gives access to the log (kmsg.rs),
      random bytes (rand.rs) and character devices (device.rs, device/uart.rs).
    - Global state is behind spinlocks that mask interrupts (lib/spinlock).
    - A cryptography library (crypto/): AES, ChaCha20, SHA-256, CBC and HMAC.

    ** Files

    The paths are under src/src unless they start with lib or crypto.

    - Prelude: results, the state monad, checked arithmetic, shared lemmas.
      Page, Address: page.rs and address.rs.  Bytes: bytes, words, arrays and
      slices.  Text: strings of bytes, UTF-8 and decimal formatting as the
      standard library does them.  BTree: ordered maps.
    - Buddy: page/buddy_allocator.rs with free lists linked by pointers in a
      memory of nodes.  BuddyLists, BuddyZone, BuddySpec: what the lists hold, the
      invariant, each operation against a set of free blocks.  BuddyLaws: the
      allocator meets the interface that page tables rely on.  BuddyTheorems.
    - StaticAlloc: page/static_allocator.rs and its lemmas.
    - Mcache: mcache.rs, with headers, cells and managers in one memory of words,
      over any page allocator.  McacheSpec: runs of cells.  McacheManager: the
      invariant of the first manager and its slots.  McacheFree, McacheAlloc: what
      the two operations do to it, to the runs and to the pages.  McacheTheorems.
      Heap: the global allocator over the buddy allocator, as containers use it.
    - Mapping: page/mapping.rs, the traits [Entry] and [Mapper] as classes, and
      [kernel_pt_init].  Sv39, Arm64Page: the two instances.  MappingSpec: the tree
      of tables, the translation and every operation against it.  MappingDestroy:
      the loop that frees a tree.  PageFormats: the laws of the entry formats.
      MappingTheorems, PageTheorems.  KernelPt: what [kernel_pt_init] builds.
    - CryptoFramework, Aes, ChaCha20, Sha256: the crates of crypto/.  AesSpec,
      AesKeys: FIPS 197 and the key schedules.  AesTheorems, CryptoTheorems,
      ChaCha20Theorems.  Sha256Theorems: FIPS 180-4, written without the code's
      functions and tables, and the hash against it.  HmacTheorems.
    - Spinlock: lib/spinlock as a step relation of any number of CPUs, with the
      interrupt mask of either architecture as a class with laws.
    - Rand, RandTheorems: rand.rs against the MT19937 recurrence.
    - Path, Device, Kmsg, Vfs, Devfs: the files of the same names.  Open files are
      values; what a file system uses besides its own state is the type [World].
      FsTheorems.
    - Elf, ElfTheorems: lib/elf.  Dtb: lib/dtb.  DtbSpec: the format of flattened
      device trees.  DtbTheorems.
    - Arch: what tasks and system calls use of the architecture (arch.rs, the
      register contexts of arch/riscv64/cpu.rs and arch/arm64/cpu.rs, time.rs) as a
      class with an instance for each.  RiscvCpu: the control registers of
      arch/riscv64.rs, arch/riscv64/cpu.rs and trap.rs.
    - Task: the task structure, descriptors and the copies between
      user and kernel memory (task.rs).  Sched: the scheduler, the drop of a task,
      fork and the loading of programs (task.rs), time.rs.  UserCopy, SchedSpec:
      user memory as a partial map, and the run queue.  TaskTheorems.
    - Syscall: syscall.rs.  SyscallTheorems.  Trap: arch/riscv64/trap.rs,
      arch/riscv64/syscall.rs.  TrapTheorems.  Gic: arch/arm64/gic.rs, arch/arm64.rs.
      GicTheorems: registers at their own addresses, the start of the controller.
      Arm64Trap: arch/arm64/trap.rs, syscall.rs and cpu.rs.  Arm64TrapTheorems.
    - Main: main.rs and lang_items.rs on the kernel's global variables ([Machine]),
      with a class for what the architectures do at start-up.  MainTheorems: the
      console.  BootPlan: the memory that start-up asks for, and a check that a heap
      has it.  BootTheorems: the whole sequence on RISC-V.

    ** What the theorems show

    - Buddy allocator: while the pool of nodes is above the mark at which it is
      extended, allocation takes exactly one aligned block out of the free pages or
      reports that none is large enough; freeing gives exactly the block
      back when no order without a buddy lies below a free one, and a closed run
      shows what happens otherwise (a page handed out twice); blocks of a sequence
      of allocations are disjoint; after boot exactly the heap is free.
    - Small objects: on the first manager, while it has free slots, for all classes
      but the largest and for alignments up to a page, allocation hands out an aligned
      object in a cell that overlaps none in use, from a run with a free cell or a new
      one; deallocation frees exactly that cell and gives the pages of a run back with
      its last cell, so no run is empty; neither changes a byte of another object.
      The first request on zeroed memory writes and links the second manager and
      establishes the invariant.  Runs are only page-aligned: a closed run shows a
      larger alignment not kept.
    - Page tables: mapping, unmapping and the creation of a table against the
      translation of addresses, for every entry format, number of levels and
      allocator that meet the interface; the loop of destroy terminates and equals
      a recursive traversal, which leaks the tables of level 1.  The kernel's own
      table maps exactly its image and heap, nothing both writable and executable.
    - Cryptography: AES is FIPS 197 and decrypts what it encrypts; CBC over any
      block cipher; ChaCha20 is the RFC 8439 key stream under any cut into calls;
      SHA-256 is FIPS 180-4, with constants computed from the roots of primes, when no
      piece completes a pending block, and what it is otherwise; HMAC for short keys and for keys of the documented length.
    - Spinlocks: mutual exclusion, masked interrupts and their restoration under
      nesting; under a lock order, a spinning CPU waits, directly or through others,
      for one that has a step, that step leaves less to do, and there is a
      continuation in which the lock is taken.
    - Files: invariant of the mounts, dispatch of open, contiguous reads of the
      log, the last messages are kept; colliding descriptors of device files.
    - Tasks: copies read and write exactly the mapped run, in both directions; strings
      end within 16 bytes or never.  The scheduler terminates and makes current a task
      that may run and comes before all that were awake.  Its conditions: the counter
      does not go backwards and its conversion to nanoseconds fits in 64 bits (100 ns
      a tick on RISC-V; a product with 10^9 on Arm, which 62.5 MHz exceed after 296
      seconds, when a sleeping task at the head of the queue panics the kernel); no
      task has nice -20, whose charge panics, and no sleeping one nice -19, which is
      charged nothing; runtimes are below 2^64 - 38.
    - System calls and traps: a read call end to end, with its buffer taken from the
      heap, and its panic when the heap has no memory for it.  On either architecture,
      under the scheduler's conditions, the handlers return and resume the chosen task
      with its registers, mode or stack, and page table: after a timer interrupt, which
      saves the interrupted task; after a system call other than exit and fork whose
      own work returns; after a trap that ends the task, when its memory can be
      dropped.  What other Arm interrupts do.
    - Formats: device trees and 64-bit ELF files are read back from their bytes; the
      device tree parser ends on any input; the ELF parser gives, for any bytes and
      either class and byte order, the fields at their places, the error with the
      number in the file, or a panic on a file that ends too early; the lookups in a
      device tree.
    - Start-up: the interrupt controller is started at the addresses of the device
      tree; the console is the UART of the device tree, for the log and for
      [/dev/tty0], with its registers mapped.  On RISC-V the whole of [kernel_main]
      runs to its end, for every image, device tree and heap that are in order, and
      the state it ends in is described: page table, registers, task, files, log and
      what the console has been sent.  The tree is read at its physical address; it
      must overlap neither the image nor the heap there, which the kernel sees at an
      offset, and a tree that does is [Undef] in the model.

    ** Parameters, bounds and fuel

    The hardware timer is a function from the number of the reading to its value,
    what the interrupt controller answers a function of the accesses so far; the
    frequency of the Arm timer, a line control register read from a UART, the memory
    layout of the linker script ([Layout]) and the cause of a trap are arguments.

    What vectors, strings, boxes and maps of the standard library hold is a value of
    the model.  Their memory is requested from the kernel's heap where its size is the
    user's choice (the buffers of system calls) and in start-up, where the requests of
    the containers are a parameter per part of it ([BootStage]) that the heap has to
    serve.  Elsewhere containers are taken to be served: a kernel whose heap is
    exhausted by its log, its tables of tasks or its files panics, and the model does
    not show that.

    Loops that are not structural take fuel and end in [NoFuel].  Theorems show
    that it is enough: one round per byte and one more for [gen_bytes],
    [copy_from_user] and [copy_to_user]; one round per entry that is visited for
    [destroy] ([DESTROY_FUEL] for the levels of the architecture); the distance of the
    queue's entries to that of an awake task for [schedule] and the traps that call it;
    the message length for ChaCha20; one nested call for the small-object allocator, whose walk to the
    first manager takes one step from there; twice the length of the input for the
    device tree parser and the length of the path for an alias.  [copy_user_string]
    on long strings and [node_by_alias] on a missing node are shown not to end with
    any fuel.  Memory the code does not own is absent from the models' maps, and an
    access to it is [Undef].

    ** Not modelled

    The assembly of the entry points, of trap entry and exit and of the switch from
    machine to supervisor mode; barriers and TLB maintenance, which have no effect
    in the models; the x86_64 stubs.  Fork, exit and the loading of programs,
    the start-up sequence on Arm64, the further managers of the small-object allocator
    and the extended node pool are modelled, and no theorem is about them yet.  The memory ordering
    of the atomic flag of a spinlock is taken as sequentially consistent. *)

From Stdlib Require Export ZArith Lia.
From stdpp Require Export base tactics numbers list gmap option.

#[global] Set Default Goal Selector "!".

Declare Scope kernel_scope.
Delimit Scope kernel_scope with K.
Open Scope kernel_scope.
Open Scope Z_scope.

(** ** Results of Rust code

    [Ok a] is a normal return, [Panic] a Rust panic (in a debug build: failed
    assertions, arithmetic overflow, out-of-range indexing and [unwrap] of an
    empty option), [Undef] an access to memory that does not hold the object
    the code expects there, and [NoFuel] a loop that has used up the fuel its
    model was given. *)
Inductive res (A : Type) : Type :=
| Ok (a : A)
| Panic
| Undef
| NoFuel.
Arguments Ok {A} a.
Arguments Panic {A}.
Arguments Undef {A}.
Arguments NoFuel {A}.

#[global] Instance res_ret : MRet res := @Ok.
#[global] Instance res_bind : MBind res := λ A B f m,
  match m with
  | Ok a => f a
  | Panic => Panic
  | Undef => Undef
  | NoFuel => NoFuel
  end.
#[global] Instance res_fmap : FMap res := λ A B f m,
  match m with
  | Ok a => Ok (f a)
  | Panic => Panic
  | Undef => Undef
  | NoFuel => NoFuel
  end.

Definition is_Ok {A} (m : res A) : Prop := ∃ a, m = Ok a.

(** [Option::unwrap]. *)
Definition unwrap {A} (o : option A) : res A :=
  match o with Some a => Ok a | None => Panic end.

(** Dereferencing a raw pointer: [None] is memory the object does not live in. *)
Definition deref {A} (o : option A) : res A :=
  match o with Some a => Ok a | None => Undef end.

(** [assert!] and [debug_assert!] (the build of the Makefile is a debug build). *)
Definition assert (b : bool) : res unit := if b then Ok tt else Panic.

Lemma bind_Ok_inv {A B} (m : res A) (f : A → res B) b :
  m ≫= f = Ok b ↔ ∃ a, m = Ok a ∧ f a = Ok b.
Proof.
  destruct m; simpl; split; try done.
  - intros H. by eexists.
  - by intros (? & [= <-] & H).
  - by intros (? & [=] & _).
  - by intros (? & [=] & _).
  - by intros (? & [=] & _).
Qed.

Lemma bind_Ok {A B} (a : A) (f : A → res B) : Ok a ≫= f = f a.
Proof. done. Qed.

Lemma res_bind_assoc {A B C} (m : res A) (f : A → res B) (g : B → res C) :
  (m ≫= f) ≫= g = m ≫= (λ a, f a ≫= g).
Proof. by destruct m. Qed.

(** ** State-passing computations *)
Definition ST (S A : Type) : Type := S → res (A * S).

#[global] Instance st_ret {S} : MRet (ST S) := λ A a s, Ok (a, s).
#[global] Instance st_bind {S} : MBind (ST S) := λ A B f m s,
  '(a, s') ← m s; f a s'.

Definition get {S} : ST S S := λ s, Ok (s, s).
Definition put {S} (s : S) : ST S unit := λ _, Ok (tt, s).
Definition modify {S} (f : S → S) : ST S unit := λ s, Ok (tt, f s).
Definition lift {S A} (m : res A) : ST S A := λ s, a ← m; Ok (a, s).

(** Running the first computation of a sequence. *)
Lemma st_run {S A B} (m : ST S A) (f : A → ST S B) s a s' :
  m s = Ok (a, s') → (m ≫= f) s = f a s'.
Proof. unfold mbind, st_bind. by intros ->. Qed.
Lemma st_run_lift {S A B} (m : res A) (f : A → ST S B) s a :
  m = Ok a → (lift m ≫= f) s = f a s.
Proof. by intros ->. Qed.
Lemma st_run_get {S B} (f : S → ST S B) s : (get ≫= f) s = f s s.
Proof. done. Qed.
Lemma st_run_modify {A B} (h : A → A) (f : unit → ST A B) s : (modify h ≫= f) s = f tt (h s).
Proof. done. Qed.
Lemma st_run_bind {S A B} (m : ST S A) (f : A → ST S B) s :
  (m ≫= f) s = '(a, s') ← m s; f a s'.
Proof. done. Qed.

(** Total correctness: from [s] the computation returns normally, and the
    result and final state satisfy [Q].  A panic, an undefined access or a loop
    that runs out of fuel makes it false. *)
Definition wp {S A} (m : ST S A) (s : S) (Q : A → S → Prop) : Prop :=
  match m s with Ok (a, s') => Q a s' | _ => False end.

Lemma wp_ret {S A} (a : A) (s : S) (Q : A → S → Prop) : Q a s → wp (mret a) s Q.
Proof. done. Qed.

Lemma wp_bind {S A B} (m : ST S A) (f : A → ST S B) s (Q : B → S → Prop) :
  wp m s (λ a s', wp (f a) s' Q) → wp (m ≫= f) s Q.
Proof. unfold wp, mbind, st_bind. by destruct (m s) as [[a s']| | |]. Qed.

Lemma wp_mono {S A} (m : ST S A) s (Q Q' : A → S → Prop) :
  wp m s Q → (∀ a s', Q a s' → Q' a s') → wp m s Q'.
Proof. unfold wp. destruct (m s) as [[a s']| | |]; auto. Qed.

Lemma wp_get {S} (s : S) Q : Q s s → wp get s Q.
Proof. done. Qed.
Lemma wp_put {S} (s s' : S) Q : Q tt s' → wp (put s') s Q.
Proof. done. Qed.
Lemma wp_modify {S} (f : S → S) s Q : Q tt (f s) → wp (modify f) s Q.
Proof. done. Qed.
Lemma wp_lift {S A} (m : res A) a (s : S) Q : m = Ok a → Q a s → wp (lift m) s Q.
Proof. by intros ->. Qed.

Lemma wp_Ok {S A} (m : ST S A) s Q :
  wp m s Q ↔ ∃ a s', m s = Ok (a, s') ∧ Q a s'.
Proof.
  unfold wp. split.
  - destruct (m s) as [[a s']| | |]; [|done..]. by exists a, s'.
  - by intros (a & s' & -> & HQ).
Qed.

(** ** Machine integers

    A [usize] or [u64] is an integer in [0, 2^64), a [u32] one in [0, 2^32), a
    byte one in [0, 256).  Checked operations panic on overflow as a debug build
    does; wrapping operations reduce modulo the width. *)
Definition U64 : Z := 2 ^ 64.
Definition U32 : Z := 2 ^ 32.

Definition is_usize (z : Z) : Prop := 0 ≤ z < U64.

Definition uadd (a b : Z) : res Z := if a + b <? U64 then Ok (a + b) else Panic.
Definition usub (a b : Z) : res Z := if b <=? a then Ok (a - b) else Panic.
Definition umul (a b : Z) : res Z := if a * b <? U64 then Ok (a * b) else Panic.

Notation "a +! b" := (uadd a b) (at level 50, left associativity) : kernel_scope.
Notation "a -! b" := (usub a b) (at level 50, left associativity) : kernel_scope.
Notation "a *! b" := (umul a b) (at level 40, left associativity) : kernel_scope.

(** [a << n] on a [usize]: bits shifted out are lost, without a panic. *)
Definition ushl (a n : Z) : Z := Z.shiftl a n mod U64.

(** [usize::div_ceil] for a non-zero divisor. *)
Definition div_ceil (a b : Z) : Z := if a mod b =? 0 then a / b else a / b + 1.

Lemma uadd_Ok a b : a + b < U64 → a +! b = Ok (a + b).
Proof. unfold uadd. intros. by rewrite (proj2 (Z.ltb_lt _ _)). Qed.
Lemma usub_Ok a b : b ≤ a → a -! b = Ok (a - b).
Proof. unfold usub. intros. by rewrite (proj2 (Z.leb_le _ _)). Qed.
Lemma umul_Ok a b : a * b < U64 → a *! b = Ok (a * b).
Proof. unfold umul. intros. by rewrite (proj2 (Z.ltb_lt _ _)). Qed.
Lemma uadd_inv a b c : a +! b = Ok c → c = a + b ∧ a + b < U64.
Proof. unfold uadd. destruct (Z.ltb_spec (a + b) U64); naive_solver. Qed.
Lemma usub_inv a b c : a -! b = Ok c → c = a - b ∧ b ≤ a.
Proof. unfold usub. destruct (Z.leb_spec b a); naive_solver. Qed.

Lemma div_ceil_spec a b : 0 < b → 0 ≤ a → a ≤ b * div_ceil a b < a + b.
Proof.
  intros Hb Ha. unfold div_ceil.
  pose proof (Z.div_mod a b) as Hd. pose proof (Z.mod_pos_bound a b Hb).
  destruct (Z.eqb_spec (a mod b) 0); lia.
Qed.

(** ** Rust arrays and slices: indexing out of range panics *)
Definition index {A} (l : list A) (i : nat) : res A := unwrap (l !! i).
Definition update {A} (l : list A) (i : nat) (a : A) : res (list A) :=
  if decide (i < length l)%nat then Ok (<[i:=a]> l) else Panic.

Lemma index_Ok {A} (l : list A) i a : l !! i = Some a → index l i = Ok a.
Proof. unfold index. by intros ->. Qed.
Lemma update_Ok {A} (l : list A) i a :
  (i < length l)%nat → update l i a = Ok (<[i:=a]> l).
Proof. intros. unfold update. by rewrite decide_True. Qed.

(** A Rust [for] loop over the items of an iterator, threading the variables the
    body changes; the range [a..b] of indices. *)
Fixpoint for_each {A S} (l : list A) (body : A → S → res S) (s : S) : res S :=
  match l with
  | [] => Ok s
  | x :: l => s ← body x s; for_each l body s
  end.

Definition range (a b : nat) : list nat := seq a (b - a).

Lemma for_each_app {A S} (l1 l2 : list A) (body : A → S → res S) s :
  for_each (l1 ++ l2) body s = s ← for_each l1 body s; for_each l2 body s.
Proof.
  revert s. induction l1 as [|x l1 IH]; intros s; simpl; [done|].
  destruct (body x s); simpl; auto.
Qed.

(** A loop whose body is a pure function of its state on every state that
    satisfies the invariant [I] is a fold. *)
Lemma for_each_pure {A S} (I : S → Prop) (f : A → S → S) (l : list A)
    (body : A → S → res S) s :
  (∀ x s, x ∈ l → I s → body x s = Ok (f x s) ∧ I (f x s)) →
  I s → for_each l body s = Ok (foldl (flip f) s l) ∧ I (foldl (flip f) s l).
Proof.
  revert s. induction l as [|x l IH]; intros s Hb Hs; simpl; [done|].
  destruct (Hb x s) as [-> HI]; [by left|done|]. simpl. apply IH; [|done].
  intros y s' Hy. apply Hb. by right.
Qed.

(** A loop that replaces every element of a list in place. *)
Lemma for_each_in_place {A} (body : nat → list A → res (list A)) (g : nat → A → A) n (l0 : list A) :
  length l0 = n →
  (∀ i b l, l0 !! i = Some b → l !! i = Some b → body i l = Ok (<[i:=g i b]> l)) →
  for_each (range 0 n) body l0 = Ok (imap g l0).
Proof.
  intros <- Hbody. unfold range. rewrite Nat.sub_0_r.
  enough (∀ l2 l1 : list A, (∀ i b, l2 !! i = Some b → l0 !! (length l1 + i)%nat = Some b) →
    for_each (seq (length l1) (length l2)) body (l1 ++ l2)
    = Ok (l1 ++ imap (λ i, g (length l1 + i)%nat) l2)) as Hgen
    by (apply (Hgen l0 []); done).
  induction l2 as [|b l2 IH]; intros l1 Hl; simpl; [done|].
  rewrite (Hbody _ b).
  - simpl. rewrite insert_app_r_alt, Nat.sub_diag by lia. simpl.
    specialize (IH (l1 ++ [g (length l1) b])). rewrite length_app, Nat.add_1_r, <- !(assoc_L (++)) in IH.
    simpl in IH. rewrite IH.
    + f_equal. f_equal. rewrite Nat.add_0_r. f_equal. apply imap_ext. intros i x _. simpl.
      f_equal. lia.
    + intros i x Hx. specialize (Hl (S i) x Hx).
      rewrite <- Hl. f_equal. lia.
  - specialize (Hl 0%nat b eq_refl). by rewrite Nat.add_0_r in Hl.
  - rewrite lookup_app_r, Nat.sub_diag by lia. done.
Qed.

Lemma imap_zip_with {A B} (f : A → B → A) (l : list A) (k : list B) (d : B) :
  (length l ≤ length k)%nat → imap (λ i a, f a (default d (k !! i))) l = zip_with f l k.
Proof.
  revert k. induction l as [|a l IH]; intros [|b k] Hl; simpl in *; try lia; [done..|].
  f_equal. rewrite <- IH by lia. by apply imap_ext.
Qed.

(** ** Automation *)
Create HintDb kernel.
#[export] Hint Resolve wp_ret wp_get wp_put wp_modify : kernel.

(** Splits every monadic bind that is known to have returned. *)
Ltac inv_res :=
  repeat match goal with
  | H : mbind _ _ = Ok _ |- _ => apply bind_Ok_inv in H; destruct H as (? & ? & H)
  | H : Ok _ = Ok _ |- _ => injection H as H
  | H : uadd _ _ = Ok _ |- _ => apply uadd_inv in H; destruct H
  | H : usub _ _ = Ok _ |- _ => apply usub_inv in H; destruct H
  | H : Panic = Ok _ |- _ => discriminate H
  | H : Undef = Ok _ |- _ => discriminate H
  | H : NoFuel = Ok _ |- _ => discriminate H
  end; simplify_eq.

(** One step of a total-correctness proof. *)
Ltac wp_step :=
  first
    [ apply wp_bind
    | apply wp_ret
    | apply wp_get
    | apply wp_put
    | apply wp_modify
    | eapply wp_lift; [by eauto|] ].

(** ** Shared facts on powers of two *)
Lemma pow2_pos (n : nat) : 0 < 2 ^ Z.of_nat n.
Proof. apply Z.pow_pos_nonneg; lia. Qed.
#[export] Hint Resolve pow2_pos : kernel.

Lemma pow2_S (n : nat) : 2 ^ Z.of_nat (S n) = 2 * 2 ^ Z.of_nat n.
Proof. rewrite Nat2Z.inj_succ, Z.pow_succ_r; lia. Qed.

Lemma pow2_lt_mono (m n : nat) : (m < n)%nat → 2 ^ Z.of_nat m < 2 ^ Z.of_nat n.
Proof. intros. apply Z.pow_lt_mono_r; lia. Qed.

Lemma pow2_inj (m n : nat) : 2 ^ Z.of_nat m = 2 ^ Z.of_nat n → m = n.
Proof. intros H. apply Z.pow_inj_r in H; lia. Qed.
