(* ===== verification/Page.v ===== *)
(** * Common definitions of page management (src/src/page.rs)

    The constants of the memory layout, the access modes of a mapping and the
    [PageAllocator] trait.  The trait is a class of operations; what a client
    such as the page-table code may rely on is the class [PageAllocatorLaws],
    which the client's theorems assume and each allocator establishes. *)

From S2P Require Import Prelude.

Definition PAGE_BITS : Z := 12.
Definition VA_BITS : Z := 48.
Definition PAGE_SIZE : Z := Z.shiftl 1 PAGE_BITS.
Definition VIRT_ADDR : Z := 0xffffffc040000000.
Definition PHY_ADDR : Z := 0x40000000.

Inductive PageACL := Read | Write | Execute | User.

#[global] Instance PageACL_eq_dec : EqDecision PageACL.
Proof. solve_decision. Defined.

(** [mode.contains(&acl)]. *)
Definition contains (mode : list PageACL) (acl : PageACL) : bool := bool_decide (acl ∈ mode).

Inductive AllocError := OutOfMemory.

(** [Result<usize, AllocError>]: [inl] is [Ok], [inr] is [Err]. *)
Class PageAllocator (A : Type) := {
  pa_alloc_pages : Z → ST A (Z + AllocError);
  pa_free_pages : Z → Z → ST A unit;
}.

(** What a client of a page allocator relies on.  [pa_ready n a]: [a] can serve
    [n] more requests of one page; [pa_avail a x]: page [x] may still be handed
    out by [a].  A request of one page is served with an available page, which
    is then no longer available, and no page becomes available by allocating. *)
Class PageAllocatorLaws (A : Type) `{!PageAllocator A} := {
  pa_ready : nat → A → Prop;
  pa_avail : A → Z → Prop;
  pa_ready_less : ∀ n a, pa_ready (S n) a → pa_ready n a;
  pa_alloc_one : ∀ n a, pa_ready (S n) a →
    ∃ p a', pa_alloc_pages 1 a = Ok (inl p, a') ∧ pa_ready n a' ∧
      pa_avail a p ∧ ¬ pa_avail a' p ∧ (∀ x, pa_avail a' x → pa_avail a x);
}.
