(* ===== verification/Address.v ===== *)
(** * Virtual and physical addresses and pages (src/src/address.rs)

    The four wrapper types of the source differ only in the offset that a
    conversion adds or subtracts; conversions are the checked additions and
    subtractions of a debug build. *)

From S2P Require Import Prelude Page.

Record VirtualAddress (OFFSET : Z) := mkVA { va_0 : Z }.
Record PhysicalAddress (OFFSET : Z) := mkPA { pa_0 : Z }.
Record VirtualPage (OFFSET : Z) := mkVP { vp_0 : Z }.
Record PhysicalPage (OFFSET : Z) := mkPP { pp_0 : Z }.
Arguments mkVA {OFFSET} _.
Arguments va_0 {OFFSET} _.
Arguments mkPA {OFFSET} _.
Arguments pa_0 {OFFSET} _.
Arguments mkVP {OFFSET} _.
Arguments vp_0 {OFFSET} _.
Arguments mkPP {OFFSET} _.
Arguments pp_0 {OFFSET} _.

Definition VirtualAddress_from {OFFSET} (pa : PhysicalAddress OFFSET) :
    res (VirtualAddress OFFSET) :=
  v ← pa_0 pa +! OFFSET; Ok (mkVA v).
Definition PhysicalAddress_from {OFFSET} (va : VirtualAddress OFFSET) :
    res (PhysicalAddress OFFSET) :=
  p ← va_0 va -! OFFSET; Ok (mkPA p).
Definition VirtualPage_from {OFFSET} (pp : PhysicalPage OFFSET) :
    res (VirtualPage OFFSET) :=
  v ← pp_0 pp +! OFFSET; Ok (mkVP v).
Definition PhysicalPage_from {OFFSET} (vp : VirtualPage OFFSET) :
    res (PhysicalPage OFFSET) :=
  p ← vp_0 vp -! OFFSET; Ok (mkPP p).

Definition ADDR_OFFSET : Z := VIRT_ADDR - PHY_ADDR.
Definition PAGE_OFFSET : Z := Z.shiftr (VIRT_ADDR - PHY_ADDR) PAGE_BITS.

Abbreviation VirtAddr := (VirtualAddress ADDR_OFFSET).
Abbreviation PhysAddr := (PhysicalAddress ADDR_OFFSET).
Abbreviation VirtPage := (VirtualPage PAGE_OFFSET).
Abbreviation PhysPage := (PhysicalPage PAGE_OFFSET).

Lemma VirtualPage_from_Ok (p : Z) :
  p + PAGE_OFFSET < U64 →
  VirtualPage_from (@mkPP PAGE_OFFSET p) = Ok (mkVP (p + PAGE_OFFSET)).
Proof. intros. unfold VirtualPage_from. simpl. by rewrite uadd_Ok. Qed.

Lemma PhysicalPage_from_Ok (v : Z) :
  PAGE_OFFSET ≤ v →
  PhysicalPage_from (@mkVP PAGE_OFFSET v) = Ok (mkPP (v - PAGE_OFFSET)).
Proof. intros. unfold PhysicalPage_from. simpl. by rewrite usub_Ok. Qed.

(** A physical page that has a virtual alias is recovered from it. *)
Lemma page_from_roundtrip OFFSET (p v : Z) :
  0 ≤ p →
  VirtualPage_from (@mkPP OFFSET p) = Ok (mkVP v) →
  PhysicalPage_from (@mkVP OFFSET v) = Ok (mkPP p).
Proof.
  unfold VirtualPage_from, PhysicalPage_from. simpl. intros Hp H. inv_res.
  rewrite usub_Ok by lia. simpl. do 2 f_equal. lia.
Qed.
