(* ===== verification/Bytes.v ===== *)
(** * Bytes and 32-bit words

    Conversions between integers and their little- and big-endian bytes
    ([to_le_bytes], [from_be_bytes] and so on), rotations and wrapping addition
    of [u32], and exclusive or of byte strings.  Shared by the cryptographic
    code, the parsers and the random generator. *)

From S2P Require Import Prelude.

Definition is_byte (b : Z) : Prop := 0 ≤ b < 256.
Definition is_u32 (w : Z) : Prop := 0 ≤ w < U32.
Abbreviation bytes := (Forall is_byte).

#[global] Instance is_byte_dec b : Decision (is_byte b).
Proof. unfold is_byte. apply _. Defined.
#[global] Instance is_u32_dec b : Decision (is_u32 b).
Proof. unfold is_u32. apply _. Defined.

(** ** Integers as bytes *)

Fixpoint to_le_bytes (n : nat) (w : Z) : list Z :=
  match n with
  | O => []
  | S n => w mod 256 :: to_le_bytes n (w / 256)
  end.

Fixpoint from_le_bytes (l : list Z) : Z :=
  match l with
  | [] => 0
  | b :: l => b + 256 * from_le_bytes l
  end.

Definition to_be_bytes (n : nat) (w : Z) : list Z := reverse (to_le_bytes n w).
Definition from_be_bytes (l : list Z) : Z := from_le_bytes (reverse l).

Lemma length_to_le_bytes n w : length (to_le_bytes n w) = n.
Proof. revert w. induction n as [|n IH]; intros w; simpl; [done|]. by rewrite IH. Qed.

Lemma length_to_be_bytes n w : length (to_be_bytes n w) = n.
Proof. unfold to_be_bytes. by rewrite length_reverse, length_to_le_bytes. Qed.

Lemma to_le_bytes_bytes n w : bytes (to_le_bytes n w).
Proof.
  revert w. induction n as [|n IH]; intros w; simpl; constructor; [|done].
  by apply Z.mod_pos_bound.
Qed.

Lemma to_be_bytes_bytes n w : bytes (to_be_bytes n w).
Proof. apply Forall_reverse, to_le_bytes_bytes. Qed.

Lemma from_to_le_bytes n w : 0 ≤ w < 256 ^ Z.of_nat n → from_le_bytes (to_le_bytes n w) = w.
Proof.
  revert w. induction n as [|n IH]; intros w Hw; simpl.
  - simpl in Hw. lia.
  - rewrite Nat2Z.inj_succ, Z.pow_succ_r in Hw by lia. rewrite IH.
    + pose proof (Z.div_mod w 256). lia.
    + split; [apply Z.div_pos; lia|]. apply Z.div_lt_upper_bound; lia.
Qed.

Lemma to_from_le_bytes l : bytes l → to_le_bytes (length l) (from_le_bytes l) = l.
Proof.
  induction 1 as [|b l Hb Hl IH]; simpl; [done|]. unfold is_byte in Hb.
  assert ((b + 256 * from_le_bytes l) mod 256 = b) as ->.
  { rewrite Z.mul_comm, Z_mod_plus_full. by apply Z.mod_small. }
  assert ((b + 256 * from_le_bytes l) / 256 = from_le_bytes l) as ->.
  { rewrite Z.mul_comm, Z.div_add by lia. rewrite Z.div_small by done. lia. }
  by rewrite IH.
Qed.

Lemma from_to_be_bytes n w : 0 ≤ w < 256 ^ Z.of_nat n → from_be_bytes (to_be_bytes n w) = w.
Proof.
  intros Hw. unfold from_be_bytes, to_be_bytes. rewrite reverse_involutive.
  by apply from_to_le_bytes.
Qed.

Lemma from_le_bytes_range l : bytes l → 0 ≤ from_le_bytes l < 256 ^ Z.of_nat (length l).
Proof.
  induction 1 as [|b l Hb Hl IH]; simpl; [lia|]. unfold is_byte in Hb.
  rewrite Nat2Z.inj_succ, Z.pow_succ_r by lia. lia.
Qed.

Lemma from_be_bytes_range l : bytes l → 0 ≤ from_be_bytes l < 256 ^ Z.of_nat (length l).
Proof.
  intros Hl. unfold from_be_bytes. rewrite <- (length_reverse l).
  apply from_le_bytes_range. by apply Forall_reverse.
Qed.

(** ** 32-bit words *)

Definition wrapping_add (a b : Z) : Z := (a + b) mod U32.
Definition wrapping_mul (a b : Z) : Z := (a * b) mod U32.
Definition shl32 (x n : Z) : Z := Z.shiftl x n mod U32.
Definition not32 (x : Z) : Z := U32 - 1 - x.
Definition rotate_left (x n : Z) : Z := Z.lor (shl32 x n) (Z.shiftr x (32 - n)).
Definition rotate_right (x n : Z) : Z := Z.lor (Z.shiftr x n) (shl32 x (32 - n)).

Lemma wrapping_add_u32 a b : is_u32 (wrapping_add a b).
Proof. by apply Z.mod_pos_bound. Qed.

Lemma lt_pow2_bits n x : 0 ≤ n → 0 ≤ x → (∀ i, n ≤ i → Z.testbit x i = false) → x < 2 ^ n.
Proof.
  intros Hn Hx Hb. destruct (Z.lt_ge_cases x (2 ^ n)) as [|Hge]; [done|]. exfalso.
  assert (0 < 2 ^ n) by (by apply Z.pow_pos_nonneg).
  assert (n ≤ Z.log2 x) as Hl by (apply Z.log2_le_pow2; lia).
  specialize (Hb _ Hl). rewrite Z.bit_log2 in Hb by lia. done.
Qed.

Lemma testbit_high n x i : 0 ≤ x < 2 ^ n → n ≤ i → Z.testbit x i = false.
Proof.
  intros Hx Hi. destruct (Z.eq_dec x 0) as [->|Hx0]; [by apply Z.bits_0|].
  apply Z.bits_above_log2; [lia|].
  assert (Z.log2 x < n) by (apply Z.log2_lt_pow2; lia). lia.
Qed.

(** Bitwise operations stay in the width. *)
Lemma lxor_range n a b : 0 ≤ n → 0 ≤ a < 2 ^ n → 0 ≤ b < 2 ^ n → 0 ≤ Z.lxor a b < 2 ^ n.
Proof.
  intros Hn Ha Hb. assert (0 ≤ Z.lxor a b) as H0 by (apply Z.lxor_nonneg; lia).
  split; [done|]. apply lt_pow2_bits; [done..|]. intros i Hi.
  by rewrite Z.lxor_spec, (testbit_high n a), (testbit_high n b).
Qed.

Lemma lor_range n a b : 0 ≤ n → 0 ≤ a < 2 ^ n → 0 ≤ b < 2 ^ n → 0 ≤ Z.lor a b < 2 ^ n.
Proof.
  intros Hn Ha Hb. assert (0 ≤ Z.lor a b) as H0 by (apply Z.lor_nonneg; lia).
  split; [done|]. apply lt_pow2_bits; [done..|]. intros i Hi.
  by rewrite Z.lor_spec, (testbit_high n a), (testbit_high n b).
Qed.

Lemma lxor_byte a b : is_byte a → is_byte b → is_byte (Z.lxor a b).
Proof. apply (lxor_range 8). lia. Qed.

Lemma lxor_u32 a b : is_u32 a → is_u32 b → is_u32 (Z.lxor a b).
Proof. apply (lxor_range 32). lia. Qed.

Lemma shl32_u32 x n : is_u32 (shl32 x n).
Proof. by apply Z.mod_pos_bound. Qed.

Lemma shiftr_range m x n : 0 ≤ n → 0 ≤ x < m → 0 ≤ Z.shiftr x n < m.
Proof.
  intros Hn Hx. rewrite Z.shiftr_div_pow2 by done.
  assert (0 < 2 ^ n) by (by apply Z.pow_pos_nonneg). split; [apply Z.div_pos; lia|].
  apply Z.div_lt_upper_bound; nia.
Qed.

Lemma rotate_left_u32 x n : 0 ≤ n ≤ 32 → is_u32 x → is_u32 (rotate_left x n).
Proof.
  intros Hn Hx. apply (lor_range 32); [lia|apply shl32_u32|].
  apply shiftr_range; [lia|done].
Qed.

Lemma rotate_right_u32 x n : 0 ≤ n ≤ 32 → is_u32 x → is_u32 (rotate_right x n).
Proof.
  intros Hn Hx. apply (lor_range 32); [lia| |apply shl32_u32].
  apply shiftr_range; [lia|done].
Qed.

#[export] Hint Resolve lxor_byte lxor_u32 shl32_u32 wrapping_add_u32 : kernel.

(** ** Exclusive or of byte strings *)

Abbreviation xor_bytes := (zip_with Z.lxor).

Lemma xor_cancel a b : Z.lxor (Z.lxor a b) b = a.
Proof. by rewrite Z.lxor_assoc, Z.lxor_nilpotent, Z.lxor_0_r. Qed.

Lemma xor_bytes_cancel l k :
  (length l ≤ length k)%nat → xor_bytes (xor_bytes l k) k = l.
Proof.
  revert k. induction l as [|a l IH]; intros [|b k] Hlen; simpl in *; try done; try lia.
  rewrite xor_cancel. f_equal. apply IH. lia.
Qed.

Lemma xor_bytes_bytes l k : bytes l → bytes k → bytes (xor_bytes l k).
Proof.
  intros Hl. revert k. induction Hl as [|a l Ha Hl IH]; intros [|b k] Hk; simpl; try constructor.
  - apply list.Forall_cons in Hk as [Hb _]. by apply lxor_byte.
  - apply list.Forall_cons in Hk as [_ Hk]. by apply IH.
Qed.

(** ** Slices *)

(** [slice[a..b].copy_from_slice(src)]. *)
Definition write_slice (l : list Z) (a : nat) (src : list Z) : res (list Z) :=
  if (a + length src <=? length l)%nat
  then Ok (take a l ++ src ++ drop (a + length src) l) else Panic.

(** [&l[..n]] and [&l[n..]] panic when [n] is beyond the end. *)
Definition slice_to (l : list Z) (n : nat) : res (list Z) :=
  if (n <=? length l)%nat then Ok (take n l) else Panic.
Definition slice_from (l : list Z) (n : nat) : res (list Z) :=
  if (n <=? length l)%nat then Ok (drop n l) else Panic.

(** [&l[a..b]] with bounds of type [usize]: an empty range past the end panics as well. *)
Definition slice (l : list Z) (a b : Z) : res (list Z) :=
  if (a <=? b) && (b <=? Z.of_nat (length l))
  then Ok (take (Z.to_nat (b - a)) (drop (Z.to_nat a) l)) else Panic.
(** [&l[n..]] with a bound of type [usize]. *)
Definition slice_tail (l : list Z) (n : Z) : res (list Z) := slice l n (Z.of_nat (length l)).

(** [slice.copy_from_slice(src)] onto a whole slice of length [n]. *)
Definition copy_from_slice (n : nat) (src : list Z) : res (list Z) :=
  if (length src =? n)%nat then Ok src else Panic.

Lemma write_slice_spec pre suf src :
  (length src ≤ length suf)%nat →
  write_slice (pre ++ suf) (length pre) src = Ok (pre ++ src ++ drop (length src) suf).
Proof.
  intros Hl. unfold write_slice. rewrite length_app.
  rewrite (proj2 (Nat.leb_le _ _)) by lia.
  by rewrite take_app_length, drop_app_add.
Qed.

Lemma slice_app pre s suf a b :
  a = Z.of_nat (length pre) → b = a + Z.of_nat (length s) → slice (pre ++ s ++ suf) a b = Ok s.
Proof.
  intros -> ->. unfold slice. rewrite !length_app, (proj2 (Z.leb_le _ _)), (proj2 (Z.leb_le _ _)) by lia.
  simpl. rewrite Nat2Z.id, drop_app_length. replace (Z.to_nat _) with (length s) by lia.
  by rewrite take_app_length.
Qed.

Lemma slice_head s suf b : b = Z.of_nat (length s) → slice (s ++ suf) 0 b = Ok s.
Proof. intros ->. by apply (slice_app [] s suf). Qed.

Lemma slice_tail_app pre suf n : n = Z.of_nat (length pre) → slice_tail (pre ++ suf) n = Ok suf.
Proof.
  intros ->. unfold slice_tail. rewrite <- (app_nil_r suf) at 1.
  apply slice_app; [done|]. rewrite length_app. lia.
Qed.

Lemma slice_Ok_inv l a b s :
  slice l a b = Ok s → a ≤ b ≤ Z.of_nat (length l) ∧ s = take (Z.to_nat (b - a)) (drop (Z.to_nat a) l).
Proof.
  unfold slice. destruct (Z.leb_spec a b); [|done]. destruct (Z.leb_spec b (Z.of_nat (length l))); [|done].
  simpl. intros [= <-]. split; [lia|done].
Qed.

Lemma slice_total l a b : (∃ s, slice l a b = Ok s) ∨ slice l a b = Panic.
Proof. unfold slice. destruct (_ && _); eauto. Qed.

(** The low and the high part of the bytes of an integer. *)
Lemma to_le_bytes_add n m w :
  to_le_bytes (n + m) w = to_le_bytes n w ++ to_le_bytes m (w / 256 ^ Z.of_nat n).
Proof.
  revert w. induction n as [|n IH]; intros w; cbn [to_le_bytes Nat.add app]; [by rewrite Z.div_1_r|].
  rewrite IH, Z.div_div, Nat2Z.inj_succ, Z.pow_succ_r by lia. done.
Qed.

Lemma to_be_bytes_add n m w :
  to_be_bytes (n + m) w = to_be_bytes m (w / 256 ^ Z.of_nat n) ++ to_be_bytes n w.
Proof. unfold to_be_bytes. by rewrite to_le_bytes_add, reverse_app. Qed.

Lemma to_le_bytes_mod n w : to_le_bytes n (w mod 256 ^ Z.of_nat n) = to_le_bytes n w.
Proof.
  revert w. induction n as [|n IH]; intros w; cbn [to_le_bytes]; [done|].
  assert (0 < 256 ^ Z.of_nat n) by (apply Z.pow_pos_nonneg; lia).
  rewrite Nat2Z.inj_succ, Z.pow_succ_r by lia. rewrite Z.rem_mul_r by lia. f_equal.
  - rewrite Z.mul_comm, Z_mod_plus_full. by rewrite Z.mod_mod.
  - rewrite Z.mul_comm, Z.div_add by lia.
    rewrite (Z.div_small (w mod 256)) by (by apply Z.mod_pos_bound). by rewrite Z.add_0_l, IH.
Qed.

Lemma from_to_be_bytes_mod n w : from_be_bytes (to_be_bytes n w) = w mod 256 ^ Z.of_nat n.
Proof.
  unfold from_be_bytes, to_be_bytes. rewrite reverse_involutive, <- to_le_bytes_mod.
  apply from_to_le_bytes. apply Z.mod_pos_bound. apply Z.pow_pos_nonneg; lia.
Qed.
