(* ===== verification/Buddy.v ===== *)
(** * The buddy page allocator (src/src/page/buddy_allocator.rs)

    Free-list nodes live in memory and are linked by raw pointers; the model
    keeps that: [heap] maps the address of a [FreeNode] to its contents, the
    node pool and the per-order lists of a zone are heads of linked lists in it,
    and reading an address that holds no node is [Undef]. *)

From S2P Require Import Prelude Page.

Definition NODE_COMPATIBILITY : nat := 512.
Definition EXT_NODE_COMPATIBILITY : nat := Z.to_nat 8196.
Definition BUDDY_ALLOC_MAX_POW : nat := Z.to_nat (VA_BITS - PAGE_BITS).
Definition MIN_POOL_REMAIN : Z := Z.of_nat BUDDY_ALLOC_MAX_POW.
Definition MEM_ZONES : nat := 16.

(** ** Nodes *)

(** [page_number] is [None] in memory that has not been written yet (the nodes
    of a freshly allocated extended pool). *)
Record FreeNode := mkFreeNode { page_number : option Z; next : option Z }.

Definition FreeNode_default : FreeNode := mkFreeNode (Some 0) None.
Definition FreeNode_new (page : Z) : FreeNode := mkFreeNode (Some page) None.

(** [size_of::<FreeNode>()]: a [usize] and a nullable pointer. *)
Definition FREE_NODE_SIZE : Z := 16.

Abbreviation heap := (gmap Z FreeNode).

Definition node_at (base : Z) (i : nat) : Z := base + FREE_NODE_SIZE * Z.of_nat i.

(** ** The node pool *)

(** [free_nodes] is the address of the array the pool owns. *)
Record FreeNodePool := mkPool {
  free_nodes : Z;
  freenode_remain : Z;
  free_start : option Z;
}.

(** The memory the zone operations work on: the nodes and the pool. *)
Record Nodes := mkNodes { nodes : heap; pool : FreeNodePool }.

Definition set_next (p : Z) (nx : option Z) : ST Nodes unit :=
  s ← get;
  n ← lift (deref (nodes s !! p));
  put (mkNodes (<[p := mkFreeNode (page_number n) nx]> (nodes s)) (pool s)).

Definition write_node (p : Z) (n : FreeNode) : ST Nodes unit :=
  s ← get;
  _ ← lift (deref (nodes s !! p));
  put (mkNodes (<[p := n]> (nodes s)) (pool s)).

Definition read_node (p : Z) : ST Nodes FreeNode :=
  s ← get; lift (deref (nodes s !! p)).

Definition read_page (p : Z) : ST Nodes Z :=
  n ← read_node p; lift (deref (page_number n)).

Definition set_pool (pl : FreeNodePool) : ST Nodes unit :=
  modify (λ s, mkNodes (nodes s) pl).

(** The array of nodes of a pool, each linked to its successor: the loop
    [for i in 0..n - 1] of [init] and the write of the last [next]. *)
Fixpoint link_nodes (base : Z) (i : nat) (n : nat) : ST Nodes unit :=
  match n with
  | O => mret tt
  | S O => set_next (node_at base i) None
  | S n' =>
      _ ← set_next (node_at base i) (Some (node_at base (S i)));
      link_nodes base (S i) n'
  end.

Definition FreeNodePool_init : ST Nodes unit :=
  s ← get;
  _ ← set_pool (mkPool (free_nodes (pool s)) (Z.of_nat NODE_COMPATIBILITY)
                       (Some (free_nodes (pool s))));
  link_nodes (free_nodes (pool s)) 0 NODE_COMPATIBILITY.

Definition alloc_node : ST Nodes Z :=
  s ← get;
  new_node ← lift (unwrap (free_start (pool s)));
  remain ← lift (freenode_remain (pool s) -! 1);
  n ← read_node new_node;
  _ ← set_pool (mkPool (free_nodes (pool s)) remain (next n));
  mret new_node.

Definition recycle_node (node : Z) : ST Nodes unit :=
  s ← get;
  _ ← set_next node (free_start (pool s));
  remain ← lift (freenode_remain (pool s) +! 1);
  set_pool (mkPool (free_nodes (pool s)) remain (Some node)).

(** ** Zones *)

Record MemoryZone := mkZone { base : Z; pages : Z; pows : list (option Z) }.

Definition MemoryZone_default : MemoryZone :=
  mkZone 0 0 (replicate BUDDY_ALLOC_MAX_POW None).

Definition leading_zeros (x : Z) : Z := if x =? 0 then 64 else 63 - Z.log2 x.

Definition floor_to_power_2 (mem_size : Z) : res Z :=
  d ← 64 -! leading_zeros mem_size; d -! 1.

(** [usize::next_power_of_two], which panics when the result does not fit. *)
Definition ceil_to_power_2 (mem_size : Z) : res Z :=
  let p := 2 ^ Z.log2_up mem_size in
  if p <? U64 then Ok p else Panic.

Definition add_node (z : MemoryZone) (pow : nat) (node : FreeNode) : ST Nodes MemoryZone :=
  new_node ← alloc_node;
  head ← lift (index (pows z) pow);
  _ ← write_node new_node (mkFreeNode (page_number node) head);
  pows' ← lift (update (pows z) pow (Some new_node));
  mret (mkZone (base z) (pages z) pows').

Definition new_node (z : MemoryZone) (pow : nat) : ST Nodes (Z * MemoryZone) :=
  head ← lift (index (pows z) pow);
  node ← lift (unwrap head);
  n ← read_node node;
  pows' ← lift (update (pows z) pow (next n));
  mret (node, mkZone (base z) (pages z) pows').

(** The [while pages > 0] loop of [MemoryZone::new]. *)
Fixpoint zone_new_loop (fuel : nat) (z : MemoryZone) (pgs current_ptr : Z) :
    ST Nodes MemoryZone :=
  if pgs <=? 0 then mret z else
  match fuel with
  | O => lift NoFuel
  | S fuel =>
      pow ← lift (floor_to_power_2 pgs);
      z' ← add_node z (Z.to_nat pow) (FreeNode_new current_ptr);
      let node_pages := 2 ^ pow in
      pgs' ← lift (pgs -! node_pages);
      cur' ← lift (current_ptr +! node_pages);
      zone_new_loop fuel z' pgs' cur'
  end.

(** 64 iterations are enough: each one clears the highest bit of [pages]. *)
Definition MemoryZone_new (bs pgs : Z) : ST Nodes MemoryZone :=
  zone_new_loop 64 (mkZone bs pgs (replicate BUDDY_ALLOC_MAX_POW None)) pgs 0.

(** *** Allocation *)

(** [for i in (0..pow).rev()]: hand back the right halves until the block has
    the requested size. *)
Fixpoint split_loop (z : MemoryZone) (pages_count left_start : Z) (i : nat) :
    ST Nodes (option Z * MemoryZone) :=
  match i with
  | O => mret (None, z)
  | S i =>
      right_start ← lift (left_start +! 2 ^ Z.of_nat i);
      z' ← add_node z i (FreeNode_new right_start);
      if pages_count =? 2 ^ Z.of_nat i then
        r ← lift (base z' +! left_start); mret (Some r, z')
      else split_loop z' pages_count left_start i
  end.

(** The loop over the orders, from [pow] on, [n] orders left. *)
Fixpoint alloc_loop (n : nat) (pow : nat) (z : MemoryZone) (pages_count : Z) :
    ST Nodes (option Z * MemoryZone) :=
  match n with
  | O => mret (None, z)
  | S n =>
      start ← lift (index (pows z) pow);
      if bool_decide (is_Some start) && (2 ^ Z.of_nat pow =? pages_count) then
        '(node, z') ← new_node z pow;
        _ ← recycle_node node;
        pg ← read_page node;
        r ← lift (base z' +! pg);
        mret (Some r, z')
      else if bool_decide (is_Some start) && (pages_count <? 2 ^ Z.of_nat pow) then
        '(node, z') ← new_node z pow;
        left_start ← read_page node;
        _ ← recycle_node node;
        '(r, z'') ← split_loop z' pages_count left_start pow;
        match r with
        | Some r => mret (Some r, z'')
        | None => alloc_loop n (S pow) z'' pages_count
        end
      else alloc_loop n (S pow) z pages_count
  end.

Definition zone_alloc_pages (z : MemoryZone) (pages_count : Z) :
    ST Nodes (option Z * MemoryZone) :=
  p ← lift (ceil_to_power_2 pages_count);
  _ ← lift (assert (pages_count =? p));
  alloc_loop BUDDY_ALLOC_MAX_POW 0 z pages_count.

(** *** Freeing *)

(** The test for the partner block: to the right of a left block, to the left
    of a right one. *)
Definition is_partner (left : bool) (page_relative found_pages pn : Z) : res bool :=
  if left then
    e ← page_relative +! found_pages; Ok (e =? pn)
  else
    e ← pn +! found_pages; Ok (e =? page_relative).

(** [while let Some(next) = current.next]: unlink the partner behind [current]. *)
Fixpoint unlink_loop (fuel : nat) (left : bool) (page_relative found_pages : Z)
    (current : Z) : ST Nodes bool :=
  match fuel with
  | O => lift NoFuel
  | S fuel =>
      c ← read_node current;
      match next c with
      | None => mret false
      | Some nx =>
          pn ← read_page nx;
          hit ← lift (is_partner left page_relative found_pages pn);
          if hit : bool then
            n ← read_node nx;
            _ ← set_next current (next n);
            _ ← recycle_node nx;
            mret true
          else unlink_loop fuel left page_relative found_pages nx
      end
  end.

(** Look for the partner of a block at order [pow] whose list starts with
    [head]; when it is there, take it out of the list and recycle its node. *)
Definition take_partner (z : MemoryZone) (pow : nat) (head : Z) (left : bool)
    (page_relative : Z) : ST Nodes (bool * MemoryZone) :=
  let found_pages := 2 ^ Z.of_nat pow in
  pn ← read_page head;
  hit ← lift (is_partner left page_relative found_pages pn);
  if hit : bool then
    n ← read_node head;
    pows' ← lift (update (pows z) pow (next n));
    _ ← recycle_node head;
    mret (true, mkZone (base z) (pages z) pows')
  else
    s ← get;
    found ← unlink_loop (S (size (nodes s))) left page_relative found_pages head;
    mret (found, z).

(** The ['pow_loop] of [free_pages], from order [pow] on, [n] orders left.  It
    yields the zone, [pow_final] and [page_relative]. *)
Fixpoint merge_loop (n : nat) (pow : nat) (z : MemoryZone) (pow_final : nat)
    (page_relative pages_count : Z) : ST Nodes (MemoryZone * nat * Z) :=
  match n with
  | O => mret (z, pow_final, page_relative)
  | S n =>
      head ← lift (index (pows z) pow);
      match head with
      | None => mret (z, pow_final, page_relative)
      | Some current =>
          let left := page_relative mod 2 ^ Z.of_nat (S pow) =? 0 in
          '(found, z') ← take_partner z pow current left page_relative;
          if found : bool then
            page_relative' ←
              lift (if left then Ok page_relative else page_relative -! pages_count);
            merge_loop n (S pow) z' (S pow_final) page_relative' (ushl pages_count 1)
          else merge_loop n (S pow) z' pow_final page_relative pages_count
      end
  end.

(** [for pow in 0..self.pows.len()]: the order of the block, 0 when there is none. *)
Fixpoint find_pow (n : nat) (pow : nat) (pages_count : Z) : nat :=
  match n with
  | O => 0
  | S n => if 2 ^ Z.of_nat pow =? pages_count then pow else find_pow n (S pow) pages_count
  end.

Definition zone_free_pages (z : MemoryZone) (page_start pages_count : Z) :
    ST Nodes MemoryZone :=
  p ← lift (ceil_to_power_2 pages_count);
  _ ← lift (assert (pages_count =? p));
  page_relative ← lift (page_start -! base z);
  let pow_start := find_pow (length (pows z)) 0 pages_count in
  '(z', pow_final, page_relative') ←
    merge_loop (BUDDY_ALLOC_MAX_POW - pow_start) pow_start z pow_start
      page_relative pages_count;
  add_node z' pow_final (FreeNode_new page_relative').

(** ** The allocator *)

(** [extended_pools] is the head of the list of extended pools; [ext_next] holds
    the [next] field of each of them, by address. *)
Record BuddyAllocator := mkBuddy {
  free : Z;
  zones : list MemoryZone;
  zone_num : nat;
  mem : Nodes;
  extended_pools : option Z;
  ext_next : gmap Z (option Z);
}.

(** A zone operation runs on the allocator's nodes. *)
Definition on_nodes {A} (m : ST Nodes A) : ST BuddyAllocator A := λ b,
  '(a, s') ← m (mem b);
  Ok (a, mkBuddy (free b) (zones b) (zone_num b) s' (extended_pools b) (ext_next b)).

Definition set_free (f : Z) : ST BuddyAllocator unit :=
  modify (λ b, mkBuddy f (zones b) (zone_num b) (mem b) (extended_pools b) (ext_next b)).
Definition set_zones (zs : list MemoryZone) (n : nat) : ST BuddyAllocator unit :=
  modify (λ b, mkBuddy (free b) zs n (mem b) (extended_pools b) (ext_next b)).

(** The static allocator before [init]: the pool's array of default nodes lives
    at address [addr]. *)
Definition BuddyAllocator_default (addr : Z) : BuddyAllocator :=
  mkBuddy 0 (replicate MEM_ZONES MemoryZone_default) 0
    (mkNodes
       (list_to_map ((λ i, (node_at addr i, FreeNode_default)) <$> seq 0 NODE_COMPATIBILITY))
       (mkPool addr 0 None))
    None ∅.

Definition buddy_init : ST BuddyAllocator unit := on_nodes FreeNodePool_init.

Definition add_zone (bs pgs : Z) : ST BuddyAllocator unit :=
  z ← on_nodes (MemoryZone_new bs pgs);
  b ← get;
  zs ← lift (update (zones b) (zone_num b) z);
  _ ← set_zones zs (S (zone_num b));
  f ← lift (free b +! pgs);
  set_free f.

(** [size_of::<ExtendedFreeNodePool>()]: the nodes and the [next] pointer. *)
Definition EXT_POOL_SIZE : Z := FREE_NODE_SIZE * Z.of_nat EXT_NODE_COMPATIBILITY + 8.

(** The uninitialised nodes of a fresh extended pool at address [addr]. *)
Definition ext_nodes (addr : Z) : heap :=
  list_to_map ((λ i, (node_at addr i, mkFreeNode None None)) <$> seq 0 EXT_NODE_COMPATIBILITY).

(** [for zone in &mut self.zones[..self.zone_num]] of [alloc_pages]. *)
Fixpoint zones_alloc (zs : list MemoryZone) (pages_count : Z) :
    ST Nodes (option Z * list MemoryZone) :=
  match zs with
  | [] => mret (None, [])
  | z :: zs =>
      '(r, z') ← zone_alloc_pages z pages_count;
      match r with
      | Some p => mret (Some p, z' :: zs)
      | None => '(r', zs') ← zones_alloc zs pages_count; mret (r', z' :: zs')
      end
  end.

(** The slice [self.zones[..self.zone_num]]. *)
Definition live_zones : ST BuddyAllocator (list MemoryZone) :=
  b ← get;
  _ ← lift (assert (bool_decide (zone_num b ≤ length (zones b))%nat));
  mret (take (zone_num b) (zones b)).

Definition set_live_zones (zs : list MemoryZone) : ST BuddyAllocator unit :=
  b ← get; set_zones (zs ++ drop (zone_num b) (zones b)) (zone_num b).

(** [new_extended_pool], with the recursive call to [alloc_pages] as an argument. *)
Definition new_extended_pool (alloc : Z → ST BuddyAllocator (Z + AllocError)) :
    ST BuddyAllocator (unit + AllocError) :=
  b ← get;
  remain ← lift (freenode_remain (pool (mem b)) +! Z.of_nat EXT_NODE_COMPATIBILITY);
  _ ← on_nodes (set_pool (mkPool (free_nodes (pool (mem b))) remain (free_start (pool (mem b)))));
  pgs ← lift (ceil_to_power_2 (div_ceil EXT_POOL_SIZE PAGE_SIZE));
  r ← alloc pgs;
  match r with
  | inr err => mret (inr err)
  | inl page_num =>
      addr ← lift (page_num *! PAGE_SIZE);
      _ ← on_nodes (modify (λ s, mkNodes (ext_nodes addr ∪ nodes s) (pool s)));
      _ ← on_nodes (link_nodes addr 0 EXT_NODE_COMPATIBILITY);
      _ ← modify (λ b, mkBuddy (free b) (zones b) (zone_num b) (mem b)
                         (Some addr) (<[addr := extended_pools b]> (ext_next b)));
      b ← get;
      let pl := pool (mem b) in
      _ ← on_nodes (set_next (node_at addr (EXT_NODE_COMPATIBILITY - 1)) (free_start pl));
      _ ← on_nodes (set_pool (mkPool (free_nodes pl) (freenode_remain pl) (Some (node_at addr 0))));
      mret (inl tt)
  end.

(** The rest of [alloc_pages], once the pool has enough nodes. *)
Definition alloc_from_zones (pages_count : Z) : ST BuddyAllocator (Z + AllocError) :=
  pages_count ← lift (ceil_to_power_2 pages_count);
  live ← live_zones;
  '(r, zs) ← on_nodes (zones_alloc live pages_count);
  _ ← set_live_zones zs;
  match r with
  | Some p =>
      b ← get;
      f ← lift (free b -! pages_count);
      _ ← set_free f;
      mret (inl p)
  | None => mret (inr OutOfMemory)
  end.

(** [alloc_pages] calls [new_extended_pool], which calls [alloc_pages] with the
    node count raised; [fuel] bounds that nesting. *)
Fixpoint alloc_pages_fuel (fuel : nat) (pages_count : Z) :
    ST BuddyAllocator (Z + AllocError) :=
  match fuel with
  | O => lift NoFuel
  | S fuel =>
      b ← get;
      e ← (if freenode_remain (pool (mem b)) <=? MIN_POOL_REMAIN
           then new_extended_pool (alloc_pages_fuel fuel)
           else mret (inl tt));
      match e with
      | inr err => mret (inr err)
      | inl _ => alloc_from_zones pages_count
      end
  end.

(** The nested call finds more than [EXT_NODE_COMPATIBILITY] nodes counted, so it
    does not nest again. *)
Definition alloc_pages (pages_count : Z) : ST BuddyAllocator (Z + AllocError) :=
  alloc_pages_fuel 2 pages_count.

(** [for zone in &mut self.zones[..self.zone_num]] of [free_pages]; the flag says
    whether a zone contains the block. *)
Fixpoint zones_free (zs : list MemoryZone) (page_start pages_count : Z) :
    ST Nodes (bool * list MemoryZone) :=
  match zs with
  | [] => mret (false, [])
  | z :: zs =>
      zend ← lift (base z +! pages z);
      if (base z <=? page_start) && (page_start <? zend) then
        z' ← zone_free_pages z page_start pages_count;
        mret (true, z' :: zs)
      else
        '(r, zs') ← zones_free zs page_start pages_count;
        mret (r, z :: zs')
  end.

Definition free_pages (page_start pages_count : Z) : ST BuddyAllocator unit :=
  pages_count ← lift (ceil_to_power_2 pages_count);
  live ← live_zones;
  '(r, zs) ← on_nodes (zones_free live page_start pages_count);
  _ ← set_live_zones zs;
  if r : bool then
    b ← get;
    f ← lift (free b +! pages_count);
    set_free f
  else mret tt.

#[global] Instance Buddy_PageAllocator : PageAllocator BuddyAllocator := {
  pa_alloc_pages := alloc_pages;
  pa_free_pages := free_pages;
}.

(** [alloc_pages] and [free_pages] of src/src/page.rs, on the allocator behind
    the lock of [BUDDY_ALLOCATOR]. *)
Definition global_alloc_pages (pages_count : Z) : ST BuddyAllocator Z :=
  r ← alloc_pages pages_count;
  lift (match r with inl a => Ok a | inr _ => Panic end).
Definition global_free_pages (pages_start pages_count : Z) : ST BuddyAllocator unit :=
  free_pages pages_start pages_count.

(** The allocator part of [kernel_main] (src/src/main.rs): initialise the pool
    and hand the heap over. *)
Definition buddy_boot (addr heap_start_page mem_pages : Z) : res BuddyAllocator :=
  '(_, b) ← buddy_init (BuddyAllocator_default addr);
  '(_, b) ← add_zone heap_start_page mem_pages b;
  Ok b.
