(* ===== verification/BuddyLists.v ===== *)
(** * Linked lists of free nodes

    What the pointer structures of [Buddy] represent, and what each operation on
    nodes does to the lists it represents.  Every later result on the buddy
    allocator goes through [add_node_rep], [pop_rep] and [take_partner_rep]. *)

From S2P Require Import Prelude Page Buddy.

(** ** Representation *)

(** [chain h hd l]: from [hd] the nodes of [l] are linked in order; each is given
    with its address and its page number. *)
Fixpoint chain (h : heap) (hd : option Z) (l : list (Z * Z)) : Prop :=
  match l with
  | [] => hd = None
  | (p, pg) :: l =>
      hd = Some p ∧ ∃ nx, h !! p = Some (mkFreeNode (Some pg) nx) ∧ chain h nx l
  end.

(** The nodes of the pool: their page numbers do not matter. *)
Fixpoint fchain (h : heap) (hd : option Z) (l : list Z) : Prop :=
  match l with
  | [] => hd = None
  | p :: l => hd = Some p ∧ ∃ pg nx, h !! p = Some (mkFreeNode pg nx) ∧ fchain h nx l
  end.

(** The addresses of the nodes of a zone's lists. *)
Definition owned (Ls : list (list (Z * Z))) : list Z := (concat Ls).*1.

(** [rep d s z Ls F]: the zone [z] holds the lists [Ls] and the pool the nodes [F];
    [d] is by how much the pool's counter exceeds the number of its nodes. *)
Record rep (d : Z) (s : Nodes) (z : MemoryZone) (Ls : list (list (Z * Z)))
    (F : list Z) : Prop := mkRep {
  rep_zone : Forall2 (chain (nodes s)) (pows z) Ls;
  rep_len : length Ls = BUDDY_ALLOC_MAX_POW;
  rep_pool : fchain (nodes s) (free_start (pool s)) F;
  rep_remain : freenode_remain (pool s) = Z.of_nat (length F) + d;
  rep_slack : 0 ≤ d;
  rep_bound : Z.of_nat (length F) + Z.of_nat (length (owned Ls)) + d < U64;
  rep_nodup : NoDup (F ++ owned Ls);
}.

(** Nodes outside [X] are untouched, and the node pool is the same pool. *)
Definition only_touches (X : list Z) (s s' : Nodes) : Prop :=
  (∀ p, p ∉ X → nodes s' !! p = nodes s !! p) ∧
  free_nodes (pool s') = free_nodes (pool s).

Lemma only_touches_refl X s : only_touches X s s.
Proof. done. Qed.

Lemma only_touches_trans X Y s1 s2 s3 :
  only_touches X s1 s2 → only_touches Y s2 s3 → Y ⊆ X → only_touches X s1 s3.
Proof.
  intros [H1 E1] [H2 E2] Hsub. split; [|congruence].
  intros p Hp. rewrite H2 by set_solver. by apply H1.
Qed.

Lemma only_touches_mono X Y s s' :
  only_touches X s s' → X ⊆ Y → only_touches Y s s'.
Proof. intros [H E] Hsub. split; [|done]. intros p Hp. apply H. set_solver. Qed.

(** ** Facts on chains *)

Lemma chain_frame h h' hd l :
  (∀ p, p ∈ l.*1 → h' !! p = h !! p) → chain h hd l → chain h' hd l.
Proof.
  revert hd. induction l as [|[p pg] l IH]; intros hd Hf; [done|].
  intros [-> (nx & Hp & Hl)]. split; [done|]. exists nx. split.
  - rewrite Hf; [done|]. simpl. left.
  - apply IH; [|done]. intros q Hq. apply Hf. simpl. by right.
Qed.

Lemma fchain_frame h h' hd l :
  (∀ p, p ∈ l → h' !! p = h !! p) → fchain h hd l → fchain h' hd l.
Proof.
  revert hd. induction l as [|p l IH]; intros hd Hf; [done|].
  intros [-> (pg & nx & Hp & Hl)]. split; [done|]. exists pg, nx. split.
  - rewrite Hf; [done|]. left.
  - apply IH; [|done]. intros q Hq. apply Hf. by right.
Qed.

Lemma chain_insert h hd l p n :
  p ∉ l.*1 → chain h hd l → chain (<[p:=n]> h) hd l.
Proof.
  intros Hp. apply chain_frame. intros q Hq. apply lookup_insert_ne. set_solver.
Qed.

Lemma fchain_insert h hd l p n :
  p ∉ l → fchain h hd l → fchain (<[p:=n]> h) hd l.
Proof.
  intros Hp. apply fchain_frame. intros q Hq. apply lookup_insert_ne. set_solver.
Qed.

Lemma chain_in_dom h hd l p : chain h hd l → p ∈ l.*1 → p ∈ dom h.
Proof.
  revert hd. induction l as [|[q pg] l IH]; intros hd; [set_solver|].
  intros [-> (nx & Hq & Hl)]. simpl. rewrite elem_of_cons.
  intros [->|Hp]; [|by eapply IH]. apply elem_of_dom. by eexists.
Qed.

Lemma chain_length h hd l : chain h hd l → NoDup l.*1 → (length l ≤ size h)%nat.
Proof.
  intros Hc Hnd.
  rewrite <- (length_fmap fst l), <- (size_list_to_set (C:=gset Z) (l.*1)) by done.
  rewrite <- (size_dom (D:=gset Z) h). apply subseteq_size.
  intros p. rewrite elem_of_list_to_set. by apply chain_in_dom with hd.
Qed.

(** ** Lists of lists *)

Lemma concat_insert {A} (Ls : list (list A)) i l l' :
  Ls !! i = Some l → l ++ concat (<[i:=l']> Ls) ≡ₚ l' ++ concat Ls.
Proof.
  revert i. induction Ls as [|l0 Ls IH]; intros [|i] Hi; simplify_eq/=.
  - solve_Permutation.
  - specialize (IH _ Hi). rewrite !(Permutation_app_swap_app _ l0). by rewrite IH.
Qed.

Lemma owned_insert Ls i l l' :
  Ls !! i = Some l → l.*1 ++ owned (<[i:=l']> Ls) ≡ₚ l'.*1 ++ owned Ls.
Proof.
  intros Hi. unfold owned. rewrite <- !fmap_app. apply fmap_Permutation.
  by apply concat_insert.
Qed.

Lemma owned_lookup Ls i l p : Ls !! i = Some l → p ∈ l.*1 → p ∈ owned Ls.
Proof.
  intros Hi Hp. unfold owned. apply list_elem_of_fmap in Hp as ([q pg] & -> & Hq).
  apply list_elem_of_fmap. exists (q, pg). split; [done|].
  apply list_elem_of_In, in_concat. exists l. rewrite <- !list_elem_of_In.
  split; [|done]. by eapply list_elem_of_lookup_2.
Qed.

Lemma owned_push Ls i l p pg :
  Ls !! i = Some l → owned (<[i:=(p, pg) :: l]> Ls) ≡ₚ p :: owned Ls.
Proof.
  intros Hi. apply (Permutation_app_inv_l l.*1).
  rewrite (owned_insert _ _ _ _ Hi). simpl. solve_Permutation.
Qed.

Lemma owned_remove Ls i l1 l2 p pg :
  Ls !! i = Some (l1 ++ (p, pg) :: l2) →
  p :: owned (<[i:=l1 ++ l2]> Ls) ≡ₚ owned Ls.
Proof.
  intros Hi. apply (Permutation_app_inv_l (l1 ++ l2).*1).
  rewrite <- (owned_insert _ _ _ (l1 ++ l2) Hi), !fmap_app. simpl. solve_Permutation.
Qed.

Lemma owned_perm Ls i l :
  Ls !! i = Some l → owned Ls ≡ₚ l.*1 ++ owned (<[i:=[]]> Ls).
Proof. intros Hi. by rewrite (owned_insert _ _ _ [] Hi). Qed.

Lemma owned_nodup_lookup Ls i l :
  NoDup (owned Ls) → Ls !! i = Some l → NoDup l.*1.
Proof.
  intros Hnd Hi. rewrite (owned_perm _ _ _ Hi) in Hnd.
  by apply list.NoDup_app in Hnd as (? & _ & _).
Qed.

Lemma owned_disjoint Ls i j l l' p :
  NoDup (owned Ls) → Ls !! i = Some l → Ls !! j = Some l' → i ≠ j →
  p ∈ l.*1 → p ∉ l'.*1.
Proof.
  intros Hnd Hi Hj Hij Hp Hp'. rewrite (owned_perm _ _ _ Hi) in Hnd.
  apply list.NoDup_app in Hnd as (_ & Hd & _). apply (Hd p Hp).
  eapply owned_lookup; [|done]. by rewrite list_lookup_insert_ne.
Qed.

Lemma zone_frame h h' ps Ls :
  (∀ p, p ∈ owned Ls → h' !! p = h !! p) →
  Forall2 (chain h) ps Ls → Forall2 (chain h') ps Ls.
Proof.
  intros Hf Hz. apply Forall2_same_length_lookup_2; [by eapply Forall2_length|].
  intros i hd l Hhd Hl. apply chain_frame with h.
  - intros p Hp. apply Hf. by eapply owned_lookup.
  - by eapply Forall2_lookup_lr.
Qed.

Lemma zone_insert h ps Ls p n :
  p ∉ owned Ls → Forall2 (chain h) ps Ls → Forall2 (chain (<[p:=n]> h)) ps Ls.
Proof.
  intros Hp. apply zone_frame. intros q Hq. apply lookup_insert_ne. set_solver.
Qed.

(** ** Primitive steps *)

Lemma read_node_run s p n : nodes s !! p = Some n → read_node p s = Ok (n, s).
Proof.
  intros Hp. unfold read_node, mbind, st_bind, get, lift. simpl. by rewrite Hp.
Qed.

Lemma read_page_run s p pg nx :
  nodes s !! p = Some (mkFreeNode (Some pg) nx) → read_page p s = Ok (pg, s).
Proof.
  intros Hp. unfold read_page. unfold mbind, st_bind.
  by rewrite (read_node_run _ _ _ Hp).
Qed.

Lemma set_next_run s p n nx :
  nodes s !! p = Some n →
  set_next p nx s = Ok (tt, mkNodes (<[p:=mkFreeNode (page_number n) nx]> (nodes s)) (pool s)).
Proof.
  intros Hp. unfold set_next, mbind, st_bind, get, lift, put. simpl. by rewrite Hp.
Qed.

Lemma write_node_run s p n n' :
  nodes s !! p = Some n →
  write_node p n' s = Ok (tt, mkNodes (<[p:=n']> (nodes s)) (pool s)).
Proof.
  intros Hp. unfold write_node, mbind, st_bind, get, lift, put. simpl. by rewrite Hp.
Qed.

Lemma alloc_node_run s f n :
  free_start (pool s) = Some f → nodes s !! f = Some n →
  1 ≤ freenode_remain (pool s) →
  alloc_node s = Ok (f, mkNodes (nodes s)
    (mkPool (free_nodes (pool s)) (freenode_remain (pool s) - 1) (next n))).
Proof.
  intros Hf Hn Hr. unfold alloc_node, mbind, st_bind, get, lift. simpl.
  rewrite Hf. simpl. rewrite usub_Ok by done. simpl.
  by rewrite (read_node_run _ _ _ Hn).
Qed.

Lemma recycle_node_run s p n :
  nodes s !! p = Some n → freenode_remain (pool s) + 1 < U64 →
  recycle_node p s = Ok (tt, mkNodes
    (<[p:=mkFreeNode (page_number n) (free_start (pool s))]> (nodes s))
    (mkPool (free_nodes (pool s)) (freenode_remain (pool s) + 1) (Some p))).
Proof.
  intros Hp Hr. unfold recycle_node, mbind, st_bind, get. simpl.
  rewrite (set_next_run _ _ _ _ Hp). simpl. unfold lift. rewrite uadd_Ok by done.
  done.
Qed.

(** ** Adding a block to a list *)

Lemma add_node_rep d s z Ls f F pow l pg :
  rep d s z Ls (f :: F) → Ls !! pow = Some l →
  wp (add_node z pow (FreeNode_new pg)) s (λ z' s',
    rep d s' z' (<[pow:=(f, pg) :: l]> Ls) F ∧
    base z' = base z ∧ pages z' = pages z ∧ only_touches [f] s s').
Proof.
  intros [Hz Hlen [Hfs (pgf & nx & Hf & HF)] Hrem Hd Hb Hnd] Hl.
  destruct (Forall2_lookup_r _ _ _ _ _ Hz Hl) as (hd & Hhd & Hc).
  assert (Hpow : (pow < length (pows z))%nat) by (by eapply lookup_lt_Some).
  simpl in Hnd. apply list.NoDup_cons in Hnd as [HfF Hnd].
  rewrite elem_of_app in HfF.
  pose proof (owned_push Ls pow l f pg Hl) as Hown.
  unfold wp, add_node, mbind, st_bind.
  rewrite (alloc_node_run s f (mkFreeNode pgf nx)) by (simpl in *; done || lia).
  simpl. rewrite (index_Ok _ _ _ Hhd). simpl.
  rewrite (write_node_run _ f (mkFreeNode pgf nx)) by done. simpl.
  rewrite update_Ok by done. simpl.
  split; [constructor; simpl|split_and!; [done..|]].
  - apply Forall2_insert; [by apply zone_insert; [tauto|]|].
    split; [done|]. exists hd. rewrite lookup_insert_eq. split; [done|].
    apply chain_insert; [|done]. intros Hin. apply HfF. right.
    by eapply owned_lookup.
  - by rewrite length_insert.
  - apply fchain_insert; [tauto|done].
  - simpl in Hrem. lia.
  - done.
  - rewrite (Permutation_length Hown). simpl in *. lia.
  - rewrite Hown, <- Permutation_middle. apply NoDup_cons_2; [set_solver|done].
  - split; [|done]. intros p Hp. simpl. rewrite lookup_insert_ne; set_solver.
Qed.

(** ** Taking a block out of a list *)

(** [recycle_node] on a node that is in no list puts it in front of the pool. *)
Lemma recycle_rep d s z Ls F p n :
  nodes s !! p = Some n → p ∉ F ++ owned Ls →
  Z.of_nat (length F) + Z.of_nat (length (owned Ls)) + d + 1 < U64 →
  rep d s z Ls F →
  wp (recycle_node p) s (λ _ s',
    rep d s' z Ls (p :: F) ∧ only_touches [p] s s' ∧
    nodes s' !! p = Some (mkFreeNode (page_number n) (free_start (pool s)))).
Proof.
  intros Hp Hnotin Hbd [Hz Hlen HF Hrem Hd Hb Hnd].
  rewrite not_elem_of_app in Hnotin. destruct Hnotin as [HnF Hno].
  unfold wp. rewrite (recycle_node_run _ _ _ Hp) by lia.
  split_and!; simpl; [constructor; simpl| |by rewrite lookup_insert_eq].
  - by apply zone_insert.
  - done.
  - split; [done|]. do 2 eexists. rewrite lookup_insert_eq. split; [done|].
    by apply fchain_insert.
  - lia.
  - done.
  - lia.
  - apply NoDup_cons_2; [set_solver|done].
  - split; [|done]. intros q Hq. simpl. rewrite lookup_insert_ne; set_solver.
Qed.

(** [new_node] unlinks the first node of a list; the node is then in no list. *)
Lemma new_node_rep d s z Ls F pow p pg l :
  rep d s z Ls F → Ls !! pow = Some ((p, pg) :: l) →
  wp (new_node z pow) s (λ r s', s' = s ∧ r.1 = p ∧
    rep d s r.2 (<[pow:=l]> Ls) F ∧ base r.2 = base z ∧ pages r.2 = pages z ∧
    (∃ nx, nodes s !! p = Some (mkFreeNode (Some pg) nx)) ∧
    p ∉ F ++ owned (<[pow:=l]> Ls) ∧
    Z.of_nat (length F) + Z.of_nat (length (owned (<[pow:=l]> Ls))) + d + 1 < U64).
Proof.
  intros [Hz Hlen HF Hrem Hd Hb Hnd] Hl.
  destruct (Forall2_lookup_r _ _ _ _ _ Hz Hl) as (hd & Hhd & -> & nx & Hp & Hc).
  assert (Hpow : (pow < length (pows z))%nat) by (by eapply lookup_lt_Some).
  pose proof (owned_remove Ls pow [] l p pg Hl) as Hown. simpl in Hown.
  rewrite <- Hown, <- Permutation_middle in Hnd.
  apply list.NoDup_cons in Hnd as [Hpn Hnd].
  rewrite <- Hown in Hb. simpl in Hb.
  unfold wp, new_node, mbind, st_bind, lift. simpl.
  rewrite (index_Ok _ _ _ Hhd). simpl.
  rewrite (read_node_run _ _ _ Hp). simpl. rewrite update_Ok by done. simpl.
  split_and!; try done; [constructor; simpl| |].
  - by apply Forall2_insert.
  - by rewrite length_insert.
  - done.
  - done.
  - done.
  - lia.
  - done.
  - by eexists.
  - lia.
Qed.

(** ** Unlinking the partner block *)

Lemma chain_split h hd pre c pg rest :
  chain h hd (pre ++ (c, pg) :: rest) →
  ∃ nx, h !! c = Some (mkFreeNode (Some pg) nx) ∧ chain h nx rest.
Proof.
  revert hd. induction pre as [|[p pg'] pre IH]; intros hd.
  - intros [_ H]. exact H.
  - intros [_ (nx & _ & H)]. by apply IH with nx.
Qed.

Lemma chain_set_next h hd pre c pg rest nx' rest' :
  c ∉ pre.*1 → c ∉ rest'.*1 →
  chain h hd (pre ++ (c, pg) :: rest) → chain h nx' rest' →
  chain (<[c:=mkFreeNode (Some pg) nx']> h) hd (pre ++ (c, pg) :: rest').
Proof.
  intros Hpre Hrest. revert hd. induction pre as [|[p pg'] pre IH]; intros hd.
  - intros [-> _] Hc. split; [done|]. exists nx'. rewrite lookup_insert_eq.
    split; [done|]. by apply chain_insert.
  - intros [-> (nx & Hp & H)] Hc. simpl in Hpre. split; [done|].
    exists nx. rewrite lookup_insert_ne by set_solver. split; [done|].
    apply IH; [set_solver|done..].
Qed.

(** Where the partner of a block starts. *)
Definition partner (left : bool) (page_relative found_pages : Z) : Z :=
  if left then page_relative + found_pages else page_relative - found_pages.

(** The partner test does not overflow. *)
Definition no_overflow (left : bool) (page_relative found_pages : Z) (l : list (Z * Z)) : Prop :=
  page_relative + found_pages < U64 ∧ Forall (λ x, x.2 + found_pages < U64) l.

Lemma is_partner_run left pr fp pn :
  pr + fp < U64 → pn + fp < U64 →
  is_partner left pr fp pn = Ok (pn =? partner left pr fp).
Proof.
  intros H1 H2. unfold is_partner, partner. destruct left; simpl.
  - rewrite uadd_Ok by done. simpl. f_equal. by rewrite Z.eqb_sym.
  - rewrite uadd_Ok by done. simpl. f_equal.
    destruct (Z.eqb_spec (pn + fp) pr), (Z.eqb_spec pn (pr - fp)); done || lia.
Qed.

(** The block behind [c] is taken out of a list and its node recycled. *)
Lemma unlink_rep d s z Ls F pow pre c pgc p pg rest nxc :
  rep d s z Ls F → Ls !! pow = Some (pre ++ (c, pgc) :: (p, pg) :: rest) →
  nodes s !! p = Some (mkFreeNode (Some pg) nxc) →
  wp (_ ← set_next c nxc; recycle_node p) s (λ _ s',
    rep d s' z (<[pow:=pre ++ (c, pgc) :: rest]> Ls) (p :: F) ∧
    only_touches (owned Ls) s s').
Proof.
  intros [Hz Hlen HF Hrem Hd Hb Hnd] Hl Hp.
  destruct (Forall2_lookup_r _ _ _ _ _ Hz Hl) as (hd & Hhd & Hc).
  pose proof (chain_split _ _ _ _ _ _ Hc) as (nx0 & Hcn & [-> (nx & Hp' & Hrest)]).
  rewrite Hp in Hp'. injection Hp' as <-.
  assert (Hl' : Ls !! pow = Some ((pre ++ [(c, pgc)]) ++ (p, pg) :: rest)).
  { rewrite Hl. by rewrite <- app_assoc. }
  pose proof (owned_remove _ _ _ _ _ _ Hl') as Hown.
  rewrite <- app_assoc in Hown. simpl in Hown.
  set (Ls' := <[pow:=pre ++ (c, pgc) :: rest]> Ls) in *.
  assert (HLs' : Ls' !! pow = Some (pre ++ (c, pgc) :: rest)).
  { apply list_lookup_insert_eq. by eapply lookup_lt_Some. }
  assert (Hcin : c ∈ (pre ++ (c, pgc) :: rest).*1) by (rewrite fmap_app; set_solver).
  assert (Hnd' : NoDup (p :: F ++ owned Ls')) by (by rewrite Permutation_middle, Hown).
  apply list.NoDup_cons in Hnd' as [HpF Hnd'].
  apply list.NoDup_app in Hnd' as Hnd2. destruct Hnd2 as (_ & HFo & Hndo).
  pose proof (owned_nodup_lookup _ _ _ Hndo HLs') as Hndl.
  rewrite fmap_app in Hndl. simpl in Hndl.
  apply list.NoDup_app in Hndl as (_ & Hpre & Hrest').
  apply list.NoDup_cons in Hrest' as [Hrest' _].
  pose proof (Permutation_length Hown) as Hlo. simpl in Hlo.
  assert (Hco : c ∈ owned Ls') by (by eapply owned_lookup).
  assert (Hpc : p ≠ c) by (intros ->; set_solver).
  apply wp_bind. unfold wp at 1. rewrite (set_next_run _ _ _ _ Hcn). simpl.
  eapply wp_mono; [eapply (recycle_rep d _ z Ls' F p (mkFreeNode (Some pg) nxc))|].
  - simpl. by rewrite lookup_insert_ne.
  - done.
  - lia.
  - constructor; simpl; [|by unfold Ls'; rewrite length_insert| |done|done|lia|done].
    + apply Forall2_same_length_lookup_2.
      { unfold Ls'. rewrite length_insert. by eapply Forall2_length. }
      intros i hd' l' Hhd' Hl''. destruct (decide (i = pow)) as [->|Hi].
      * simplify_eq. eapply chain_set_next; [set_solver|done|done|done].
      * apply chain_insert; [by apply (owned_disjoint Ls' pow i _ l' c Hndo HLs' Hl'')|].
        eapply Forall2_lookup_lr; [exact Hz|done|].
        by unfold Ls' in Hl''; rewrite list_lookup_insert_ne in Hl''.
    + apply fchain_insert; [|done]. intros HcF. by apply (HFo c).
  - intros _ s' (Hrep & [Ht Hfn] & _). split; [done|]. split; [|done].
    intros q Hq. rewrite Ht.
    + simpl. apply lookup_insert_ne. intros ->. apply Hq. rewrite <- Hown. by right.
    + rewrite <- Hown in Hq. set_solver.
Qed.

Lemma unlink_loop_rep d s z Ls F pow left pr fuel rest pre c pgc :
  let fp := 2 ^ Z.of_nat pow in
  rep d s z Ls F → Ls !! pow = Some (pre ++ (c, pgc) :: rest) →
  no_overflow left pr fp rest → (length rest < fuel)%nat →
  wp (unlink_loop fuel left pr fp c) s (λ found s',
    if found : bool then
      ∃ l1 p l2, rest = l1 ++ (p, partner left pr fp) :: l2 ∧
        rep d s' z (<[pow:=pre ++ (c, pgc) :: l1 ++ l2]> Ls) (p :: F) ∧
        only_touches (owned Ls) s s'
    else s' = s ∧ partner left pr fp ∉ rest.*2).
Proof.
  intros fp Hrep. revert pre c pgc fuel.
  induction rest as [|[p pg] rest IH]; intros pre c pgc fuel Hl [Hov1 Hov2] Hfuel;
    (destruct fuel as [|fuel]; [simpl in Hfuel; lia|]).
  all: destruct (Forall2_lookup_r _ _ _ _ _ (rep_zone _ _ _ _ _ Hrep) Hl) as (hd & Hhd & Hc);
    pose proof (chain_split _ _ _ _ _ _ Hc) as (nx & Hcn & Hrest).
  - simpl in Hrest. subst nx. apply wp_bind. unfold wp at 1.
    rewrite (read_node_run _ _ _ Hcn). simpl. apply wp_ret. split; [done|set_solver].
  - destruct Hrest as [-> (nxp & Hp & Hrest)].
    apply list.Forall_cons in Hov2 as [Hpg Hov2]. simpl in Hpg.
    apply wp_bind. unfold wp at 1. rewrite (read_node_run _ _ _ Hcn). simpl.
    apply wp_bind. unfold wp at 1. rewrite (read_page_run _ _ _ _ Hp).
    apply wp_bind. unfold wp at 1, lift. rewrite is_partner_run by done. simpl.
    destruct (Z.eqb_spec pg (partner left pr fp)) as [->|Hne].
    + apply wp_bind. unfold wp at 1. rewrite (read_node_run _ _ _ Hp). simpl.
      pose proof (unlink_rep _ _ _ _ _ _ _ _ _ _ _ _ _ Hrep Hl Hp) as Hu.
      unfold wp in Hu |- *. unfold mbind, st_bind in Hu |- *.
      destruct (set_next c nxp s) as [[[] s1]| | |]; simpl in *; try done.
      destruct (recycle_node p s1) as [[[] s2]| | |]; simpl in *; try done.
      exists [], p, rest. split; [done|]. exact Hu.
    + eapply wp_mono.
      { apply (IH (pre ++ [(c, pgc)]) p pg fuel).
        - by rewrite <- app_assoc.
        - done.
        - simpl in Hfuel. lia. }
      intros [] s'; simpl.
      * intros (l1 & p' & l2 & -> & Hr & Ht). exists ((p, pg) :: l1), p', l2.
        split; [done|]. rewrite <- app_assoc in Hr. done.
      * intros [-> Hni]. split; [done|]. set_solver.
Qed.

#[local] Arguments unlink_loop : simpl never.

(** [take_partner] removes the first block that starts at the partner's page, if
    there is one, and otherwise changes nothing. *)
Lemma take_partner_rep d s z Ls F pow left pr head pg l :
  let fp := 2 ^ Z.of_nat pow in
  rep d s z Ls F → Ls !! pow = Some ((head, pg) :: l) →
  no_overflow left pr fp ((head, pg) :: l) →
  wp (take_partner z pow head left pr) s (λ r s',
    base r.2 = base z ∧ pages r.2 = pages z ∧
    if r.1 : bool then
      ∃ l1 p l2, (head, pg) :: l = l1 ++ (p, partner left pr fp) :: l2 ∧
        rep d s' r.2 (<[pow:=l1 ++ l2]> Ls) (p :: F) ∧ only_touches (owned Ls) s s'
    else s' = s ∧ r.2 = z ∧ partner left pr fp ∉ ((head, pg) :: l).*2).
Proof.
  intros fp Hrep Hl [Hov1 Hov2]. pose proof Hrep as [Hz _ _ _ _ _ Hnd].
  destruct (Forall2_lookup_r _ _ _ _ _ Hz Hl) as (hd & Hhd & Hc).
  pose proof Hc as [-> (nx & Hp & Hrest)].
  apply list.Forall_cons in Hov2 as [Hpg Hov2]. simpl in Hpg.
  unfold take_partner. apply wp_bind. unfold wp at 1.
  rewrite (read_page_run _ _ _ _ Hp).
  apply wp_bind. unfold wp at 1, lift. rewrite is_partner_run by done. simpl.
  destruct (Z.eqb_spec pg (partner left pr (2 ^ Z.of_nat pow))) as [->|Hne].
  - apply wp_bind. unfold wp at 1. rewrite (read_node_run _ _ _ Hp).
    apply wp_bind. unfold wp at 1, lift. rewrite update_Ok; [simpl|by eapply lookup_lt_Some].
    pose proof (new_node_rep _ _ _ _ _ _ _ _ _ Hrep Hl) as Hn.
    unfold wp, new_node, mbind, st_bind, lift in Hn. simpl in Hn.
    rewrite (index_Ok _ _ _ Hhd) in Hn. simpl in Hn.
    rewrite (read_node_run _ _ _ Hp) in Hn. simpl in Hn.
    rewrite update_Ok in Hn; [simpl in Hn|by eapply lookup_lt_Some].
    destruct Hn as (_ & _ & Hr & _ & _ & _ & Hni & Hbd).
    apply wp_bind. eapply wp_mono; [by eapply (recycle_rep _ _ _ _ _ _ _ Hp Hni)|].
    intros _ s' (Hr' & Ht & _). apply wp_ret. simpl. split_and!; [done..|].
    exists [], head, l. split_and!; [done..|].
    eapply only_touches_mono; [exact Ht|]. intros q Hq.
    apply list_elem_of_singleton in Hq as ->. eapply owned_lookup; [done|]. left.
  - apply wp_bind, wp_get. apply wp_bind. eapply wp_mono.
    { apply (unlink_loop_rep d s z Ls F pow left pr _ l [] head pg); [done..|].
      pose proof (chain_length _ _ _ Hc) as Hlen. simpl in Hlen.
      apply list.NoDup_app in Hnd as (_ & _ & Hnd).
      specialize (Hlen (owned_nodup_lookup _ _ _ Hnd Hl)). lia. }
    intros [] s'; simpl.
    + intros (l1 & p & l2 & -> & Hr & Ht). apply wp_ret. simpl. split_and!; [done..|].
      exists ((head, pg) :: l1), p, l2. done.
    + intros [-> Hni]. apply wp_ret. simpl. split_and!; [done..|]. set_solver.
Qed.
