(* ===== verification/BuddyZone.v ===== *)
(** * One memory zone: what allocation and freeing do to its free pages

    The free blocks of a zone are measured by functions that are additive under
    splitting a block into its halves.  Two measures matter: [cover x] counts the
    free blocks that contain page [x], and [block_pages] counts pages.  Stating
    the effect of an operation on every additive measure gives both the
    disjointness of the free blocks and the page count at once. *)

From S2P Require Import Prelude Page Buddy BuddyLists.

(** ** Additive measures of blocks *)

Class Additive (μ : nat → Z → Z) : Prop :=
  additive : ∀ i p, μ (S i) p = μ i p + μ i (p + 2 ^ Z.of_nat i).

Definition in_block (i : nat) (p x : Z) : bool := (p <=? x) && (x <? p + 2 ^ Z.of_nat i).

(** 1 when page [x] is in the block of order [i] that starts at [p], else 0. *)
Definition cover (x : Z) (i : nat) (p : Z) : Z := Z.b2z (in_block i p x).

Definition block_pages (i : nat) (p : Z) : Z := 2 ^ Z.of_nat i.

#[global] Instance cover_additive x : Additive (cover x).
Proof.
  intros i p. unfold cover, in_block. rewrite pow2_S. pose proof (pow2_pos i).
  destruct (Z.leb_spec p x), (Z.leb_spec (p + 2 ^ Z.of_nat i) x),
    (Z.ltb_spec x (p + 2 * 2 ^ Z.of_nat i)), (Z.ltb_spec x (p + 2 ^ Z.of_nat i)),
    (Z.ltb_spec x (p + 2 ^ Z.of_nat i + 2 ^ Z.of_nat i)); simpl; lia.
Qed.

#[global] Instance block_pages_additive : Additive block_pages.
Proof. intros i p. unfold block_pages. rewrite pow2_S. lia. Qed.

Lemma cover_range x i p : 0 ≤ cover x i p ≤ 1.
Proof. unfold cover. destruct (in_block i p x); simpl; lia. Qed.

Fixpoint lsum (f : Z → Z) (l : list (Z * Z)) : Z :=
  match l with
  | [] => 0
  | (_, pg) :: l => f pg + lsum f l
  end.

Fixpoint msum_from (μ : nat → Z → Z) (i : nat) (Ls : list (list (Z * Z))) : Z :=
  match Ls with
  | [] => 0
  | l :: Ls => lsum (μ i) l + msum_from μ (S i) Ls
  end.

(** The total measure of the free blocks of a zone. *)
Definition msum (μ : nat → Z → Z) (Ls : list (list (Z * Z))) : Z := msum_from μ 0 Ls.

Lemma lsum_app f l1 l2 : lsum f (l1 ++ l2) = lsum f l1 + lsum f l2.
Proof. induction l1 as [|[p pg] l1 IH]; simpl; lia. Qed.

Lemma lsum_nonneg f l : (∀ p, 0 ≤ f p) → 0 ≤ lsum f l.
Proof. intros Hf. induction l as [|[p pg] l IH]; simpl; [lia|]. specialize (Hf pg). lia. Qed.

Lemma msum_from_insert μ j Ls i l l' :
  Ls !! i = Some l →
  msum_from μ j (<[i:=l']> Ls) + lsum (μ (j + i)%nat) l
  = msum_from μ j Ls + lsum (μ (j + i)%nat) l'.
Proof.
  revert i j. induction Ls as [|l0 Ls IH]; intros [|i] j Hi; simplify_eq/=.
  - rewrite Nat.add_0_r. lia.
  - specialize (IH i (S j) Hi). rewrite !Nat.add_succ_comm in IH. lia.
Qed.

Lemma msum_insert μ Ls i l l' :
  Ls !! i = Some l →
  msum μ (<[i:=l']> Ls) + lsum (μ i) l = msum μ Ls + lsum (μ i) l'.
Proof. apply msum_from_insert. Qed.

Lemma msum_from_nonneg μ i Ls : (∀ i p, 0 ≤ μ i p) → 0 ≤ msum_from μ i Ls.
Proof.
  intros Hμ. revert i. induction Ls as [|l Ls IH]; intros i; simpl; [lia|].
  pose proof (lsum_nonneg (μ i) l (Hμ i)). specialize (IH (S i)). lia.
Qed.

Lemma msum_nonneg μ Ls : (∀ i p, 0 ≤ μ i p) → 0 ≤ msum μ Ls.
Proof. apply msum_from_nonneg. Qed.

(** ** Well-formed blocks *)

(** Every free block lies in [0, n) and is aligned to its size. *)
Definition block_ok (n : Z) (i : nat) (p : Z) : Prop :=
  0 ≤ p ∧ p + 2 ^ Z.of_nat i ≤ n ∧ (2 ^ Z.of_nat i | p).

Definition blocks_ok (n : Z) (Ls : list (list (Z * Z))) : Prop :=
  ∀ i l p, Ls !! i = Some l → p ∈ l.*2 → block_ok n i p.

Lemma blocks_ok_insert n Ls i l' :
  blocks_ok n Ls → (∀ p, p ∈ l'.*2 → block_ok n i p) → blocks_ok n (<[i:=l']> Ls).
Proof.
  intros Hb Hl' j l p Hj Hp. destruct (decide (i = j)) as [->|Hne].
  - assert ((j < length Ls)%nat) as Hlt.
    { rewrite <- (length_insert Ls j l'). by eapply lookup_lt_Some. }
    rewrite list_lookup_insert_eq in Hj by done. injection Hj as <-. by apply Hl'.
  - rewrite list_lookup_insert_ne in Hj by done. by eapply Hb.
Qed.

(** The page numbers of a zone are machine integers. *)
Definition zone_fits (z : MemoryZone) : Prop :=
  0 ≤ base z ∧ base z + pages z < U64.

(** ** Steps of a zone *)

(** How a zone and the nodes it shares with the pool may change: nodes move
    between the pool and the zone's lists, and nothing else is written. *)
Record evolves (d : Z) (s : Nodes) (z : MemoryZone) (Ls : list (list (Z * Z)))
    (F : list Z) (s' : Nodes) (z' : MemoryZone) (Ls' : list (list (Z * Z)))
    (F' : list Z) : Prop := mkEvolves {
  ev_rep : rep d s' z' Ls' F';
  ev_base : base z' = base z;
  ev_pages : pages z' = pages z;
  ev_nodes : F' ++ owned Ls' ≡ₚ F ++ owned Ls;
  ev_frame : only_touches (F ++ owned Ls) s s';
  ev_ok : blocks_ok (pages z) Ls';
}.

Lemma evolves_refl d s z Ls F :
  rep d s z Ls F → blocks_ok (pages z) Ls → evolves d s z Ls F s z Ls F.
Proof. intros. by constructor. Qed.

Lemma evolves_trans d s1 z1 Ls1 F1 s2 z2 Ls2 F2 s3 z3 Ls3 F3 :
  evolves d s1 z1 Ls1 F1 s2 z2 Ls2 F2 → evolves d s2 z2 Ls2 F2 s3 z3 Ls3 F3 →
  evolves d s1 z1 Ls1 F1 s3 z3 Ls3 F3.
Proof.
  intros [_ Hb1 Hp1 Hn1 Hf1 _] [Hr Hb2 Hp2 Hn2 Hf2 Ho].
  constructor; [done|congruence|congruence| | |by rewrite Hp1 in Ho].
  - by rewrite Hn2, Hn1.
  - eapply only_touches_trans; [done..|]. intros p. by rewrite Hn1.
Qed.

(** The pool hands out its first node for a new block. *)
Lemma add_node_evolves d s z Ls f F pow l pg :
  rep d s z Ls (f :: F) → blocks_ok (pages z) Ls → Ls !! pow = Some l →
  block_ok (pages z) pow pg →
  wp (add_node z pow (FreeNode_new pg)) s (λ z' s',
    evolves d s z Ls (f :: F) s' z' (<[pow:=(f, pg) :: l]> Ls) F).
Proof.
  intros Hrep Hok Hl Hblk.
  eapply wp_mono; [by eapply add_node_rep|]. intros z' s' (Hr & Hb & Hp & Ht).
  constructor; [done..| | |].
  - rewrite (owned_push _ _ _ _ _ Hl). simpl. by rewrite Permutation_middle.
  - eapply only_touches_mono; [exact Ht|]. set_solver.
  - apply blocks_ok_insert; [done|]. intros p. simpl. rewrite elem_of_cons.
    intros [->|Hin]; [done|]. by eapply Hok.
Qed.

(** Taking the first block of a list and recycling its node, in either order of
    the reads. *)
Lemma pop_evolves {A} d s z Ls F pow p pg l (k : Z → Z → MemoryZone → ST Nodes A) Q :
  rep d s z Ls F → blocks_ok (pages z) Ls → Ls !! pow = Some ((p, pg) :: l) →
  (∀ z' s', evolves d s z Ls F s' z' (<[pow:=l]> Ls) (p :: F) →
    nodes s' !! p = Some (mkFreeNode (Some pg) (free_start (pool s))) →
    wp (k p pg z') s' Q) →
  wp ('(node, z') ← new_node z pow; left_start ← read_page node;
      _ ← recycle_node node; k node left_start z') s Q ∧
  wp ('(node, z') ← new_node z pow; _ ← recycle_node node;
      pg ← read_page node; k node pg z') s Q.
Proof.
  intros Hrep Hok Hl Hk.
  pose proof (new_node_rep _ _ _ _ _ _ _ _ _ Hrep Hl) as Hn.
  apply wp_Ok in Hn as ([n z'] & s1 & Hrun & -> & Hn1 & Hr & Hb & Hpg & [nx Hp] & Hni & Hbd).
  simpl in *. subst n.
  pose proof (recycle_rep _ _ _ _ _ _ _ Hp Hni Hbd Hr) as Hrec.
  apply wp_Ok in Hrec as ([] & s2 & Hrun2 & Hr2 & Ht & Hp2). simpl in Hp2.
  assert (Hev : evolves d s z Ls F s2 z' (<[pow:=l]> Ls) (p :: F)).
  { constructor; [done..| | |].
    - simpl. rewrite Permutation_middle. f_equiv. apply (owned_remove Ls pow [] l p pg Hl).
    - eapply only_touches_mono; [exact Ht|]. intros q Hq.
      apply list_elem_of_singleton in Hq as ->. apply elem_of_app. right.
      eapply owned_lookup; [done|]. left.
    - apply blocks_ok_insert; [done|]. intros q Hq. eapply Hok; [done|]. by right. }
  specialize (Hk z' s2 Hev Hp2). split; apply wp_bind; unfold wp at 1; rewrite Hrun.
  - apply wp_bind. unfold wp at 1. rewrite (read_page_run _ _ _ _ Hp).
    apply wp_bind. unfold wp at 1. by rewrite Hrun2.
  - apply wp_bind. unfold wp at 1. rewrite Hrun2.
    apply wp_bind. unfold wp at 1. by rewrite (read_page_run _ _ _ _ Hp2).
Qed.

(** ** Allocation *)

(** A block cut down to order [k]: the right halves become free blocks. *)
Lemma split_loop_evolves d k i : ∀ s z Ls F p,
  rep d s z Ls F → blocks_ok (pages z) Ls → block_ok (pages z) i p →
  (k < i ≤ BUDDY_ALLOC_MAX_POW)%nat → (i ≤ length F)%nat →
  zone_fits z →
  wp (split_loop z (2 ^ Z.of_nat k) p i) s (λ r s', ∃ Ls' F',
    r.1 = Some (base z + p) ∧ evolves d s z Ls F s' r.2 Ls' F' ∧
    ∀ μ, Additive μ → msum μ Ls' + μ k p = msum μ Ls + μ i p).
Proof.
  induction i as [|i IH]; intros s z Ls F p Hrep Hok Hblk Hk HF Hz; [lia|].
  pose proof Hz as [Hz0 Hz1].
  destruct F as [|f F]; [simpl in HF; lia|].
  destruct Hblk as (Hp0 & Hpn & Hdiv). rewrite pow2_S in Hpn, Hdiv.
  pose proof (pow2_pos i) as Hpos.
  destruct (lookup_lt_is_Some_2 Ls i) as [l Hl].
  { rewrite (rep_len _ _ _ _ _ Hrep). lia. }
  simpl. apply wp_bind. eapply wp_lift; [apply uadd_Ok; lia|].
  apply wp_bind. eapply wp_mono; [eapply add_node_evolves; [done..|]|].
  { split_and!; [lia..|]. apply Z.divide_add_r; [|done].
    etransitivity; [|exact Hdiv]. by apply Z.divide_factor_r. }
  intros z' s' Hev. pose proof Hev as [Hr' Hb' Hp' _ _ Hok'].
  assert (Hsum : ∀ μ, Additive μ →
    msum μ (<[i:=(f, p + 2 ^ Z.of_nat i) :: l]> Ls) + μ i p = msum μ Ls + μ (S i) p).
  { intros μ Hμ. pose proof (msum_insert μ Ls i l ((f, p + 2 ^ Z.of_nat i) :: l) Hl).
    simpl in *. rewrite (additive i p). lia. }
  destruct (Z.eqb_spec (2 ^ Z.of_nat k) (2 ^ Z.of_nat i)) as [Heq|Hne].
  - apply pow2_inj in Heq as ->. apply wp_bind.
    eapply wp_lift; [apply uadd_Ok; rewrite Hb'; lia|].
    apply wp_ret. eexists _, _. simpl. rewrite Hb'. split_and!; [done|exact Hev|exact Hsum].
  - eapply wp_mono.
    { eapply IH; [done| | | | |].
      - by rewrite Hp'.
      - rewrite Hp'. split_and!; [lia..|]. etransitivity; [|exact Hdiv].
        by apply Z.divide_factor_r.
      - assert (k ≠ i) by (intros ->; done). lia.
      - simpl in HF. lia.
      - by unfold zone_fits; rewrite Hb', Hp'. }
    intros [r z''] s'' (Ls' & F' & Hr & Hev' & Hm). simpl in *.
    exists Ls', F'. split_and!; [congruence| |].
    + by eapply evolves_trans.
    + intros μ Hμ. rewrite (Hm μ Hμ). apply Hsum, Hμ.
Qed.

Lemma chain_is_Some h hd l : chain h hd l → bool_decide (is_Some hd) = true ↔ l ≠ [].
Proof.
  rewrite bool_decide_eq_true. destruct l as [|[p pg] l]; simpl.
  - intros ->. split; [by intros [? [=]]|done].
  - intros [-> _]. split; [done|]. by eexists.
Qed.

(** The result of a zone's allocation of [2 ^ k] pages. *)
Definition alloc_post (d : Z) (k : nat) (pow : nat) (s : Nodes) (z : MemoryZone)
    (Ls : list (list (Z * Z))) (F : list Z) (r : option Z * MemoryZone) (s' : Nodes) : Prop :=
  match r.1 with
  | Some a => ∃ p Ls' F', a = base z + p ∧ block_ok (pages z) k p ∧
      evolves d s z Ls F s' r.2 Ls' F' ∧
      ∀ μ, Additive μ → msum μ Ls' + μ k p = msum μ Ls
  | None => s' = s ∧ r.2 = z ∧
      ∀ i l, (pow ≤ i)%nat → (k ≤ i)%nat → Ls !! i = Some l → l = []
  end.

Lemma alloc_post_step d k pow s z Ls F r s' :
  alloc_post d k (S pow) s z Ls F r s' →
  (∀ l, (k ≤ pow)%nat → Ls !! pow = Some l → l = []) →
  alloc_post d k pow s z Ls F r s'.
Proof.
  unfold alloc_post. destruct (r.1); [done|]. intros (Hs & Hz & Hall) Hpow.
  split_and!; [done..|]. intros i l Hi Hk Hl.
  destruct (decide (i = pow)) as [->|]; [by apply Hpow|]. apply (Hall i); [lia|done..].
Qed.

Lemma alloc_loop_post d k n : ∀ pow s z Ls F,
  rep d s z Ls F → blocks_ok (pages z) Ls → (n + pow = BUDDY_ALLOC_MAX_POW)%nat →
  (BUDDY_ALLOC_MAX_POW ≤ S (length F))%nat → zone_fits z →
  wp (alloc_loop n pow z (2 ^ Z.of_nat k)) s (alloc_post d k pow s z Ls F).
Proof.
  induction n as [|n IH]; intros pow s z Ls F Hrep Hok Hn HF Hz;
    pose proof Hz as [Hz0 Hz1].
  { apply wp_ret. simpl. split_and!; [done..|]. intros i l Hi _ Hl.
    apply lookup_lt_Some in Hl. rewrite (rep_len _ _ _ _ _ Hrep) in Hl.
    simpl in Hn. lia. }
  destruct (lookup_lt_is_Some_2 Ls pow) as [l Hl].
  { rewrite (rep_len _ _ _ _ _ Hrep). lia. }
  destruct (Forall2_lookup_r _ _ _ _ _ (rep_zone _ _ _ _ _ Hrep) Hl) as (hd & Hhd & Hc).
  pose proof (chain_is_Some _ _ _ Hc) as Hsome.
  simpl. apply wp_bind. eapply wp_lift; [by apply index_Ok|].
  destruct (bool_decide (is_Some hd)) eqn:Hb; simpl.
  2: { assert (l = []) as -> by (destruct l; [done|]; naive_solver).
       eapply wp_mono; [apply IH; [done..|lia|done|done]|].
       intros r s' Hpost. eapply alloc_post_step; [exact Hpost|congruence]. }
  destruct l as [|[p pg] l]; [naive_solver|].
  assert (Hblk : block_ok (pages z) pow pg) by (eapply Hok; [done|left]).
  destruct (Z.eqb_spec (2 ^ Z.of_nat pow) (2 ^ Z.of_nat k)) as [Heq|Hne].
  - apply pow2_inj in Heq as ->.
    eapply (pop_evolves d s z Ls F k p pg l
      (λ _ pg z', r ← lift (base z' +! pg); mret (Some r, z'))); [done..|].
    intros z' s' Hev _. pose proof Hev as [_ Hb' _ _ _ _].
    apply wp_bind. eapply wp_lift; [apply uadd_Ok; destruct Hblk; pose proof (pow2_pos k); lia|].
    apply wp_ret. simpl. rewrite Hb'. exists pg, (<[k:=l]> Ls), (p :: F). split_and!; [done..|].
    intros μ Hμ. pose proof (msum_insert μ Ls k _ l Hl) as Hm. simpl in Hm. lia.
  - destruct (Z.ltb_spec (2 ^ Z.of_nat k) (2 ^ Z.of_nat pow)) as [Hlt|Hge].
    + apply (pop_evolves d s z Ls F pow p pg l (λ _ left_start z',
        '(r, z'') ← split_loop z' (2 ^ Z.of_nat k) left_start pow;
        match r with
        | Some r => mret (Some r, z'')
        | None => alloc_loop n (S pow) z'' (2 ^ Z.of_nat k)
        end)); [done..|].
      intros z' s' Hev _. pose proof Hev as [Hr' Hb' Hp' _ _ Hok'].
      apply wp_bind. eapply wp_mono.
      { eapply (split_loop_evolves d k pow); [done|by rewrite Hp'|by rewrite Hp'| | |].
        - apply Z.pow_lt_mono_r_iff in Hlt; lia.
        - simpl. lia.
        - by unfold zone_fits; rewrite Hb', Hp'. }
      intros [r z''] s'' (Ls' & F' & Hr & Hev' & Hm). simpl in Hr. subst r.
      apply wp_ret. simpl. rewrite Hb'. exists pg, Ls', F'. split_and!; [done| | |].
      * destruct Hblk as (? & ? & Hdiv). apply Z.pow_lt_mono_r_iff in Hlt; [|lia..].
        assert (2 ^ Z.of_nat k ≤ 2 ^ Z.of_nat pow) by (apply Z.pow_le_mono_r; lia).
        split_and!; [done|lia|]. etransitivity; [|exact Hdiv].
        exists (2 ^ (Z.of_nat pow - Z.of_nat k)). rewrite <- Z.pow_add_r by lia. f_equal. lia.
      * by eapply evolves_trans.
      * intros μ Hμ. rewrite (Hm μ Hμ).
        pose proof (msum_insert μ Ls pow _ l Hl) as Hi. simpl in Hi. lia.
    + eapply wp_mono; [apply IH; [done..|lia|done|done]|].
      intros r s' Hpost. eapply alloc_post_step; [exact Hpost|]. intros l' Hki _. exfalso. assert (2 ^ Z.of_nat k ≤ 2 ^ Z.of_nat pow) by (apply Z.pow_le_mono_r; lia). lia.
Qed.

(** ** Building a zone *)

(** A measure of page ranges: of [c, c + g). *)
Class Spanning (ν : Z → Z → Z) : Prop := {
  span_0 : ∀ c, ν c 0 = 0;
  span_add : ∀ c a b, 0 ≤ a → 0 ≤ b → ν c (a + b) = ν c a + ν (c + a) b;
}.

Definition span (x c g : Z) : Z := Z.b2z ((c <=? x) && (x <? c + g)).

#[global] Instance span_spanning x : Spanning (span x).
Proof.
  split; unfold span; intros.
  - destruct (Z.leb_spec c x), (Z.ltb_spec x (c + 0)); simpl; lia.
  - destruct (Z.leb_spec c x), (Z.ltb_spec x (c + (a + b))), (Z.ltb_spec x (c + a)),
      (Z.leb_spec (c + a) x), (Z.ltb_spec x (c + a + b)); simpl; lia.
Qed.

#[global] Instance length_spanning : Spanning (λ _ g, g).
Proof. split; intros; lia. Qed.

(** The measure of blocks a measure of ranges gives. *)
Definition by_block (ν : Z → Z → Z) (i : nat) (p : Z) : Z := ν p (2 ^ Z.of_nat i).

#[global] Instance by_block_additive ν : Spanning ν → Additive (by_block ν).
Proof.
  intros Hν i p. unfold by_block. rewrite pow2_S.
  replace (2 * 2 ^ Z.of_nat i) with (2 ^ Z.of_nat i + 2 ^ Z.of_nat i) by lia.
  pose proof (pow2_pos i). apply span_add; lia.
Qed.

Lemma floor_to_power_2_Ok g :
  0 < g < U64 → floor_to_power_2 g = Ok (Z.log2 g).
Proof.
  intros Hg. unfold floor_to_power_2, leading_zeros.
  destruct (Z.eqb_spec g 0) as [|_]; [lia|].
  assert (Z.log2 g < 64) by (apply Z.log2_lt_pow2; unfold U64 in *; lia).
  pose proof (Z.log2_nonneg g).
  rewrite usub_Ok by lia. simpl. rewrite usub_Ok by lia. f_equal. lia.
Qed.

Lemma zone_new_loop_evolves d m : ∀ fuel s z Ls F g c,
  rep d s z Ls F → blocks_ok (pages z) Ls → zone_fits z →
  0 ≤ c → 0 ≤ g → c + g = pages z → g < 2 ^ Z.of_nat m → (2 ^ Z.of_nat m | c) →
  (m ≤ fuel)%nat → (m ≤ BUDDY_ALLOC_MAX_POW)%nat → (m ≤ length F)%nat →
  wp (zone_new_loop fuel z g c) s (λ z' s', ∃ Ls' F',
    evolves d s z Ls F s' z' Ls' F' ∧ (length F ≤ length F' + m)%nat ∧
    ∀ ν, Spanning ν → msum (by_block ν) Ls' = msum (by_block ν) Ls + ν c g).
Proof.
  induction m as [m IH] using lt_wf_ind.
  intros fuel s z Ls F g c Hrep Hok Hz Hc Hg Hcg Hgm Hdiv Hfuel Hmax HF.
  pose proof Hz as [Hz0 Hz1].
  destruct (Z.leb_spec g 0) as [Hg0|Hg0].
  { assert (g = 0) as -> by lia. destruct fuel; simpl; apply wp_ret; exists Ls, F.
    all: split_and!; [by apply evolves_refl|lia|intros ν Hν; rewrite span_0; lia]. }
  destruct fuel as [|fuel].
  { assert (m = 0%nat) as -> by lia. simpl in Hgm. lia. }
  simpl. rewrite (proj2 (Z.leb_gt _ _)) by done.
  pose proof (Z.log2_spec g Hg0) as [Hlo Hhi]. rewrite Z.pow_succ_r in Hhi by apply Z.log2_nonneg.
  apply wp_bind. eapply wp_lift; [apply floor_to_power_2_Ok; lia|].
  set (pow := Z.to_nat (Z.log2 g)).
  assert (Hpow : Z.log2 g = Z.of_nat pow) by (unfold pow; rewrite Z2Nat.id; [done|apply Z.log2_nonneg]).
  rewrite Hpow in Hlo, Hhi |- *.
  assert (Hpm : (pow < m)%nat).
  { apply Nat2Z.inj_lt, (Z.pow_lt_mono_r_iff 2); lia. }
  destruct F as [|f F]; [simpl in HF; lia|].
  destruct (lookup_lt_is_Some_2 Ls pow) as [l Hl].
  { rewrite (rep_len _ _ _ _ _ Hrep). lia. }
  assert (Hdp : (2 ^ Z.of_nat pow | c)).
  { etransitivity; [|exact Hdiv]. exists (2 ^ (Z.of_nat m - Z.of_nat pow)).
    rewrite <- Z.pow_add_r by lia. f_equal. lia. }
  pose proof (pow2_pos pow) as Hpos.
  apply wp_bind. eapply wp_mono; [eapply add_node_evolves; [done..|]|].
  { split_and!; [done|lia|done]. }
  intros z' s' Hev. pose proof Hev as [Hr' Hb' Hp' _ _ Hok'].
  apply wp_bind. eapply wp_lift; [by apply usub_Ok|].
  apply wp_bind. eapply wp_lift; [apply uadd_Ok; lia|].
  eapply wp_mono.
  { apply (IH pow Hpm fuel s' z' (<[pow:=(f, c) :: l]> Ls) F).
    all: rewrite ?Hp'; unfold zone_fits; rewrite ?Hb', ?Hp'.
    all: try done || lia.
    - apply Z.divide_add_r; [done|reflexivity].
    - simpl in HF. lia. }
  intros z'' s'' (Ls' & F' & Hev' & Hlen & Hm). exists Ls', F'. split_and!.
  - eapply evolves_trans; [exact Hev|exact Hev'].
  - simpl. lia.
  - intros ν Hν. rewrite (Hm ν Hν).
    pose proof (msum_insert (by_block ν) Ls pow l ((f, c) :: l) Hl) as Hi. simpl in Hi.
    replace g with (2 ^ Z.of_nat pow + (g - 2 ^ Z.of_nat pow)) at 2 by lia.
    rewrite span_add by lia. unfold by_block in Hi at 4. lia.
Qed.

(** ** Freeing *)

(** The start of the block that makes up, with the block of order [pow] at [p],
    a block of the next order. *)
Definition buddy_of (pow : nat) (p : Z) : Z :=
  if p mod 2 ^ Z.of_nat (S pow) =? 0 then p + 2 ^ Z.of_nat pow else p - 2 ^ Z.of_nat pow.

(** No list from order [pow] up to the first empty one holds the block that the
    merge loop looks for there. *)
Fixpoint quiet (pow : nat) (Ls : list (list Z)) (p : Z) : bool :=
  match Ls with
  | [] => true
  | l :: Ls =>
      match l with
      | [] => true
      | _ => negb (bool_decide (buddy_of pow p ∈ l)) && quiet (S pow) Ls p
      end
  end.

(** The merge loop skips an order without its buddy instead of stopping there:
    after such an order it must not find a block again. *)
Fixpoint merges_ok (pow : nat) (Ls : list (list Z)) (p : Z) : bool :=
  match Ls with
  | [] => true
  | l :: Ls =>
      match l with
      | [] => true
      | _ => if bool_decide (buddy_of pow p ∈ l) then merges_ok (S pow) Ls (Z.min p (buddy_of pow p))
             else quiet (S pow) Ls p
      end
  end.

(** The page numbers of the free lists. *)
Definition pages_of (Ls : list (list (Z * Z))) : list (list Z) := (λ l, l.*2) <$> Ls.

Lemma pages_of_drop_insert Ls pow l :
  drop (S pow) (pages_of (<[pow:=l]> Ls)) = drop (S pow) (pages_of Ls).
Proof.
  unfold pages_of. rewrite list_fmap_insert. apply drop_insert_lt. lia.
Qed.

Lemma pages_of_drop Ls pow l :
  Ls !! pow = Some l → drop pow (pages_of Ls) = l.*2 :: drop (S pow) (pages_of Ls).
Proof.
  intros Hl. unfold pages_of. apply drop_S. by rewrite list_lookup_fmap, Hl.
Qed.

Lemma buddy_partner pow p :
  buddy_of pow p = partner (p mod 2 ^ Z.of_nat (S pow) =? 0) p (2 ^ Z.of_nat pow).
Proof. done. Qed.

Definition zone_small (z : MemoryZone) : Prop :=
  zone_fits z ∧ pages z < 2 ^ Z.of_nat BUDDY_ALLOC_MAX_POW ∧
  base z + pages z + 2 ^ Z.of_nat BUDDY_ALLOC_MAX_POW < U64.

Lemma zone_no_overflow z Ls pow l left p :
  zone_small z → blocks_ok (pages z) Ls → (pow < BUDDY_ALLOC_MAX_POW)%nat →
  Ls !! pow = Some l → 0 ≤ p < pages z →
  no_overflow left p (2 ^ Z.of_nat pow) l.
Proof.
  intros ((Hz0 & Hz1) & Hsm & Hbig) Hok Hpow Hl Hp.
  pose proof (pow2_lt_mono _ _ Hpow) as Hlt. split; [lia|].
  apply list.Forall_forall. intros [q pg] Hq. simpl.
  destruct (Hok pow l pg Hl) as (? & ? & _); [|lia].
  apply list_elem_of_fmap. by exists (q, pg).
Qed.

(** A quiet tail of the merge loop changes nothing. *)
Lemma merge_loop_quiet d n : ∀ pow s z Ls F pf p c,
  rep d s z Ls F → blocks_ok (pages z) Ls → zone_small z →
  (n + pow = BUDDY_ALLOC_MAX_POW)%nat → 0 ≤ p < pages z →
  quiet pow (drop pow (pages_of Ls)) p = true →
  merge_loop n pow z pf p c s = Ok ((z, pf, p), s).
Proof.
  induction n as [|n IH]; intros pow s z Ls F pf p c Hrep Hok Hz Hn Hp Hq; [done|].
  destruct (lookup_lt_is_Some_2 Ls pow) as [l Hl].
  { rewrite (rep_len _ _ _ _ _ Hrep). lia. }
  destruct (Forall2_lookup_r _ _ _ _ _ (rep_zone _ _ _ _ _ Hrep) Hl) as (hd & Hhd & Hc).
  rewrite (pages_of_drop _ _ _ Hl) in Hq.
  unfold merge_loop; fold merge_loop. unfold mbind at 1, st_bind at 1, lift at 1.
  rewrite (index_Ok _ _ _ Hhd). simpl.
  destruct l as [|[q pg] l]; simpl in Hc, Hq; [by subst hd|].
  destruct Hc as [-> _]. apply andb_true_iff in Hq as [Hni Hq].
  rewrite negb_true_iff, bool_decide_eq_false in Hni. rewrite buddy_partner in Hni.
  pose proof (take_partner_rep d s z Ls F pow _ p q pg l Hrep Hl
    (zone_no_overflow z Ls pow _ (p mod 2 ^ Z.of_nat (S pow) =? 0) p Hz Hok
       ltac:(lia) Hl Hp)) as Ht.
  apply wp_Ok in Ht as ([found z'] & s' & Hrun & _ & _ & Hf).
  unfold mbind, st_bind. rewrite Hrun. simpl in *. destruct found.
  - destruct Hf as (l1 & q' & l2 & Heq & _). exfalso. apply Hni.
    apply (f_equal (fmap snd)) in Heq. rewrite fmap_app in Heq. simpl in Heq.
    rewrite Heq. set_solver.
  - destruct Hf as (-> & -> & _). apply IH with Ls F; done || lia.
Qed.

Lemma merge_align a p : 0 < a → (a | p) → p mod (2 * a) ≠ 0 → (2 * a | p - a).
Proof.
  intros Ha [k ->] Hm. rewrite (Z.mul_comm 2 a) in Hm.
  rewrite (Z.mul_comm k a), Zmult_mod_distr_l in Hm.
  destruct (Z.mod_pos_bound k 2) as [H0 H1]; [lia|].
  assert (k mod 2 = 1) as H2 by nia.
  exists (k / 2). pose proof (Z.div_mod k 2 ltac:(lia)) as Hk. rewrite H2 in Hk.
  rewrite Hk at 1. ring.
Qed.

(** Merging keeps the free pages: the block at [p] of order [pow] together with
    the free blocks measures the same as the block the loop ends with together
    with the blocks that are left. *)
Lemma merge_loop_evolves d n : ∀ pow s z Ls F p,
  rep d s z Ls F → blocks_ok (pages z) Ls → zone_small z →
  (n + pow = BUDDY_ALLOC_MAX_POW)%nat → block_ok (pages z) pow p →
  merges_ok pow (drop pow (pages_of Ls)) p = true →
  wp (merge_loop n pow z pow p (2 ^ Z.of_nat pow)) s (λ r s', ∃ Ls' F' pf p',
    r = (r.1.1, pf, p') ∧ evolves d s z Ls F s' r.1.1 Ls' F' ∧
    (pf < BUDDY_ALLOC_MAX_POW)%nat ∧ block_ok (pages z) pf p' ∧
    (length F ≤ length F')%nat ∧
    ∀ μ, Additive μ → msum μ Ls' + μ pf p' = msum μ Ls + μ pow p).
Proof.
  induction n as [|n IH]; intros pow s z Ls F p Hrep Hok Hz Hn Hblk Hmok.
  all: pose proof Hz as ((Hz0 & Hz1) & Hsm & Hbig); pose proof Hblk as (Hp0 & Hpn & Hdiv).
  { exfalso. simpl in Hn. subst pow. lia. }
  destruct (lookup_lt_is_Some_2 Ls pow) as [l Hl].
  { rewrite (rep_len _ _ _ _ _ Hrep). lia. }
  destruct (Forall2_lookup_r _ _ _ _ _ (rep_zone _ _ _ _ _ Hrep) Hl) as (hd & Hhd & Hc).
  rewrite (pages_of_drop _ _ _ Hl) in Hmok. pose proof (pow2_pos pow) as Hpos.
  unfold merge_loop; fold merge_loop.
  apply wp_bind. eapply wp_lift; [by apply index_Ok|].
  destruct l as [|[q pg] l].
  { simpl in Hc. subst hd. apply wp_ret. exists Ls, F, pow, p. simpl.
    split_and!; [done|by apply evolves_refl|lia|done..]. }
  simpl in Hc. destruct Hc as [-> _].
  apply wp_bind. eapply wp_mono.
  { eapply take_partner_rep; [done..|].
    eapply zone_no_overflow; [done..|lia|done|lia]. }
  intros [found z'] s' (Hb' & Hp' & Hf). simpl in Hb', Hp', Hf.
  rewrite <- buddy_partner in Hf. destruct found.
  - destruct Hf as (l1 & q' & l2 & Heq & Hr' & Ht).
    assert (Hin : buddy_of pow p ∈ ((q, pg) :: l).*2).
    { rewrite Heq, fmap_app. set_solver. }
    pose proof (Hok _ _ _ Hl Hin) as (Hb0 & Hbn & Hbd).
    unfold merges_ok in Hmok; fold merges_ok in Hmok. simpl in Hmok.
    rewrite bool_decide_eq_true_2 in Hmok by exact Hin.
    assert (Hmin : block_ok (pages z) (S pow) (Z.min p (buddy_of pow p)) ∧
      (if p mod 2 ^ Z.of_nat (S pow) =? 0 then Ok p else p -! 2 ^ Z.of_nat pow)
        = Ok (Z.min p (buddy_of pow p)) ∧
      ∀ μ, Additive μ → μ (S pow) (Z.min p (buddy_of pow p))
        = μ pow p + μ pow (buddy_of pow p)).
    { unfold block_ok, buddy_of in *. rewrite !pow2_S in *.
      destruct (Z.eqb_spec (p mod (2 * 2 ^ Z.of_nat pow)) 0) as [Hm|Hm].
      - rewrite Z.min_l by lia. split_and!; [done|lia|by apply Z.mod_divide; [lia|]|done|].
        intros μ Hμ. by rewrite (additive pow p).
      - rewrite Z.min_r by lia. split_and!; [done|lia|by apply merge_align| |].
        + by apply usub_Ok; lia.
        + intros μ Hμ. rewrite (additive pow (p - 2 ^ Z.of_nat pow)).
          replace (p - 2 ^ Z.of_nat pow + 2 ^ Z.of_nat pow) with p by lia. lia. }
    destruct Hmin as (Hblk' & Hrun & Hμ2).
    apply wp_bind. eapply wp_lift; [exact Hrun|].
    assert (Hsh : ushl (2 ^ Z.of_nat pow) 1 = 2 ^ Z.of_nat (S pow)).
    { unfold ushl. rewrite Z.shiftl_mul_pow2 by lia. rewrite pow2_S, Z.mul_comm.
      apply Z.mod_small. pose proof (pow2_lt_mono pow BUDDY_ALLOC_MAX_POW ltac:(lia)).
      unfold U64. change (2 ^ Z.of_nat BUDDY_ALLOC_MAX_POW) with (2 ^ 36) in *. lia. }
    rewrite Hsh.
    assert (Hev : evolves d s z Ls F s' z' (<[pow:=l1 ++ l2]> Ls) (q' :: F)).
    { rewrite Heq in Hl. constructor; [done..| | |].
      - simpl. rewrite Permutation_middle. f_equiv. by eapply owned_remove.
      - eapply only_touches_mono; [exact Ht|]. set_solver.
      - apply blocks_ok_insert; [done|]. intros x Hx. eapply Hok; [done|].
        rewrite fmap_app in Hx |- *. set_solver. }
    eapply wp_mono.
    { apply (IH (S pow) s' z' (<[pow:=l1 ++ l2]> Ls) (q' :: F) (Z.min p (buddy_of pow p))).
      all: unfold zone_small, zone_fits; rewrite ?Hb', ?Hp'; try done || lia.
      - apply Hev.
      - by rewrite pages_of_drop_insert. }
    intros [[z'' pf] p'] s'' (Ls' & F' & pf' & p'' & [= -> ->] & Hev' & Hpf & Hbo & Hlen & Hm).
    simpl in *. rewrite Hp' in Hbo. exists Ls', F', pf', p''.
    split_and!; [done| |done|done|lia|].
    + eapply evolves_trans; [exact Hev|exact Hev'].
    + intros μ Hμ. rewrite (Hm μ Hμ), (Hμ2 μ Hμ).
      pose proof (msum_insert μ Ls pow _ (l1 ++ l2) Hl) as Hi.
      rewrite Heq, !lsum_app in Hi. simpl in Hi. lia.
  - destruct Hf as (-> & -> & Hni). unfold merges_ok in Hmok; fold merges_ok in Hmok.
    simpl in Hmok. rewrite bool_decide_eq_false_2 in Hmok by exact Hni.
    unfold wp. rewrite (merge_loop_quiet d n (S pow) s z Ls F) by (done || lia).
    exists Ls, F, pow, p. split_and!; [done|by apply evolves_refl|lia|done..].
Qed.

(** ** The zone operations *)

Lemma ceil_to_power_2_pow k : 2 ^ Z.of_nat k < U64 →
  ceil_to_power_2 (2 ^ Z.of_nat k) = Ok (2 ^ Z.of_nat k).
Proof.
  intros Hk. unfold ceil_to_power_2. rewrite Z.log2_up_pow2 by lia.
  by rewrite (proj2 (Z.ltb_lt _ _)).
Qed.

Lemma ceil_to_power_2_bound n p : ceil_to_power_2 n = Ok p → p < U64.
Proof.
  unfold ceil_to_power_2. destruct (Z.ltb_spec (2 ^ Z.log2_up n) U64); [|done].
  by intros [= <-].
Qed.

Lemma zone_alloc_post d k s z Ls F :
  rep d s z Ls F → blocks_ok (pages z) Ls → zone_fits z → 2 ^ Z.of_nat k < U64 →
  (BUDDY_ALLOC_MAX_POW ≤ S (length F))%nat →
  wp (zone_alloc_pages z (2 ^ Z.of_nat k)) s (alloc_post d k 0 s z Ls F).
Proof.
  intros Hrep Hok Hz Hk HF. unfold zone_alloc_pages.
  apply wp_bind. eapply wp_lift; [by apply ceil_to_power_2_pow|].
  apply wp_bind. eapply wp_lift; [by rewrite Z.eqb_refl|].
  apply alloc_loop_post; [done..|lia|done|done].
Qed.

Lemma find_pow_spec n : ∀ pow k, (pow ≤ k < pow + n)%nat →
  find_pow n pow (2 ^ Z.of_nat k) = k.
Proof.
  induction n as [|n IH]; intros pow k Hk; [lia|]. simpl.
  destruct (Z.eqb_spec (2 ^ Z.of_nat pow) (2 ^ Z.of_nat k)) as [Heq|Hne].
  - by apply pow2_inj in Heq.
  - apply IH. assert (pow ≠ k) by (by intros ->). lia.
Qed.

(** The condition under which freeing the block at [p] of order [k] returns
    exactly that block to the free lists. *)
Definition free_guard (Ls : list (list Z)) (k : nat) (p : Z) : bool :=
  merges_ok k (drop k Ls) p.

Lemma zone_free_post d k s z Ls F p :
  rep d s z Ls F → blocks_ok (pages z) Ls → zone_small z → block_ok (pages z) k p →
  (1 ≤ length F)%nat → free_guard (pages_of Ls) k p = true →
  wp (zone_free_pages z (base z + p) (2 ^ Z.of_nat k)) s (λ z' s', ∃ Ls' F',
    evolves d s z Ls F s' z' Ls' F' ∧
    ∀ μ, Additive μ → msum μ Ls' = msum μ Ls + μ k p).
Proof.
  intros Hrep Hok Hz Hblk HF Hg.
  pose proof Hz as ((Hz0 & Hz1) & Hsm & Hbig). pose proof Hblk as (Hp0 & Hpn & Hdiv).
  assert (Hk : (k < BUDDY_ALLOC_MAX_POW)%nat).
  { apply Nat2Z.inj_lt, (Z.pow_lt_mono_r_iff 2); lia. }
  pose proof (pow2_lt_mono _ _ Hk). unfold zone_free_pages.
  apply wp_bind. eapply wp_lift; [apply ceil_to_power_2_pow; lia|].
  apply wp_bind. eapply wp_lift; [by rewrite Z.eqb_refl|].
  apply wp_bind. eapply wp_lift; [apply usub_Ok; lia|].
  replace (base z + p - base z) with p by lia.
  rewrite (Forall2_length (rep_zone _ _ _ _ _ Hrep)), (rep_len _ _ _ _ _ Hrep).
  rewrite find_pow_spec by lia.
  apply wp_bind. eapply wp_mono.
  { eapply merge_loop_evolves; [done..|lia|done|exact Hg]. }
  intros [[z' pf] p'] s' (Ls' & F' & pf' & p'' & [= -> ->] & Hev & Hpf & Hbo & Hlen & Hm).
  simpl in *. pose proof Hev as [Hr' Hb' Hp' _ _ Hok'].
  destruct F' as [|f F']; [simpl in Hlen; lia|].
  destruct (lookup_lt_is_Some_2 Ls' pf') as [l Hl].
  { by rewrite (rep_len _ _ _ _ _ Hr'). }
  eapply wp_mono; [eapply add_node_evolves; [done| |done|]; by rewrite Hp'|].
  intros z'' s'' Hev'. eexists _, F'. split.
  - eapply evolves_trans; [exact Hev|exact Hev'].
  - intros μ Hμ. rewrite <- (Hm μ Hμ).
    pose proof (msum_insert μ Ls' pf' l ((f, p'') :: l) Hl) as Hi. simpl in Hi. lia.
Qed.
