(* ===== verification/BuddySpec.v ===== *)
(** * The buddy allocator: its promise to the rest of the kernel

    [free_at b x] counts the free blocks of the allocator [b] that contain page
    [x]; it is read back from the linked lists in memory, so it is a property of
    the program's own state.  Allocation takes the pages it returns out of the
    count, freeing adds them, and no page is ever counted twice. *)

From S2P Require Import Prelude Page Buddy BuddyLists BuddyZone.

(** ** Reading the free lists back *)

Fixpoint read_chain (fuel : nat) (h : heap) (hd : option Z) : list Z :=
  match fuel, hd with
  | S fuel, Some p =>
      match h !! p with
      | Some n => default 0 (page_number n) :: read_chain fuel h (next n)
      | None => []
      end
  | _, _ => []
  end.

(** The page numbers in the free lists of a zone, by order. *)
Definition free_lists (h : heap) (z : MemoryZone) : list (list Z) :=
  read_chain (size h) h <$> pows z.

(** The measure of the free blocks of a zone, in absolute page numbers. *)
Definition at_base (bs : Z) (ν : Z → Z → Z) (i : nat) (p : Z) : Z := by_block ν i (bs + p).

Fixpoint psum (μ : nat → Z → Z) (i : nat) (Ls : list (list Z)) : Z :=
  match Ls with
  | [] => 0
  | l :: Ls => foldr (λ p acc, μ i p + acc) 0 l + psum μ (S i) Ls
  end.

Definition zone_measure (ν : Z → Z → Z) (h : heap) (z : MemoryZone) : Z :=
  psum (at_base (base z) ν) 0 (free_lists h z).

Definition live (b : BuddyAllocator) : list MemoryZone := take (zone_num b) (zones b).

Definition buddy_measure (ν : Z → Z → Z) (b : BuddyAllocator) : Z :=
  foldr (λ z acc, zone_measure ν (nodes (mem b)) z + acc) 0 (live b).

(** How many free blocks contain page [x]. *)
Definition free_at (b : BuddyAllocator) (x : Z) : Z := buddy_measure (span x) b.

(** How many pages the free blocks have. *)
Definition total_free (b : BuddyAllocator) : Z := buddy_measure (λ _ g, g) b.

Lemma read_chain_chain h hd l fuel :
  chain h hd l → (length l ≤ fuel)%nat → read_chain fuel h hd = l.*2.
Proof.
  revert hd fuel. induction l as [|[p pg] l IH]; intros hd fuel Hc Hf.
  - simpl in Hc. subst hd. by destruct fuel.
  - destruct Hc as [-> (nx & Hp & Hc)]. destruct fuel as [|fuel]; [simpl in Hf; lia|].
    simpl. rewrite Hp. simpl. f_equal. apply IH; [done|]. simpl in Hf. lia.
Qed.

Lemma psum_msum_from μ i Ls : psum μ i (pages_of Ls) = msum_from μ i Ls.
Proof.
  revert i. induction Ls as [|l Ls IH]; intros i; simpl; [done|].
  fold (pages_of Ls). rewrite IH. f_equal.
  clear. induction l as [|[p pg] l IHl]; simpl; [done|]. by f_equal.
Qed.

Lemma free_lists_chain h z Ls :
  Forall2 (chain h) (pows z) Ls → NoDup (owned Ls) → free_lists h z = pages_of Ls.
Proof.
  intros Hz Hnd. unfold free_lists, pages_of.
  apply list_eq. intros i. rewrite !list_lookup_fmap.
  destruct (Ls !! i) as [l|] eqn:Hl; simpl.
  - destruct (Forall2_lookup_r _ _ _ _ _ Hz Hl) as (hd & -> & Hc). simpl. f_equal.
    apply read_chain_chain; [done|]. eapply chain_length; [done|].
    by eapply owned_nodup_lookup.
  - rewrite lookup_ge_None, <- (Forall2_length Hz), <- lookup_ge_None in Hl. by rewrite Hl.
Qed.

(** ** Zones together *)

Definition zone_good (h : heap) (z : MemoryZone) (Ls : list (list (Z * Z))) : Prop :=
  Forall2 (chain h) (pows z) Ls ∧ length Ls = BUDDY_ALLOC_MAX_POW ∧
  zone_small z ∧ blocks_ok (pages z) Ls.

Definition all_owned (LLs : list (list (list (Z * Z)))) : list Z := concat (owned <$> LLs).

(** The zones and the pool share the nodes: each node is in exactly one list. *)
Record zones_rep (d : Z) (s : Nodes) (zs : list MemoryZone)
    (LLs : list (list (list (Z * Z)))) (F : list Z) : Prop := mkZonesRep {
  zr_zones : Forall2 (zone_good (nodes s)) zs LLs;
  zr_pool : fchain (nodes s) (free_start (pool s)) F;
  zr_remain : freenode_remain (pool s) = Z.of_nat (length F) + d;
  zr_slack : 0 ≤ d;
  zr_bound : Z.of_nat (length F) + Z.of_nat (length (all_owned LLs)) + d < U64;
  zr_nodup : NoDup (F ++ all_owned LLs);
}.

Lemma all_owned_perm LLs i Ls :
  LLs !! i = Some Ls → all_owned LLs ≡ₚ owned Ls ++ all_owned (<[i:=[]]> LLs).
Proof.
  intros Hi. unfold all_owned. rewrite list_fmap_insert.
  assert ((owned <$> LLs) !! i = Some (owned Ls)) as Hi' by (by rewrite list_lookup_fmap, Hi).
  by rewrite (concat_insert _ _ _ (owned []) Hi').
Qed.

Lemma all_owned_insert LLs i Ls Ls' :
  LLs !! i = Some Ls →
  all_owned (<[i:=Ls']> LLs) ≡ₚ owned Ls' ++ all_owned (<[i:=[]]> LLs).
Proof.
  intros Hi. rewrite (all_owned_perm (<[i:=Ls']> LLs) i Ls').
  - by rewrite list_insert_insert_eq.
  - apply list_lookup_insert_eq. by eapply lookup_lt_Some.
Qed.

(** One zone seen on its own. *)
Lemma zones_focus d s zs LLs F i z Ls :
  zones_rep d s zs LLs F → zs !! i = Some z → LLs !! i = Some Ls →
  rep d s z Ls F ∧ blocks_ok (pages z) Ls ∧ zone_small z.
Proof.
  intros [Hz Hp Hr Hd Hb Hnd] Hzi HLi.
  pose proof (Forall2_lookup_lr _ _ _ _ _ _ Hz Hzi HLi) as (Hc & Hlen & Hsm & Hok).
  rewrite (all_owned_perm _ _ _ HLi) in Hnd, Hb. rewrite length_app in Hb.
  rewrite app_assoc in Hnd. apply list.NoDup_app in Hnd as (Hnd & _ & _).
  split; [constructor|]; try done. lia.
Qed.

(** A step of one zone is a step of all: the other zones' nodes are untouched. *)
Lemma zones_unfocus d s zs LLs F i z Ls s' z' Ls' F' :
  zones_rep d s zs LLs F → zs !! i = Some z → LLs !! i = Some Ls →
  evolves d s z Ls F s' z' Ls' F' →
  zones_rep d s' (<[i:=z']> zs) (<[i:=Ls']> LLs) F'.
Proof.
  intros Hzr Hzi HLi Hev.
  pose proof (zones_focus _ _ _ _ _ _ _ _ Hzr Hzi HLi) as (_ & _ & Hsm).
  destruct Hzr as [Hz Hp Hr Hd Hb Hnd].
  destruct Hev as [[Hc Hlen HF Hrem _ _ _] Hbase Hpages Hperm [Hfr _] Hok].
  pose proof (all_owned_perm _ _ _ HLi) as Hall.
  pose proof (all_owned_insert _ _ _ Ls' HLi) as Hall'.
  set (R := all_owned (<[i:=[]]> LLs)) in *.
  assert (Htot : F' ++ all_owned (<[i:=Ls']> LLs) ≡ₚ F ++ all_owned LLs).
  { by rewrite Hall', Hall, !app_assoc, Hperm. }
  constructor; [|done|done|done| |by rewrite Htot].
  - apply Forall2_same_length_lookup_2; [rewrite !length_insert; by eapply Forall2_length|].
    intros j y Ly Hy HLy. destruct (decide (i = j)) as [<-|Hne].
    + rewrite list_lookup_insert_eq in Hy by (by eapply lookup_lt_Some).
      rewrite list_lookup_insert_eq in HLy by (by eapply lookup_lt_Some).
      simplify_eq. split_and!; [done|done| |by rewrite Hpages].
      unfold zone_small, zone_fits. by rewrite Hbase, Hpages.
    + rewrite list_lookup_insert_ne in Hy by done.
      rewrite list_lookup_insert_ne in HLy by done.
      pose proof (Forall2_lookup_lr _ _ _ _ _ _ Hz Hy HLy) as (Hc' & Hlen' & Hrest).
      split; [|by split]. eapply zone_frame; [|done]. intros p Hp'. apply Hfr.
      rewrite Hall, app_assoc in Hnd. apply list.NoDup_app in Hnd as (_ & Hdis & _).
      intros Hin. apply (Hdis p Hin). unfold R.
      rewrite (all_owned_perm _ j Ly) by (by rewrite list_lookup_insert_ne).
      set_solver.
  - apply Permutation_length in Htot. rewrite !length_app in Htot. lia.
Qed.

(** ** The measure of all zones *)

Fixpoint gsum (ν : Z → Z → Z) (zs : list MemoryZone) (LLs : list (list (list (Z * Z)))) : Z :=
  match zs, LLs with
  | z :: zs, Ls :: LLs => msum (at_base (base z) ν) Ls + gsum ν zs LLs
  | _, _ => 0
  end.

#[global] Instance at_base_additive bs ν : Spanning ν → Additive (at_base bs ν).
Proof.
  intros Hν i p. unfold at_base. rewrite (additive i (bs + p)).
  by rewrite Z.add_assoc.
Qed.

Lemma gsum_insert ν zs LLs i z Ls z' Ls' :
  zs !! i = Some z → LLs !! i = Some Ls → base z' = base z →
  gsum ν (<[i:=z']> zs) (<[i:=Ls']> LLs) + msum (at_base (base z) ν) Ls
  = gsum ν zs LLs + msum (at_base (base z) ν) Ls'.
Proof.
  intros Hz HL Hb. revert i LLs Hz HL.
  induction zs as [|z0 zs IH]; intros [|i] [|Ls0 LLs] Hz HL; simplify_eq/=.
  - rewrite Hb. lia.
  - specialize (IH i LLs Hz HL). lia.
Qed.

Lemma gsum_measure d s zs LLs F ν :
  zones_rep d s zs LLs F →
  foldr (λ z acc, zone_measure ν (nodes s) z + acc) 0 zs = gsum ν zs LLs.
Proof.
  intros [Hz _ _ _ _ Hnd]. apply list.NoDup_app in Hnd as (_ & _ & Hnd).
  revert LLs Hz Hnd. induction zs as [|z zs IH]; intros LLs Hz Hnd.
  - by apply Forall2_nil_inv_l in Hz as ->.
  - apply Forall2_cons_inv_l in Hz as (Ls & LLs' & (Hc & _) & Hz & ->).
    unfold all_owned in Hnd. simpl in Hnd. apply list.NoDup_app in Hnd as (Hnd & _ & Hnd').
    simpl. rewrite (IH LLs') by done. f_equal.
    unfold zone_measure. rewrite (free_lists_chain _ _ _ Hc Hnd). apply psum_msum_from.
Qed.

(** ** Well-formed allocators *)

(** [d] is the excess of the pool's counter; it is 0 except while an extended
    pool is being allocated. *)
Record buddy_ok (d : Z) (b : BuddyAllocator) (LLs : list (list (list (Z * Z))))
    (F : list Z) : Prop := mkBuddyOk {
  bo_num : (zone_num b ≤ length (zones b))%nat;
  bo_rep : zones_rep d (mem b) (live b) LLs F;
  bo_disjoint : ∀ x, gsum (span x) (live b) LLs ≤ 1;
  bo_free : free b = gsum (λ _ g, g) (live b) LLs;
}.

(** The invariant of the allocator: its lists are well formed and share no node,
    its blocks are aligned, lie in their zone and do not overlap, and [free]
    counts their pages. *)
Definition buddy_wf (b : BuddyAllocator) : Prop := ∃ LLs F, buddy_ok 0 b LLs F.

Lemma buddy_ok_measure d b LLs F ν :
  buddy_ok d b LLs F → buddy_measure ν b = gsum ν (live b) LLs.
Proof. intros [_ Hr _ _]. by eapply gsum_measure. Qed.

Lemma span_range x c g : 0 ≤ span x c g ≤ 1.
Proof. unfold span. destruct ((c <=? x) && (x <? c + g)); simpl; lia. Qed.

Lemma gsum_nonneg ν zs LLs : (∀ c i, 0 ≤ ν c (2 ^ Z.of_nat i)) → 0 ≤ gsum ν zs LLs.
Proof.
  intros Hν. revert LLs. induction zs as [|z zs IH]; intros [|Ls LLs]; simpl; try lia.
  specialize (IH LLs).
  pose proof (msum_nonneg (at_base (base z) ν) Ls) as Hm.
  unfold at_base, by_block in Hm. specialize (Hm (λ i p, Hν _ i)). unfold at_base, by_block. lia.
Qed.

(** What the invariant means for the pages: none is counted twice, and [free] is
    the number of pages in the free lists. *)
Lemma buddy_wf_meaning b :
  buddy_wf b → (∀ x, 0 ≤ free_at b x ≤ 1) ∧ free b = total_free b.
Proof.
  intros (LLs & F & Hok). split.
  - intros x. unfold free_at. rewrite (buddy_ok_measure _ _ _ _ _ Hok). split.
    + apply gsum_nonneg. intros c i. apply span_range.
    + apply Hok.
  - unfold total_free. rewrite (buddy_ok_measure _ _ _ _ _ Hok). apply Hok.
Qed.

(** ** Allocation *)

(** What one pass over the zones does: either one zone hands out a block, or
    none has a block that is large enough. *)
Definition zones_alloc_post (d : Z) (k : nat) (s : Nodes) (zs : list MemoryZone)
    (LLs : list (list (list (Z * Z)))) (F : list Z) (r : option Z) (zs' : list MemoryZone)
    (s' : Nodes) (j : nat) : Prop :=
  match r with
  | Some a => ∃ i z Ls p z' Ls' F', zs !! i = Some z ∧ LLs !! i = Some Ls ∧
      a = base z + p ∧ block_ok (pages z) k p ∧ zs' = <[i:=z']> zs ∧
      evolves d s z Ls F s' z' Ls' F' ∧
      ∀ μ, Additive μ → msum μ Ls' + μ k p = msum μ Ls
  | None => s' = s ∧ zs' = zs ∧
      ∀ i Ls o l, (j ≤ i)%nat → LLs !! i = Some Ls → (k ≤ o)%nat → Ls !! o = Some l → l = []
  end.

Lemma zones_alloc_correct d k s LLs F : ∀ suf pre,
  zones_rep d s (pre ++ suf) LLs F → 2 ^ Z.of_nat k < U64 →
  (BUDDY_ALLOC_MAX_POW ≤ S (length F))%nat →
  wp (zones_alloc suf (2 ^ Z.of_nat k)) s (λ r s',
    zones_alloc_post d k s (pre ++ suf) LLs F r.1 (pre ++ r.2) s' (length pre)).
Proof.
  induction suf as [|z suf IH]; intros pre Hzr Hk HF.
  { apply wp_ret. simpl. split_and!; [done..|]. intros i Ls o l Hi HL _ _.
    apply lookup_lt_Some in HL. rewrite <- (Forall2_length (zr_zones _ _ _ _ _ Hzr)) in HL.
    rewrite app_nil_r in HL. lia. }
  assert (Hzi : (pre ++ z :: suf) !! length pre = Some z) by by apply list_lookup_middle.
  destruct (Forall2_lookup_l _ _ _ _ _ (zr_zones _ _ _ _ _ Hzr) Hzi) as (Ls & HLi & _).
  pose proof (zones_focus _ _ _ _ _ _ _ _ Hzr Hzi HLi) as (Hrep & Hok & [Hfit Hsm]).
  simpl. apply wp_bind. eapply wp_mono; [by eapply zone_alloc_post|].
  intros [[a|] z'] s'; unfold alloc_post; simpl.
  - intros (p & Ls' & F' & -> & Hb & Hev & Hm). apply wp_ret. simpl.
    exists (length pre), z, Ls, p, z', Ls', F'. split_and!; try done.
    by rewrite insert_app_r_alt, Nat.sub_diag by lia.
  - intros (-> & -> & Hnone).
    apply wp_bind. eapply wp_mono.
    { apply (IH (pre ++ [z])); [by rewrite <- app_assoc|done|done]. }
    intros [r zs'] s'. simpl. rewrite <- !app_assoc. simpl. intros Hpost. apply wp_ret.
    simpl. unfold zones_alloc_post in *. destruct r as [a|]; [done|].
    destruct Hpost as (-> & Heq & Hall). split_and!; [done..|].
    intros i Ls' o l Hi HL Ho Hl. destruct (decide (i = length pre)) as [->|Hne].
    + simplify_eq. apply (Hnone o l); [lia|done..].
    + apply (Hall i Ls' o l); [rewrite length_app; simpl; lia|done..].
Qed.

(** No zone of [b] has a free block of [2 ^ k] pages or more. *)
Definition no_block (b : BuddyAllocator) (k : nat) : Prop :=
  ∀ z o l, z ∈ live b → (k ≤ o)%nat → free_lists (nodes (mem b)) z !! o = Some l → l = [].

(** What [alloc_pages] promises for a request that is rounded up to [2 ^ k]
    pages. *)
Definition alloc_spec (k : nat) (b : BuddyAllocator) (r : Z + AllocError)
    (b' : BuddyAllocator) : Prop :=
  match r with
  | inl a => buddy_wf b' ∧ free b' = free b - 2 ^ Z.of_nat k ∧
      (∀ x, free_at b x = free_at b' x + span x a (2 ^ Z.of_nat k)) ∧
      ∃ z, z ∈ live b ∧ base z ≤ a ∧ a + 2 ^ Z.of_nat k ≤ base z + pages z ∧
           (2 ^ Z.of_nat k | a - base z)
  | inr OutOfMemory => b' = b ∧ no_block b k
  end.

Lemma live_of_set zs b :
  length zs = length (live b) → (zone_num b ≤ length (zones b))%nat →
  take (zone_num b) (zs ++ drop (zone_num b) (zones b)) = zs.
Proof.
  intros Hlen Hn. unfold live in Hlen. rewrite length_take in Hlen.
  rewrite take_app_le by lia. apply take_ge. lia.
Qed.

Lemma total_pages_measure k p bs : at_base bs (λ _ g, g) k p = 2 ^ Z.of_nat k.
Proof. done. Qed.

Lemma alloc_from_zones_correct b LLs F n k :
  buddy_ok 0 b LLs F → ceil_to_power_2 n = Ok (2 ^ Z.of_nat k) →
  (BUDDY_ALLOC_MAX_POW ≤ S (length F))%nat →
  wp (alloc_from_zones n) b (λ r b', alloc_spec k b r b').
Proof.
  intros Hok Hn HF. pose proof Hok as [Hnum Hrep Hdis Hfree].
  assert (Hk : 2 ^ Z.of_nat k < U64).
  { by apply ceil_to_power_2_bound in Hn. }
  unfold alloc_from_zones. apply wp_bind. eapply wp_lift; [exact Hn|].
  apply wp_bind. unfold live_zones. apply wp_bind, wp_get. apply wp_bind.
  eapply wp_lift; [by rewrite bool_decide_eq_true_2|]. apply wp_ret.
  pose proof (zones_alloc_correct 0 k (mem b) LLs F (live b) [] Hrep Hk HF) as Hz.
  apply wp_Ok in Hz as ([r zs'] & s' & Hrun & Hpost). simpl in Hpost.
  apply wp_bind. unfold wp at 1, on_nodes. fold (live b). rewrite Hrun. simpl.
  apply wp_bind. unfold set_live_zones. apply wp_bind, wp_get. apply wp_modify. simpl.
  destruct r as [a|]; simpl in Hpost.
  - destruct Hpost as (i & z & Ls & p & z' & Ls' & F' & Hzi & HLi & -> & Hblk & -> & Hev & Hm).
    assert (Hlive : live (mkBuddy (free b - 2 ^ Z.of_nat k)
        (<[i:=z']> (live b) ++ drop (zone_num b) (zones b)) (zone_num b) s'
        (extended_pools b) (ext_next b)) = <[i:=z']> (live b)).
    { unfold live at 1. simpl. apply live_of_set; [by rewrite length_insert|done]. }
    assert (Hg : ∀ ν, Spanning ν → gsum ν (<[i:=z']> (live b)) (<[i:=Ls']> LLs)
        + ν (base z + p) (2 ^ Z.of_nat k) = gsum ν (live b) LLs).
    { intros ν Hν. pose proof (gsum_insert ν _ _ _ _ _ z' Ls' Hzi HLi (ev_base _ _ _ _ _ _ _ _ _ Hev)).
      specialize (Hm (at_base (base z) ν) _). unfold at_base at 2, by_block in Hm. lia. }
    assert (Hpos : 2 ^ Z.of_nat k ≤ free b).
    { rewrite Hfree, <- (Hg _ length_spanning).
      pose proof (gsum_nonneg (λ _ g, g) (<[i:=z']> (live b)) (<[i:=Ls']> LLs)) as H0.
      specialize (H0 (λ _ i, Z.lt_le_incl _ _ (pow2_pos i))). lia. }
    apply wp_bind, wp_get. apply wp_bind. eapply wp_lift; [by apply usub_Ok|].
    apply wp_bind. apply wp_modify, wp_ret. simpl.
    assert (Hok' : buddy_ok 0 (mkBuddy (free b - 2 ^ Z.of_nat k)
        (<[i:=z']> (live b) ++ drop (zone_num b) (zones b)) (zone_num b) s'
        (extended_pools b) (ext_next b)) (<[i:=Ls']> LLs) F').
    { constructor; rewrite ?Hlive; simpl.
      - rewrite length_app, length_insert, length_drop. unfold live. rewrite length_take. lia.
      - by eapply zones_unfocus.
      - intros x. specialize (Hdis x). rewrite <- (Hg _ (span_spanning x)) in Hdis.
        pose proof (span_range x (base z + p) (2 ^ Z.of_nat k)). lia.
      - rewrite Hfree, <- (Hg _ length_spanning). lia. }
    split_and!; [by eexists _, _|done| |].
    + intros x. unfold free_at.
      rewrite (buddy_ok_measure _ _ _ _ _ Hok'), (buddy_ok_measure _ _ _ _ _ Hok), Hlive.
      by rewrite (Hg _ (span_spanning x)).
    + destruct Hblk as (? & ? & Hdiv). exists z. split_and!; [|lia|lia|].
      * by eapply list_elem_of_lookup_2.
      * by replace (base z + p - base z) with p by lia.
  - destruct Hpost as (-> & -> & Hall). apply wp_ret. simpl. split.
    + unfold live. rewrite take_drop. by destruct b.
    + intros z o l Hin Ho Hl. apply list_elem_of_lookup in Hin as [i Hi].
      destruct (Forall2_lookup_l _ _ _ _ _ (zr_zones _ _ _ _ _ Hrep) Hi) as (Ls & HLi & Hc & _).
      pose proof (zones_focus _ _ _ _ _ _ _ _ Hrep Hi HLi) as (Hr & _).
      pose proof (rep_nodup _ _ _ _ _ Hr) as Hnd. apply list.NoDup_app in Hnd as (_ & _ & Hnd).
      rewrite (free_lists_chain _ _ _ Hc Hnd) in Hl. unfold pages_of in Hl.
      rewrite list_lookup_fmap in Hl. destruct (Ls !! o) as [l'|] eqn:Ho'; [|done].
      simpl in Hl. injection Hl as <-.
      by rewrite (Hall i Ls o l' (Nat.le_0_l _) HLi Ho Ho').
Qed.

Lemma alloc_pages_enough b LLs F n k :
  buddy_ok 0 b LLs F → MIN_POOL_REMAIN < freenode_remain (pool (mem b)) →
  ceil_to_power_2 n = Ok (2 ^ Z.of_nat k) →
  wp (alloc_pages n) b (λ r b', alloc_spec k b r b').
Proof.
  intros Hok Hrem Hn. pose proof (zr_remain _ _ _ _ _ (bo_rep _ _ _ _ Hok)) as Hlen.
  unfold alloc_pages, alloc_pages_fuel; fold alloc_pages_fuel.
  apply wp_bind, wp_get. rewrite (proj2 (Z.leb_gt _ _)) by done.
  apply wp_bind, wp_ret. eapply alloc_from_zones_correct; [done..|].
  unfold MIN_POOL_REMAIN in Hrem. lia.
Qed.

(** ** Freeing *)

(** The zone whose range contains page [a], with its index. *)
Definition zone_of (b : BuddyAllocator) (a : Z) : option (nat * MemoryZone) :=
  list_find (λ z, base z ≤ a < base z + pages z) (live b).

Lemma zones_free_correct d k s LLs F a : ∀ suf pre i z Ls,
  zones_rep d s (pre ++ suf) LLs F →
  list_find (λ z, base z ≤ a < base z + pages z) suf = Some (i, z) →
  LLs !! (length pre + i)%nat = Some Ls → (1 ≤ length F)%nat →
  block_ok (pages z) k (a - base z) →
  free_guard (pages_of Ls) k (a - base z) = true →
  wp (zones_free suf a (2 ^ Z.of_nat k)) s (λ r s', ∃ z' Ls' F',
    r = (true, <[i:=z']> suf) ∧ evolves d s z Ls F s' z' Ls' F' ∧
    ∀ μ, Additive μ → msum μ Ls' = msum μ Ls + μ k (a - base z)).
Proof.
  induction suf as [|y suf IH]; intros pre i z Ls Hzr Hfind HL HF Hblk Hg; [done|].
  assert (Hyi : (pre ++ y :: suf) !! length pre = Some y) by by apply list_lookup_middle.
  destruct (Forall2_lookup_l _ _ _ _ _ (zr_zones _ _ _ _ _ Hzr) Hyi) as (Ly & HLy & _).
  pose proof (zones_focus _ _ _ _ _ _ _ _ Hzr Hyi HLy) as (Hrep & Hok & Hsm).
  pose proof Hsm as ((Hy0 & Hy1) & _). simpl in Hfind |- *.
  apply wp_bind. eapply wp_lift; [by apply uadd_Ok|].
  destruct (decide (base y ≤ a < base y + pages y)) as [Hin|Hout].
  - injection Hfind as <- <-. rewrite Nat.add_0_r in HL. simplify_eq.
    rewrite (proj2 (Z.leb_le _ _)), (proj2 (Z.ltb_lt _ _)) by lia. simpl.
    replace a with (base y + (a - base y)) at 1 by lia.
    apply wp_bind. eapply wp_mono; [by eapply zone_free_post|].
    intros z' s' (Ls' & F' & Hev & Hm). apply wp_ret. by exists z', Ls', F'.
  - destruct (list_find _ suf) as [[i' z0]|] eqn:Hf; [|done]. simpl in Hfind.
    injection Hfind as <- <-.
    destruct ((base y <=? a) && (a <? base y + pages y)) eqn:E; [lia|].
    apply wp_bind. eapply wp_mono.
    { apply (IH (pre ++ [y]) i' z0 Ls); [by rewrite <- app_assoc|done| |done..].
      rewrite length_app. simpl. by rewrite <- Nat.add_assoc. }
    intros [r zs'] s' (z' & Ls' & F' & [= -> ->] & Hev & Hm). apply wp_ret.
    by exists z', Ls', F'.
Qed.

(** What [free_pages] promises for a block of [2 ^ k] pages at [a]. *)
Definition free_spec (k : nat) (a : Z) (b b' : BuddyAllocator) : Prop :=
  buddy_wf b' ∧ free b' = free b + 2 ^ Z.of_nat k ∧
  ∀ x, free_at b' x = free_at b x + span x a (2 ^ Z.of_nat k).

Lemma free_pages_wp b LLs F n k a i z :
  buddy_ok 0 b LLs F → 1 ≤ freenode_remain (pool (mem b)) →
  ceil_to_power_2 n = Ok (2 ^ Z.of_nat k) → zone_of b a = Some (i, z) →
  block_ok (pages z) k (a - base z) →
  (∀ x, a ≤ x < a + 2 ^ Z.of_nat k → free_at b x = 0) →
  free_guard (free_lists (nodes (mem b)) z) k (a - base z) = true →
  free b + 2 ^ Z.of_nat k < U64 →
  wp (free_pages a n) b (λ _ b', free_spec k a b b').
Proof.
  intros Hok Hrem Hn Hzone Hblk Hused Hg Hfb. pose proof Hok as [Hnum Hrep Hdis Hfree].
  pose proof (list_find_Some (λ z, base z ≤ a < base z + pages z) (live b) i z) as [Hs _].
  destruct (Hs Hzone) as (Hzi & _ & _). clear Hs.
  destruct (Forall2_lookup_l _ _ _ _ _ (zr_zones _ _ _ _ _ Hrep) Hzi) as (Ls & HLi & Hc & _).
  pose proof (zones_focus _ _ _ _ _ _ _ _ Hrep Hzi HLi) as (Hr & _).
  pose proof (rep_nodup _ _ _ _ _ Hr) as Hnd. apply list.NoDup_app in Hnd as (_ & _ & Hnd).
  rewrite (free_lists_chain _ _ _ Hc Hnd) in Hg.
  pose proof (zr_remain _ _ _ _ _ Hrep) as Hlen.
  pose proof (zones_free_correct 0 k (mem b) LLs F a (live b) [] i z Ls Hrep Hzone HLi
    ltac:(lia) Hblk Hg) as Hrun.
  apply wp_Ok in Hrun as ([r zs'] & s' & Hrun & z' & Ls' & F' & [= -> ->] & Hev & Hm).
  unfold free_pages. apply wp_bind. eapply wp_lift; [exact Hn|].
  apply wp_bind. unfold live_zones. apply wp_bind, wp_get. apply wp_bind.
  eapply wp_lift; [by rewrite bool_decide_eq_true_2|]. apply wp_ret.
  apply wp_bind. unfold wp at 1, on_nodes. fold (live b). rewrite Hrun. simpl.
  apply wp_bind. unfold set_live_zones. apply wp_bind, wp_get. apply wp_modify. simpl.
  apply wp_bind, wp_get. apply wp_bind. eapply wp_lift; [by apply uadd_Ok|].
  apply wp_modify. simpl.
  set (b' := mkBuddy _ _ _ _ _ _).
  assert (Hlive : live b' = <[i:=z']> (live b)).
  { unfold live at 1. simpl. apply live_of_set; [by rewrite length_insert|done]. }
  assert (Hgs : ∀ ν, Spanning ν → gsum ν (<[i:=z']> (live b)) (<[i:=Ls']> LLs)
      = gsum ν (live b) LLs + ν a (2 ^ Z.of_nat k)).
  { intros ν Hν. pose proof (gsum_insert ν _ _ _ _ _ z' Ls' Hzi HLi (ev_base _ _ _ _ _ _ _ _ _ Hev)).
    specialize (Hm (at_base (base z) ν) _). unfold at_base at 3, by_block in Hm.
    replace (base z + (a - base z)) with a in Hm by lia. lia. }
  assert (Hok' : buddy_ok 0 b' (<[i:=Ls']> LLs) F').
  { constructor; rewrite ?Hlive; simpl.
    - rewrite length_app, length_insert, length_drop. unfold live. rewrite length_take. lia.
    - by eapply zones_unfocus.
    - intros x. rewrite (Hgs _ (span_spanning x)). specialize (Hdis x). specialize (Hused x).
      unfold free_at in Hused. rewrite (buddy_ok_measure _ _ _ _ _ Hok) in Hused.
      unfold span at 2. destruct (Z.leb_spec a x), (Z.ltb_spec x (a + 2 ^ Z.of_nat k)); simpl; lia.
    - by rewrite Hfree, (Hgs _ length_spanning). }
  split_and!; [by eexists _, _|done|].
  intros x. unfold free_at.
  rewrite (buddy_ok_measure _ _ _ _ _ Hok'), (buddy_ok_measure _ _ _ _ _ Hok), Hlive.
  by rewrite (Hgs _ (span_spanning x)).
Qed.

(** ** Adding a zone *)

Lemma gsum_app ν zs LLs z Ls :
  length zs = length LLs →
  gsum ν (zs ++ [z]) (LLs ++ [Ls]) = gsum ν zs LLs + msum (at_base (base z) ν) Ls.
Proof.
  revert LLs. induction zs as [|y zs IH]; intros [|Ly LLs] Hlen; try done; simpl.
  - lia.
  - rewrite IH by (simpl in Hlen; lia). lia.
Qed.

Lemma msum_from_empty μ i n : msum_from μ i (replicate n []) = 0.
Proof. revert i. induction n as [|n IH]; intros i; simpl; [done|]. by rewrite IH. Qed.

Lemma owned_empty n : owned (replicate n []) = [].
Proof. induction n as [|n IH]; [done|]. unfold owned in *. simpl. by rewrite IH. Qed.

#[global] Instance shift_spanning bs ν : Spanning ν → Spanning (λ c, ν (bs + c)).
Proof.
  intros Hν. split; intros.
  - apply span_0.
  - rewrite span_add by done. by rewrite Z.add_assoc.
Qed.

Definition empty_zone (bs pgs : Z) : MemoryZone :=
  mkZone bs pgs (replicate BUDDY_ALLOC_MAX_POW None).

Lemma empty_zone_good h bs pgs :
  zone_small (empty_zone bs pgs) →
  zone_good h (empty_zone bs pgs) (replicate BUDDY_ALLOC_MAX_POW []).
Proof.
  intros Hsm. split_and!; [|by rewrite length_replicate|done|].
  - apply Forall2_replicate. done.
  - intros i l p Hl Hp. apply lookup_replicate in Hl as [-> _]. set_solver.
Qed.

(** A zone of [pgs] pages at [bs] becomes free as a whole. *)
Definition add_zone_spec (bs pgs : Z) (b b' : BuddyAllocator) : Prop :=
  buddy_wf b' ∧ free b' = free b + pgs ∧ zone_num b' = S (zone_num b) ∧
  freenode_remain (pool (mem b)) ≤ freenode_remain (pool (mem b')) + MIN_POOL_REMAIN ∧
  ∀ x, free_at b' x = free_at b x + span x bs pgs.

Lemma add_zone_wp b LLs F bs pgs :
  buddy_ok 0 b LLs F → (zone_num b < length (zones b))%nat →
  MIN_POOL_REMAIN ≤ freenode_remain (pool (mem b)) →
  zone_small (empty_zone bs pgs) → 0 ≤ pgs →
  (∀ x, bs ≤ x < bs + pgs → free_at b x = 0) → free b + pgs < U64 →
  wp (add_zone bs pgs) b (λ _ b', add_zone_spec bs pgs b b').
Proof.
  intros Hok Hnum Hrem Hsm Hpgs Hused Hfb. pose proof Hok as [_ Hrep Hdis Hfree].
  pose proof Hrep as [Hz HF Hr Hd Hb Hnd].
  set (zs0 := live b ++ [empty_zone bs pgs]).
  set (LLs0 := LLs ++ [replicate BUDDY_ALLOC_MAX_POW []]).
  pose proof (Forall2_length Hz) as Hlen.
  assert (Hown : all_owned LLs0 = all_owned LLs).
  { unfold all_owned, LLs0. rewrite fmap_app, concat_app. cbn [fmap list_fmap concat].
    by rewrite owned_empty, !app_nil_r. }
  assert (Hrep0 : zones_rep 0 (mem b) zs0 LLs0 F).
  { constructor; rewrite ?Hown; try done. apply Forall2_app; [done|].
    constructor; [by apply empty_zone_good|constructor]. }
  assert (Hzi : zs0 !! length (live b) = Some (empty_zone bs pgs)).
  { unfold zs0. by apply list_lookup_middle. }
  assert (HLi : LLs0 !! length (live b) = Some (replicate BUDDY_ALLOC_MAX_POW [])).
  { unfold LLs0. rewrite Hlen. by apply list_lookup_middle. }
  pose proof (zones_focus _ _ _ _ _ _ _ _ Hrep0 Hzi HLi) as (Hr0 & Hok0 & _).
  pose proof Hsm as (Hfit & Hsm1 & _). simpl in Hsm1. unfold MIN_POOL_REMAIN in Hrem.
  pose proof (zone_new_loop_evolves 0 BUDDY_ALLOC_MAX_POW 64 (mem b) (empty_zone bs pgs) _ F pgs 0
    Hr0 Hok0 Hfit ltac:(lia) Hpgs ltac:(done) Hsm1 ltac:(apply Z.divide_0_r)
    ltac:(vm_compute; lia) ltac:(lia) ltac:(lia)) as Hnew.
  apply wp_Ok in Hnew as (z' & s' & Hrun & Ls' & F' & Hev & HFl & Hm).
  unfold add_zone. apply wp_bind. unfold wp at 1, on_nodes, MemoryZone_new.
  fold (empty_zone bs pgs). rewrite Hrun. simpl.
  apply wp_bind, wp_get. apply wp_bind. eapply wp_lift; [by apply update_Ok|].
  apply wp_bind. apply wp_modify. simpl. apply wp_bind.
  eapply wp_lift; [by apply uadd_Ok|]. apply wp_modify. simpl.
  set (b' := mkBuddy _ _ _ _ _ _).
  pose proof (zones_unfocus _ _ _ _ _ _ _ _ _ _ _ _ Hrep0 Hzi HLi Hev) as Hrep'.
  unfold zs0, LLs0 in Hrep'. rewrite Hlen in Hrep' at 2.
  rewrite !insert_app_r_alt, !Nat.sub_diag in Hrep' by lia. simpl in Hrep'.
  assert (Hlive : live b' = live b ++ [z']).
  { unfold live, b'. simpl. rewrite (take_S_r _ _ z').
    - by rewrite take_insert_ge by lia.
    - by apply list_lookup_insert_eq. }
  assert (Hgs : ∀ ν, Spanning ν → gsum ν (live b ++ [z']) (LLs ++ [Ls'])
      = gsum ν (live b) LLs + ν bs pgs).
  { intros ν Hν. rewrite gsum_app by done. rewrite (ev_base _ _ _ _ _ _ _ _ _ Hev).
    specialize (Hm (λ c, ν (bs + c)) _). unfold msum at 2 in Hm. rewrite msum_from_empty in Hm.
    rewrite Z.add_0_r, Z.add_0_l in Hm. simpl. unfold at_base, by_block in *. by rewrite <- Hm. }
  assert (Hok' : buddy_ok 0 b' (LLs ++ [Ls']) F').
  { constructor; rewrite ?Hlive.
    - simpl. rewrite length_insert. lia.
    - done.
    - intros x. rewrite (Hgs _ (span_spanning x)). specialize (Hdis x). specialize (Hused x).
      unfold free_at in Hused. rewrite (buddy_ok_measure _ _ _ _ _ Hok) in Hused.
      unfold span at 2. destruct (Z.leb_spec bs x), (Z.ltb_spec x (bs + pgs)); simpl; lia.
    - rewrite (Hgs _ length_spanning). simpl. by rewrite Hfree. }
  split_and!; [by eexists _, _|done|done| |].
  - rewrite Hr, (zr_remain _ _ _ _ _ (bo_rep _ _ _ _ Hok')). unfold MIN_POOL_REMAIN. lia.
  - intros x. unfold free_at.
    rewrite (buddy_ok_measure _ _ _ _ _ Hok'), (buddy_ok_measure _ _ _ _ _ Hok), Hlive.
    by rewrite (Hgs _ (span_spanning x)).
Qed.

(** ** Initialisation *)

Lemma node_at_inj base i j : node_at base i = node_at base j → i = j.
Proof. unfold node_at, FREE_NODE_SIZE. lia. Qed.

Lemma link_nodes_wp addr n : ∀ i s,
  (∀ j, (i ≤ j < i + S n)%nat → is_Some (nodes s !! node_at addr j)) →
  wp (link_nodes addr i (S n)) s (λ _ s', pool s' = pool s ∧
    (∀ j, (j < i)%nat → nodes s' !! node_at addr j = nodes s !! node_at addr j) ∧
    fchain (nodes s') (Some (node_at addr i)) (node_at addr <$> seq i (S n))).
Proof.
  induction n as [|n IH]; intros i s Hall.
  - destruct (Hall i ltac:(lia)) as [nd Hnd]. simpl. unfold wp.
    rewrite (set_next_run _ _ _ _ Hnd). simpl. split_and!; [done| |done|].
    + intros j Hj. apply lookup_insert_ne. intros Heq%node_at_inj. lia.
    + do 2 eexists. by rewrite lookup_insert_eq.
  - destruct (Hall i ltac:(lia)) as [nd Hnd].
    change (link_nodes addr i (S (S n))) with
      (_ ← set_next (node_at addr i) (Some (node_at addr (S i))); link_nodes addr (S i) (S n)).
    apply wp_bind. unfold wp at 1. rewrite (set_next_run _ _ _ _ Hnd). simpl.
    eapply wp_mono; [apply (IH (S i))|].
    + intros j Hj. simpl. rewrite lookup_insert_ne by (intros Heq%node_at_inj; lia).
      apply Hall. lia.
    + simpl. intros _ s' (Hp & Hlt & Hf). split_and!; [done| |done|].
      * intros j Hj. rewrite Hlt by lia. apply lookup_insert_ne.
        intros Heq%node_at_inj. lia.
      * do 2 eexists. rewrite Hlt by lia. rewrite lookup_insert_eq.
        split; [done|]. exact Hf.
Qed.

Lemma node_array_lookup addr n j nd :
  (j < n)%nat →
  (list_to_map ((λ i, (node_at addr i, nd)) <$> seq 0 n) : heap) !! node_at addr j = Some nd.
Proof.
  intros Hj. apply elem_of_list_to_map_1.
  - rewrite <- list_fmap_compose.
    apply (NoDup_fmap_2_strong (A:=nat)); [|apply NoDup_seq].
    intros x y _ _. apply node_at_inj.
  - apply list_elem_of_fmap. exists j. split; [done|]. apply elem_of_seq. lia.
Qed.

#[local] Opaque NODE_COMPATIBILITY.

Lemma buddy_init_wp addr :
  wp buddy_init (BuddyAllocator_default addr) (λ _ b,
    buddy_ok 0 b [] (node_at addr <$> seq 0 NODE_COMPATIBILITY) ∧
    zone_num b = 0%nat ∧ length (zones b) = MEM_ZONES ∧ free b = 0 ∧
    freenode_remain (pool (mem b)) = Z.of_nat NODE_COMPATIBILITY ∧ ∀ x, free_at b x = 0).
Proof.
  assert (Hn : NODE_COMPATIBILITY = S 511) by reflexivity.
  set (s0 := mem (BuddyAllocator_default addr)).
  set (s1 := mkNodes (nodes s0) (mkPool addr (Z.of_nat NODE_COMPATIBILITY) (Some addr))).
  pose proof (link_nodes_wp addr 511 0 s1) as Hl. rewrite <- Hn in Hl.
  apply wp_Ok in Hl as ([] & s' & Hrun & Hp & _ & Hf).
  2: { intros j Hj. eexists. apply node_array_lookup. lia. }
  assert (Hinit : buddy_init (BuddyAllocator_default addr) =
    Ok (tt, mkBuddy 0 (replicate MEM_ZONES MemoryZone_default) 0 s' None ∅)).
  { assert (FreeNodePool_init s0 = link_nodes addr 0 NODE_COMPATIBILITY s1) as Hi by reflexivity.
    unfold buddy_init, on_nodes. fold s0. by rewrite Hi, Hrun. }
  unfold wp. rewrite Hinit.
  assert (node_at addr 0 = addr) as Ha by (unfold node_at; lia). rewrite Ha in Hf.
  split_and!; [constructor; simpl|done|done|done|simpl; by rewrite Hp|done].
  - lia.
  - constructor; simpl; try done; try by rewrite Hp.
    + rewrite app_nil_r. apply (NoDup_fmap_2_strong (A:=nat)); [|apply NoDup_seq].
      intros x y _ _. apply node_at_inj.
  - intros x. unfold live. simpl. lia.
  - done.
Qed.
