(* ===== verification/BuddyTheorems.v ===== *)
(** * The buddy allocator: theorems

    Allocation, freeing and the hand-over of memory do what the rest of the
    kernel relies on; and the two ways in which freeing falls short of it. *)

From S2P Require Import Prelude Page Buddy BuddyLists BuddyZone BuddySpec.

(** ** Sequences of operations *)

Inductive op := OpAlloc (n : Z) | OpFree (a n : Z).

(** The results of the allocations of a sequence of calls. *)
Fixpoint run_ops (ops : list op) : ST BuddyAllocator (list (Z + AllocError)) :=
  match ops with
  | [] => mret []
  | OpAlloc n :: ops => r ← alloc_pages n; rs ← run_ops ops; mret (r :: rs)
  | OpFree a n :: ops => _ ← free_pages a n; run_ops ops
  end.

(** Successful allocations, each made while the pool has nodes to spare: the
    blocks are given with their order. *)
Inductive alloc_seq : BuddyAllocator → list (Z * nat) → BuddyAllocator → Prop :=
| alloc_seq_nil b : alloc_seq b [] b
| alloc_seq_cons b n k a b1 bl b2 :
    MIN_POOL_REMAIN < freenode_remain (pool (mem b)) →
    ceil_to_power_2 n = Ok (2 ^ Z.of_nat k) →
    alloc_pages n b = Ok (inl a, b1) →
    alloc_seq b1 bl b2 →
    alloc_seq b ((a, k) :: bl) b2.

Fixpoint blocks_at (x : Z) (bl : list (Z * nat)) : Z :=
  match bl with
  | [] => 0
  | (a, k) :: bl => span x a (2 ^ Z.of_nat k) + blocks_at x bl
  end.

Lemma blocks_at_lookup x bl i a k :
  bl !! i = Some (a, k) → span x a (2 ^ Z.of_nat k) ≤ blocks_at x bl.
Proof.
  assert (Hnn : ∀ bl, 0 ≤ blocks_at x bl).
  { clear. induction bl as [|[a k] bl IH]; simpl; [lia|].
    pose proof (span_range x a (2 ^ Z.of_nat k)). lia. }
  revert i. induction bl as [|[a' k'] bl IH]; intros [|i] Hi; simplify_eq/=.
  - specialize (Hnn bl). lia.
  - specialize (IH i Hi). pose proof (span_range x a' (2 ^ Z.of_nat k')). lia.
Qed.

Lemma blocks_at_two x bl i j a k a' k' :
  (i < j)%nat → bl !! i = Some (a, k) → bl !! j = Some (a', k') →
  span x a (2 ^ Z.of_nat k) + span x a' (2 ^ Z.of_nat k') ≤ blocks_at x bl.
Proof.
  revert i j. induction bl as [|[a0 k0] bl IH]; intros [|i] [|j] Hij Hi Hj;
    simplify_eq/=; try lia.
  - pose proof (blocks_at_lookup x _ _ _ _ Hj). lia.
  - specialize (IH i j ltac:(lia) Hi Hj). pose proof (span_range x a0 (2 ^ Z.of_nat k0)). lia.
Qed.

Lemma alloc_seq_count b bl b' x :
  buddy_wf b → alloc_seq b bl b' →
  free_at b x = free_at b' x + blocks_at x bl ∧ buddy_wf b'.
Proof.
  intros Hwf Hseq. induction Hseq as [b|b n k a b1 bl b2 Hrem Hn Hrun _ IH]; simpl.
  { split; [lia|done]. }
  destruct Hwf as (LLs & F & Hok).
  pose proof (alloc_pages_enough _ _ _ _ _ Hok Hrem Hn) as Hwp. unfold wp in Hwp.
  rewrite Hrun in Hwp. destruct Hwp as (Hwf1 & _ & Hat & _).
  specialize (IH Hwf1) as [IH Hwf2]. split; [|done]. rewrite (Hat x), IH. lia.
Qed.

(** The boot sequence establishes the invariant. *)
Lemma buddy_boot_ok addr start n :
  0 ≤ start → 0 ≤ n < 2 ^ 36 → start < 2 ^ 63 →
  ∃ b, buddy_boot addr start n = Ok b ∧ buddy_wf b ∧ free b = n ∧
    MIN_POOL_REMAIN < freenode_remain (pool (mem b)) ∧
    ∀ x, free_at b x = span x start n.
Proof.
  intros Hs Hn Hmax.
  pose proof (buddy_init_wp addr) as Hinit.
  apply wp_Ok in Hinit as ([] & b & Hrun & Hok & Hnum & Hlen & Hfree & Hrem & Hat).
  pose proof (add_zone_wp b _ _ start n Hok) as Hadd.
  rewrite Hnum, Hlen, Hfree, Hrem in Hadd.
  apply wp_Ok in Hadd as ([] & b' & Hrun' & Hwf & Hfree' & _ & Hrem' & Hat').
  - exists b'. unfold buddy_boot. rewrite Hrun. simpl. rewrite Hrun'. simpl.
    rewrite Hfree in Hfree'. rewrite Hrem in Hrem'. split_and!; try done.
    + change (Z.of_nat NODE_COMPATIBILITY) with 512 in Hrem'.
      change MIN_POOL_REMAIN with 36 in *. lia.
    + intros x. by rewrite Hat', Hat.
  - unfold MEM_ZONES. lia.
  - by vm_compute.
  - unfold zone_small, zone_fits, empty_zone, U64. simpl base. simpl pages.
    change (2 ^ Z.of_nat BUDDY_ALLOC_MAX_POW) with (2 ^ 36). lia.
  - lia.
  - intros x _. apply Hat.
  - unfold U64. lia.
Qed.

(** ** A small allocator to try the theorems on *)

Definition demo_buddy : BuddyAllocator :=
  match buddy_boot 0x80000000 1000 8 with Ok b => b | _ => BuddyAllocator_default 0 end.

(** The allocator after a request for [n] pages. *)
Definition after (n : Z) (b : BuddyAllocator) : BuddyAllocator :=
  match alloc_pages n b with Ok (_, b') => b' | _ => b end.

Definition alloc_gives (n : Z) (b : BuddyAllocator) (a : Z) : bool :=
  match alloc_pages n b with Ok (inl a', _) => a' =? a | _ => false end.

Lemma alloc_gives_run n b a :
  alloc_gives n b a = true → alloc_pages n b = Ok (inl a, after n b).
Proof.
  unfold alloc_gives, after. destruct (alloc_pages n b) as [[[a'|] b']| | |]; try done.
  by intros ->%Z.eqb_eq.
Qed.

Lemma demo_buddy_wf :
  buddy_wf demo_buddy ∧ MIN_POOL_REMAIN < freenode_remain (pool (mem demo_buddy)).
Proof.
  destruct (buddy_boot_ok 0x80000000 1000 8) as (b & Hrun & Hwf & _ & Hrem & _); [lia..|].
  unfold demo_buddy. rewrite Hrun. split; [exact Hwf|exact Hrem].
Qed.

Lemma after_wf b n k :
  buddy_wf b → MIN_POOL_REMAIN < freenode_remain (pool (mem b)) →
  ceil_to_power_2 n = Ok (2 ^ Z.of_nat k) → buddy_wf (after n b).
Proof.
  intros (LLs & F & Hok) Hrem Hn.
  pose proof (alloc_pages_enough _ _ _ n k Hok Hrem Hn) as Hwp.
  apply wp_Ok in Hwp as (r & b' & Hrun & Hspec). unfold after. rewrite Hrun.
  destruct r as [a|[]]; [apply Hspec|]. destruct Hspec as [-> _]. by exists LLs, F.
Qed.

(** ** Theorems *)

(** C1: [alloc_pages] returns, without a panic, a block that was free: it is
    aligned to its size inside a zone, each of its pages leaves the free lists,
    no other page does, the invariant is kept and [free] drops by the block's
    size; it reports [OutOfMemory] only when no zone has a large enough block,
    and then nothing has changed. *)
Theorem alloc_pages_correct b n k :
  buddy_wf b →
  MIN_POOL_REMAIN < freenode_remain (pool (mem b)) →
  ceil_to_power_2 n = Ok (2 ^ Z.of_nat k) →
  ∃ r b', alloc_pages n b = Ok (r, b') ∧ alloc_spec k b r b'.
Proof.
  intros (LLs & F & Hok) Hrem Hn.
  apply wp_Ok. by eapply alloc_pages_enough.
Qed.

Lemma alloc_pages_correct_witness :
  ∃ r b', alloc_pages 3 demo_buddy = Ok (r, b') ∧ alloc_spec 2 demo_buddy r b'.
Proof.
  apply (alloc_pages_correct demo_buddy 3 2).
  - apply demo_buddy_wf.
  - apply demo_buddy_wf.
  - reflexivity.
Defined.

(** C2: [free_pages] of a block in use, when no order without the block's buddy
    is followed by one where the merge loop finds a block ([free_guard]): it
    returns, exactly the pages of the block become free, the invariant is kept
    and [free] grows by the block's size. *)
Theorem free_pages_correct b n k a i z :
  buddy_wf b →
  1 ≤ freenode_remain (pool (mem b)) →
  ceil_to_power_2 n = Ok (2 ^ Z.of_nat k) →
  zone_of b a = Some (i, z) →
  block_ok (pages z) k (a - base z) →
  (∀ x, a ≤ x < a + 2 ^ Z.of_nat k → free_at b x = 0) →
  free_guard (free_lists (nodes (mem b)) z) k (a - base z) = true →
  free b + 2 ^ Z.of_nat k < U64 →
  ∃ b', free_pages a n b = Ok (tt, b') ∧ free_spec k a b b'.
Proof.
  intros (LLs & F & Hok) Hrem Hn Hz Hblk Hused Hg Hb.
  pose proof (free_pages_wp _ _ _ _ _ _ _ _ Hok Hrem Hn Hz Hblk Hused Hg Hb) as Hwp.
  apply wp_Ok in Hwp as ([] & b' & Hrun & Hspec). by exists b'.
Qed.

Lemma free_pages_correct_witness :
  ∃ b', free_pages 1000 1 (after 1 demo_buddy) = Ok (tt, b') ∧
    free_spec 0 1000 (after 1 demo_buddy) b'.
Proof.
  set (ok := λ b, match zone_of b 1000 with
    | Some (_, z) => (base z =? 1000) && (pages z =? 8) &&
        free_guard (free_lists (nodes (mem b)) z) 0 0
    | None => false end).
  assert (Hok : ok (after 1 demo_buddy) = true) by (vm_compute; reflexivity).
  unfold ok in Hok. destruct (zone_of (after 1 demo_buddy) 1000) as [[i z]|] eqn:Hz; [|done].
  apply andb_true_iff in Hok as [[Hb Hp]%andb_true_iff Hg].
  apply Z.eqb_eq in Hb. apply Z.eqb_eq in Hp.
  apply (free_pages_correct (after 1 demo_buddy) 1 0 1000 i z).
  - exact (after_wf _ 1 0 (proj1 demo_buddy_wf) (proj2 demo_buddy_wf) eq_refl).
  - vm_compute. discriminate.
  - reflexivity.
  - exact Hz.
  - rewrite Hb, Hp. split_and!; [done|done|]. apply Z.divide_1_l.
  - intros x Hx. assert (x = 1000) as -> by (simpl in Hx; lia). vm_compute. reflexivity.
  - rewrite Hb. exact Hg.
  - vm_compute. reflexivity.
Defined.

(** C3: blocks handed out by a sequence of allocations never overlap. *)
Theorem alloc_seq_disjoint b bl b' i j a k a' k' :
  buddy_wf b → alloc_seq b bl b' → (i < j)%nat →
  bl !! i = Some (a, k) → bl !! j = Some (a', k') →
  a + 2 ^ Z.of_nat k ≤ a' ∨ a' + 2 ^ Z.of_nat k' ≤ a.
Proof.
  intros Hwf Hseq Hij Hi Hj.
  pose proof (buddy_wf_meaning b Hwf) as [Hone _]. set (x := Z.max a a').
  pose proof (alloc_seq_count b bl b' x Hwf Hseq) as [Hcount Hwf'].
  pose proof (buddy_wf_meaning b' Hwf') as [Hnn _].
  pose proof (blocks_at_two x bl i j a k a' k' Hij Hi Hj) as Htwo.
  specialize (Hone x). specialize (Hnn x).
  pose proof (pow2_pos k). pose proof (pow2_pos k').
  unfold span in Htwo.
  destruct (Z.leb_spec a x), (Z.ltb_spec x (a + 2 ^ Z.of_nat k)),
    (Z.leb_spec a' x), (Z.ltb_spec x (a' + 2 ^ Z.of_nat k')); simpl in Htwo; lia.
Qed.

Lemma alloc_seq_disjoint_witness :
  1000 + 2 ^ Z.of_nat 0 ≤ 1002 ∨ 1002 + 2 ^ Z.of_nat 1 ≤ 1000.
Proof.
  apply (alloc_seq_disjoint demo_buddy [(1000, 0%nat); (1002, 1%nat)]
    (after 2 (after 1 demo_buddy)) 0 1).
  - apply demo_buddy_wf.
  - apply (alloc_seq_cons _ 1 0 _ (after 1 demo_buddy)).
    + vm_compute. reflexivity.
    + reflexivity.
    + apply alloc_gives_run. vm_compute. reflexivity.
    + apply (alloc_seq_cons _ 2 1 _ (after 2 (after 1 demo_buddy))).
      * vm_compute. reflexivity.
      * reflexivity.
      * apply alloc_gives_run. vm_compute. reflexivity.
      * apply alloc_seq_nil.
  - lia.
  - reflexivity.
  - reflexivity.
Defined.

(** C4: after the boot sequence exactly the pages of the heap are free, each in
    one block, and [free] is their number. *)
Theorem buddy_boot_correct addr start n :
  0 ≤ start → 0 ≤ n < 2 ^ 36 → start < 2 ^ 63 →
  ∃ b, buddy_boot addr start n = Ok b ∧ buddy_wf b ∧ free b = n ∧
    MIN_POOL_REMAIN < freenode_remain (pool (mem b)) ∧
    ∀ x, free_at b x = span x start n.
Proof. apply buddy_boot_ok. Qed.

Lemma buddy_boot_correct_witness :
  ∃ b, buddy_boot 0xffffffc040800000 0xffffffc040a00 32768 = Ok b ∧ buddy_wf b ∧
    free b = 32768 ∧ MIN_POOL_REMAIN < freenode_remain (pool (mem b)) ∧
    ∀ x, free_at b x = span x 0xffffffc040a00 32768.
Proof. apply (buddy_boot_correct 0xffffffc040800000 0xffffffc040a00 32768); lia. Defined.

(** The results of a sequence of calls after the boot sequence. *)
Definition boot_and_run (start n : Z) (ops : list op) : res (list (Z + AllocError)) :=
  b ← buddy_boot 0x80000000 start n; '(rs, _) ← run_ops ops b; Ok rs.

(** The merge loop of [free_pages] goes on past an order in which the buddy
    is missing.  Six pages are allocated, the first and the fifth are freed, and
    a request for two pages is answered with pages 1004 and 1005 although page
    1005 is still in use. *)
Theorem free_pages_double_allocation :
  boot_and_run 1000 8
    (replicate 6 (OpAlloc 1) ++ [OpFree 1000 1; OpFree 1004 1; OpAlloc 2])
  = Ok [inl 1000; inl 1001; inl 1002; inl 1003; inl 1004; inl 1005; inl 1004].
Proof. vm_compute. reflexivity. Qed.

(** Freeing takes a node from the pool without checking that one is left:
    1100 single pages can be allocated, and freeing every other one of them then
    panics. *)
Theorem free_pages_exhausts_pool :
  boot_and_run 1000 2048 (replicate 1100 (OpAlloc 1))
    = Ok ((λ i, inl (1000 + Z.of_nat i)) <$> seq 0 1100) ∧
  boot_and_run 1000 2048
    (replicate 1100 (OpAlloc 1) ++ ((λ i, OpFree (1000 + 2 * Z.of_nat i) 1) <$> seq 0 520))
    = Panic.
Proof. split; vm_compute; reflexivity. Qed.
