(* ===== verification/BuddyLaws.v ===== *)
(** * The buddy allocator as a page allocator

    What the page-table code relies on of its allocator ([PageAllocatorLaws])
    holds of the buddy allocator: the available pages are those of the free
    lists. *)

From S2P Require Import Prelude Page Buddy BuddyLists BuddyZone BuddySpec.

(** [n] requests of one page in a row are served, each while the node pool has
    nodes to spare. *)
Fixpoint buddy_ready (n : nat) (b : BuddyAllocator) : Prop :=
  buddy_wf b ∧
  match n with
  | O => True
  | S n => MIN_POOL_REMAIN < freenode_remain (pool (mem b)) ∧
           ∃ p b', alloc_pages 1 b = Ok (inl p, b') ∧ buddy_ready n b'
  end.

Definition buddy_avail (b : BuddyAllocator) (x : Z) : Prop := free_at b x = 1.

Lemma buddy_ready_wf n b : buddy_ready n b → buddy_wf b.
Proof. destruct n; by intros [? _]. Qed.

Lemma buddy_ready_less n : ∀ b, buddy_ready (S n) b → buddy_ready n b.
Proof.
  induction n as [|n IH]; intros b [Hwf (Hrem & p & b' & Hrun & Hr)]; [done|].
  split; [done|]. split; [done|]. exists p, b'. split; [done|]. by apply IH.
Qed.

(** An allocation takes its pages out of the free ones. *)
Lemma alloc_takes b n k p b' :
  buddy_wf b → MIN_POOL_REMAIN < freenode_remain (pool (mem b)) → ceil_to_power_2 n = Ok (2 ^ Z.of_nat k) →
  alloc_pages n b = Ok (inl p, b') →
  buddy_wf b' ∧ buddy_avail b p ∧ ¬ buddy_avail b' p ∧ ∀ x, buddy_avail b' x → buddy_avail b x.
Proof.
  intros Hwf Hrem Hn Hrun. pose proof (buddy_wf_meaning b Hwf) as [Hone _].
  destruct Hwf as (LLs & F & Hok). pose proof (alloc_pages_enough b LLs F n k Hok Hrem Hn) as Hwp.
  unfold wp in Hwp. rewrite Hrun in Hwp. destruct Hwp as (Hwf' & _ & Hat & _).
  pose proof (buddy_wf_meaning b' Hwf') as [Hone' _]. unfold buddy_avail.
  assert (0 < 2 ^ Z.of_nat k) by apply pow2_pos.
  pose proof (Hat p) as Hatp. specialize (Hone p) as Honep. specialize (Hone' p) as Honep'. unfold span in Hatp.
  rewrite (proj2 (Z.leb_le p p)), (proj2 (Z.ltb_lt p _)) in Hatp by lia. simpl in Hatp.
  split_and!; [done|lia|lia|].
  intros x Hx. specialize (Hat x). specialize (Hone x). pose proof (span_range x p (2 ^ Z.of_nat k)). lia.
Qed.

#[export] Instance Buddy_Laws : PageAllocatorLaws BuddyAllocator.
Proof.
  refine {| pa_ready := buddy_ready; pa_avail := buddy_avail; pa_ready_less := buddy_ready_less |}.
  intros n b [Hwf (Hrem & p & b' & Hrun & Hr)]. exists p, b'.
  destruct (alloc_takes b 1 0 p b' Hwf Hrem eq_refl Hrun) as (_ & ? & ? & ?). by split_and!.
Defined.

(** Readiness of an allocator whose lists are in order is decided by a run. *)
Fixpoint ready_check (n : nat) (b : BuddyAllocator) : bool :=
  match n with
  | O => true
  | S n => (MIN_POOL_REMAIN <? freenode_remain (pool (mem b))) &&
           match alloc_pages 1 b with Ok (inl _, b') => ready_check n b' | _ => false end
  end.

Lemma ready_check_spec n : ∀ b, buddy_wf b → ready_check n b = true → buddy_ready n b.
Proof.
  induction n as [|n IH]; intros b Hwf; [done|]. cbn [ready_check].
  intros [Hrem%Z.ltb_lt Hrun]%andb_true_iff. destruct (alloc_pages 1 b) as [[[p|] b']| | |] eqn:Ha; try done.
  split; [done|]. split; [done|]. exists p, b'. split; [done|]. apply IH; [|done].
  destruct Hwf as (LLs & F & Hok). pose proof (alloc_pages_enough b LLs F 1 0 Hok Hrem eq_refl) as Hwp.
  unfold wp in Hwp. rewrite Ha in Hwp. by destruct Hwp.
Qed.

(** ** Pages, then something else *)

(** [n] requests of one page in a row are served, and [Q] holds after any number of
    them. *)
Fixpoint pages_then (Q : BuddyAllocator → Prop) (n : nat) (b : BuddyAllocator) : Prop :=
  buddy_wf b ∧ Q b ∧
  match n with
  | O => True
  | S n => MIN_POOL_REMAIN < freenode_remain (pool (mem b)) ∧
           ∃ p b', alloc_pages 1 b = Ok (inl p, b') ∧ pages_then Q n b'
  end.

Lemma pages_then_now Q n b : pages_then Q n b → buddy_wf b ∧ Q b.
Proof. destruct n; by intros (? & ? & _). Qed.

Lemma pages_then_less Q n : ∀ b, pages_then Q (S n) b → pages_then Q n b.
Proof.
  induction n as [|n IH]; intros b (Hwf & HQ & Hrem & p & b' & Hrun & Hr); [done|].
  split_and!; try done. exists p, b'. split; [done|]. by apply IH.
Qed.

Definition then_laws (Q : BuddyAllocator → Prop) : PageAllocatorLaws BuddyAllocator.
Proof.
  refine {| pa_ready := pages_then Q; pa_avail := buddy_avail; pa_ready_less := pages_then_less Q |}.
  intros n b (Hwf & _ & Hrem & p & b' & Hrun & Hr). exists p, b'.
  destruct (alloc_takes b 1 0 p b' Hwf Hrem eq_refl Hrun) as (_ & ? & ? & ?). by split_and!.
Defined.

Lemma ready_then n : ∀ b, buddy_ready n b ↔ pages_then (λ _, True) n b.
Proof.
  induction n as [|n IH]; intros b; cbn [buddy_ready pages_then]; [tauto|].
  split; intros H; decompose [and ex] H; split_and!; try done; eexists _, _; (split; [done|]); by apply IH.
Qed.
