(* ===== verification/StaticAlloc.v ===== *)
(** * The static page allocator (src/src/page/static_allocator.rs)

    A bitmap over 256 pages in the kernel image, from which the first page
    tables are taken.  The allocator is a parameter of the page-table code
    through the classes of [Page.v]: the laws are established here. *)

From S2P Require Import Prelude Page.

Definition STATIC_PAGE_CAP : nat := 256.

(** [pages_addr] is the address of the field [pages]. *)
Record StaticPageAllocator := mkStatic {
  pages_addr : Z;
  bitmap : list Z;
}.

Definition StaticPageAllocator_new (addr : Z) : StaticPageAllocator :=
  mkStatic addr (replicate (STATIC_PAGE_CAP / 64) 0).

(** [u64::leading_ones]. *)
Fixpoint leading_ones_from (n : nat) (w : Z) : nat :=
  match n with
  | O => O
  | S n => if Z.testbit w (Z.of_nat n) then S (leading_ones_from n w) else O
  end.
Definition leading_ones (w : Z) : nat := leading_ones_from 64 w.

(** The loop of [alloc_pages]: the index into [pages] and the new bitmap. *)
Fixpoint alloc_scan (byte_idx : nat) (bm : list Z) : option (nat * list Z) :=
  match bm with
  | [] => None
  | byte :: bm =>
    let bit := leading_ones byte in
    if (bit <? 64)%nat
    then Some ((64 * byte_idx + bit)%nat, Z.lor byte (ushl 1 (63 - Z.of_nat bit)) :: bm)
    else '(i, bm') ← alloc_scan (S byte_idx) bm; Some (i, byte :: bm')
  end.

Definition static_alloc_pages (pages_count : Z) : ST StaticPageAllocator (Z + AllocError) := λ s,
  _ ← assert (pages_count =? 1);
  match alloc_scan 0 (bitmap s) with
  | Some (i, bm) =>
    _ ← assert (i <? STATIC_PAGE_CAP)%nat;
    Ok (inl (Z.shiftr (pages_addr s + PAGE_SIZE * Z.of_nat i) PAGE_BITS), mkStatic (pages_addr s) bm)
  | None => Ok (inr OutOfMemory, s)
  end.

Definition static_free_pages (page_start pages_count : Z) : ST StaticPageAllocator unit := λ s,
  _ ← assert (pages_count =? 1);
  let byte := Z.to_nat (page_start / 64) in
  let bit := page_start mod 64 in
  w ← index (bitmap s) byte;
  bm ← update (bitmap s) byte (Z.ldiff w (ushl 1 (63 - bit)));
  Ok (tt, mkStatic (pages_addr s) bm).

#[export] Instance Static_PageAllocator : PageAllocator StaticPageAllocator := {|
  pa_alloc_pages := static_alloc_pages;
  pa_free_pages := static_free_pages;
|}.

(** ** Slots *)

(** Slot [i] is the page [pages[i]]. *)
Definition clear (bm : list Z) (i : nat) : Prop :=
  ∃ w, bm !! (i / 64)%nat = Some w ∧ Z.testbit w (63 - Z.of_nat (i mod 64)) = false.

Definition slot_page (s : StaticPageAllocator) (i : nat) : Z :=
  Z.shiftr (pages_addr s + PAGE_SIZE * Z.of_nat i) PAGE_BITS.

Lemma slot_page_eq s i : slot_page s i = pages_addr s / 4096 + Z.of_nat i.
Proof.
  unfold slot_page, PAGE_BITS. change PAGE_SIZE with 4096.
  rewrite Z.shiftr_div_pow2 by lia. change (2 ^ 12) with 4096.
  rewrite Z.mul_comm, Z.div_add by lia. done.
Qed.

Lemma leading_ones_spec n w :
  (leading_ones_from n w ≤ n)%nat ∧
  (∀ j, (n - leading_ones_from n w ≤ j < n)%nat → Z.testbit w (Z.of_nat j) = true) ∧
  ((leading_ones_from n w < n)%nat →
     Z.testbit w (Z.of_nat (n - 1 - leading_ones_from n w)) = false).
Proof.
  induction n as [|n (IH1 & IH2 & IH3)]; cbn [leading_ones_from]; [split_and!; lia|].
  destruct (Z.testbit w (Z.of_nat n)) eqn:Hb; split_and!.
  - lia.
  - intros j Hj. destruct (decide (j = n)) as [->|]; [done|]. apply IH2. lia.
  - intros Hlt. rewrite <- IH3 by lia. do 2 f_equal. lia.
  - lia.
  - lia.
  - intros _. rewrite <- Hb. do 2 f_equal. lia.
Qed.

Lemma testbit_set_bit w b j : 0 ≤ b < 64 →
  Z.testbit (Z.lor w (ushl 1 b)) j = Z.testbit w j || (j =? b).
Proof.
  intros Hb. unfold ushl. rewrite Z.shiftl_1_l, Z.mod_small.
  - rewrite Z.lor_spec. f_equal. destruct (Z.eqb_spec j b) as [->|Hne].
    + apply Z.pow2_bits_true. lia.
    + apply Z.pow2_bits_false. lia.
  - split; [apply Z.pow_nonneg; lia|]. apply Z.pow_lt_mono_r; lia.
Qed.

(** The slots are cut into words. *)
Lemma clear_cons w bm i :
  clear (w :: bm) i ↔
  ((i < 64)%nat ∧ Z.testbit w (63 - Z.of_nat i) = false) ∨ ((64 ≤ i)%nat ∧ clear bm (i - 64)).
Proof.
  unfold clear. destruct (decide (i < 64)%nat) as [Hlt|Hge].
  - rewrite Nat.div_small, Nat.mod_small by done. simpl. split.
    + intros (w' & [= <-] & Hb). by left.
    + intros [[_ Hb]|[? _]]; [by exists w|lia].
  - assert (i = 1 * 64 + (i - 64))%nat as Hi by lia.
    assert (i / 64 = S ((i - 64) / 64))%nat as -> by (rewrite Hi at 1; rewrite Nat.div_add_l by lia; lia).
    assert (i mod 64 = (i - 64) mod 64)%nat as ->
      by (rewrite Hi at 1; rewrite Nat.add_comm, Nat.Div0.mod_add; done).
    simpl. split; [intros Hc; right; split; [lia|exact Hc]|]. by intros [[? _]|[_ Hc]]; [lia|].
Qed.

(** The scan takes the first clear slot and sets its bit. *)
Lemma alloc_scan_spec bm : ∀ b,
  match alloc_scan b bm with
  | Some (i, bm') => ∃ k, i = (64 * b + k)%nat ∧ (k < 64 * length bm)%nat ∧ clear bm k ∧
      (∀ j, (j < k)%nat → ¬ clear bm j) ∧ length bm' = length bm ∧
      ∀ j, clear bm' j ↔ clear bm j ∧ j ≠ k
  | None => ∀ j, ¬ clear bm j
  end.
Proof.
  induction bm as [|w bm IH]; intros b; cbn [alloc_scan].
  { intros j (w & Hw & _). by rewrite lookup_nil in Hw. }
  pose proof (leading_ones_spec 64 w) as (Hle & Hones & Hzero). fold (leading_ones w) in *.
  destruct (Nat.ltb_spec (leading_ones w) 64) as [Hlt|Hge].
  - exists (leading_ones w). split_and!; [done|simpl; lia| | |done|].
    + apply clear_cons. left. split; [done|]. rewrite <- Hzero by done. f_equal. lia.
    + intros j Hj [[Hj' Hb]|[? _]]%clear_cons; [|lia].
      specialize (Hones (63 - j)%nat ltac:(lia)).
      replace (63 - Z.of_nat j) with (Z.of_nat (63 - j)) in Hb by lia. congruence.
    + intros j. rewrite !clear_cons. destruct (decide (j < 64)%nat) as [Hj|Hj].
      * rewrite testbit_set_bit, orb_false_iff, Z.eqb_neq by lia. split.
        -- intros [(_ & Hb & Hne)|[? _]]; [|lia]. split; [by left|]. lia.
        -- intros [[[_ Hb]|[? _]] Hne]; [|lia]. left. split_and!; [done..|]. lia.
      * split; [|intros [[[? _]|Hc] _]; [lia|by right]].
        intros [[? _]|Hc]; [lia|]. split; [by right|lia].
  - assert (∀ j, (j < 64)%nat → ¬ clear (w :: bm) j) as Hfull.
    { intros j Hj [[_ Hb]|[? _]]%clear_cons; [|lia].
      specialize (Hones (63 - j)%nat ltac:(lia)).
      replace (63 - Z.of_nat j) with (Z.of_nat (63 - j)) in Hb by lia. congruence. }
    specialize (IH (S b)). destruct (alloc_scan (S b) bm) as [[i bm']|]; simpl.
    + destruct IH as (k & -> & Hk & Hc & Hmin & Hlen & Hiff). exists (64 + k)%nat.
      split_and!; [lia|lia| | |lia|].
      * apply clear_cons. right. split; [lia|]. by replace (64 + k - 64)%nat with k by lia.
      * intros j Hj Hcj. destruct (decide (j < 64)%nat); [by apply (Hfull j)|].
        apply clear_cons in Hcj as [[? _]|[_ Hcj]]; [lia|]. apply (Hmin (j - 64)%nat); [lia|done].
      * intros j. destruct (decide (j < 64)%nat) as [Hj|Hj].
        -- split; [|intros [Hcj _]; by apply (Hfull j) in Hcj].
           intros [[_ Hb]|[? _]]%clear_cons; [|lia]. exfalso. apply (Hfull j Hj). apply clear_cons. by left.
        -- rewrite !clear_cons, Hiff. split.
           ++ intros [[? _]|(_ & Hcj & Hne)]; [lia|]. split; [by right; split; [lia|]|lia].
           ++ intros [[[? _]|[_ Hcj]] Hne]; [lia|]. right. split_and!; [lia|done|lia].
    + intros j Hcj. destruct (decide (j < 64)%nat); [by apply (Hfull j)|].
      apply clear_cons in Hcj as [[? _]|[_ Hcj]]; [lia|]. by apply (IH (j - 64)%nat).
Qed.

(** ** The contract *)

Definition static_ok (s : StaticPageAllocator) : Prop := length (bitmap s) = 4%nat.

(** Page [x] is one of the allocator's and not in use. *)
Definition static_avail (s : StaticPageAllocator) (x : Z) : Prop :=
  ∃ i, clear (bitmap s) i ∧ x = slot_page s i.

(** At least [n] slots are clear. *)
Definition static_ready (n : nat) (s : StaticPageAllocator) : Prop :=
  static_ok s ∧ ∃ l, NoDup l ∧ (n ≤ length l)%nat ∧ Forall (clear (bitmap s)) l.

Lemma slot_page_inj s i j : slot_page s i = slot_page s j → i = j.
Proof. rewrite !slot_page_eq. lia. Qed.

(** The outcome of a request for one page. *)
Lemma static_alloc_run s : static_ok s →
  match static_alloc_pages 1 s with
  | Ok (inl p, s') => ∃ k, (k < STATIC_PAGE_CAP)%nat ∧ clear (bitmap s) k ∧ p = slot_page s k ∧
      (∀ j, (j < k)%nat → ¬ clear (bitmap s) j) ∧
      pages_addr s' = pages_addr s ∧ static_ok s' ∧
      ∀ j, clear (bitmap s') j ↔ clear (bitmap s) j ∧ j ≠ k
  | Ok (inr OutOfMemory, s') => s' = s ∧ ∀ j, ¬ clear (bitmap s) j
  | _ => False
  end.
Proof.
  intros Hok. unfold static_alloc_pages. cbn [assert Z.eqb mbind res_bind Pos.eqb].
  pose proof (alloc_scan_spec (bitmap s) 0) as Hscan.
  destruct (alloc_scan 0 (bitmap s)) as [[i bm]|]; [|done].
  destruct Hscan as (k & -> & Hk & Hc & Hmin & Hlen & Hiff). rewrite Hok in Hk.
  rewrite (proj2 (Nat.ltb_lt _ _)) by (unfold STATIC_PAGE_CAP; lia). cbn [assert mbind res_bind].
  exists k. split_and!; try done.
  - unfold static_ok. cbn [bitmap]. by rewrite Hlen.
Qed.

Lemma filter_ne_id (l : list nat) k : k ∉ l → filter (λ j, j ≠ k) l = l.
Proof.
  induction l as [|x l IH]; [done|]. intros [Hx Hl]%not_elem_of_cons.
  rewrite filter_cons_True by congruence. by rewrite IH.
Qed.

Lemma length_filter_ne (l : list nat) k :
  NoDup l → (length l ≤ S (length (filter (λ j, j ≠ k) l)))%nat.
Proof.
  induction l as [|x l IH]; intros Hnd; [simpl; lia|].
  apply list.NoDup_cons in Hnd as [Hx Hnd]. rewrite filter_cons.
  destruct (decide (x ≠ k)) as [Hne|Heq].
  - simpl. specialize (IH Hnd). lia.
  - apply dec_stable in Heq as ->. simpl.
    rewrite filter_ne_id by done. lia.
Qed.

#[export] Instance Static_Laws : PageAllocatorLaws StaticPageAllocator.
Proof.
  refine {| pa_ready := static_ready; pa_avail := static_avail |}.
  - intros n s (Hok & l & Hnd & Hl & Hcl). split; [done|]. exists l. split_and!; [done|lia|done].
  - intros n s (Hok & l & Hnd & Hl & Hcl). change (@pa_alloc_pages _ _ 1 s) with (static_alloc_pages 1 s).
    pose proof (static_alloc_run s Hok) as Hrun.
    destruct (static_alloc_pages 1 s) as [[[p|[]] s']| | |]; [|exfalso|done..].
    + destruct Hrun as (k & Hk & Hc & -> & _ & Haddr & Hok' & Hiff).
      assert (∀ i, slot_page s' i = slot_page s i) as Hsp
        by (intros i; unfold slot_page; by rewrite Haddr).
      exists (slot_page s k), s'. split_and!; [done| | | |].
      * split; [done|]. exists (filter (λ j, j ≠ k) l).
        split_and!; [by apply list.NoDup_filter| |].
        -- pose proof (length_filter_ne l k Hnd). lia.
        -- apply list.Forall_forall. intros j [Hne Hj]%list_elem_of_filter. apply Hiff.
           split; [|done]. by eapply list.Forall_forall in Hcl.
      * by exists k.
      * intros (i & [_ Hne]%Hiff & Heq). rewrite Hsp in Heq. apply slot_page_inj in Heq. done.
      * intros x (i & [Hci _]%Hiff & ->). exists i. by rewrite Hsp.
    + destruct Hrun as [_ Hnone]. destruct l as [|j l]; [simpl in Hl; lia|].
      apply list.Forall_cons in Hcl as [Hj _]. by apply (Hnone j).
Defined.

Lemma static_new_ready addr : static_ready STATIC_PAGE_CAP (StaticPageAllocator_new addr).
Proof.
  split; [done|]. exists (seq 0 STATIC_PAGE_CAP). split_and!.
  - apply NoDup_ListNoDup, seq_NoDup.
  - by rewrite length_seq.
  - apply list.Forall_forall. intros i Hi%elem_of_seq. unfold STATIC_PAGE_CAP in *. exists 0. split.
    + apply lookup_replicate. split; [done|]. apply Nat.Div0.div_lt_upper_bound. simpl. lia.
    + apply Z.bits_0.
Qed.

Lemma static_avail_range s x : static_ok s → static_avail s x →
  pages_addr s / 4096 ≤ x < pages_addr s / 4096 + 256.
Proof.
  intros Hok (i & (w & Hw & _) & ->). rewrite slot_page_eq. apply lookup_lt_Some in Hw.
  rewrite Hok in Hw. pose proof (Nat.div_mod_eq i 64). pose proof (Nat.mod_upper_bound i 64). lia.
Qed.
