(* ===== verification/Mapping.v ===== *)
(** * Multi-level page tables (src/src/page/mapping.rs)

    The traits [Entry] and [Mapper] are classes; the default methods of
    [Mapper] are defined once for any architecture and any page allocator.  The
    memory that holds the tables is a map from virtual page numbers to pages,
    and a page is the map of its non-zero 64-bit words: accesses outside the
    pages that were handed to a table are undefined. *)

From S2P Require Import Prelude Page Address.

(** ** Memory *)

Abbreviation page_words := (gmap Z Z).
Abbreviation tmem := (gmap Z (gmap Z Z)).

(** The page and the word in it of an 8-byte aligned address. *)
Definition addr_page (a : Z) : Z := a / PAGE_SIZE.
Definition addr_word (a : Z) : Z := a mod PAGE_SIZE / 8.

Definition read_word (m : tmem) (a : Z) : res Z :=
  pg ← deref (m !! addr_page a);
  Ok (default 0 (pg !! addr_word a)).

Definition write_word (m : tmem) (a v : Z) : res tmem :=
  pg ← deref (m !! addr_page a);
  Ok (<[addr_page a:=<[addr_word a:=v]> pg]> m).

(** ** Entries and tables *)

Definition RO : list PageACL := [Read].
Definition RW : list PageACL := [Read; Write].
Definition RX : list PageACL := [Read; Execute].
Definition URO : list PageACL := [User; Read].
Definition URW : list PageACL := [User; Read; Write].
Definition URX : list PageACL := [User; Read; Execute].

Definition MAX_SUPPORTED_LEVEL : nat := 5.

(** An entry is [repr(transparent)] over its 64-bit word. *)
Class Entry := {
  e_new : Z → bool → list PageACL → Z;
  e_empty : Z;
  e_page_number : Z → PhysPage;
  e_is_valid : Z → bool;
}.

Class Mapper := {
  LEVEL : nat;
  PTES_PER_DIR : Z;
  PTE_BITS : Z;
}.

Record Table := mkTable { ptr : Z }.

(** A mapper holds its root table. *)
Record PageMapper := mkMapper { root : Table }.

Section mapping.
Context {A : Type} `{!PageAllocator A, !Entry, !Mapper}.

(** The tables in memory and the allocator the caller passes. *)
Abbreviation M := (ST (tmem * A)).

Definition on_mem {B} (f : tmem → res (B * tmem)) : M B := λ s,
  '(b, m) ← f s.1; Ok (b, (m, s.2)).
Definition on_alloc {B} (f : ST A B) : M B := λ s,
  '(b, a) ← f s.2; Ok (b, (s.1, a)).

Definition Table_empty : Table := mkTable 0.

Definition Table_new : M Table :=
  r ← on_alloc (pa_alloc_pages 1);
  page ← lift (match r with inl p => Ok p | inr _ => Panic end);
  let p := ushl page PAGE_BITS in
  _ ← on_mem (λ m, Ok (tt, <[addr_page p:=∅]> m));
  mret (mkTable p).

Definition Table_from_page (page_number : VirtPage) : Table :=
  mkTable (ushl (vp_0 page_number) PAGE_BITS).

Definition Table_page_number (t : Table) : res PhysPage :=
  PhysicalPage_from (mkVP (Z.shiftr (ptr t) PAGE_BITS)).

Definition set_entry (t : Table) (index entry : Z) : M unit :=
  on_mem (λ m, m ← write_word m (ptr t + 8 * index) entry; Ok (tt, m)).

Definition get_entry (t : Table) (index : Z) : M Z :=
  on_mem (λ m, e ← read_word m (ptr t + 8 * index); Ok (e, m)).

(** [is_empty]: the loop over [index..entry_count]. *)
Fixpoint is_empty_from (t : Table) (index : Z) (count : nat) : M bool :=
  match count with
  | O => mret true
  | S count =>
    e ← get_entry t index;
    if e_is_valid e then mret false else is_empty_from t (index + 1) count
  end.
Definition is_empty (t : Table) (entry_count : Z) : M bool :=
  is_empty_from t 0 (Z.to_nat entry_count).

(** ** The methods of [Mapper] *)

Definition new_with_allocator : M PageMapper :=
  t ← Table_new; mret (mkMapper t).
Definition from_root (page_number : VirtPage) : PageMapper :=
  mkMapper (Table_from_page page_number).
Definition root_table (self : PageMapper) : Table := root self.

Definition index_at (vpn : Z) (level : nat) : Z :=
  Z.land (Z.shiftr vpn (PTE_BITS * Z.of_nat level)) (PTES_PER_DIR - 1).

(** [VirtPage::from(entry.page_number())]. *)
Definition entry_table (entry : Z) : res Table :=
  vp ← VirtualPage_from (e_page_number entry); Ok (Table_from_page vp).

(** The body of the loop of [map_4k]: the table of the next level, created when
    the entry is not valid. *)
Definition map_level (vpn : Z) (level : nat) (current_table : Table) : M Table :=
  let index := index_at vpn level in
  entry ← get_entry current_table index;
  entry ← (if e_is_valid entry then mret entry else
             sub_table ← Table_new;
             pn ← lift (Table_page_number sub_table);
             let entry := e_new (pp_0 pn) false [] in
             _ ← set_entry current_table index entry;
             mret entry);
  lift (entry_table entry).

Fixpoint map_levels (vpn : Z) (levels : list nat) (current_table : Table) : M Table :=
  match levels with
  | [] => mret current_table
  | level :: levels =>
    t ← map_level vpn level current_table;
    map_levels vpn levels t
  end.

Definition map_4k (self : PageMapper) (vpn ppn : Z) (mode : list PageACL) : M unit :=
  t ← map_levels vpn (rev (range 1 LEVEL)) (root_table self);
  set_entry t (Z.land vpn (PTES_PER_DIR - 1)) (e_new ppn true mode).

(** The loop runs [pages] times. *)
Fixpoint map_loop (self : PageMapper) (vpn ppn : Z) (pages : nat) (mode : list PageACL) : M unit :=
  match pages with
  | O => mret tt
  | S pages =>
    _ ← map_4k self vpn ppn mode;
    vpn ← lift (vpn +! 1);
    ppn ← lift (ppn +! 1);
    map_loop self vpn ppn pages mode
  end.
Definition map_with_allocator (self : PageMapper) (vpn ppn pages : Z) (mode : list PageACL) : M unit :=
  map_loop self vpn ppn (Z.to_nat pages) mode.

(** The methods without an allocator argument take the one behind the lock of
    [BUDDY_ALLOCATOR]: the second component of the state is then that one. *)
Definition mapper_new : M PageMapper := new_with_allocator.
Definition mapper_map self vpn ppn pages mode := map_with_allocator self vpn ppn pages mode.
Definition map_rodata self vpn ppn pages := mapper_map self vpn ppn pages RO.
Definition map_data self vpn ppn pages := mapper_map self vpn ppn pages RW.
Definition map_text self vpn ppn pages := mapper_map self vpn ppn pages RX.
Definition map_text_u self vpn ppn pages := mapper_map self vpn ppn pages URX.
Definition map_rodata_u self vpn ppn pages := mapper_map self vpn ppn pages URO.
Definition map_data_u self vpn ppn pages := mapper_map self vpn ppn pages URW.

(** The first loop of [unmap_4k]: the tables on the path from the root, the one
    of level 0 last in the source's array and last in the list; at level 0 the
    entry is cleared. *)
Fixpoint unmap_walk (vpn : Z) (level : nat) (t : Table) : M (list Table) :=
  let index := index_at vpn level in
  match level with
  | O => _ ← set_entry t index e_empty; mret [t]
  | S level =>
    entry ← get_entry t index;
    t' ← lift (entry_table entry);
    ts ← unmap_walk vpn level t';
    mret (t :: ts)
  end.

(** The second loop: tables from level 0 up are freed while they are empty. *)
Fixpoint free_empty (tables : list Table) : M unit :=
  match tables with
  | [] => mret tt
  | table :: tables =>
    e ← is_empty table PTES_PER_DIR;
    if (e : bool) then
      pn ← lift (Table_page_number table);
      vp ← lift (VirtualPage_from pn);
      _ ← on_alloc (pa_free_pages (vp_0 vp) 1);
      free_empty tables
    else mret tt
  end.

Definition unmap_4k (self : PageMapper) (vpn : Z) : M unit :=
  _ ← lift (assert (LEVEL <=? MAX_SUPPORTED_LEVEL)%nat);
  page_tables ← unmap_walk vpn (LEVEL - 1) (root_table self);
  free_empty (take (LEVEL - 1) (rev page_tables)).

Fixpoint unmap_loop (self : PageMapper) (vpn : Z) (pages : nat) : M unit :=
  match pages with
  | O => mret tt
  | S pages =>
    _ ← unmap_4k self vpn;
    vpn ← lift (vpn +! 1);
    unmap_loop self vpn pages
  end.
Definition unmap_with_allocator (self : PageMapper) (vpn pages : Z) : M unit :=
  unmap_loop self vpn (Z.to_nat pages).

(** [alloc.free_pages(VirtPage::from(pp).0, 1)]. *)
Definition free_phys (pp : PhysPage) : M unit :=
  vp ← lift (VirtualPage_from pp);
  on_alloc (pa_free_pages (vp_0 vp) 1).

(** The loop of [destroy_with_allocator] over the entries of a level-1 table. *)
Fixpoint free_entries (t : Table) (index : Z) (count : nat) : M unit :=
  match count with
  | O => mret tt
  | S count =>
    entry ← get_entry t index;
    _ ← (if e_is_valid entry then free_phys (e_page_number entry) else mret tt);
    free_entries t (index + 1) count
  end.

(** The state of the loop: [page_tables], [indexes] and [current_level]. *)
Record Walk := mkWalk {
  page_tables : list Table;
  indexes : list Z;
  current_level : nat;
}.

(** [current_level += 1; indexes[current_level] += 1]. *)
Definition walk_up (w : Walk) : res Walk :=
  let l := S (current_level w) in
  i ← index (indexes w) l;
  idx ← update (indexes w) l (i + 1);
  Ok (mkWalk (page_tables w) idx l).

(** One iteration; [None] is the [break]. *)
Definition destroy_step (w : Walk) : M (option Walk) :=
  let l := current_level w in
  table ← lift (index (page_tables w) l);
  if (l =? 1)%nat then
    _ ← free_entries table 0 (Z.to_nat PTES_PER_DIR);
    w ← lift (walk_up w);
    mret (Some w)
  else
    i ← lift (index (indexes w) l);
    if i =? PTES_PER_DIR then
      pn ← lift (Table_page_number table);
      _ ← free_phys pn;
      if (l =? LEVEL - 1)%nat then mret None
      else
        idx ← lift (update (indexes w) l 0);
        w ← lift (walk_up (mkWalk (page_tables w) idx l));
        mret (Some w)
    else
      entry ← get_entry table i;
      if negb (e_is_valid entry) then
        idx ← lift (update (indexes w) l (i + 1));
        mret (Some (mkWalk (page_tables w) idx l))
      else
        l' ← lift (if (1 <=? l)%nat then Ok (l - 1)%nat else Panic);
        t ← lift (entry_table entry);
        pts ← lift (update (page_tables w) l' t);
        mret (Some (mkWalk pts (indexes w) l')).

Fixpoint destroy_loop (fuel : nat) (w : Walk) : M unit :=
  match fuel with
  | O => lift NoFuel
  | S fuel =>
    r ← destroy_step w;
    match r with
    | None => mret tt
    | Some w => destroy_loop fuel w
    end
  end.

Definition destroy_with_allocator (fuel : nat) (self : PageMapper) : M unit :=
  _ ← lift (assert (LEVEL <=? MAX_SUPPORTED_LEVEL)%nat);
  pts ← lift (update (replicate MAX_SUPPORTED_LEVEL Table_empty) (LEVEL - 1) (root_table self));
  destroy_loop fuel (mkWalk pts (replicate MAX_SUPPORTED_LEVEL 0) (LEVEL - 1)).

Definition mapper_destroy (fuel : nat) (self : PageMapper) : M unit :=
  destroy_with_allocator fuel self.

(** ** The kernel's own mapping *)

(** The addresses of the linker script's symbols. *)
Record Layout := {
  RODATA_START : Z; RODATA_END : Z;
  DATA_START : Z; DATA_END : Z;
  BSS_START : Z; BSS_END : Z;
  KERNEL_START : Z; KERNEL_END : Z;
  HEAP_START : Z;
}.

Definition MEM_SIZE : Z := 128 * 1024 * 1024.

(** The macro [map_range_with_alloc!]. *)
Definition map_range_with_alloc (start fin : Z) (self : PageMapper) (mode : list PageACL) : M unit :=
  pa ← lift (PhysicalAddress_from (@mkVA ADDR_OFFSET start));
  n ← lift (Z.shiftr fin PAGE_BITS -! Z.shiftr start PAGE_BITS);
  map_with_allocator self (Z.shiftr start PAGE_BITS) (Z.shiftr (pa_0 pa) PAGE_BITS) n mode.

Definition map_kernel_region_with_allocator (L : Layout) (self : PageMapper) : M unit :=
  _ ← map_range_with_alloc (RODATA_START L) (RODATA_END L) self RO;
  _ ← map_range_with_alloc (DATA_START L) (DATA_END L) self RW;
  _ ← map_range_with_alloc (BSS_START L) (BSS_END L) self RW;
  map_range_with_alloc (KERNEL_START L) (KERNEL_END L) self RX.

Definition map_kernel_region (L : Layout) (self : PageMapper) : M unit :=
  map_kernel_region_with_allocator L self.

(** [kernel_pt_init] (src/src/page.rs) up to the switch of the address space:
    the mapper, and the physical page of its root that [KERNEL_PT] keeps. *)
Definition kernel_pt_init (L : Layout) : M (PageMapper * PhysPage) :=
  kernel_page ← new_with_allocator;
  _ ← map_kernel_region_with_allocator L kernel_page;
  pa ← lift (PhysicalAddress_from (@mkVA ADDR_OFFSET (HEAP_START L)));
  _ ← map_with_allocator kernel_page (Z.shiftr (HEAP_START L) PAGE_BITS)
        (Z.shiftr (pa_0 pa) PAGE_BITS) (Z.shiftr MEM_SIZE PAGE_BITS) [Read; Write];
  pn ← lift (Table_page_number (root_table kernel_page));
  mret (kernel_page, pn).
End mapping.
