(* ===== verification/Sv39.v ===== *)
(** * Sv39 page tables (src/src/arch/riscv64/page.rs)

    The entry format and the constants of the three-level mapper of RISC-V. *)

From S2P Require Import Prelude Page Address Mapping.

Definition MODE_SV39 : Z := 8.

(** The value [set_satp] writes to the register. *)
Definition set_satp (ppn mode : Z) : Z := Z.lor ppn (ushl mode 60).

Definition PTE_V_FLAG : Z := 1.
Definition PTE_R_FLAG : Z := Z.shiftl 1 1.
Definition PTE_W_FLAG : Z := Z.shiftl 1 2.
Definition PTE_X_FLAG : Z := Z.shiftl 1 3.
Definition PTE_U_FLAG : Z := Z.shiftl 1 4.

Definition sv39_new (page_number : Z) (_leaf : bool) (mode : list PageACL) : Z :=
  let entry := ushl page_number 10 in
  let entry := if contains mode Read then Z.lor entry PTE_R_FLAG else entry in
  let entry := if contains mode Write then Z.lor entry PTE_W_FLAG else entry in
  let entry := if contains mode Execute then Z.lor entry PTE_X_FLAG else entry in
  let entry := if contains mode User then Z.lor entry PTE_U_FLAG else entry in
  Z.lor entry PTE_V_FLAG.

Definition sv39_empty : Z := 0.
Definition sv39_is_valid (e : Z) : bool := 0 <? Z.land e PTE_V_FLAG.
Definition sv39_page_number (e : Z) : PhysPage := mkPP (Z.shiftr e 10).

Definition Sv39_Entry : Entry := {|
  e_new := sv39_new;
  e_empty := sv39_empty;
  e_page_number := sv39_page_number;
  e_is_valid := sv39_is_valid;
|}.

Definition Sv39_Mapper : Mapper := {|
  LEVEL := 3;
  PTES_PER_DIR := 512;
  PTE_BITS := 9;
|}.

(** [switch_to]: the value of [satp]. *)
Definition sv39_switch_to (self : PageMapper) : res Z :=
  pn ← Table_page_number (root self);
  Ok (set_satp (pp_0 pn) MODE_SV39).
