(* ===== verification/Arm64Page.v ===== *)
(** * VMSAv8-64 page tables (src/src/arch/arm64/page.rs)

    The descriptor format and the constants of the four-level mapper of Arm. *)

From S2P Require Import Prelude Page Address Mapping.

Definition TYPE_VALID : Z := 1.
Definition TYPE_TABLE_ENTRY : Z := 2.
Definition TYPE_PAGE_ENTRY : Z := 2.
Definition AP1 : Z := 64.
Definition AP2_RO : Z := 128.
Definition AP2_RW : Z := 0.
Definition AF : Z := Z.shiftl 1 10.
Definition PXN : Z := Z.shiftl 1 53.
Definition UXN : Z := Z.shiftl 1 54.

Definition arm64_new (page_number : Z) (leaf : bool) (mode : list PageACL) : Z :=
  let d := ushl page_number 12 in
  if leaf then
    let d := if contains mode User then Z.lor d AP1 else d in
    let d := if contains mode Write then Z.lor d AP2_RW else Z.lor d AP2_RO in
    let d := if negb (contains mode Execute) then Z.lor (Z.lor d UXN) PXN
             else if negb (contains mode User) then Z.lor d UXN else d in
    Z.lor d (Z.lor (Z.lor AF TYPE_VALID) TYPE_PAGE_ENTRY)
  else Z.lor d (Z.lor TYPE_VALID TYPE_TABLE_ENTRY).

Definition arm64_empty : Z := 0.
Definition arm64_is_valid (d : Z) : bool := 0 <? Z.land d TYPE_VALID.
Definition arm64_page_number (d : Z) : PhysPage := mkPP (Z.shiftr d PAGE_BITS).

Definition Arm64_Entry : Entry := {|
  e_new := arm64_new;
  e_empty := arm64_empty;
  e_page_number := arm64_page_number;
  e_is_valid := arm64_is_valid;
|}.

Definition Arm64_Mapper : Mapper := {|
  LEVEL := 4;
  PTES_PER_DIR := 512;
  PTE_BITS := 9;
|}.

(** [mmu_enable]: the bits set in SCTLR_EL1. *)
Definition mmu_enable (sctlr : Z) : Z :=
  Z.lor (Z.lor (Z.lor sctlr (Z.shiftl 1 0)) (Z.shiftl 1 2)) (Z.shiftl 1 12).

(** [switch_to]: the value of both translation table base registers. *)
Definition arm64_switch_to (self : PageMapper) : res Z :=
  pn ← Table_page_number (root self);
  Ok (ushl (pp_0 pn) PAGE_BITS).
