(* ===== verification/MappingSpec.v ===== *)
(** * Page tables as a tree

    The tables reached from a root by paths of indices, the condition that they
    form a tree whose pages the allocator no longer hands out, and the effect of
    the operations of [Mapping.v] on it.  [translate] is the leaf entry that a
    page-table walk finds for a virtual page. *)

From S2P Require Import Prelude Page Address Bytes Mapping.

(** What the page-table code relies on of an entry format and a mapper. *)
Class EntryLaws `{!Entry} : Prop := {
  el_zero : e_is_valid 0 = false;
  el_empty : e_empty = 0;
  el_valid : ∀ p leaf mode, e_is_valid (e_new p leaf mode) = true;
  el_table : ∀ p, 0 ≤ p < 2 ^ 26 → pp_0 (e_page_number (e_new p false [])) = p;
}.

Class MapperLaws `{!Mapper} : Prop := {
  ml_level : (1 ≤ LEVEL ≤ MAX_SUPPORTED_LEVEL)%nat;
  ml_bits : 0 < PTE_BITS ≤ 9;
  ml_ptes : PTES_PER_DIR = 2 ^ PTE_BITS;
}.

(** ** Pages and pointers *)

(** Virtual page numbers of the kernel's linear mapping. *)
Definition okpage (x : Z) : Prop := PAGE_OFFSET ≤ x < 2 ^ 52.

Lemma PAGE_OFFSET_val : PAGE_OFFSET = 2 ^ 52 - 2 ^ 26.
Proof. reflexivity. Qed.

Definition table_at (x : Z) : Table := mkTable (x * 4096).

Lemma ushl_page x : okpage x → ushl x PAGE_BITS = x * 4096.
Proof.
  intros [H1 H2]. unfold ushl, PAGE_BITS. rewrite Z.shiftl_mul_pow2 by lia.
  change (2 ^ 12) with 4096. apply Z.mod_small. rewrite PAGE_OFFSET_val in H1. unfold U64. lia.
Qed.

Lemma shiftr_page x : Z.shiftr (x * 4096) PAGE_BITS = x.
Proof. unfold PAGE_BITS. rewrite Z.shiftr_div_pow2 by lia. apply Z.div_mul. lia. Qed.

Lemma word_address x i : 0 ≤ i < 512 →
  addr_page (x * 4096 + 8 * i) = x ∧ addr_word (x * 4096 + 8 * i) = i.
Proof.
  intros Hi. unfold addr_page, addr_word. change PAGE_SIZE with 4096. split.
  - symmetry. apply (Z.div_unique _ _ _ (8 * i)); lia.
  - replace ((x * 4096 + 8 * i) mod 4096) with (8 * i).
    + rewrite Z.mul_comm. apply Z.div_mul. lia.
    + apply (Z.mod_unique _ _ x); lia.
Qed.

Section tree.
Context `{!Entry, !Mapper, !EntryLaws, !MapperLaws}.

Lemma index_at_range vpn level : 0 ≤ index_at vpn level < 512.
Proof.
  unfold index_at. pose proof ml_bits. rewrite ml_ptes.
  replace (2 ^ PTE_BITS - 1) with (Z.ones PTE_BITS) by (rewrite Z.ones_equiv; lia).
  rewrite Z.land_ones by lia.
  assert (0 < 2 ^ PTE_BITS ≤ 2 ^ 9).
  { split; [apply Z.pow_pos_nonneg; lia|apply Z.pow_le_mono_r; lia]. }
  pose proof (Z.mod_pos_bound (Z.shiftr vpn (PTE_BITS * Z.of_nat level)) (2 ^ PTE_BITS)). lia.
Qed.

(** ** Reachability *)

Definition entry_at (m : tmem) (t i : Z) : option Z :=
  pg ← m !! t; Some (default 0 (pg !! i)).

Definition child (m : tmem) (t i : Z) : option Z :=
  e ← entry_at m t i;
  if e_is_valid e then Some (pp_0 (e_page_number e) + PAGE_OFFSET) else None.

Fixpoint reach (m : tmem) (t : Z) (path : list Z) : option Z :=
  match path with
  | [] => Some t
  | i :: path => t' ← child m t i; reach m t' path
  end.

Lemma reach_app m t p q : reach m t (p ++ q) = t' ← reach m t p; reach m t' q.
Proof.
  revert t. induction p as [|i p IH]; intros t; [done|].
  cbn [app reach]. by destruct (child m t i); simpl.
Qed.

(** The indices of the upper levels of a virtual page, from the root down. *)
Definition upath (vpn : Z) : list Z := index_at vpn <$> rev (range 1 LEVEL).

Definition translate (m : tmem) (r vpn : Z) : option Z :=
  t ← reach m r (upath vpn);
  e ← entry_at m t (index_at vpn 0);
  if e_is_valid e then Some e else None.

Lemma length_upath vpn : length (upath vpn) = (LEVEL - 1)%nat.
Proof. unfold upath, range. by rewrite length_fmap, length_rev, length_seq. Qed.

(** The tables form a tree: different paths lead to different pages, all of
    them in memory and none of them available for allocation. *)
Record pt_wf (m : tmem) (r : Z) (avail : Z → Prop) : Prop := {
  wf_page : ∀ p x, (length p < LEVEL)%nat → reach m r p = Some x →
    okpage x ∧ is_Some (m !! x) ∧ ¬ avail x;
  wf_inj : ∀ p q x, (length p < LEVEL)%nat → (length q < LEVEL)%nat →
    reach m r p = Some x → reach m r q = Some x → p = q;
}.

(** ** Changing one word *)

Definition set_word (m : tmem) (t i v : Z) : tmem :=
  match m !! t with Some pg => <[t:=<[i:=v]> pg]> m | None => m end.

Lemma entry_at_set_eq m t i v : is_Some (m !! t) → entry_at (set_word m t i v) t i = Some v.
Proof.
  intros [pg Hpg]. unfold entry_at, set_word. rewrite Hpg. rewrite lookup_insert_eq. simpl.
  by rewrite lookup_insert_eq.
Qed.

Lemma entry_at_set_ne m t i v t' i' : (t', i') ≠ (t, i) → entry_at (set_word m t i v) t' i' = entry_at m t' i'.
Proof.
  intros Hne. unfold entry_at, set_word. destruct (m !! t) as [pg|] eqn:Hpg; [|done].
  destruct (decide (t' = t)) as [->|Ht].
  - rewrite lookup_insert_eq, Hpg. simpl. rewrite lookup_insert_ne; [done|congruence].
  - by rewrite lookup_insert_ne by congruence.
Qed.

Lemma set_word_dom m t i v x : is_Some (set_word m t i v !! x) ↔ is_Some (m !! x).
Proof.
  unfold set_word. destruct (m !! t) as [pg|] eqn:Hpg; [|done].
  destruct (decide (x = t)) as [->|Hx].
  - rewrite lookup_insert_eq, Hpg. split; by eexists.
  - by rewrite lookup_insert_ne by congruence.
Qed.

(** A path that never goes through the changed entry leads to the same table. *)
Lemma reach_set m t0 i0 v t q :
  (∀ p i s, q = p ++ i :: s → reach m t p = Some t0 → i ≠ i0) →
  reach (set_word m t0 i0 v) t q = reach m t q.
Proof.
  revert t. induction q as [|i q IH]; intros t Hq; [done|]. cbn [reach].
  assert (child (set_word m t0 i0 v) t i = child m t i) as ->.
  { unfold child. rewrite entry_at_set_ne; [done|]. intros [= -> ->].
    by apply (Hq [] i0 q). }
  destruct (child m t i) as [t'|] eqn:Hc; [|done]. simpl. apply IH.
  intros p j s -> Hp. apply (Hq (i :: p) j s); [done|]. cbn [reach]. by rewrite Hc.
Qed.

(** The same when a page no path leads to is cleared. *)
Lemma reach_fresh m c t q :
  (∀ p s, q = p ++ s → s ≠ [] → reach m t p ≠ Some c) →
  reach (<[c:=∅]> m) t q = reach m t q.
Proof.
  revert t. induction q as [|i q IH]; intros t Hq; [done|]. cbn [reach].
  assert (t ≠ c) as Ht by (intros ->; by apply (Hq [] (i :: q))).
  assert (child (<[c:=∅]> m) t i = child m t i) as ->.
  { unfold child, entry_at. by rewrite lookup_insert_ne by congruence. }
  destruct (child m t i) as [t'|] eqn:Hc; [|done]. simpl. apply IH.
  intros p s -> Hs. specialize (Hq (i :: p) s eq_refl Hs). cbn [reach] in Hq. by rewrite Hc in Hq.
Qed.

(** ** Adding a table *)

Section link.
Context (m : tmem) (r : Z) (avail avail' : Z → Prop) (p0 : list Z) (t0 i0 c e0 : Z).
Context (Hwf : pt_wf m r avail) (Hp0 : reach m r p0 = Some t0) (Hlen : (S (length p0) < LEVEL)%nat).
Context (He0 : entry_at m t0 i0 = Some e0) (Hinv : e_is_valid e0 = false).
Context (Hc : avail c) (Hokc : okpage c) (Hc' : ¬ avail' c) (Hsub : ∀ x, avail' x → avail x).

Definition linked : tmem := set_word (<[c:=∅]> m) t0 i0 (e_new (c - PAGE_OFFSET) false []).

Lemma reach_not_fresh p : (length p < LEVEL)%nat → reach m r p ≠ Some c.
Proof. intros Hp Hx. by apply (wf_page _ _ _ Hwf p c Hp Hx). Qed.

Lemma t0_not_c : t0 ≠ c.
Proof. intros ->. by apply (reach_not_fresh p0); [lia|]. Qed.

Lemma reach_linked_away q :
  (length q < LEVEL)%nat → ¬ p0 ++ [i0] `prefix_of` q → reach linked r q = reach m r q.
Proof.
  intros Hq Hpre. assert (∀ q, (length q < LEVEL)%nat → reach (<[c:=∅]> m) r q = reach m r q) as Hfr.
  { intros q' Hq'. apply reach_fresh. intros p s -> _. apply reach_not_fresh.
    rewrite length_app in Hq'. lia. }
  unfold linked. rewrite reach_set; [by apply Hfr|]. intros p i s -> Hp ->.
  rewrite length_app in Hq. cbn [length] in Hq. rewrite Hfr in Hp by lia.
  apply Hpre. rewrite (wf_inj _ _ _ Hwf p p0 t0) by (done || lia).
  exists s. by rewrite <- (assoc_L (++)).
Qed.

Lemma entry_at_fresh j : entry_at linked c j = Some 0.
Proof.
  unfold linked. rewrite entry_at_set_ne.
  - unfold entry_at. by rewrite lookup_insert_eq.
  - intros [= Hx _]. by apply t0_not_c.
Qed.

Lemma not_own_prefix : ¬ p0 ++ [i0] `prefix_of` p0.
Proof. intros Hp. apply prefix_length in Hp. rewrite length_app in Hp. simpl in Hp. lia. Qed.

Lemma child_linked : child linked t0 i0 = Some c.
Proof.
  unfold child, linked. rewrite entry_at_set_eq.
  - cbn [mbind option_bind]. rewrite el_valid, el_table.
    + f_equal. lia.
    + unfold okpage in Hokc. rewrite PAGE_OFFSET_val in *. lia.
  - rewrite lookup_insert_ne by (intros Hx; by apply t0_not_c).
    by eapply (wf_page _ _ _ Hwf p0); [lia|].
Qed.

Lemma reach_linked_new s :
  reach linked r (p0 ++ i0 :: s) = match s with [] => Some c | _ => None end.
Proof.
  rewrite reach_app, reach_linked_away, Hp0 by (apply not_own_prefix || lia).
  cbn [mbind option_bind reach]. rewrite child_linked. cbn [mbind option_bind].
  destruct s as [|j s]; [done|]. cbn [reach]. unfold child. rewrite entry_at_fresh.
  cbn [mbind option_bind]. by rewrite el_zero.
Qed.

(** Every path is away from the new entry or goes through it. *)
Lemma path_cases q : ¬ p0 ++ [i0] `prefix_of` q ∨ ∃ s, q = p0 ++ i0 :: s.
Proof.
  destruct (decide (p0 ++ [i0] `prefix_of` q)) as [[s ->]|]; [right|by left].
  exists s. by rewrite <- (assoc_L (++)).
Qed.

Lemma linked_dom x : is_Some (m !! x) → is_Some (linked !! x).
Proof.
  intros Hx. unfold linked. apply set_word_dom. destruct (decide (x = c)) as [->|Hne].
  - rewrite lookup_insert_eq. by eexists.
  - by rewrite lookup_insert_ne by congruence.
Qed.

Lemma link_wf : pt_wf linked r avail'.
Proof.
  constructor.
  - intros p x Hp Hx. destruct (path_cases p) as [Haway|[s ->]].
    + rewrite reach_linked_away in Hx by done.
      destruct (wf_page _ _ _ Hwf p x Hp Hx) as (Hx1 & Hx2 & Hx3).
      split_and!; [done|by apply linked_dom|naive_solver].
    + rewrite reach_linked_new in Hx. destruct s; [|done]. injection Hx as <-.
      split_and!; [done| |done]. unfold linked. apply set_word_dom. rewrite lookup_insert_eq. by eexists.
  - intros p q x Hp Hq Hpx Hqx.
    destruct (path_cases p) as [Hap|[s ->]], (path_cases q) as [Haq|[s' ->]];
      rewrite ?reach_linked_away, ?reach_linked_new in * by done.
    + by apply (wf_inj _ _ _ Hwf p q x).
    + destruct s'; [|done]. injection Hqx as <-. by apply reach_not_fresh in Hpx.
    + destruct s; [|done]. injection Hpx as <-. by apply reach_not_fresh in Hqx.
    + by destruct s, s'.
Qed.

Lemma link_translate vpn : translate linked r vpn = translate m r vpn.
Proof.
  assert (length (upath vpn) < LEVEL)%nat as Hu by (rewrite length_upath; lia).
  unfold translate. destruct (path_cases (upath vpn)) as [Haway|[s Hs]].
  - rewrite reach_linked_away by done. destruct (reach m r (upath vpn)) as [t|] eqn:Ht; [|done].
    cbn [mbind option_bind]. assert (entry_at linked t (index_at vpn 0) = entry_at m t (index_at vpn 0)) as ->; [|done].
    unfold linked. rewrite entry_at_set_ne.
    + unfold entry_at. rewrite lookup_insert_ne; [done|]. intros <-. by apply reach_not_fresh in Ht.
    + intros [= -> _]. pose proof (wf_inj _ _ _ Hwf p0 (upath vpn) t0) as Heq.
      rewrite Heq in Hlen by (done || lia). rewrite length_upath in Hlen. lia.
  - rewrite Hs, reach_linked_new, reach_app, Hp0. cbn [mbind option_bind reach].
    assert (child m t0 i0 = None) as -> by (unfold child; rewrite He0; simpl; by rewrite Hinv).
    destruct s; [|done]. simpl. rewrite entry_at_fresh. simpl. by rewrite el_zero.
Qed.
End link.

(** ** Writing a leaf *)

Section leaf.
Context (m : tmem) (r : Z) (avail : Z → Prop) (vpn t e : Z).
Context (Hwf : pt_wf m r avail) (Ht : reach m r (upath vpn) = Some t).

Lemma upath_short v : (length (upath v) < LEVEL)%nat.
Proof. rewrite length_upath. pose proof ml_level. lia. Qed.

Lemma reach_leaf i q : (length q < LEVEL)%nat → reach (set_word m t i e) r q = reach m r q.
Proof.
  intros Hq. apply reach_set. intros p j s -> Hp. exfalso.
  rewrite length_app in Hq. cbn [length] in Hq.
  pose proof (wf_inj _ _ _ Hwf p (upath vpn) t ltac:(lia) (upath_short vpn) Hp Ht) as ->.
  rewrite length_upath in Hq. lia.
Qed.

Lemma leaf_wf i : pt_wf (set_word m t i e) r avail.
Proof.
  constructor.
  - intros p x Hp Hx. rewrite reach_leaf in Hx by done. rewrite set_word_dom.
    by apply (wf_page _ _ _ Hwf p).
  - intros p q x Hp Hq. rewrite !reach_leaf by done. by apply (wf_inj _ _ _ Hwf).
Qed.

Lemma leaf_translate v : 
  translate (set_word m t (index_at vpn 0) e) r v =
  if decide (upath v = upath vpn ∧ index_at v 0 = index_at vpn 0)
  then (if e_is_valid e then Some e else None) else translate m r v.
Proof.
  unfold translate. rewrite reach_leaf by apply upath_short.
  destruct (decide _) as [[Hu Hi]|Hne].
  - rewrite Hu, Ht, Hi. simpl. rewrite entry_at_set_eq; [done|].
    by eapply (wf_page _ _ _ Hwf (upath vpn)); [apply upath_short|].
  - destruct (reach m r (upath v)) as [t'|] eqn:Ht'; [|done]. simpl.
    rewrite entry_at_set_ne; [done|]. intros [= -> Hi]. apply Hne. split; [|done].
    apply (wf_inj _ _ _ Hwf _ _ t); [apply upath_short..|done|done].
Qed.
End leaf.

(** ** A virtual page is determined by its indices *)

Lemma index_at_bit v l j : 0 ≤ j < PTE_BITS →
  Z.testbit (index_at v l) j = Z.testbit v (PTE_BITS * Z.of_nat l + j).
Proof.
  intros Hj. unfold index_at. rewrite ml_ptes.
  replace (2 ^ PTE_BITS - 1) with (Z.ones PTE_BITS) by (rewrite Z.ones_equiv; lia).
  rewrite Z.land_spec, Z.shiftr_spec, Z.ones_spec_low by lia. rewrite andb_true_r. f_equal. lia.
Qed.

Lemma fmap_eq_elem {X Y} (f g : X → Y) (l : list X) x : f <$> l = g <$> l → x ∈ l → f x = g x.
Proof.
  intros Heq Hx. induction l as [|y l IH]; [by apply list_elem_of_In in Hx|].
  rewrite !fmap_cons in Heq. injection Heq as Hy Hl. apply elem_of_cons in Hx as [->|Hx]; auto.
Qed.

Lemma indices_inj v v' :
  0 ≤ v < 2 ^ (PTE_BITS * Z.of_nat LEVEL) → 0 ≤ v' < 2 ^ (PTE_BITS * Z.of_nat LEVEL) →
  upath v = upath v' → index_at v 0 = index_at v' 0 → v = v'.
Proof.
  intros Hv Hv' Hu H0i. pose proof ml_bits as Hb. apply Z.bits_inj'. intros k Hk.
  destruct (Z.le_gt_cases (PTE_BITS * Z.of_nat LEVEL) k) as [Hge|Hlt].
  { by rewrite !(testbit_high _ _ k) by done. }
  assert (PTE_BITS ≠ 0 ∧ 0 < PTE_BITS) as [Hb0 Hb1] by lia.
  pose proof (Z.div_mod k PTE_BITS Hb0) as Hdm. pose proof (Z.mod_pos_bound k PTE_BITS Hb1) as Hmod.
  assert (0 ≤ k / PTE_BITS < Z.of_nat LEVEL) as Hdiv.
  { split; [apply Z.div_pos; lia|]. apply Z.div_lt_upper_bound; lia. }
  assert (index_at v (Z.to_nat (k / PTE_BITS)) = index_at v' (Z.to_nat (k / PTE_BITS))) as Heq.
  { destruct (decide (k / PTE_BITS = 0)) as [->|Hnz]; [done|].
    apply (fmap_eq_elem _ _ _ _ Hu). apply list_elem_of_In, in_rev. rewrite rev_involutive.
    apply in_seq. lia. }
  assert (k = PTE_BITS * Z.of_nat (Z.to_nat (k / PTE_BITS)) + k mod PTE_BITS) as Hk'
    by (rewrite Z2Nat.id by lia; lia).
  rewrite Hk'. by rewrite <- !index_at_bit, Heq by done.
Qed.

(** How many virtual pages the tables can map. *)
Definition vpn_limit : Z := 2 ^ (PTE_BITS * Z.of_nat LEVEL).

Lemma vpn_limit_pos : 0 < vpn_limit.
Proof. unfold vpn_limit. pose proof ml_bits. apply Z.pow_pos_nonneg; lia. Qed.

(** The indices of a page number are those of its low bits. *)
Lemma index_at_mod v level : (level < LEVEL)%nat → index_at (v mod vpn_limit) level = index_at v level.
Proof.
  intros Hl. pose proof ml_bits as Hb. apply Z.bits_inj'. intros k Hk.
  destruct (Z.le_gt_cases PTE_BITS k) as [Hge|Hlt].
  - assert (∀ w, 0 ≤ index_at w level < 2 ^ PTE_BITS) as Hr.
    { intros w. unfold index_at. rewrite ml_ptes.
      replace (2 ^ PTE_BITS - 1) with (Z.ones PTE_BITS) by (rewrite Z.ones_equiv; lia).
      rewrite Z.land_ones by lia. apply Z.mod_pos_bound. apply Z.pow_pos_nonneg; lia. }
    by rewrite !(testbit_high PTE_BITS _ k).
  - rewrite !index_at_bit by lia. unfold vpn_limit. rewrite Z.mod_pow2_bits_low; [done|]. nia.
Qed.

Lemma upath_mod v : upath (v mod vpn_limit) = upath v.
Proof.
  unfold upath. apply list_fmap_ext. intros i level Hl. apply index_at_mod.
  apply list_elem_of_lookup_2, list_elem_of_In, in_rev, in_seq in Hl. lia.
Qed.

Lemma translate_mod m r v : translate m r (v mod vpn_limit) = translate m r v.
Proof.
  unfold translate. pose proof ml_level. by rewrite upath_mod, index_at_mod by lia.
Qed.

(** ** The operations *)

Section operations.
Context {A : Type} `{!PageAllocator A, !PageAllocatorLaws A}.

Lemma get_entry_run m (a : A) t i :
  0 ≤ i < 512 → get_entry (table_at t) i (m, a) =
  match entry_at m t i with Some e => Ok (e, (m, a)) | None => Undef end.
Proof.
  intros Hi. destruct (word_address t i Hi) as [Hp Hw].
  unfold get_entry, on_mem, read_word, table_at, entry_at. cbn [ptr fst snd]. rewrite Hp, Hw.
  by destruct (m !! t).
Qed.

Lemma set_entry_run m (a : A) t i e :
  0 ≤ i < 512 → is_Some (m !! t) →
  set_entry (table_at t) i e (m, a) = Ok (tt, (set_word m t i e, a)).
Proof.
  intros Hi [pg Hpg]. destruct (word_address t i Hi) as [Hp Hw].
  unfold set_entry, on_mem, write_word, table_at, set_word. cbn [ptr fst snd]. rewrite Hp, Hw, Hpg.
  done.
Qed.

Lemma entry_table_run e x :
  pp_0 (e_page_number e) + PAGE_OFFSET = x → okpage x → entry_table e = Ok (table_at x).
Proof.
  intros Hx Hok. unfold entry_table, VirtualPage_from. rewrite uadd_Ok.
  - cbn [mbind res_bind]. unfold Table_from_page, table_at. cbn [vp_0]. by rewrite Hx, ushl_page.
  - rewrite Hx. destruct Hok. unfold U64. lia.
Qed.

Lemma Table_page_number_run x :
  okpage x → Table_page_number (table_at x) = Ok (mkPP (x - PAGE_OFFSET)).
Proof.
  intros [Hx _]. unfold Table_page_number, table_at. cbn [ptr]. rewrite shiftr_page.
  by apply PhysicalPage_from_Ok.
Qed.

Lemma Table_new_run m (a : A) n :
  pa_ready (S n) a → (∀ x, pa_avail a x → okpage x) →
  ∃ c a', Table_new (m, a) = Ok (table_at c, (<[c:=∅]> m, a')) ∧ pa_ready n a' ∧
    pa_avail a c ∧ ¬ pa_avail a' c ∧ (∀ x, pa_avail a' x → pa_avail a x).
Proof.
  intros Hr Hrange. destruct (pa_alloc_one n a Hr) as (c & a' & Hrun & Hr' & Hc & Hc' & Hsub).
  exists c, a'. split; [|done]. unfold Table_new, on_alloc, on_mem. simpl. 
  unfold mbind at 1, st_bind. cbn [fst snd]. rewrite Hrun. cbn [mbind res_bind].
  unfold mbind, st_bind, lift. cbn [mbind res_bind fst snd].
  rewrite ushl_page by auto. unfold addr_page, table_at. change PAGE_SIZE with 4096.
  by rewrite Z.div_mul by lia.
Qed.

(** One level of [map_4k]: the table of the next level exists afterwards, and
    no translation has changed. *)
Lemma map_level_run m (a : A) r p0 t0 vpn level n :
  pt_wf m r (pa_avail a) → (∀ x, pa_avail a x → okpage x) → pa_ready (S n) a →
  reach m r p0 = Some t0 → (S (length p0) < LEVEL)%nat →
  ∃ t m' a', map_level vpn level (table_at t0) (m, a) = Ok (table_at t, (m', a')) ∧
    pt_wf m' r (pa_avail a') ∧ pa_ready n a' ∧ (∀ x, pa_avail a' x → pa_avail a x) ∧
    reach m' r (p0 ++ [index_at vpn level]) = Some t ∧
    ∀ v, translate m' r v = translate m r v.
Proof.
  intros Hwf Hrange Hready Hp0 Hlen. set (i := index_at vpn level).
  pose proof (index_at_range vpn level) as Hi. fold i in Hi.
  destruct (wf_page _ _ _ Hwf p0 t0) as (Hok0 & Hdom0 & _); [lia|done|].
  assert (is_Some (entry_at m t0 i)) as [e He].
  { destruct Hdom0 as [pg Hpg]. unfold entry_at. rewrite Hpg. by eexists. }
  unfold map_level. fold i. unfold mbind at 1, st_bind. rewrite get_entry_run, He by done.
  cbn [mbind res_bind]. destruct (e_is_valid e) eqn:Hv.
  - assert (reach m r (p0 ++ [i]) = Some (pp_0 (e_page_number e) + PAGE_OFFSET)) as Hreach.
    { rewrite reach_app, Hp0. simpl. unfold child. rewrite He. simpl. by rewrite Hv. }
    destruct (wf_page _ _ _ Hwf (p0 ++ [i]) _ ltac:(rewrite length_app; simpl; lia) Hreach)
      as (Hok & _ & _).
    exists (pp_0 (e_page_number e) + PAGE_OFFSET), m, a. split_and!; try done.
    + unfold mbind, st_bind, lift, mret, st_ret. cbn [mbind res_bind].
      by rewrite (entry_table_run e _ eq_refl Hok).
    + by apply pa_ready_less.
  - destruct (Table_new_run m a n Hready Hrange) as (c & a' & Hrun & Hr' & Hc & Hc' & Hsub).
    assert (okpage c) as Hokc by auto.
    exists c, (linked m t0 i c), a'. split_and!; try done.
    + unfold mbind, st_bind. rewrite Hrun. cbn [mbind res_bind]. unfold lift at 2.
      rewrite Table_page_number_run by done. cbn [mbind res_bind pp_0].
      rewrite set_entry_run.
      * cbn [mbind res_bind mret st_ret]. unfold lift.
        rewrite (entry_table_run _ c); [done| |done].
        rewrite el_table; [lia|]. unfold okpage in Hokc. rewrite PAGE_OFFSET_val in *. lia.
      * done.
      * rewrite lookup_insert_ne; [done|]. intros ->. 
        by apply (wf_page _ _ _ Hwf p0 t0) in Hp0 as (_ & _ & ?); [|lia].
    + by eapply link_wf.
    + by rewrite (reach_linked_new m r (pa_avail a) p0 t0 i c e).
    + intros v. by eapply link_translate.
Qed.

Lemma map_levels_run levels : ∀ m (a : A) r p0 t0 vpn n,
  pt_wf m r (pa_avail a) → (∀ x, pa_avail a x → okpage x) → pa_ready (length levels + n) a →
  reach m r p0 = Some t0 → (length p0 + length levels < LEVEL)%nat →
  ∃ t m' a', map_levels vpn levels (table_at t0) (m, a) = Ok (table_at t, (m', a')) ∧
    pt_wf m' r (pa_avail a') ∧ pa_ready n a' ∧ (∀ x, pa_avail a' x → pa_avail a x) ∧
    reach m' r (p0 ++ (index_at vpn <$> levels)) = Some t ∧
    ∀ v, translate m' r v = translate m r v.
Proof.
  induction levels as [|level levels IH]; intros m a r p0 t0 vpn n Hwf Hrange Hready Hp0 Hlen.
  { exists t0, m, a. split; [done|]. by rewrite app_nil_r. }
  cbn [length] in *.
  destruct (map_level_run m a r p0 t0 vpn level (length levels + n)) as
    (t1 & m1 & a1 & Hrun1 & Hwf1 & Hr1 & Hsub1 & Hp1 & Htr1); [done..|lia|].
  destruct (IH m1 a1 r (p0 ++ [index_at vpn level]) t1 vpn n) as
    (t2 & m2 & a2 & Hrun2 & Hwf2 & Hr2 & Hsub2 & Hp2 & Htr2); [done|auto|done|done|rewrite length_app; simpl; lia|].
  exists t2, m2, a2. split_and!; try done.
  - cbn [map_levels]. unfold mbind, st_bind. rewrite Hrun1. cbn [mbind res_bind]. exact Hrun2.
  - auto.
  - rewrite fmap_cons. by rewrite <- (assoc_L (++)) in Hp2.
  - intros v. by rewrite Htr2, Htr1.
Qed.

Lemma index_at_0 vpn : index_at vpn 0 = Z.land vpn (PTES_PER_DIR - 1).
Proof. unfold index_at. by rewrite Z.mul_0_r, Z.shiftr_0_r. Qed.

(** The tables of a path that exists are found again. *)
Lemma map_levels_present levels : ∀ m (a : A) r p0 t0 vpn t,
  pt_wf m r (pa_avail a) → reach m r p0 = Some t0 → (length p0 + length levels < LEVEL)%nat →
  reach m r (p0 ++ (index_at vpn <$> levels)) = Some t →
  map_levels vpn levels (table_at t0) (m, a) = Ok (table_at t, (m, a)).
Proof.
  induction levels as [|level levels IH]; intros m a r p0 t0 vpn t Hwf Hp0 Hlen Ht.
  { rewrite app_nil_r in Ht. by simplify_eq. }
  cbn [length] in Hlen. set (i := index_at vpn level).
  rewrite fmap_cons, reach_app, Hp0 in Ht. cbn [mbind option_bind reach] in Ht.
  destruct (child m t0 i) as [t1|] eqn:Hc; [|by fold i in Ht; rewrite Hc in Ht].
  assert (reach m r (p0 ++ [i]) = Some t1) as Hp1 by (rewrite reach_app, Hp0; simpl; by rewrite Hc).
  cbn [map_levels]. rewrite (st_run _ _ _ (table_at t1) (m, a)).
  - apply (IH m a r (p0 ++ [i])); [done..|rewrite length_app; simpl; lia|].
    rewrite <- (assoc_L (++)), reach_app, Hp0. done.
  - unfold map_level. fold i. rewrite st_run_bind, get_entry_run by apply index_at_range.
    unfold child in Hc. destruct (entry_at m t0 i) as [e|]; [|done]. cbn [mbind res_bind option_bind] in *.
    destruct (e_is_valid e); [|done]. injection Hc as Hc.
    destruct (wf_page _ _ _ Hwf (p0 ++ [i]) t1) as (Hok & _); [rewrite length_app; simpl; lia|done|].
    rewrite (st_run _ _ _ e (m, a)) by done. unfold lift. by rewrite (entry_table_run e t1).
Qed.

(** The tables that [map_4k] has to make for a page: none when the path exists. *)
Definition missing (m : tmem) (r vpn : Z) : nat :=
  match reach m r (upath vpn) with Some _ => 0 | None => LEVEL - 1 end.

(** The upper levels of the walk, from the root. *)
Lemma map_upper_run m (a : A) r vpn n :
  pt_wf m r (pa_avail a) → (∀ x, pa_avail a x → okpage x) → pa_ready (missing m r vpn + n) a →
  ∃ t m' a', map_levels vpn (rev (range 1 LEVEL)) (table_at r) (m, a) = Ok (table_at t, (m', a')) ∧
    pt_wf m' r (pa_avail a') ∧ pa_ready n a' ∧ (∀ x, pa_avail a' x → pa_avail a x) ∧
    reach m' r (upath vpn) = Some t ∧ ∀ v, translate m' r v = translate m r v.
Proof.
  intros Hwf Hrange Hready. pose proof ml_level as HL. set (levels := rev (range 1 LEVEL)).
  assert (length levels = (LEVEL - 1)%nat) as Hll by (unfold levels, range; by rewrite length_rev, length_seq).
  unfold missing in Hready. destruct (reach m r (upath vpn)) as [t|] eqn:Ht.
  - exists t, m, a. split; [|done]. apply (map_levels_present levels m a r []); [done..|simpl; lia|done].
  - destruct (map_levels_run levels m a r [] r vpn n) as (t & m' & a' & ?);
      [done|done|by rewrite Hll|done|simpl; lia|]. by exists t, m', a'.
Qed.

(** [map_4k] as a whole. *)
Lemma map_4k_run m (a : A) r vpn ppn mode n :
  pt_wf m r (pa_avail a) → (∀ x, pa_avail a x → okpage x) → pa_ready (missing m r vpn + n) a →
  ∃ m' a', map_4k (mkMapper (table_at r)) vpn ppn mode (m, a) = Ok (tt, (m', a')) ∧
    pt_wf m' r (pa_avail a') ∧ pa_ready n a' ∧ (∀ x, pa_avail a' x → pa_avail a x) ∧
    missing m' r vpn = 0%nat ∧
    ∀ v, translate m' r v =
      if decide (upath v = upath vpn ∧ index_at v 0 = index_at vpn 0)
      then Some (e_new ppn true mode) else translate m r v.
Proof.
  intros Hwf Hrange Hready.
  destruct (map_upper_run m a r vpn n) as
    (t & m1 & a1 & Hrun & Hwf1 & Hr1 & Hsub1 & Hp1 & Htr1); [done..|].
  destruct (wf_page _ _ _ Hwf1 (upath vpn) t) as (Hok & Hdom & _); [apply upath_short|done|].
  exists (set_word m1 t (index_at vpn 0) (e_new ppn true mode)), a1. split_and!; try done.
  - unfold map_4k. cbn [root_table root]. rewrite (st_run _ _ _ _ _ Hrun).
    rewrite <- index_at_0. apply set_entry_run; [apply index_at_range|done].
  - by eapply leaf_wf.
  - unfold missing. rewrite (reach_leaf m1 r (pa_avail a1) vpn t) by (done || apply upath_short).
    by rewrite Hp1.
  - intros v. rewrite (leaf_translate m1 r (pa_avail a1) vpn t) by done.
    rewrite el_valid. by rewrite Htr1.
Qed.

(** The upper levels depend on the number of the last-level table only. *)
Lemma upath_table v v' : v / PTES_PER_DIR = v' / PTES_PER_DIR → upath v = upath v'.
Proof.
  intros Heq. pose proof ml_bits. unfold upath. apply list_fmap_ext. intros i level Hl.
  apply list_elem_of_lookup_2 in Hl.
  assert (1 ≤ level)%nat as Hlev.
  { apply list_elem_of_In, in_rev, in_seq in Hl. lia. }
  assert (∀ w, Z.shiftr w (PTE_BITS * Z.of_nat level)
               = Z.shiftr (w / PTES_PER_DIR) (PTE_BITS * (Z.of_nat level - 1))) as Hsh.
  { intros w. rewrite ml_ptes, <- Z.shiftr_div_pow2, Z.shiftr_shiftr by nia. f_equal. lia. }
  unfold index_at. by rewrite !Hsh, Heq.
Qed.

(** How many last-level tables a range of pages touches. *)
Definition leaf_tables (vpn : Z) (pages : nat) : nat :=
  match pages with
  | O => O
  | S p => Z.to_nat ((vpn + Z.of_nat p) / PTES_PER_DIR - vpn / PTES_PER_DIR + 1)
  end.

Lemma leaf_tables_pos vpn pages : (1 ≤ leaf_tables vpn (S pages))%nat.
Proof.
  assert (0 < PTES_PER_DIR) by (rewrite ml_ptes; pose proof ml_bits; apply Z.pow_pos_nonneg; lia).
  cbn [leaf_tables]. assert (vpn / PTES_PER_DIR ≤ (vpn + Z.of_nat pages) / PTES_PER_DIR)
    by (apply Z.div_le_mono; lia). lia.
Qed.

Lemma leaf_tables_next vpn pages :
  leaf_tables vpn (S (S pages)) =
  ((if decide ((vpn + 1) / PTES_PER_DIR = vpn / PTES_PER_DIR)%Z then 0 else 1) + leaf_tables (vpn + 1)%Z (S pages))%nat.
Proof.
  assert (0 < PTES_PER_DIR) as HP by (rewrite ml_ptes; pose proof ml_bits; apply Z.pow_pos_nonneg; lia).
  cbn [leaf_tables]. replace (vpn + Z.of_nat (S pages)) with (vpn + 1 + Z.of_nat pages) by lia.
  assert ((vpn + 1) / PTES_PER_DIR ≤ (vpn + 1 + Z.of_nat pages) / PTES_PER_DIR) by (apply Z.div_le_mono; lia).
  destruct (decide _) as [->|Hne]; [done|].
  assert (vpn / PTES_PER_DIR ≤ (vpn + 1) / PTES_PER_DIR) by (apply Z.div_le_mono; lia).
  assert ((vpn + 1) / PTES_PER_DIR ≤ vpn / PTES_PER_DIR + 1).
  { rewrite <- Z.div_add by lia. apply Z.div_le_mono; lia. }
  lia.
Qed.

Lemma pa_ready_le n n' (a : A) : (n ≤ n')%nat → pa_ready n' a → pa_ready n a.
Proof. induction 1; [done|]. intros H'. by apply IHle, pa_ready_less. Qed.

(** The pages a range needs: one per upper level for every last-level table, none
    for the first when it exists. *)
Definition map_need (m : tmem) (r vpn : Z) (pages : nat) : nat :=
  match pages with
  | O => O
  | S _ => missing m r vpn + (LEVEL - 1) * (leaf_tables vpn pages - 1)
  end.

Lemma map_loop_run pages : ∀ m (a : A) r vpn ppn mode n,
  pt_wf m r (pa_avail a) → (∀ x, pa_avail a x → okpage x) →
  pa_ready (map_need m r vpn pages + n) a →
  0 ≤ vpn → vpn + Z.of_nat pages ≤ vpn_limit → vpn + Z.of_nat pages < U64 →
  ppn + Z.of_nat pages < U64 →
  ∃ m' a', map_loop (mkMapper (table_at r)) vpn ppn pages mode (m, a) = Ok (tt, (m', a')) ∧
    pt_wf m' r (pa_avail a') ∧ pa_ready n a' ∧ (∀ x, pa_avail a' x → pa_avail a x) ∧
    ∀ v, 0 ≤ v < vpn_limit → translate m' r v =
      if decide (vpn ≤ v < vpn + Z.of_nat pages)
      then Some (e_new (ppn + (v - vpn)) true mode) else translate m r v.
Proof.
  induction pages as [|pages IH]; intros m a r vpn ppn mode n Hwf Hrange Hready Hv Hlim Hv64 Hp64.
  { exists m, a. split; [done|]. split_and!; try done.
    intros v _. rewrite decide_False by lia. done. }
  cbn [map_need] in Hready. rewrite <- Nat.add_assoc in Hready.
  destruct (map_4k_run m a r vpn ppn mode _ Hwf Hrange Hready) as
    (m1 & a1 & Hrun1 & Hwf1 & Hr1 & Hsub1 & Hmiss & Htr1).
  destruct (IH m1 a1 r (vpn + 1) (ppn + 1) mode n) as
    (m2 & a2 & Hrun2 & Hwf2 & Hr2 & Hsub2 & Htr2); [done|auto| |lia..|].
  { eapply pa_ready_le; [|exact Hr1]. destruct pages as [|pages]; [cbn [map_need]; nia|]. cbn [map_need].
    rewrite leaf_tables_next. destruct (decide _) as [Heq|Hne].
    - assert (missing m1 r (vpn + 1) = 0%nat) as ->; [|lia].
      unfold missing in *. by rewrite (upath_table (vpn + 1) vpn).
    - assert (missing m1 r (vpn + 1) ≤ LEVEL - 1)%nat by (unfold missing; destruct (reach _ _ _); lia).
      pose proof (leaf_tables_pos (vpn + 1) pages). nia. }
  exists m2, a2. split_and!; try done; [|auto|].
  - cbn [map_loop]. unfold mbind at 1, st_bind. rewrite Hrun1. cbn [mbind res_bind].
    unfold mbind, st_bind, lift. rewrite !uadd_Ok by lia. cbn [mbind res_bind]. exact Hrun2.
  - intros v Hvr. rewrite Htr2 by done. rewrite Htr1.
    destruct (decide (vpn + 1 ≤ v < vpn + 1 + Z.of_nat pages)) as [Hin|Hout].
    + rewrite decide_True by lia. do 2 f_equal. lia.
    + destruct (decide (upath v = upath vpn ∧ index_at v 0 = index_at vpn 0)) as [[Hu Hi]|Hne].
      * assert (v = vpn) as -> by (apply indices_inj; unfold vpn_limit in *; done || lia).
        rewrite decide_True by lia. do 2 f_equal. lia.
      * rewrite decide_False; [done|]. intros Hin. assert (v = vpn) as -> by lia. by apply Hne.
Qed.

(** A range of any page numbers is mapped like that of their low bits. *)
Lemma map_levels_mod vpn levels : ∀ t (s : tmem * A),
  (∀ l, l ∈ levels → (l < LEVEL)%nat) →
  map_levels (vpn mod vpn_limit) levels t s = map_levels vpn levels t s.
Proof.
  induction levels as [|l levels IH]; intros t s Hl; [done|]. cbn [map_levels].
  assert (map_level (A:=A) (vpn mod vpn_limit) l t = map_level vpn l t) as ->.
  { unfold map_level. by rewrite index_at_mod by (apply Hl; left). }
  rewrite !st_run_bind. destruct (map_level vpn l t s) as [[t' s']| | |]; [|done..].
  cbn [mbind res_bind]. apply IH. intros l' Hl'. apply Hl. by right.
Qed.

Lemma map_4k_mod self vpn ppn mode (s : tmem * A) :
  map_4k self (vpn mod vpn_limit) ppn mode s = map_4k self vpn ppn mode s.
Proof.
  pose proof ml_level as HL. unfold map_4k. rewrite !st_run_bind, map_levels_mod.
  - by rewrite <- !index_at_0, index_at_mod by lia.
  - intros l Hl. apply list_elem_of_In, in_rev, in_seq in Hl. lia.
Qed.

Lemma map_loop_mod self pages : ∀ vpn ppn mode (s : tmem * A),
  0 ≤ vpn → vpn mod vpn_limit + Z.of_nat pages ≤ vpn_limit → vpn + Z.of_nat pages < U64 →
  map_loop self (vpn mod vpn_limit) ppn pages mode s = map_loop self vpn ppn pages mode s.
Proof.
  pose proof vpn_limit_pos as HL.
  induction pages as [|pages IH]; intros vpn ppn mode s Hv Hlim H64; [done|].
  cbn [map_loop]. rewrite !st_run_bind, map_4k_mod.
  destruct (map_4k self vpn ppn mode s) as [[u s']| | |]; [|done..]. cbn [mbind res_bind].
  pose proof (Z.mod_pos_bound vpn vpn_limit HL). pose proof (Z.mod_le vpn vpn_limit Hv HL).
  rewrite (uadd_Ok (vpn mod vpn_limit) 1), (uadd_Ok vpn 1) by lia. rewrite (st_run_lift (Ok (vpn mod vpn_limit + 1)) _ _ _ eq_refl), (st_run_lift (Ok (vpn + 1)) _ _ _ eq_refl).
  rewrite !st_run_bind. unfold lift. destruct (ppn +! 1); [|done..]. cbn [mbind res_bind].
  destruct (decide (vpn mod vpn_limit + 1 = vpn_limit)) as [He|Hne].
  - by replace pages with 0%nat by lia.
  - assert ((vpn + 1) mod vpn_limit = vpn mod vpn_limit + 1) as Hm.
    { symmetry. apply Z.mod_unique with (vpn / vpn_limit); [lia|]. pose proof (Z.div_mod vpn vpn_limit). lia. }
    rewrite <- Hm. apply IH; lia.
Qed.

(** The pages [map_with_allocator] needs at most. *)
Definition table_need (vpn pages : Z) : nat :=
  (LEVEL - 1) * leaf_tables (vpn mod vpn_limit) (Z.to_nat pages).

(** The offset of page [v] in the range from [vpn] on, up to the page numbers the
    tables can tell apart. *)
Definition page_offset (vpn v : Z) : Z := v mod vpn_limit - vpn mod vpn_limit.

Lemma map_with_run m (a : A) r vpn ppn pages mode n :
  pt_wf m r (pa_avail a) → (∀ x, pa_avail a x → okpage x) →
  pa_ready (table_need vpn pages + n) a →
  0 ≤ vpn → 0 ≤ pages → vpn mod vpn_limit + pages ≤ vpn_limit → vpn + pages < U64 → ppn + pages < U64 →
  ∃ m' a', map_with_allocator (mkMapper (table_at r)) vpn ppn pages mode (m, a) = Ok (tt, (m', a')) ∧
    pt_wf m' r (pa_avail a') ∧ pa_ready n a' ∧ (∀ x, pa_avail a' x → pa_avail a x) ∧
    ∀ v, translate m' r v =
      if decide (0 ≤ page_offset vpn v < pages)
      then Some (e_new (ppn + page_offset vpn v) true mode) else translate m r v.
Proof.
  intros Hwf Hrange Hready Hv Hp Hlim Hv64 Hp64. pose proof vpn_limit_pos as HL.
  pose proof (Z.mod_pos_bound vpn vpn_limit HL). pose proof (Z.mod_le vpn vpn_limit Hv HL).
  destruct (map_loop_run (Z.to_nat pages) m a r (vpn mod vpn_limit) ppn mode n)
    as (m' & a' & Hrun & Hwf' & Hr' & Hsub & Htr); rewrite ?Z2Nat.id by lia; [done|done| |lia..|].
  { eapply pa_ready_le; [|exact Hready]. unfold table_need, map_need.
    destruct (Z.to_nat pages) as [|k] eqn:Hk; [nia|].
    assert (missing m r (vpn mod vpn_limit) ≤ LEVEL - 1)%nat by (unfold missing; destruct (reach _ _ _); lia).
    pose proof (leaf_tables_pos (vpn mod vpn_limit) k). nia. }
  exists m', a'. split_and!; try done.
  - unfold map_with_allocator. rewrite <- map_loop_mod; [done|done|lia..].
  - intros v. rewrite <- !(translate_mod _ _ v). rewrite Htr by (by apply Z.mod_pos_bound).
    rewrite Z2Nat.id by lia. unfold page_offset.
    destruct (decide _), (decide _); try done; lia.
Qed.

(** ** Unmapping *)

(** The pages of the tables along a path. *)
Fixpoint tables_on (m : tmem) (t : Z) (path : list Z) : list Z :=
  match path with
  | [] => [t]
  | i :: path => t :: match child m t i with Some t' => tables_on m t' path | None => [] end
  end.

Lemma tables_on_last m t p i t1 t2 :
  reach m t p = Some t1 → child m t1 i = Some t2 →
  ∃ l, tables_on m t (p ++ [i]) = l ++ [t1; t2].
Proof.
  revert t. induction p as [|j p IH]; intros t Hp Hc; cbn [app reach tables_on] in *.
  - injection Hp as ->. rewrite Hc. by exists [].
  - destruct (child m t j) as [t'|]; [|done]. simpl in Hp.
    destruct (IH t' Hp Hc) as [l ->]. by exists (t :: l).
Qed.

Lemma rev_range_S n : rev (range 1 (S (S n))) = S n :: rev (range 1 (S n)).
Proof. unfold range. rewrite !Nat.sub_succ, !Nat.sub_0_r, seq_S, rev_app_distr. done. Qed.

Lemma unmap_walk_run level : ∀ m (a : A) vpn t0 t,
  (∀ p x, reach m t0 p = Some x → (length p ≤ level)%nat → okpage x ∧ is_Some (m !! x)) →
  reach m t0 (index_at vpn <$> rev (range 1 (S level))) = Some t →
  unmap_walk vpn level (table_at t0) (m, a)
  = Ok (table_at <$> tables_on m t0 (index_at vpn <$> rev (range 1 (S level))),
        (set_word m t (index_at vpn 0) e_empty, a)).
Proof.
  induction level as [|level IH]; intros m a vpn t0 t Hok Hreach.
  - cbn in Hreach. injection Hreach as <-. destruct (Hok [] t0) as [_ Hdom]; [done|simpl; lia|].
    cbn [unmap_walk]. unfold mbind, st_bind.
    by rewrite set_entry_run by (done || apply index_at_range).
  - rewrite rev_range_S, fmap_cons in *. cbn [reach tables_on] in *.
    destruct (child m t0 (index_at vpn (S level))) as [t1|] eqn:Hc; [|done]. simpl in Hreach.
    cbn [unmap_walk]. unfold mbind at 1, st_bind. rewrite get_entry_run by apply index_at_range.
    unfold child in Hc. destruct (entry_at m t0 (index_at vpn (S level))) as [e|] eqn:He; [|done].
    simpl in Hc. destruct (e_is_valid e) eqn:Hv; [|done]. injection Hc as Hc. cbn [mbind res_bind].
    assert (child m t0 (index_at vpn (S level)) = Some t1) as Hc'.
    { unfold child. rewrite He. simpl. rewrite Hv. by rewrite Hc. }
    unfold mbind at 1, st_bind, lift. rewrite (entry_table_run e t1 Hc).
    2: { apply (Hok [index_at vpn (S level)] t1); [|simpl; lia]. cbn [reach]. by rewrite Hc'. }
    cbn [mbind res_bind]. unfold mbind, st_bind.
    rewrite (IH m a vpn t1 t); [done| |done].
    intros p x Hp Hlen. apply (Hok (index_at vpn (S level) :: p) x); [|simpl; lia].
    cbn [reach]. by rewrite Hc'.
Qed.

Definition slot_invalid (m : tmem) (t i : Z) : Prop :=
  ∀ e, entry_at m t i = Some e → e_is_valid e = false.

Lemma is_empty_true_run m (a : A) t count : ∀ i,
  is_Some (m !! t) → 0 ≤ i → i + Z.of_nat count ≤ 512 →
  (∀ j, i ≤ j < i + Z.of_nat count → slot_invalid m t j) →
  is_empty_from (table_at t) i count (m, a) = Ok (true, (m, a)).
Proof.
  induction count as [|count IH]; intros i Hdom Hi Hle Hinv; [done|].
  cbn [is_empty_from]. unfold mbind, st_bind. rewrite get_entry_run by lia.
  destruct Hdom as [pg Hpg]. destruct (entry_at m t i) as [e|] eqn:He;
    [|unfold entry_at in He; by rewrite Hpg in He].
  cbn [mbind res_bind]. rewrite (Hinv i ltac:(lia) e He). apply IH; [by eexists|lia..|].
  intros j Hj. apply Hinv. lia.
Qed.

Lemma is_empty_false_run m (a : A) t count : ∀ i j e,
  is_Some (m !! t) → 0 ≤ i → i + Z.of_nat count ≤ 512 → i ≤ j < i + Z.of_nat count →
  entry_at m t j = Some e → e_is_valid e = true →
  is_empty_from (table_at t) i count (m, a) = Ok (false, (m, a)).
Proof.
  induction count as [|count IH]; intros i j e Hdom Hi Hle Hj He Hv; [lia|].
  cbn [is_empty_from]. unfold mbind, st_bind. rewrite get_entry_run by lia.
  destruct (entry_at m t i) as [ei|] eqn:Hei.
  2: { destruct Hdom as [pg Hpg]. unfold entry_at in Hei. by rewrite Hpg in Hei. }
  cbn [mbind res_bind]. destruct (e_is_valid ei) eqn:Hvi; [done|].
  apply (IH (i + 1) j e); try done; try lia.
  assert (i ≠ j) by (intros ->; congruence). lia.
Qed.

(** The last table of the path and its parent. *)
Lemma upath_last m r vpn t :
  (2 ≤ LEVEL)%nat → reach m r (upath vpn) = Some t →
  ∃ q t1 l, upath vpn = q ++ [index_at vpn 1] ∧ reach m r q = Some t1 ∧
    child m t1 (index_at vpn 1) = Some t ∧ tables_on m r (upath vpn) = l ++ [t1; t].
Proof.
  intros HL Ht. assert (∃ q, upath vpn = q ++ [index_at vpn 1]) as [q Hq].
  { unfold upath, range. destruct LEVEL as [|[|n]]; [lia..|].
    rewrite Nat.sub_succ, Nat.sub_0_r. cbn [seq rev]. rewrite fmap_app. by eexists. }
  rewrite Hq in *. rewrite reach_app in Ht. destruct (reach m r q) as [t1|] eqn:Hr; [|done].
  simpl in Ht. destruct (child m t1 (index_at vpn 1)) as [t'|] eqn:Hc; [|done]. injection Ht as ->.
  destruct (tables_on_last m r q _ t1 t Hr Hc) as [l Hl]. by exists q, t1, l.
Qed.

Lemma unmap_tables m (a : A) r avail vpn t :
  (2 ≤ LEVEL)%nat → pt_wf m r avail → reach m r (upath vpn) = Some t →
  ∃ t1 rest, child m t1 (index_at vpn 1) = Some t ∧ t1 ≠ t ∧ is_Some (m !! t1) ∧
    unmap_4k (mkMapper (table_at r)) vpn (m, a)
    = free_empty (table_at t :: take (LEVEL - 2) (table_at t1 :: rest))
        (set_word m t (index_at vpn 0) e_empty, a).
Proof.
  intros HL Hwf Ht. pose proof ml_level as HL5.
  destruct (upath_last m r vpn t HL Ht) as (q & t1 & l & Hq & Hr & Hc & Hon).
  assert (length q < LEVEL)%nat as Hql.
  { pose proof (length_upath vpn) as Hlu. rewrite Hq, length_app in Hlu. simpl in Hlu. lia. }
  exists t1, (rev (table_at <$> l)). split_and!; [done| | |].
  - intros ->. pose proof (wf_inj _ _ _ Hwf q (upath vpn) t Hql (upath_short vpn) Hr Ht) as Heq.
    rewrite Hq in Heq. apply (f_equal length) in Heq. rewrite length_app in Heq. simpl in Heq. lia.
  - by apply (wf_page _ _ _ Hwf q t1).
  - unfold unmap_4k, mbind at 1, st_bind, lift at 1. rewrite (proj2 (Nat.leb_le _ _)) by lia.
    cbn [assert mbind res_bind root_table root]. unfold mbind at 1, st_bind.
    rewrite (unmap_walk_run (LEVEL - 1) m a vpn r t).
    + cbn [mbind res_bind]. replace (S (LEVEL - 1)) with LEVEL by lia. fold (upath vpn). rewrite Hon.
      rewrite fmap_app, rev_app_distr. cbn [fmap list_fmap rev app].
      by replace (LEVEL - 1)%nat with (S (LEVEL - 2)) by lia.
    + intros p x Hp Hlp. destruct (wf_page _ _ _ Hwf p x) as (? & ? & _); [lia|done|]. done.
    + by replace (S (LEVEL - 1)) with LEVEL by lia.
Qed.

Lemma PTES_512 : Z.of_nat (Z.to_nat PTES_PER_DIR) ≤ 512 ∧ 0 < PTES_PER_DIR.
Proof.
  pose proof ml_bits as Hb. rewrite ml_ptes.
  assert (0 < 2 ^ PTE_BITS ≤ 2 ^ 9); [|lia].
  split; [apply Z.pow_pos_nonneg; lia|apply Z.pow_le_mono_r; lia].
Qed.

Lemma index_at_ptes vpn level : 0 ≤ index_at vpn level < PTES_PER_DIR.
Proof.
  unfold index_at. pose proof ml_bits. rewrite ml_ptes.
  replace (2 ^ PTE_BITS - 1) with (Z.ones PTE_BITS) by (rewrite Z.ones_equiv; lia).
  rewrite Z.land_ones by lia. apply Z.mod_pos_bound, Z.pow_pos_nonneg; lia.
Qed.

(** The last table keeps another entry: only the leaf is cleared. *)
Lemma unmap_keep_run m (a : A) r avail vpn t j e :
  (2 ≤ LEVEL)%nat → pt_wf m r avail → reach m r (upath vpn) = Some t →
  0 ≤ j < PTES_PER_DIR → j ≠ index_at vpn 0 → entry_at m t j = Some e → e_is_valid e = true →
  unmap_4k (mkMapper (table_at r)) vpn (m, a)
  = Ok (tt, (set_word m t (index_at vpn 0) e_empty, a)).
Proof.
  intros HL Hwf Ht Hj Hne He Hv.
  destruct (unmap_tables m a r avail vpn t HL Hwf Ht) as (t1 & rest & _ & _ & _ & ->).
  destruct (wf_page _ _ _ Hwf (upath vpn) t (upath_short vpn) Ht) as (_ & Hdom & _).
  pose proof PTES_512 as [HP HP0]. cbn [free_empty]. unfold mbind at 1, st_bind, is_empty.
  rewrite (is_empty_false_run _ _ t _ 0 j e); try done; try lia.
  - by apply set_word_dom.
  - rewrite entry_at_set_ne; [done|]. congruence.
Qed.

(** The last table becomes empty: its page is freed, and that is all. *)
Lemma unmap_last_run m (a a' : A) r avail vpn t :
  (2 ≤ LEVEL)%nat → pt_wf m r avail → reach m r (upath vpn) = Some t →
  (∀ j, 0 ≤ j < PTES_PER_DIR → j ≠ index_at vpn 0 → slot_invalid m t j) →
  pa_free_pages t 1 a = Ok (tt, a') →
  unmap_4k (mkMapper (table_at r)) vpn (m, a)
  = Ok (tt, (set_word m t (index_at vpn 0) e_empty, a')).
Proof.
  intros HL Hwf Ht Hinv Hfree.
  destruct (unmap_tables m a r avail vpn t HL Hwf Ht) as (t1 & rest & Hc & Hne & Hdom1 & ->).
  destruct (wf_page _ _ _ Hwf (upath vpn) t (upath_short vpn) Ht) as (Hok & Hdom & _).
  pose proof PTES_512 as [HP HP0]. cbn [free_empty]. unfold mbind at 1, st_bind, is_empty.
  rewrite (is_empty_true_run _ _ t _ 0); [|by apply set_word_dom|lia..|].
  2: { intros j Hj e. destruct (decide (j = index_at vpn 0)) as [->|Hj0].
       - rewrite entry_at_set_eq by done. intros [= <-]. rewrite el_empty. apply el_zero.
       - rewrite entry_at_set_ne by congruence. apply Hinv; [lia|done]. }
  cbn [mbind res_bind]. unfold mbind, st_bind, lift. rewrite Table_page_number_run by done.
  cbn [mbind res_bind]. rewrite VirtualPage_from_Ok by (destruct Hok; unfold U64; lia).
  cbn [mbind res_bind vp_0]. unfold on_alloc. cbn [fst snd].
  replace (t - PAGE_OFFSET + PAGE_OFFSET) with t by lia. rewrite Hfree. cbn [mbind res_bind].
  destruct (LEVEL - 2)%nat as [|n]; [done|]. cbn [take free_empty]. unfold mbind, st_bind, is_empty.
  unfold child in Hc. destruct (entry_at m t1 (index_at vpn 1)) as [e1|] eqn:He1; [|done].
  simpl in Hc. destruct (e_is_valid e1) eqn:Hv1; [|done]. pose proof (index_at_ptes vpn 1).
  rewrite (is_empty_false_run _ _ t1 _ 0 (index_at vpn 1) e1); try done; try lia.
  - by apply set_word_dom.
  - rewrite entry_at_set_ne; [done|]. congruence.
Qed.
End operations.
End tree.
