(* ===== verification/MappingDestroy.v ===== *)
(** * Destroying a page table

    [destroy_with_allocator] walks the tables with an explicit stack of tables
    and indices.  Here the walk is shown to terminate within a bound on its
    iterations and to free, in order, exactly the pages of the list [freed]: the
    tables of the subtree in post-order, those of level 1 left out. *)

From S2P Require Import Prelude Page Address Bytes Mapping MappingSpec.

Section destroy.
Context `{!Entry, !Mapper, !EntryLaws, !MapperLaws}.
Context {A : Type} `{!PageAllocator A, !PageAllocatorLaws A}.

(** The pages freed below a table of the given level. *)
Fixpoint freed (m : tmem) (level : nat) (t : Z) : list Z :=
  match level with
  | O => [t]
  | S l =>
    (seqZ 0 PTES_PER_DIR ≫= λ i, from_option (freed m l) [] (child m t i))
      ++ (if (l =? 0)%nat then [] else [t])
  end.

Fixpoint frees (l : list Z) : ST A unit :=
  match l with
  | [] => mret tt
  | x :: l => _ ← pa_free_pages x 1; frees l
  end.

Lemma frees_app l1 l2 a : frees (l1 ++ l2) a = x ← frees l1 a; frees l2 x.2.
Proof.
  revert a. induction l1 as [|x l1 IH]; intros a; [done|]. cbn [app frees].
  unfold mbind at 1 3, st_bind. rewrite res_bind_assoc.
  by destruct (pa_free_pages x 1 a) as [[[] a']| | |]; cbn [mbind res_bind].
Qed.

Lemma frees_one x a : frees [x] a = pa_free_pages x 1 a.
Proof.
  cbn [frees]. unfold mbind, st_bind. by destruct (pa_free_pages x 1 a) as [[[] a']| | |].
Qed.

(** How many iterations a subtree takes at most. *)
Fixpoint iterations (level : nat) : nat :=
  match level with
  | O => 0
  | S O => 1
  | S l => S (Z.to_nat PTES_PER_DIR * S (iterations l))
  end.

(** The tables below [t], down to those of level 0. *)
Definition subtree_ok (m : tmem) (level : nat) (t : Z) : Prop :=
  ∀ p x, (length p ≤ level)%nat → reach m t p = Some x → okpage x ∧ is_Some (m !! x).

Lemma subtree_child m level t i c :
  subtree_ok m (S level) t → child m t i = Some c → subtree_ok m level c.
Proof. intros Hok Hc p x Hp Hx. apply (Hok (i :: p) x); [simpl; lia|]. simpl. by rewrite Hc. Qed.

Lemma subtree_root m level t : subtree_ok m level t → okpage t ∧ is_Some (m !! t).
Proof. intros Hok. apply (Hok [] t); [simpl; lia|done]. Qed.

Lemma child_entry m t i c : child m t i = Some c →
  ∃ e, entry_at m t i = Some e ∧ e_is_valid e = true ∧ pp_0 (e_page_number e) + PAGE_OFFSET = c.
Proof.
  unfold child. destruct (entry_at m t i) as [e|]; [|done]. simpl.
  destruct (e_is_valid e) eqn:Hv; [|done]. intros [= <-]. by exists e.
Qed.

Lemma no_child_entry m t i : is_Some (m !! t) → child m t i = None →
  ∃ e, entry_at m t i = Some e ∧ e_is_valid e = false.
Proof.
  intros [pg Hpg]. unfold child, entry_at. rewrite Hpg. simpl.
  destruct (e_is_valid _) eqn:Hv; [done|]. by eexists.
Qed.

Lemma free_phys_run m a pp x :
  pp_0 pp + PAGE_OFFSET = x → okpage x →
  free_phys pp (m, a) = '(_, a') ← pa_free_pages x 1 a; Ok (tt, (m, a')).
Proof.
  intros Hx [_ Hlt]. unfold free_phys, mbind at 1, st_bind, lift, VirtualPage_from.
  rewrite uadd_Ok by (rewrite Hx; unfold U64; lia). cbn [mbind res_bind vp_0]. rewrite Hx.
  unfold on_alloc. cbn [fst snd]. by destruct (pa_free_pages x 1 a) as [[[] a']| | |].
Qed.

(** The loop over the entries of a level-1 table. *)
Lemma free_entries_run m t count : ∀ i a,
  subtree_ok m 1 t → 0 ≤ i → i + Z.of_nat count ≤ 512 →
  free_entries (table_at t) i count (m, a)
  = '(_, a') ← frees (seqZ i (Z.of_nat count) ≫= λ i, from_option (freed m 0) [] (child m t i)) a;
    Ok (tt, (m, a')).
Proof.
  induction count as [|count IH]; intros i a Hok Hi Hle; [done|].
  destruct (subtree_root _ _ _ Hok) as [_ Hdom].
  rewrite seqZ_cons by lia. rewrite bind_cons, frees_app.
  replace (Z.pred (Z.of_nat (S count))) with (Z.of_nat count) by lia. rewrite <- Z.add_1_r.
  cbn [free_entries]. unfold mbind at 1, st_bind. rewrite get_entry_run by lia.
  destruct (child m t i) as [c|] eqn:Hc.
  - destruct (child_entry _ _ _ _ Hc) as (e & -> & Hv & Hpc). cbn [mbind res_bind]. rewrite Hv.
    destruct (Hok [i] c) as [Hokc _]; [done|simpl; by rewrite Hc|].
    unfold mbind at 1. rewrite (free_phys_run m a _ c Hpc Hokc).
    change (from_option (freed m 0) [] (Some c)) with [c]. rewrite frees_one.
    destruct (pa_free_pages c 1 a) as [[[] a']| | |]; cbn [mbind res_bind]; [|done..].
    cbn [mret st_ret mbind res_bind snd]. apply IH; [done|lia..].
  - destruct (no_child_entry _ _ _ Hdom Hc) as (e & -> & Hv). cbn [mbind res_bind]. rewrite Hv.
    unfold mbind at 1, st_bind. cbn [mret st_ret mbind res_bind from_option frees snd].
    apply IH; [done|lia..].
Qed.

(** ** One iteration *)

Section iteration.
Context (m : tmem) (pts : list Table) (idx : list Z) (l : nat) (t : Z).
Context (Hpt : pts !! l = Some (table_at t)) (Hdom : is_Some (m !! t)) (Hok : okpage t).

Lemma step_skip i a :
  l ≠ 1%nat → idx !! l = Some i → 0 ≤ i < PTES_PER_DIR → child m t i = None →
  destroy_step (mkWalk pts idx l) (m, a)
  = Ok (Some (mkWalk pts (<[l:=i + 1]> idx) l), (m, a)).
Proof.
  intros Hl Hi Hr Hc. pose proof PTES_512 as [HP _].
  destruct (no_child_entry _ _ _ Hdom Hc) as (e & He & Hv).
  unfold destroy_step. cbn [current_level page_tables indexes].
  rewrite (st_run_lift _ _ _ _ (index_Ok _ _ _ Hpt)).
  rewrite (proj2 (Nat.eqb_neq _ _) Hl).
  rewrite (st_run_lift _ _ _ _ (index_Ok _ _ _ Hi)). rewrite (proj2 (Z.eqb_neq _ _)) by lia.
  rewrite st_run_bind, get_entry_run, He by lia. cbn [mbind res_bind]. rewrite Hv.
  cbn [negb]. unfold mbind, st_bind, lift. rewrite update_Ok by (by eapply lookup_lt_Some). done.
Qed.

Lemma step_down i c a :
  (2 ≤ l)%nat → idx !! l = Some i → 0 ≤ i < PTES_PER_DIR → child m t i = Some c → okpage c →
  destroy_step (mkWalk pts idx l) (m, a)
  = Ok (Some (mkWalk (<[(l - 1)%nat:=table_at c]> pts) idx (l - 1)), (m, a)).
Proof.
  intros Hl Hi Hr Hc Hokc. pose proof PTES_512 as [HP _].
  destruct (child_entry _ _ _ _ Hc) as (e & He & Hv & Hpc).
  unfold destroy_step. cbn [current_level page_tables indexes].
  rewrite (st_run_lift _ _ _ _ (index_Ok _ _ _ Hpt)).
  rewrite (proj2 (Nat.eqb_neq _ _)) by lia. 
  rewrite (st_run_lift _ _ _ _ (index_Ok _ _ _ Hi)). rewrite (proj2 (Z.eqb_neq _ _)) by lia.
  rewrite st_run_bind, get_entry_run, He by lia. cbn [mbind res_bind]. rewrite Hv.
  cbn [negb]. rewrite (proj2 (Nat.leb_le _ _)) by lia.
  unfold mbind, st_bind, lift. cbn [mbind res_bind]. rewrite (entry_table_run e c Hpc Hokc).
  cbn [mbind res_bind]. apply lookup_lt_Some in Hpt. by rewrite update_Ok by lia.
Qed.

Lemma step_entries i a :
  l = 1%nat → subtree_ok m 1 t → idx !! 2%nat = Some i →
  destroy_step (mkWalk pts idx l) (m, a)
  = x ← frees (freed m 1 t) a; Ok (Some (mkWalk pts (<[2%nat:=i + 1]> idx) 2), (m, x.2)).
Proof.
  intros Hl Hsub Hi. pose proof PTES_512 as [HP HP0]. 
  unfold destroy_step. cbn [current_level page_tables indexes].
  rewrite (st_run_lift _ _ _ _ (index_Ok _ _ _ Hpt)).
  rewrite Hl. cbn [Nat.eqb]. rewrite st_run_bind.
  rewrite free_entries_run by (done || lia). rewrite Z2Nat.id by lia. cbn [freed Nat.eqb].
  rewrite app_nil_r. destruct (frees _ a) as [[[] a']| | |]; cbn [mbind res_bind]; [|done..].
  unfold mbind, st_bind, lift, walk_up. cbn [current_level page_tables indexes mbind res_bind].
  rewrite (index_Ok _ _ _ Hi). cbn [mbind res_bind].
  rewrite update_Ok by (by eapply lookup_lt_Some). done.
Qed.

Lemma step_done a :
  l ≠ 1%nat → idx !! l = Some PTES_PER_DIR →
  destroy_step (mkWalk pts idx l) (m, a)
  = x ← frees [t] a;
    if (l =? LEVEL - 1)%nat then Ok (None, (m, x.2))
    else idx ← update idx l 0; w ← walk_up (mkWalk pts idx l); Ok (Some w, (m, x.2)).
Proof.
  intros Hl Hi.
  unfold destroy_step. cbn [current_level page_tables indexes].
  rewrite (st_run_lift _ _ _ _ (index_Ok _ _ _ Hpt)).
  rewrite (proj2 (Nat.eqb_neq _ _) Hl).
  rewrite (st_run_lift _ _ _ _ (index_Ok _ _ _ Hi)). rewrite Z.eqb_refl.
  rewrite (st_run_lift _ _ _ _ (Table_page_number_run t Hok)).
  rewrite st_run_bind. rewrite (free_phys_run m a _ t) by (done || (cbn [pp_0]; lia)).
  rewrite frees_one. destruct (pa_free_pages t 1 a) as [[[] a']| | |]; cbn [mbind res_bind]; [|done..].
  cbn [mret st_ret mbind res_bind snd]. destruct (l =? LEVEL - 1)%nat; [done|].
  unfold mbind, st_bind, lift. destruct (update idx l 0) as [idx'| | |]; [|done..].
  cbn [mbind res_bind]. by destruct (walk_up _).
Qed.
End iteration.

(** ** The loop *)

(** From [w] the loop frees the pages [l], in at most [n] iterations, and goes
    on with [w']. *)
Definition destroys (m : tmem) (n : nat) (w w' : Walk) (l : list Z) : Prop :=
  ∃ k, (k ≤ n)%nat ∧ ∀ fuel a,
    destroy_loop (k + fuel) w (m, a) = x ← frees l a; destroy_loop fuel w' (m, x.2).

Lemma destroys_refl m w : destroys m 0 w w [].
Proof. by exists 0%nat. Qed.

Lemma destroys_step m w w' l :
  (∀ a, destroy_step w (m, a) = x ← frees l a; Ok (Some w', (m, x.2))) →
  destroys m 1 w w' l.
Proof.
  intros Hs. exists 1%nat. split; [done|]. intros fuel a. cbn [destroy_loop Nat.add].
  rewrite st_run_bind, Hs. by destruct (frees l a) as [[[] a']| | |].
Qed.

Lemma destroys_trans m n1 n2 w1 w2 w3 l1 l2 :
  destroys m n1 w1 w2 l1 → destroys m n2 w2 w3 l2 → destroys m (n1 + n2) w1 w3 (l1 ++ l2).
Proof.
  intros (k1 & Hk1 & Hr1) (k2 & Hk2 & Hr2). exists (k1 + k2)%nat. split; [lia|]. intros fuel a.
  rewrite <- Nat.add_assoc, Hr1, frees_app.
  destruct (frees l1 a) as [[[] a']| | |]; cbn [mbind res_bind snd]; [|done..]. apply Hr2.
Qed.

Lemma destroys_le m n n' w w' l : (n ≤ n')%nat → destroys m n w w' l → destroys m n' w w' l.
Proof. intros Hn (k & Hk & Heq). exists k. split; [lia|done]. Qed.

(** The stack of tables and indices of the walk. *)
Definition stack_ok (pts : list Table) (idx : list Z) : Prop :=
  length pts = MAX_SUPPORTED_LEVEL ∧ length idx = MAX_SUPPORTED_LEVEL.

(** A subtree that is not the root's: its table is at [level], the indices up
    to there are 0; afterwards the walk is one entry further above. *)
Definition subtree_destroyed (m : tmem) (level : nat) (t : Z) : Prop :=
  ∀ pts idx i, stack_ok pts idx → (S level < LEVEL)%nat → subtree_ok m level t →
  pts !! level = Some (table_at t) → (∀ j, (j ≤ level)%nat → idx !! j = Some 0) →
  idx !! S level = Some i →
  ∃ pts', length pts' = MAX_SUPPORTED_LEVEL ∧ (∀ j, (level < j)%nat → pts' !! j = pts !! j) ∧
    destroys m (iterations level) (mkWalk pts idx level)
      (mkWalk pts' (<[S level:=i + 1]> idx) (S level)) (freed m level t).

(** The entries [i..] of a table above level 1. *)
Lemma destroy_slots m l t count : ∀ pts idx i,
  (1 ≤ l)%nat → (S l < LEVEL)%nat → (∀ c, subtree_destroyed m l c) →
  stack_ok pts idx → subtree_ok m (S l) t → pts !! S l = Some (table_at t) →
  (∀ j, (j ≤ l)%nat → idx !! j = Some 0) → idx !! S l = Some i →
  0 ≤ i → i + Z.of_nat count = PTES_PER_DIR →
  ∃ pts', length pts' = MAX_SUPPORTED_LEVEL ∧ (∀ j, (l < j)%nat → pts' !! j = pts !! j) ∧
    destroys m (count * S (iterations l)) (mkWalk pts idx (S l))
      (mkWalk pts' (<[S l:=PTES_PER_DIR]> idx) (S l))
      (seqZ i (Z.of_nat count) ≫= λ i, from_option (freed m l) [] (child m t i)).
Proof.
  induction count as [|count IH]; intros pts idx i Hl HL Hsubs Hst Hok Hpt Hz Hi Hi0 Hsum.
  { exists pts. split_and!; [apply Hst|done|]. rewrite Nat.mul_0_l.
    replace PTES_PER_DIR with i by lia. rewrite list_insert_id by done. apply destroys_refl. }
  destruct (subtree_root _ _ _ Hok) as [Hokt Hdom]. destruct Hst as [Hlp Hli].
  rewrite seqZ_cons by lia. rewrite bind_cons, <- Z.add_1_r.
  replace (Z.pred (Z.of_nat (S count))) with (Z.of_nat count) by lia.
  assert (S l < length idx)%nat as Hlt by (by eapply lookup_lt_Some).
  assert (∃ pts1, length pts1 = MAX_SUPPORTED_LEVEL ∧ (∀ j, (l < j)%nat → pts1 !! j = pts !! j) ∧
    destroys m (S (iterations l)) (mkWalk pts idx (S l)) (mkWalk pts1 (<[S l:=i + 1]> idx) (S l))
      (from_option (freed m l) [] (child m t i))) as (pts1 & Hlp1 & Hag1 & Hd1).
  { destruct (child m t i) as [c|] eqn:Hc.
    - assert (subtree_ok m l c) as Hokc by (by eapply subtree_child).
      destruct (Hsubs c (<[l:=table_at c]> pts) idx i) as (pts1 & Hlp1 & Hag1 & Hd1); try done.
      + split; [by rewrite length_insert|done].
      + apply list_lookup_insert_eq. apply lookup_lt_Some in Hpt. lia.
      + exists pts1. split_and!; [done| |].
        * intros j Hj. rewrite Hag1 by done. apply list_lookup_insert_ne. lia.
        * apply (destroys_trans _ 1 _ _ (mkWalk (<[l:=table_at c]> pts) idx l) _ []); [|done].
          apply destroys_step. intros a.
          rewrite (step_down m pts idx (S l) t Hpt i c a); [|lia|done|lia|done|].
          -- by rewrite Nat.sub_succ, Nat.sub_0_r.
          -- by apply (subtree_root _ _ _ Hokc).
    - exists pts. split_and!; [done..|]. apply (destroys_le _ 1); [lia|]. apply destroys_step.
      intros a. apply (step_skip m pts idx (S l) t Hpt Hdom i a); [lia|done|lia|done]. }
  destruct (IH pts1 (<[S l:=i + 1]> idx) (i + 1)) as (pts2 & Hlp2 & Hag2 & Hd2); try done; try lia.
  - split; [done|by rewrite length_insert].
  - by rewrite Hag1 by lia.
  - intros j Hj. rewrite list_lookup_insert_ne by lia. auto.
  - by apply list_lookup_insert_eq.
  - exists pts2. split_and!; [done| |].
    + intros j Hj. by rewrite Hag2, Hag1 by done.
    + rewrite list_insert_insert_eq in Hd2. cbn [Nat.mul]. by eapply destroys_trans.
Qed.

Lemma subtree_destroys m l t : (1 ≤ l)%nat → subtree_destroyed m l t.
Proof.
  intros Hl. revert t. induction l as [|l IH]; [lia|]. intros t pts idx i Hst HL Hok Hpt Hz Hi.
  destruct (subtree_root _ _ _ Hok) as [Hokt Hdom]. pose proof Hst as [Hlp Hli].
  destruct l as [|l].
  { exists pts. split_and!; [done..|]. apply destroys_step. intros a.
    by apply (step_entries m pts idx 1 t Hpt i a). }
  pose proof PTES_512 as [HP HP0].
  destruct (destroy_slots m (S l) t (Z.to_nat PTES_PER_DIR) pts idx 0)
    as (pts' & Hlp' & Hag' & Hd); try done; try lia.
  - intros c. apply IH. lia.
  - intros j Hj. apply Hz. lia.
  - apply Hz. lia.
  - exists pts'. split_and!; [done|intros; apply Hag'; lia|].
    rewrite Z2Nat.id in Hd by lia.
    apply (destroys_le _ (Z.to_nat PTES_PER_DIR * S (iterations (S l)) + 1)); [cbn [iterations]; lia|].
    eapply destroys_trans; [exact Hd|]. apply destroys_step. intros a.
    assert (S (S l) < length idx)%nat as Hlt by (eapply lookup_lt_Some, Hz; lia).
    assert (S (S (S l)) < length idx)%nat as Hlt' by (by eapply lookup_lt_Some).
    rewrite (step_done m pts' _ (S (S l)) t); [|by rewrite Hag' by lia|done|lia|
      by apply list_lookup_insert_eq].
    rewrite (proj2 (Nat.eqb_neq _ _)) by lia.
    rewrite update_Ok by (by rewrite length_insert). cbn [mbind res_bind].
    rewrite list_insert_insert_eq. rewrite list_insert_id by (apply Hz; lia).
    unfold walk_up. cbn [indexes current_level page_tables]. rewrite (index_Ok _ _ _ Hi).
    cbn [mbind res_bind]. by rewrite update_Ok.
Qed.

(** The whole walk, for three levels or more. *)
Lemma destroy_run m r avail fuel a :
  (3 ≤ LEVEL)%nat → pt_wf m r avail → (iterations (LEVEL - 1) ≤ fuel)%nat →
  destroy_with_allocator fuel (mkMapper (table_at r)) (m, a)
  = x ← frees (freed m (LEVEL - 1) r) a; Ok (tt, (m, x.2)).
Proof.
  intros HL Hwf Hfuel. pose proof ml_level as HL5. pose proof PTES_512 as [HP HP0].
  destruct (LEVEL - 1)%nat as [|[|l]] eqn:HL1; [lia..|].
  assert (subtree_ok m (S (S l)) r) as Hok.
  { intros p x Hp Hx. destruct (wf_page _ _ _ Hwf p x) as (? & ? & _); [lia|done|]. done. }
  destruct (subtree_root _ _ _ Hok) as [Hokr Hdom].
  set (pts := <[S (S l):=table_at r]> (replicate MAX_SUPPORTED_LEVEL Table_empty)).
  set (idx := replicate MAX_SUPPORTED_LEVEL 0).
  assert (∀ j, (j ≤ S (S l))%nat → idx !! j = Some 0) as Hidx.
  { intros j Hj. apply lookup_replicate. split; [done|]. unfold MAX_SUPPORTED_LEVEL in *. lia. }
  assert (pts !! S (S l) = Some (table_at r)) as Hpt.
  { apply list_lookup_insert_eq. rewrite length_replicate. unfold MAX_SUPPORTED_LEVEL in *. lia. }
  destruct (destroy_slots m (S l) r (Z.to_nat PTES_PER_DIR) pts idx 0)
    as (pts' & Hlp' & Hag' & k & Hk & Hd); try done; try lia.
  { intros c. apply subtree_destroys. lia. }
  { split; unfold pts, idx; by rewrite ?length_insert, length_replicate. }
  { intros j Hj. apply Hidx. lia. }
  { by apply Hidx. }
  unfold destroy_with_allocator. rewrite (st_run_lift _ _ _ tt).
  2: { by rewrite (proj2 (Nat.leb_le _ _)) by lia. }
  rewrite HL1. rewrite (st_run_lift _ _ _ pts).
  2: { apply update_Ok. rewrite length_replicate. unfold MAX_SUPPORTED_LEVEL in *. lia. }
  fold idx.
  change (S (Z.to_nat PTES_PER_DIR * S (iterations (S l))) ≤ fuel)%nat in Hfuel.
  replace fuel with (k + S (fuel - k - 1))%nat by lia.
  rewrite Hd, Z2Nat.id by lia. cbn [freed Nat.eqb]. rewrite frees_app, res_bind_assoc.
  destruct (frees (seqZ 0 PTES_PER_DIR ≫= _) a) as [[[] a']| | |]; cbn [mbind res_bind snd]; [|done..].
  cbn [destroy_loop]. rewrite st_run_bind.
  rewrite (step_done m pts' _ (S (S l)) r); [|by rewrite Hag' by lia|done|lia|].
  2: { apply list_lookup_insert_eq. eapply lookup_lt_Some, Hidx. lia. }
  rewrite HL1, Nat.eqb_refl. by destruct (frees [r] a') as [[[] a'']| | |].
Qed.

(** ** The freed pages *)

(** A path of existing indices. *)
Definition in_dir (p : list Z) : Prop := Forall (λ i, 0 ≤ i < PTES_PER_DIR) p.

(** The page of every table of the subtree but those of level 1. *)
Lemma elem_of_freed m l x : ∀ t,
  x ∈ freed m l t ↔
  ∃ p, in_dir p ∧ reach m t p = Some x ∧ (length p ≤ l)%nat ∧ S (length p) ≠ l.
Proof.
  induction l as [|l IH]; intros t; cbn [freed].
  - rewrite list_elem_of_singleton. split.
    + intros ->. exists []. split_and!; simpl; (by apply Forall_nil) || done || lia.
    + intros ([|j p] & _ & Hr & Hp & _); [by injection Hr|simpl in Hp; lia].
  - rewrite elem_of_app, list_elem_of_bind. split.
    + intros [(i & Hx & Hi)|Hx].
      * destruct (child m t i) as [c|] eqn:Hc; [|simpl in Hx; by apply elem_of_nil in Hx].
        simpl in Hx. apply IH in Hx as (p & Hin & Hr & Hp & Hne). exists (i :: p).
        apply elem_of_seqZ in Hi. split_and!; simpl; try lia.
        -- by apply Forall_cons_2; [lia|].
        -- by rewrite Hc.
      * destruct l as [|l]; simpl in Hx; [by apply elem_of_nil in Hx|].
        apply list_elem_of_singleton in Hx as ->. exists [].
        split_and!; simpl; (by apply Forall_nil) || done || lia.
    + intros ([|i p] & Hin & Hr & Hp & Hne).
      * right. simpl in Hr, Hne. injection Hr as ->. destruct l as [|l]; [done|].
        by apply list_elem_of_singleton.
      * left. apply list.Forall_cons in Hin as [Hi Hin]. simpl in Hr, Hp, Hne.
        destruct (child m t i) as [c|] eqn:Hc; [|done]. simpl in Hr. exists i. rewrite Hc.
        split; [|apply elem_of_seqZ; lia]. apply IH. exists p. split_and!; (done || lia).
Qed.

Lemma NoDup_freed m l : ∀ t,
  (∀ p q x, (length p ≤ l)%nat → (length q ≤ l)%nat →
     reach m t p = Some x → reach m t q = Some x → p = q) →
  NoDup (freed m l t).
Proof.
  induction l as [|l IH]; intros t Hinj; cbn [freed]; [apply NoDup_singleton|].
  assert (∀ i c x, child m t i = Some c → x ∈ freed m l c →
    ∃ p, (length p ≤ l)%nat ∧ reach m t (i :: p) = Some x) as Hel.
  { intros i c x Hc Hx. apply elem_of_freed in Hx as (p & _ & Hr & Hp & _). exists p.
    split; [done|]. simpl. by rewrite Hc. }
  apply list.NoDup_app. split_and!.
  - apply list.NoDup_bind; [| |apply NoDup_seqZ].
    + intros i j x _ _ Hx Hy.
      destruct (child m t i) as [c|] eqn:Hc; [|simpl in Hx; by apply elem_of_nil in Hx].
      destruct (child m t j) as [d|] eqn:Hd; [|simpl in Hy; by apply elem_of_nil in Hy].
      destruct (Hel i c x Hc Hx) as (p & Hp & Hrp), (Hel j d x Hd Hy) as (q & Hq & Hrq).
      assert (i :: p = j :: q) as Heq by (apply (Hinj _ _ x); simpl; (done || lia)).
      by injection Heq.
    + intros i _. destruct (child m t i) as [c|] eqn:Hc; [|apply NoDup_nil_2]. simpl. apply IH.
      intros p q x Hp Hq Hrp Hrq. assert (i :: p = i :: q) as Heq; [|by injection Heq].
      apply (Hinj _ _ x); simpl; try lia; by rewrite Hc.
  - intros x Hx Hxt. apply list_elem_of_bind in Hx as (i & Hx & _).
    destruct (child m t i) as [c|] eqn:Hc; [|simpl in Hx; by apply elem_of_nil in Hx].
    destruct (Hel i c x Hc Hx) as (p & Hp & Hrp).
    destruct (l =? 0)%nat; [by apply elem_of_nil in Hxt|]. apply list_elem_of_singleton in Hxt as ->.
    by assert (i :: p = []) by (apply (Hinj _ _ t); simpl; (done || lia)).
  - destruct (l =? 0)%nat; [apply NoDup_nil_2|apply NoDup_singleton].
Qed.

Lemma freed_once m r avail :
  pt_wf m r avail → NoDup (freed m (LEVEL - 1) r).
Proof.
  intros Hwf. pose proof ml_level. apply NoDup_freed. intros p q x Hp Hq.
  apply (wf_inj _ _ _ Hwf p q x); lia.
Qed.
End destroy.
