(* ===== verification/PageFormats.v ===== *)
(** * The two entry formats satisfy what the page-table code relies on

    Instances of [EntryLaws] and [MapperLaws] for Sv39 and for VMSAv8-64, and
    what an entry made by either format says when it is read back. *)

From S2P Require Import Prelude Page Address Bytes Mapping Sv39 Arm64Page MappingSpec.

(** ** Bits of a page number shifted into place *)

Lemma ushl_small p n : 0 ≤ n → 0 ≤ p < 2 ^ (64 - n) → n ≤ 64 → ushl p n = Z.shiftl p n.
Proof.
  intros Hn Hp Hn'. unfold ushl. apply Z.mod_small. rewrite Z.shiftl_mul_pow2 by done.
  split; [apply Z.mul_nonneg_nonneg; [lia|apply Z.pow_nonneg; lia]|].
  replace U64 with (2 ^ (64 - n) * 2 ^ n) by (rewrite <- Z.pow_add_r by lia; unfold U64; f_equal; lia).
  apply Z.mul_lt_mono_pos_r; [apply Z.pow_pos_nonneg; lia|lia].
Qed.

Lemma testbit_ushl_low p n j : 0 ≤ j < n → n ≤ 64 → Z.testbit (ushl p n) j = false.
Proof.
  intros Hj Hn. unfold ushl, U64. rewrite Z.mod_pow2_bits_low by lia.
  apply Z.shiftl_spec_low. lia.
Qed.

Lemma shiftr_ushl p n : 0 ≤ n ≤ 64 → 0 ≤ p < 2 ^ (64 - n) → Z.shiftr (ushl p n) n = p.
Proof.
  intros Hn Hp. rewrite ushl_small by lia. rewrite Z.shiftr_shiftl_l by lia.
  by rewrite Z.sub_diag, Z.shiftl_0_r.
Qed.

Lemma valid_bit e : (0 <? Z.land e 1) = Z.testbit e 0.
Proof.
  rewrite Z.bit0_odd. change 1 with (Z.ones 1). rewrite Z.land_ones by lia. change (2 ^ 1) with 2.
  rewrite Zmod_odd. by destruct (Z.odd e).
Qed.

(** ** Sv39 *)

Lemma sv39_page p leaf mode : 0 ≤ p < 2 ^ 54 → Z.shiftr (sv39_new p leaf mode) 10 = p.
Proof.
  intros Hp. unfold sv39_new. repeat case_match; rewrite !Z.shiftr_lor, shiftr_ushl by lia;
    repeat match goal with |- context [Z.shiftr ?f 10] => change (Z.shiftr f 10) with 0 end;
    by rewrite !Z.lor_0_r.
Qed.

(** The low bits are the flags. *)
Lemma sv39_flag p leaf mode j : 0 ≤ j < 10 →
  Z.testbit (sv39_new p leaf mode) j =
    (j =? 0) || ((j =? 1) && contains mode Read) || ((j =? 2) && contains mode Write)
    || ((j =? 3) && contains mode Execute) || ((j =? 4) && contains mode User).
Proof.
  intros Hj.
  assert (j = 0 ∨ j = 1 ∨ j = 2 ∨ j = 3 ∨ j = 4 ∨ j = 5 ∨ j = 6 ∨ j = 7 ∨ j = 8 ∨ j = 9) as Hc by lia.
  unfold sv39_new.
  destruct (contains mode Read), (contains mode Write), (contains mode Execute), (contains mode User);
    rewrite !Z.lor_spec, testbit_ushl_low by lia;
    repeat (destruct Hc as [->|Hc]; [reflexivity|]); subst j; reflexivity.
Qed.

#[export] Instance Sv39_EntryLaws : @EntryLaws Sv39_Entry.
Proof.
  constructor; cbn [Sv39_Entry e_is_valid e_empty e_new e_page_number pp_0 sv39_page_number].
  - done.
  - done.
  - intros p leaf mode. unfold sv39_is_valid, PTE_V_FLAG. rewrite valid_bit. by rewrite sv39_flag by lia.
  - intros p Hp. apply sv39_page. lia.
Qed.

#[export] Instance Sv39_MapperLaws : @MapperLaws Sv39_Mapper.
Proof. constructor; cbn [Sv39_Mapper LEVEL PTE_BITS PTES_PER_DIR]; unfold MAX_SUPPORTED_LEVEL; (done || lia). Qed.

(** ** VMSAv8-64 *)

Lemma arm64_valid p leaf mode : arm64_is_valid (arm64_new p leaf mode) = true.
Proof.
  unfold arm64_is_valid, TYPE_VALID. rewrite valid_bit. unfold arm64_new.
  repeat case_match; rewrite !Z.lor_spec, testbit_ushl_low by lia; reflexivity.
Qed.

Lemma arm64_table p : 0 ≤ p < 2 ^ 52 → Z.shiftr (arm64_new p false []) 12 = p.
Proof.
  intros Hp. unfold arm64_new. rewrite Z.shiftr_lor, shiftr_ushl by lia. apply Z.lor_0_r.
Qed.

#[export] Instance Arm64_EntryLaws : @EntryLaws Arm64_Entry.
Proof.
  constructor; cbn [Arm64_Entry e_is_valid e_empty e_new e_page_number pp_0 arm64_page_number].
  - done.
  - done.
  - apply arm64_valid.
  - intros p Hp. apply arm64_table. lia.
Qed.

#[export] Instance Arm64_MapperLaws : @MapperLaws Arm64_Mapper.
Proof. constructor; cbn [Arm64_Mapper LEVEL PTE_BITS PTES_PER_DIR]; unfold MAX_SUPPORTED_LEVEL; (done || lia). Qed.

(** The bits above the page number of a leaf: [page_number] does not mask them. *)
Definition arm64_xn (mode : list PageACL) : Z :=
  if contains mode Execute then (if contains mode User then 0 else 2 ^ 42) else 2 ^ 42 + 2 ^ 41.

Lemma arm64_leaf p mode : 0 ≤ p < 2 ^ 36 → Z.shiftr (arm64_new p true mode) 12 = p + arm64_xn mode.
Proof.
  intros Hp. unfold arm64_new, arm64_xn.
  assert (∀ h, Z.land (2 ^ 36 - 1) h = 0 → Z.lor p h = p + h) as Hlor.
  { intros h Hh. symmetry. apply Z.add_nocarry_lor.
    replace p with (Z.land p (2 ^ 36 - 1)).
    - by rewrite <- Z.land_assoc, Hh, Z.land_0_r.
    - change (2 ^ 36 - 1) with (Z.ones 36). rewrite Z.land_ones by lia. apply Z.mod_small. lia. }
  destruct (contains mode User), (contains mode Write), (contains mode Execute); cbn [negb];
    rewrite !Z.shiftr_lor, shiftr_ushl by lia;
    repeat match goal with |- context [Z.shiftr ?f 12] =>
      let v := eval vm_compute in (Z.shiftr f 12) in change (Z.shiftr f 12) with v end;
    rewrite ?Z.lor_0_r, <- ?Z.lor_assoc; try (rewrite Hlor by reflexivity);
    solve [lia|reflexivity].
Qed.
