(* ===== verification/MappingTheorems.v ===== *)
(** * Page tables: theorems

    Proved once, for any entry format, number of levels and page allocator that
    satisfy their classes; the witnesses instantiate them with Sv39 or VMSAv8-64
    and the static or the buddy allocator. *)

From S2P Require Import Prelude Page Address Bytes Buddy BuddyLists BuddyZone BuddySpec BuddyTheorems BuddyLaws StaticAlloc Mapping Sv39 Arm64Page MappingSpec MappingDestroy PageFormats.

(** ** A concrete page table to try the theorems on *)

(** The static allocator of a kernel image linked at [VIRT_ADDR]. *)
Definition demo_static : StaticPageAllocator := StaticPageAllocator_new 0xffffffc040100000.

(** A run on concrete inputs, or its initial state when it fails. *)
Definition final {S B} (f : ST S B) (s : S) : S := match f s with Ok (_, s') => s' | _ => s end.

Section fresh.
Context `{!Entry, !Mapper, !EntryLaws, !MapperLaws}.

(** A cleared page is a page table that maps nothing. *)
Lemma fresh_root m r (avail : Z → Prop) :
  okpage r → ¬ avail r → pt_wf (<[r:=∅]> m) r avail ∧ ∀ v, translate (<[r:=∅]> m) r v = None.
Proof.
  intros Hok Hav. assert (∀ i, child (<[r:=∅]> m) r i = None) as Hnone.
  { intros i. unfold child, entry_at. rewrite lookup_insert_eq. simpl. rewrite lookup_empty. simpl.
    by rewrite el_zero. }
  assert (∀ p x, reach (<[r:=∅]> m) r p = Some x → p = [] ∧ x = r) as Hreach.
  { intros [|i p] x; simpl; [by intros [= ->]|]. by rewrite Hnone. }
  split; [constructor|].
  - intros p x _ [-> ->]%Hreach. split_and!; [done| |done]. rewrite lookup_insert_eq. by eexists.
  - by intros p q x _ _ [-> _]%Hreach [-> _]%Hreach.
  - intros v. unfold translate. destruct (reach _ r (upath v)) as [t|] eqn:Ht; [|done].
    apply Hreach in Ht as [_ ->]. simpl. unfold entry_at. rewrite lookup_insert_eq. simpl.
    rewrite lookup_empty. simpl. by rewrite el_zero.
Qed.
End fresh.

(** ** Theorems *)

Section theorems.
Context `{!Entry, !Mapper, !EntryLaws, !MapperLaws}.
Context {A : Type} `{!PageAllocator A, !PageAllocatorLaws A}.

(** A mapper made by [new_with_allocator] has a root table that maps
    nothing, and the tables reached from it form a tree of pages that the
    allocator no longer hands out. *)
Theorem new_with_allocator_correct m (a : A) n :
  pa_ready (S n) a → (∀ x, pa_avail a x → okpage x) →
  ∃ r m' a', new_with_allocator (m, a) = Ok (mkMapper (table_at r), (m', a')) ∧
    pa_ready n a' ∧ pa_avail a r ∧ (∀ x, pa_avail a' x → pa_avail a x) ∧
    pt_wf m' r (pa_avail a') ∧ ∀ v, translate m' r v = None.
Proof.
  intros Hready Hrange.
  destruct (Table_new_run m a n Hready Hrange) as (c & a' & Hrun & Hr' & Hc & Hc' & Hsub).
  exists c, (<[c:=∅]> m), a'. destruct (fresh_root m c (pa_avail a')) as [Hwf Htr]; [auto|done|].
  split_and!; try done. unfold new_with_allocator. by rewrite (st_run _ _ _ _ _ Hrun).
Qed.

(** C9: [map_with_allocator] maps exactly the pages of the range, which may lie
    anywhere in the address space (the tables tell page numbers apart up to their
    limit): it returns without a panic when the allocator has one page per upper
    level for every last-level table the range touches, every virtual page of the
    range translates to an entry for the physical page at the same offset with the
    given access mode, every other page translates as before, and the tables still
    form a tree of pages that the allocator no longer hands out. *)
Theorem map_with_allocator_correct m (a : A) r vpn ppn pages mode n :
  pt_wf m r (pa_avail a) → (∀ x, pa_avail a x → okpage x) →
  pa_ready (table_need vpn pages + n) a →
  0 ≤ vpn → 0 ≤ pages → vpn mod vpn_limit + pages ≤ vpn_limit → vpn + pages < U64 → ppn + pages < U64 →
  ∃ m' a', map_with_allocator (mkMapper (table_at r)) vpn ppn pages mode (m, a) = Ok (tt, (m', a')) ∧
    pt_wf m' r (pa_avail a') ∧ pa_ready n a' ∧ (∀ x, pa_avail a' x → pa_avail a x) ∧
    ∀ v, translate m' r v =
      if decide (0 ≤ page_offset vpn v < pages)
      then Some (e_new (ppn + page_offset vpn v) true mode) else translate m r v.
Proof. apply map_with_run. Qed.

(** C11: [unmap_with_allocator] of one page whose last-level table keeps another
    valid entry: it returns, the page is no longer mapped, every other page
    translates as before, nothing is freed and the tables still form a tree. *)
Theorem unmap_with_allocator_correct m (a : A) r vpn t j e :
  (2 ≤ LEVEL)%nat → pt_wf m r (pa_avail a) → reach m r (upath vpn) = Some t →
  0 ≤ j < PTES_PER_DIR → j ≠ index_at vpn 0 → entry_at m t j = Some e → e_is_valid e = true →
  0 ≤ vpn < vpn_limit → vpn + 1 < U64 →
  ∃ m', unmap_with_allocator (mkMapper (table_at r)) vpn 1 (m, a) = Ok (tt, (m', a)) ∧
    pt_wf m' r (pa_avail a) ∧
    ∀ v, 0 ≤ v < vpn_limit → translate m' r v = if decide (v = vpn) then None else translate m r v.
Proof.
  intros HL Hwf Ht Hj Hne He Hv Hr H64.
  exists (set_word m t (index_at vpn 0) e_empty). split_and!.
  - unfold unmap_with_allocator. change (Z.to_nat 1) with 1%nat. cbn [unmap_loop].
    rewrite (st_run _ _ _ _ _ (unmap_keep_run m a r _ vpn t j e HL Hwf Ht Hj Hne He Hv)).
    by rewrite (st_run_lift _ _ _ _ (uadd_Ok vpn 1 H64)).
  - by apply (leaf_wf m r (pa_avail a) vpn t).
  - intros v Hvr. rewrite (leaf_translate m r (pa_avail a) vpn t) by done.
    rewrite el_empty, el_zero. destruct (decide (v = vpn)) as [->|Hvne]; [by rewrite decide_True|].
    rewrite decide_False; [done|]. intros [Hu Hi]. apply Hvne. by apply indices_inj.
Qed.

(** When the page was the last one of its table, the table is given back to
    the allocator, but the entry that leads to it stays valid: the freed page is
    still a table of the address space. *)
Theorem unmap_leaves_dangling_table m (a a' : A) r vpn t :
  (2 ≤ LEVEL)%nat → pt_wf m r (pa_avail a) → reach m r (upath vpn) = Some t →
  (∀ j, 0 ≤ j < PTES_PER_DIR → j ≠ index_at vpn 0 → slot_invalid m t j) →
  pa_free_pages t 1 a = Ok (tt, a') → vpn + 1 < U64 →
  ∃ m', unmap_with_allocator (mkMapper (table_at r)) vpn 1 (m, a) = Ok (tt, (m', a')) ∧
    reach m' r (upath vpn) = Some t.
Proof.
  intros HL Hwf Ht Hinv Hfree H64.
  exists (set_word m t (index_at vpn 0) e_empty). split.
  - unfold unmap_with_allocator. change (Z.to_nat 1) with 1%nat. cbn [unmap_loop].
    rewrite (st_run _ _ _ _ _ (unmap_last_run m a a' r _ vpn t HL Hwf Ht Hinv Hfree)).
    by rewrite (st_run_lift _ _ _ _ (uadd_Ok vpn 1 H64)).
  - by rewrite (reach_leaf m r (pa_avail a) vpn t) by (done || apply upath_short).
Qed.

(** C12: [destroy_with_allocator] terminates within [iterations (LEVEL - 1)]
    rounds of its loop and is the recursive function that frees the pages
    [freed] in order, the tables themselves being left as they are; it stops
    where freeing a page fails and nowhere else. *)
Theorem destroy_with_allocator_equiv m r avail fuel (a : A) :
  (3 ≤ LEVEL)%nat → pt_wf m r avail → (iterations (LEVEL - 1) ≤ fuel)%nat →
  destroy_with_allocator fuel (mkMapper (table_at r)) (m, a)
  = x ← frees (freed m (LEVEL - 1) r) a; Ok (tt, (m, x.2)).
Proof. apply destroy_run. Qed.

(** No page is freed twice, the pages freed are those of the tables of
    every level but level 1, and the tables of level 1 are not freed at all. *)
Theorem destroy_leaks_level_1 m r avail :
  (3 ≤ LEVEL)%nat → pt_wf m r avail →
  NoDup (freed m (LEVEL - 1) r) ∧
  (∀ p x, in_dir p → reach m r p = Some x → (length p < LEVEL)%nat →
     (x ∈ freed m (LEVEL - 1) r ↔ length p ≠ (LEVEL - 2)%nat)) ∧
  (∀ x, x ∈ freed m (LEVEL - 1) r → ∃ p, in_dir p ∧ reach m r p = Some x ∧ (length p < LEVEL)%nat).
Proof.
  intros HL Hwf. split_and!; [by apply (freed_once m r avail)| |].
  - intros p x Hin Hp Hlen. rewrite elem_of_freed. split.
    + intros (q & _ & Hq & Hlq & Hne) Heq.
      assert (p = q) as -> by (apply (wf_inj _ _ _ Hwf p q x); (done || lia)). lia.
    + intros Hne. exists p. split_and!; (done || lia).
  - intros x (p & Hin & Hp & Hlen & _)%elem_of_freed. exists p. split_and!; (done || lia).
Qed.
End theorems.

(** ** Witnesses *)

#[local] Existing Instances Sv39_Entry Sv39_Mapper.

Lemma demo_static_ready n : (n ≤ 256)%nat → pa_ready n demo_static.
Proof.
  intros Hn. destruct (static_new_ready 0xffffffc040100000) as (Hok & l & Hnd & Hl & Hcl).
  split; [done|]. exists l. split_and!; [done|unfold STATIC_PAGE_CAP in Hl; lia|done].
Qed.

Lemma demo_static_range x : pa_avail demo_static x → okpage x.
Proof.
  intros Hx. apply (static_avail_range demo_static x eq_refl) in Hx.
  change (pages_addr demo_static / 4096) with 0xffffffc040100 in Hx.
  unfold okpage. rewrite PAGE_OFFSET_val. lia.
Qed.

(** A root table outside the pages of the static allocator. *)
Definition demo_root : Z := 0xffffffc040000.
Definition demo_mem : tmem := <[demo_root:=∅]> ∅.

Lemma demo_wf : pt_wf demo_mem demo_root (pa_avail demo_static).
Proof.
  apply fresh_root.
  - unfold okpage. rewrite PAGE_OFFSET_val. unfold demo_root. lia.
  - intros Hx. apply (static_avail_range demo_static _ eq_refl) in Hx.
    change (pages_addr demo_static / 4096) with 0xffffffc040100 in Hx. unfold demo_root in Hx. lia.
Qed.

Lemma new_with_allocator_correct_witness :
  ∃ r m' a', new_with_allocator (∅, demo_static) = Ok (mkMapper (table_at r), (m', a')) ∧
    pa_ready 255 a' ∧ pa_avail demo_static r ∧ (∀ x, pa_avail a' x → pa_avail demo_static x) ∧
    pt_wf m' r (pa_avail a') ∧ ∀ v, translate m' r v = None.
Proof.
  apply (new_with_allocator_correct ∅ demo_static 255).
  - apply demo_static_ready. lia.
  - apply demo_static_range.
Defined.

Lemma map_with_allocator_correct_witness :
  ∃ m' a', map_with_allocator (mkMapper (table_at demo_root)) 0xffffffc0401ff 0x401ff 2 RW (demo_mem, demo_static)
      = Ok (tt, (m', a')) ∧
    pt_wf m' demo_root (pa_avail a') ∧ pa_ready 0 a' ∧ (∀ x, pa_avail a' x → pa_avail demo_static x) ∧
    ∀ v, translate m' demo_root v =
      if decide (0 ≤ page_offset 0xffffffc0401ff v < 2)
      then Some (e_new (0x401ff + page_offset 0xffffffc0401ff v) true RW) else translate demo_mem demo_root v.
Proof.
  apply (map_with_allocator_correct demo_mem demo_static demo_root 0xffffffc0401ff 0x401ff 2 RW 0).
  - apply demo_wf.
  - apply demo_static_range.
  - apply demo_static_ready. vm_compute. lia.
  - lia.
  - lia.
  - vm_compute. discriminate.
  - reflexivity.
  - reflexivity.
Defined.

(** Two pages mapped in one last-level table. *)
Definition demo_two : tmem * StaticPageAllocator :=
  final (map_with_allocator (mkMapper (table_at demo_root)) 0 0x80000 2 RW) (demo_mem, demo_static).

Lemma demo_two_wf : pt_wf demo_two.1 demo_root (pa_avail demo_two.2).
Proof.
  destruct (map_loop_run 2 demo_mem demo_static demo_root 0 0x80000 RW 0)
    as (m' & a' & Hrun & Hwf & _).
  - apply demo_wf.
  - apply demo_static_range.
  - apply demo_static_ready. vm_compute. lia.
  - lia.
  - vm_compute. discriminate.
  - reflexivity.
  - reflexivity.
  - unfold demo_two, final. change (map_with_allocator _ _ _ 2 _) with
      (map_loop (mkMapper (table_at demo_root)) 0 0x80000 2 RW). by rewrite Hrun.
Qed.

Lemma unmap_with_allocator_correct_witness :
  ∃ m', unmap_with_allocator (mkMapper (table_at demo_root)) 0 1 (demo_two.1, demo_two.2)
      = Ok (tt, (m', demo_two.2)) ∧
    pt_wf m' demo_root (pa_avail demo_two.2) ∧
    ∀ v, 0 ≤ v < vpn_limit → translate m' demo_root v =
      if decide (v = 0) then None else translate demo_two.1 demo_root v.
Proof.
  apply (unmap_with_allocator_correct demo_two.1 demo_two.2 demo_root 0 0xffffffc040101 1
    (e_new 0x80001 true RW)).
  - vm_compute. lia.
  - apply demo_two_wf.
  - vm_compute. reflexivity.
  - vm_compute. split; [discriminate|reflexivity].
  - vm_compute. discriminate.
  - vm_compute. reflexivity.
  - vm_compute. reflexivity.
  - vm_compute. split; [discriminate|reflexivity].
  - reflexivity.
Defined.

(** One page mapped with tables from the buddy allocator. *)
Definition demo_heap : BuddyAllocator :=
  match buddy_boot 0x80000000 0xffffffc040a00 8 with Ok b => b | _ => BuddyAllocator_default 0 end.

Lemma demo_heap_ok :
  buddy_wf demo_heap ∧ MIN_POOL_REMAIN < freenode_remain (pool (mem demo_heap)) ∧
  ∀ x, pa_avail demo_heap x → 0xffffffc040a00 ≤ x < 0xffffffc040a08.
Proof.
  destruct (buddy_boot_ok 0x80000000 0xffffffc040a00 8) as (b & Hrun & Hwf & _ & Hrem & Hat); [lia..|].
  unfold demo_heap. rewrite Hrun. split_and!; [exact Hwf|exact Hrem|].
  intros x. unfold pa_avail. cbn [Buddy_Laws]. unfold buddy_avail. rewrite Hat. unfold span.
  destruct (Z.leb_spec 0xffffffc040a00 x), (Z.ltb_spec x (0xffffffc040a00 + 8)); simpl; lia.
Qed.

Lemma demo_heap_ready n : ready_check n demo_heap = true → pa_ready n demo_heap.
Proof. apply ready_check_spec, demo_heap_ok. Qed.

Definition demo_one : tmem * BuddyAllocator :=
  final (map_with_allocator (mkMapper (table_at demo_root)) 0 0x80000 1 RW) (demo_mem, demo_heap).

Lemma demo_one_wf : pt_wf demo_one.1 demo_root (pa_avail demo_one.2).
Proof.
  destruct demo_heap_ok as (_ & _ & Hrange).
  destruct (map_loop_run 1 demo_mem demo_heap demo_root 0 0x80000 RW 0)
    as (m' & a' & Hrun & Hwf & _).
  - apply fresh_root; [unfold okpage; rewrite PAGE_OFFSET_val; unfold demo_root; lia|].
    intros Hx. apply Hrange in Hx. unfold demo_root in Hx. lia.
  - intros x Hx. apply Hrange in Hx. unfold okpage. rewrite PAGE_OFFSET_val. lia.
  - apply demo_heap_ready. vm_compute. reflexivity.
  - lia.
  - vm_compute. discriminate.
  - reflexivity.
  - reflexivity.
  - unfold demo_one, final. change (map_with_allocator _ _ _ 1 _) with
      (map_loop (A:=BuddyAllocator) (mkMapper (table_at demo_root)) 0 0x80000 1 RW).
    rewrite Hrun. exact Hwf.
Qed.

(** The allocator after the table of the page has been freed. *)
Definition demo_freed : BuddyAllocator := final (pa_free_pages 0xffffffc040a01 1) demo_one.2.

Lemma unmap_leaves_dangling_table_witness :
  ∃ m', unmap_with_allocator (mkMapper (table_at demo_root)) 0 1 (demo_one.1, demo_one.2)
      = Ok (tt, (m', demo_freed)) ∧
    reach m' demo_root (upath 0) = Some 0xffffffc040a01.
Proof.
  assert (demo_one.1 !! 0xffffffc040a01 = Some {[0 := e_new 0x80000 true RW]}) as Hpg
    by (vm_compute; reflexivity).
  apply (unmap_leaves_dangling_table demo_one.1 demo_one.2 demo_freed demo_root 0 0xffffffc040a01).
  - vm_compute. lia.
  - exact demo_one_wf.
  - vm_compute. reflexivity.
  - intros j Hj Hne e. unfold entry_at. rewrite Hpg. cbn [mbind option_bind].
    rewrite lookup_singleton_ne; [|intros <-; apply Hne; vm_compute; reflexivity].
    intros [= <-]. reflexivity.
  - vm_compute. reflexivity.
  - reflexivity.
Defined.

Lemma destroy_with_allocator_equiv_witness :
  destroy_with_allocator 1025 (mkMapper (table_at demo_root)) (demo_one.1, demo_one.2)
  = x ← frees (freed demo_one.1 (LEVEL - 1) demo_root) demo_one.2; Ok (tt, (demo_one.1, x.2)).
Proof.
  apply (destroy_with_allocator_equiv demo_one.1 demo_root (pa_avail demo_one.2) 1025 demo_one.2).
  - vm_compute. lia.
  - exact demo_one_wf.
  - vm_compute. lia.
Defined.

Lemma destroy_leaks_level_1_witness :
  0xffffffc040a00 ∉ freed demo_one.1 (LEVEL - 1) demo_root ∧
  0xffffffc040a01 ∈ freed demo_one.1 (LEVEL - 1) demo_root.
Proof.
  destruct (destroy_leaks_level_1 demo_one.1 demo_root (pa_avail demo_one.2)) as (_ & Hiff & _).
  - vm_compute. lia.
  - exact demo_one_wf.
  - split.
    + intros Hin. apply (Hiff [0] 0xffffffc040a00) in Hin; [by apply Hin| | |].
      * repeat constructor; vm_compute; (discriminate || reflexivity).
      * vm_compute. reflexivity.
      * vm_compute. lia.
    + apply (Hiff [0; 0] 0xffffffc040a01); [|vm_compute; reflexivity|vm_compute; lia|vm_compute; lia].
      repeat constructor; vm_compute; (discriminate || reflexivity).
Defined.
