(* ===== verification/PageTheorems.v ===== *)
(** * Page-table entries and the static allocator: theorems *)

From S2P Require Import Prelude Page Address Bytes StaticAlloc Mapping Sv39 Arm64Page MappingSpec PageFormats.

(** An Sv39 entry read back: the page number, the valid bit and each access
    bit are the ones it was made from, and the entry fits its 64-bit word. *)
Theorem sv39_entry_roundtrip p leaf mode :
  0 ≤ p < 2 ^ 44 →
  let e := sv39_new p leaf mode in
  pp_0 (sv39_page_number e) = p ∧ sv39_is_valid e = true ∧ 0 ≤ e < 2 ^ 54 ∧
  Z.testbit e 1 = contains mode Read ∧ Z.testbit e 2 = contains mode Write ∧
  Z.testbit e 3 = contains mode Execute ∧ Z.testbit e 4 = contains mode User ∧
  ∀ j, 5 ≤ j < 10 → Z.testbit e j = false.
Proof.
  intros Hp e. assert (Z.shiftr e 10 = p) as Hpage by (apply sv39_page; lia).
  split_and!; try (unfold e; rewrite sv39_flag by lia; simpl; by rewrite ?orb_false_r).
  - exact Hpage.
  - apply (@el_valid Sv39_Entry _).
  - assert (¬ Z.shiftr e 10 < 0) as Hneg by lia. rewrite Z.shiftr_neg in Hneg. lia.
  - rewrite Z.shiftr_div_pow2 in Hpage by lia. change (2 ^ 10) with 1024 in Hpage.
    pose proof (Z.mul_succ_div_gt e 1024). lia.
  - intros j Hj. unfold e. rewrite sv39_flag by lia.
    rewrite !(proj2 (Z.eqb_neq j _)) by lia. reflexivity.
Qed.

Lemma sv39_entry_roundtrip_witness :
  pp_0 (sv39_page_number (sv39_new 0x80200 true [User; Read; Execute])) = 0x80200.
Proof. apply (sv39_entry_roundtrip 0x80200 true [User; Read; Execute]). lia. Defined.

(** The static allocator hands out the first page whose bit is clear and
    sets that bit and no other; it reports [OutOfMemory] only when every page is
    in use, and it never panics on a request of one page. *)
Theorem static_alloc_correct s :
  static_ok s →
  match static_alloc_pages 1 s with
  | Ok (inl p, s') => ∃ k, (k < STATIC_PAGE_CAP)%nat ∧ clear (bitmap s) k ∧
      p = pages_addr s / PAGE_SIZE + Z.of_nat k ∧
      (∀ j, (j < k)%nat → ¬ clear (bitmap s) j) ∧
      pages_addr s' = pages_addr s ∧ static_ok s' ∧
      ∀ j, clear (bitmap s') j ↔ clear (bitmap s) j ∧ j ≠ k
  | Ok (inr OutOfMemory, s') => s' = s ∧ ∀ j, ¬ clear (bitmap s) j
  | _ => False
  end.
Proof.
  intros Hok. pose proof (static_alloc_run s Hok) as Hrun.
  destruct (static_alloc_pages 1 s) as [[[p|[]] s']| | |]; try done.
  destruct Hrun as (k & Hk & Hc & -> & Hrest). exists k. split_and!; try done; try apply Hrest.
  by rewrite slot_page_eq.
Qed.

Lemma static_alloc_correct_witness :
  match static_alloc_pages 1 (StaticPageAllocator_new 0x80200000) with
  | Ok (inl p, s') => ∃ k, (k < STATIC_PAGE_CAP)%nat ∧
      clear (bitmap (StaticPageAllocator_new 0x80200000)) k ∧
      p = pages_addr (StaticPageAllocator_new 0x80200000) / PAGE_SIZE + Z.of_nat k ∧
      (∀ j, (j < k)%nat → ¬ clear (bitmap (StaticPageAllocator_new 0x80200000)) j) ∧
      pages_addr s' = pages_addr (StaticPageAllocator_new 0x80200000) ∧ static_ok s' ∧
      ∀ j, clear (bitmap s') j ↔ clear (bitmap (StaticPageAllocator_new 0x80200000)) j ∧ j ≠ k
  | Ok (inr OutOfMemory, s') => s' = StaticPageAllocator_new 0x80200000 ∧
      ∀ j, ¬ clear (bitmap (StaticPageAllocator_new 0x80200000)) j
  | _ => False
  end.
Proof. apply (static_alloc_correct (StaticPageAllocator_new 0x80200000)). reflexivity. Defined.

(** [free_pages] uses the page number itself, not its distance to the first
    page, as an index into the bitmap: freeing any page the allocator can have
    handed out panics, unless its pages lie in the first megabyte of memory. *)
Theorem static_free_panics s k :
  static_ok s → Z.of_nat STATIC_PAGE_CAP * PAGE_SIZE ≤ pages_addr s → (k < STATIC_PAGE_CAP)%nat →
  static_free_pages (slot_page s k) 1 s = Panic.
Proof.
  intros Hok Haddr Hk. unfold static_free_pages. cbn [assert Z.eqb Pos.eqb mbind res_bind].
  rewrite slot_page_eq. change (Z.of_nat STATIC_PAGE_CAP * PAGE_SIZE) with (256 * 4096) in Haddr.
  assert (256 ≤ pages_addr s / 4096) as Hp by (apply Z.div_le_lower_bound; lia).
  assert (4 ≤ (pages_addr s / 4096 + Z.of_nat k) / 64) as Hd by (apply Z.div_le_lower_bound; lia).
  unfold index. rewrite lookup_ge_None_2; [done|]. rewrite Hok. lia.
Qed.

Lemma static_free_panics_witness :
  static_free_pages (slot_page (StaticPageAllocator_new 0x80200000) 0) 1
    (StaticPageAllocator_new 0x80200000) = Panic.
Proof.
  apply (static_free_panics (StaticPageAllocator_new 0x80200000) 0).
  - reflexivity.
  - vm_compute. discriminate.
  - vm_compute. lia.
Defined.
