(* ===== verification/KernelPt.v ===== *)
(** * The kernel's page table

    What [kernel_pt_init] (src/src/page.rs) builds for an image that is laid out
    by the linker script, for any entry format, number of levels and allocator
    that satisfy their classes; and allocators with pages set aside that are not
    theirs to hand out. *)

From S2P Require Import Prelude Page Address Bytes Buddy StaticAlloc Mapping Sv39 Arm64Page MappingSpec PageFormats MappingTheorems.

(** ** Pages set aside *)

(** The laws of an allocator stay true when pages [E] that it never hands out
    count as available: page tables then avoid them as well. *)
Section frame.
Context {A : Type} `{!PageAllocator A} (Laws : PageAllocatorLaws A) (E : Z → Prop).

Definition framed_ready (n : nat) (a : A) : Prop := pa_ready n a ∧ ∀ x, E x → ¬ pa_avail a x.
Definition framed_avail (a : A) (x : Z) : Prop := pa_avail a x ∨ E x.

Lemma framed_alloc n a : framed_ready (S n) a →
  ∃ p a', pa_alloc_pages 1 a = Ok (inl p, a') ∧ framed_ready n a' ∧
    framed_avail a p ∧ ¬ framed_avail a' p ∧ (∀ x, framed_avail a' x → framed_avail a x).
Proof.
  intros [Hr HE]. destruct (pa_alloc_one n a Hr) as (p & a' & Hrun & Hr' & Hp & Hp' & Hsub).
  exists p, a'. unfold framed_ready, framed_avail. split_and!; try done.
  - intros x Hx Ha. apply (HE x Hx). auto.
  - by left.
  - intros [?|Hx]; [done|]. by apply (HE p Hx).
  - intros x [?|?]; [left|right]; auto.
Qed.

Definition framed_laws : PageAllocatorLaws A := {|
  pa_ready := framed_ready;
  pa_avail := framed_avail;
  pa_ready_less := λ n a H, conj (pa_ready_less n a (proj1 H)) (proj2 H);
  pa_alloc_one := framed_alloc;
|}.
End frame.

Lemma pt_wf_mono `{!Entry, !Mapper} m r (av av' : Z → Prop) :
  (∀ x, av' x → av x) → pt_wf m r av → pt_wf m r av'.
Proof.
  intros Hsub [Hpage Hinj]. constructor; [|done]. intros p x Hl Hx.
  destruct (Hpage p x Hl Hx) as (? & ? & Hav). split_and!; auto.
Qed.

(** ** The image *)

(** The sections follow each other from [VIRT_ADDR] on, at page boundaries, and
    the heap after them ends within the address space. *)
Record layout_ok (L : Layout) : Prop := {
  lo_aligned : Forall (λ a, (4096 | a)) [KERNEL_START L; KERNEL_END L; RODATA_END L; DATA_END L; BSS_END L; HEAP_START L];
  lo_text : VIRT_ADDR ≤ KERNEL_START L ≤ KERNEL_END L;
  lo_rodata : KERNEL_END L = RODATA_START L ∧ RODATA_START L ≤ RODATA_END L;
  lo_data : RODATA_END L = DATA_START L ∧ DATA_START L ≤ DATA_END L;
  lo_bss : DATA_END L = BSS_START L ∧ BSS_START L ≤ BSS_END L;
  lo_heap : BSS_END L ≤ HEAP_START L ∧ HEAP_START L + MEM_SIZE < U64;
}.

(** The access the kernel has to a page of its image, and to any of its virtual
    pages. *)
Definition image_access (L : Layout) (v : Z) : option (list PageACL) :=
  let a := v * 4096 in
  if decide (KERNEL_START L ≤ a < KERNEL_END L) then Some RX
  else if decide (RODATA_START L ≤ a < RODATA_END L) then Some RO
  else if decide (DATA_START L ≤ a < BSS_END L) then Some RW
  else None.
Definition kernel_access (L : Layout) (v : Z) : option (list PageACL) :=
  if decide (HEAP_START L ≤ v * 4096 < HEAP_START L + MEM_SIZE) then Some RW else image_access L v.

Lemma kernel_access_wx L v mode :
  kernel_access L v = Some mode → ¬ (Write ∈ mode ∧ Execute ∈ mode).
Proof.
  unfold kernel_access, image_access. repeat destruct (decide _); intros [= <-]; unfold RX, RO, RW; set_solver.
Qed.

Section kernel_pt.
Context `{!Entry, !Mapper, !EntryLaws, !MapperLaws}.
Context {A : Type} `{!PageAllocator A, !PageAllocatorLaws A}.
Context (Hlim : 26 ≤ PTE_BITS * Z.of_nat LEVEL ≤ 52).

(** The pages of the kernel's half are told apart by the tables. *)
Lemma okpage_mod v : okpage v → v mod vpn_limit = v - 2 ^ 52 + vpn_limit.
Proof.
  unfold okpage, vpn_limit. rewrite PAGE_OFFSET_val. set (k := PTE_BITS * Z.of_nat LEVEL) in *. intros Hv.
  assert (2 ^ 26 ≤ 2 ^ k) by (apply Z.pow_le_mono_r; lia).
  assert (2 ^ 52 = 2 ^ (52 - k) * 2 ^ k) as H52 by (rewrite <- Z.pow_add_r by lia; f_equal; lia).
  assert (0 < 2 ^ (52 - k)) by (apply Z.pow_pos_nonneg; lia).
  symmetry. apply Z.mod_unique with (2 ^ (52 - k) - 1); [lia|]. rewrite Z.mul_sub_distr_l. lia.
Qed.

Lemma okpage_offset v w : okpage v → okpage w → page_offset w v = v - w.
Proof. intros Hv Hw. unfold page_offset. rewrite !okpage_mod by done. lia. Qed.

(** A page number that is no alias of one of the kernel's half is below all of
    them. *)
Lemma not_kernel v w :
  (∀ x, okpage x → x mod vpn_limit ≠ v mod vpn_limit) → okpage w → page_offset w v < 0.
Proof.
  intros Hno Hw. unfold page_offset. rewrite (okpage_mod w Hw).
  pose proof vpn_limit_pos. pose proof (Z.mod_pos_bound v vpn_limit ltac:(done)) as Hm.
  destruct (Z.lt_ge_cases (v mod vpn_limit) (vpn_limit - 2 ^ 26)) as [Hlt|Hge].
  - unfold okpage in Hw. rewrite PAGE_OFFSET_val in Hw. lia.
  - exfalso. assert (okpage (v mod vpn_limit - vpn_limit + 2 ^ 52)) as Hok
      by (unfold okpage; rewrite PAGE_OFFSET_val; lia).
    apply (Hno _ Hok). rewrite (okpage_mod _ Hok). lia.
Qed.

(** What mapping a range of the kernel's addresses leaves behind. *)
Definition range_mapped (start fin : Z) (mode : list PageACL) (r : Z) (m m' : tmem) : Prop :=
  (∀ v, okpage v → translate m' r v =
     if decide (start ≤ v * 4096 < fin) then Some (e_new (v - PAGE_OFFSET) true mode) else translate m r v) ∧
  (∀ v, (∀ x, okpage x → x mod vpn_limit ≠ v mod vpn_limit) → translate m' r v = translate m r v).

Definition range_need (start fin : Z) : nat := table_need (start / 4096) ((fin - start) / 4096).

(** The page arithmetic of a range. *)
Lemma range_pages start fin :
  (4096 | start) → (4096 | fin) → VIRT_ADDR ≤ start ≤ fin → fin < U64 →
  ∃ p n, start = p * 4096 ∧ fin = (p + n) * 4096 ∧ 0 ≤ n ∧ okpage p ∧ p + n ≤ 2 ^ 52.
Proof.
  intros [p Hp] [q Hq] Hle H64. exists p, (q - p). change VIRT_ADDR with 0xffffffc040000000 in Hle.
  unfold okpage. rewrite PAGE_OFFSET_val. unfold U64 in H64. lia.
Qed.

Lemma map_pages_run m (a : A) r p n mode k :
  pt_wf m r (pa_avail a) → (∀ x, pa_avail a x → okpage x) → pa_ready (table_need p n + k) a →
  okpage p → 0 ≤ n → p + n ≤ 2 ^ 52 →
  ∃ m' a', map_with_allocator (mkMapper (table_at r)) p (p - PAGE_OFFSET) n mode (m, a) = Ok (tt, (m', a')) ∧
    pt_wf m' r (pa_avail a') ∧ pa_ready k a' ∧ (∀ x, pa_avail a' x → pa_avail a x) ∧
    range_mapped (p * 4096) ((p + n) * 4096) mode r m m'.
Proof.
  intros Hwf Hrange Hready Hp Hn Hend. pose proof Hp as [Hp1 Hp2]. rewrite PAGE_OFFSET_val in *.
  destruct (map_with_run m a r p (p - (2 ^ 52 - 2 ^ 26)) n mode k) as (m' & a' & Hrun & Hwf' & Hr' & Hsub & Htr);
    [done|done|done|lia|done|rewrite (okpage_mod p Hp); lia|unfold U64; lia..|].
  exists m', a'. split_and!; try done. split.
  - intros v Hv. rewrite Htr, okpage_offset by done. rewrite PAGE_OFFSET_val.
    destruct (decide _), (decide _); try lia; [do 2 f_equal; lia|done].
  - intros v Hno. pose proof (not_kernel v p Hno Hp). rewrite Htr, decide_False by lia. done.
Qed.

Lemma map_range_run m (a : A) r start fin mode k :
  pt_wf m r (pa_avail a) → (∀ x, pa_avail a x → okpage x) → pa_ready (range_need start fin + k) a →
  (4096 | start) → (4096 | fin) → VIRT_ADDR ≤ start ≤ fin → fin < U64 →
  ∃ m' a', map_range_with_alloc start fin (mkMapper (table_at r)) mode (m, a) = Ok (tt, (m', a')) ∧
    pt_wf m' r (pa_avail a') ∧ pa_ready k a' ∧ (∀ x, pa_avail a' x → pa_avail a x) ∧
    range_mapped start fin mode r m m'.
Proof.
  intros Hwf Hrange Hready Hs Hf Hle H64.
  destruct (range_pages start fin Hs Hf Hle H64) as (p & n & -> & -> & Hn & Hp & Hend).
  unfold range_need in Hready. rewrite Z.div_mul in Hready by done.
  replace ((p + n) * 4096 - p * 4096) with (n * 4096) in Hready by lia. rewrite Z.div_mul in Hready by done.
  destruct (map_pages_run m a r p n mode k) as (m' & a' & Hrun & Hrest); [done..|].
  exists m', a'. split; [|done]. unfold map_range_with_alloc, PhysicalAddress_from. cbn [va_0].
  change ADDR_OFFSET with ((2 ^ 52 - 2 ^ 26) * 4096) in *. destruct Hp as [Hp _]. rewrite PAGE_OFFSET_val in Hp.
  rewrite (usub_Ok (p * 4096)) by lia. cbn [mbind res_bind]. rewrite (st_run_lift _ _ _ _ eq_refl). cbn [pa_0].
  replace (p * 4096 - (2 ^ 52 - 2 ^ 26) * 4096) with ((p - (2 ^ 52 - 2 ^ 26)) * 4096) by lia.
  rewrite !shiftr_page, usub_Ok by lia. rewrite (st_run_lift _ _ _ _ eq_refl).
  replace (p + n - p) with n by lia. by rewrite <- PAGE_OFFSET_val.
Qed.

(** The pages the image and the whole of the kernel's page table take at most. *)
Definition image_need (L : Layout) : nat :=
  range_need (RODATA_START L) (RODATA_END L) + (range_need (DATA_START L) (DATA_END L) +
  (range_need (BSS_START L) (BSS_END L) + range_need (KERNEL_START L) (KERNEL_END L))).
Definition kernel_pt_need (L : Layout) : nat :=
  S (image_need L + range_need (HEAP_START L) (HEAP_START L + MEM_SIZE)).

Lemma kernel_region_run L m (a : A) r k :
  layout_ok L → pt_wf m r (pa_avail a) → (∀ x, pa_avail a x → okpage x) → pa_ready (image_need L + k) a →
  ∃ m' a', map_kernel_region_with_allocator L (mkMapper (table_at r)) (m, a) = Ok (tt, (m', a')) ∧
    pt_wf m' r (pa_avail a') ∧ pa_ready k a' ∧ (∀ x, pa_avail a' x → pa_avail a x) ∧
    (∀ v, okpage v → translate m' r v =
       match image_access L v with
       | Some mode => Some (e_new (v - PAGE_OFFSET) true mode)
       | None => translate m r v
       end) ∧
    (∀ v, (∀ x, okpage x → x mod vpn_limit ≠ v mod vpn_limit) → translate m' r v = translate m r v).
Proof.
  intros [Hal Htext Hro Hda Hbs Hhe] Hwf Hrange Hready.
  repeat (apply list.Forall_cons in Hal as [? Hal]). destruct Hro as [Hro1 Hro], Hda as [Hda1 Hda], Hbs as [Hbs1 Hbs], Hhe as [Hhe1 Hhe].
  assert (0 < MEM_SIZE) by done. unfold image_need in Hready. rewrite <- !Nat.add_assoc in Hready.
  unfold map_kernel_region_with_allocator.
  destruct (map_range_run m a r (RODATA_START L) (RODATA_END L) RO _ Hwf Hrange Hready)
    as (m1 & a1 & Hrun1 & Hwf1 & Hr1 & Hs1 & Ht1 & Ho1); [congruence|done|lia..|].
  destruct (map_range_run m1 a1 r (DATA_START L) (DATA_END L) RW _ Hwf1 ltac:(auto) Hr1)
    as (m2 & a2 & Hrun2 & Hwf2 & Hr2 & Hs2 & Ht2 & Ho2); [congruence|done|lia..|].
  destruct (map_range_run m2 a2 r (BSS_START L) (BSS_END L) RW _ Hwf2 ltac:(auto) Hr2)
    as (m3 & a3 & Hrun3 & Hwf3 & Hr3 & Hs3 & Ht3 & Ho3); [congruence|done|lia..|].
  destruct (map_range_run m3 a3 r (KERNEL_START L) (KERNEL_END L) RX _ Hwf3 ltac:(auto) Hr3)
    as (m4 & a4 & Hrun4 & Hwf4 & Hr4 & Hs4 & Ht4 & Ho4); [done|done|lia..|].
  exists m4, a4. split_and!; [|exact Hwf4|exact Hr4| | |].
  - by rewrite (st_run _ _ _ _ _ Hrun1), (st_run _ _ _ _ _ Hrun2), (st_run _ _ _ _ _ Hrun3).
  - auto 10.
  - intros v Hv. rewrite Ht4, Ht3, Ht2, Ht1 by done. unfold image_access.
    repeat (destruct (decide _); try lia; try done).
  - intros v Hv. by rewrite Ho4, Ho3, Ho2, Ho1.
Qed.

(** The whole of [kernel_pt_init]. *)
Lemma kernel_pt_init_run L m (a : A) k :
  layout_ok L → (∀ x, pa_avail a x → okpage x) → pa_ready (kernel_pt_need L + k) a →
  ∃ r m' a', kernel_pt_init L (m, a) = Ok ((mkMapper (table_at r), mkPP (r - PAGE_OFFSET)), (m', a')) ∧
    okpage r ∧ pt_wf m' r (pa_avail a') ∧ pa_ready k a' ∧ (∀ x, pa_avail a' x → pa_avail a x) ∧
    (∀ v, okpage v → translate m' r v =
       (λ mode, e_new (v - PAGE_OFFSET) true mode) <$> kernel_access L v) ∧
    (∀ v, (∀ x, okpage x → x mod vpn_limit ≠ v mod vpn_limit) → translate m' r v = None).
Proof.
  intros HL Hrange Hready. unfold kernel_pt_need in Hready.
  destruct (Table_new_run m a _ Hready Hrange) as (r & a0 & Hnew & Hr0 & Hr & Hr' & Hs0).
  destruct (fresh_root m r (pa_avail a0)) as [Hwf0 Htr0]; [auto|done|].
  rewrite <- Nat.add_assoc in Hr0.
  destruct (kernel_region_run L (<[r:=∅]> m) a0 r _ HL Hwf0 ltac:(auto) Hr0)
    as (m1 & a1 & Hrun1 & Hwf1 & Hr1 & Hs1 & Ht1 & Ho1).
  pose proof HL as [Hal Htext [Hro1 Hro] [Hda1 Hda] [Hbs1 Hbs] [Hhe1 Hhe]].
  assert (4096 | HEAP_START L) as Hheap by (repeat (apply list.Forall_cons in Hal as [? Hal]); done).
  assert (4096 | HEAP_START L + MEM_SIZE) as Hend by (apply Z.divide_add_r; [done|by exists 32768]).
  destruct (range_pages (HEAP_START L) (HEAP_START L + MEM_SIZE)) as (p & n & Hp & Hpn & Hn & Hok & H52);
    [done..| |done|].
  { split; [lia|]. assert (0 < MEM_SIZE) by done. lia. }
  assert (n = 32768) as -> by (unfold MEM_SIZE in Hpn; lia).
  destruct (map_pages_run m1 a1 r p 32768 RW k Hwf1 ltac:(auto))
    as (m2 & a2 & Hrun2 & Hwf2 & Hr2 & Hs2 & Ht2 & Ho2); [|done..|].
  { unfold range_need in Hr1. rewrite Hp, Z.div_mul in Hr1 by done.
    replace (p * 4096 + MEM_SIZE - p * 4096) with MEM_SIZE in Hr1 by lia. exact Hr1. }
  exists r, m2, a2. split_and!; [|auto|exact Hwf2|exact Hr2| | |].
  - unfold kernel_pt_init, new_with_allocator. rewrite (st_run _ _ _ (mkMapper (table_at r)) (<[r:=∅]> m, a0)).
    2: { by rewrite (st_run _ _ _ _ _ Hnew). }
    rewrite (st_run _ _ _ _ _ Hrun1). unfold PhysicalAddress_from. cbn [va_0].
    change ADDR_OFFSET with ((2 ^ 52 - 2 ^ 26) * 4096) in *. pose proof Hok as [Hp1 _]. rewrite PAGE_OFFSET_val in Hp1.
    rewrite Hp, usub_Ok by lia. cbn [mbind res_bind]. rewrite (st_run_lift _ _ _ _ eq_refl). cbn [pa_0].
    replace (p * 4096 - (2 ^ 52 - 2 ^ 26) * 4096) with ((p - (2 ^ 52 - 2 ^ 26)) * 4096) by lia.
    rewrite !shiftr_page. rewrite <- PAGE_OFFSET_val. change (Z.shiftr MEM_SIZE PAGE_BITS) with 32768.
    rewrite (st_run _ _ _ _ _ Hrun2). cbn [root_table root].
    by rewrite (st_run_lift _ _ _ _ (Table_page_number_run r ltac:(auto))).
  - auto 10.
  - intros v Hv. rewrite Ht2, <- Hp, <- Hpn, Ht1 by done. unfold kernel_access.
    destruct (decide (HEAP_START L ≤ _ < _)); [done|]. rewrite Htr0. by destruct (image_access L v).
  - intros v Hv. by rewrite Ho2, Ho1.
Qed.
End kernel_pt.

Definition heap_page (L : Layout) (x : Z) : Prop := HEAP_START L ≤ x * 4096 < HEAP_START L + MEM_SIZE.

Lemma heap_page_ok L x : layout_ok L → heap_page L x → okpage x.
Proof.
  intros [_ [? ?] [Hro1 ?] [Hda1 ?] [Hbs1 ?] [? ?]] [Hx1 Hx2]. unfold okpage. rewrite PAGE_OFFSET_val.
  change VIRT_ADDR with 0xffffffc040000000 in *. unfold U64 in *. lia.
Qed.

(** ** Theorem *)

(** C10: [kernel_pt_init] returns, with any allocator that has the pages it needs
    at most (one per upper level for every last-level table of a section and the
    root): the table maps every page of the image and the heap to the physical page
    at the fixed offset, text executable and read-only, constants read-only, data
    and heap writable and not executable, nothing is mapped both writable and
    executable, and nothing else is mapped at all; no table lies in the heap. *)
Theorem kernel_pt_init_correct `{!Entry, !Mapper, !EntryLaws, !MapperLaws}
    {A : Type} `{!PageAllocator A, !PageAllocatorLaws A} L m (a : A) k :
  26 ≤ PTE_BITS * Z.of_nat LEVEL ≤ 52 → layout_ok L →
  (∀ x, pa_avail a x → okpage x ∧ ¬ heap_page L x) → pa_ready (kernel_pt_need L + k) a →
  ∃ r m' a', kernel_pt_init L (m, a) = Ok ((mkMapper (table_at r), mkPP (r - PAGE_OFFSET)), (m', a')) ∧
    pt_wf m' r (λ x, pa_avail a' x ∨ heap_page L x) ∧ pa_ready k a' ∧
    (∀ v, okpage v → translate m' r v =
       (λ mode, e_new (v - PAGE_OFFSET) true mode) <$> kernel_access L v) ∧
    (∀ v mode, kernel_access L v = Some mode → ¬ (Write ∈ mode ∧ Execute ∈ mode)) ∧
    (∀ v, (∀ x, okpage x → x mod vpn_limit ≠ v mod vpn_limit) → translate m' r v = None).
Proof.
  intros Hlim HL Hav Hready.
  destruct (kernel_pt_init_run (PageAllocatorLaws0 := framed_laws PageAllocatorLaws0 (heap_page L))
    Hlim L m a k HL) as (r & m' & a' & Hrun & _ & Hwf & [Hr _] & _ & Htr & Hno).
  - intros x [Hx|Hx]; [by apply Hav|by apply (heap_page_ok L)].
  - split; [done|]. intros x Hx Ha. by apply Hav in Ha as [_ ?].
  - exists r, m', a'. split_and!; try done. apply kernel_access_wx.
Qed.

(** ** Witness *)

(** An image of two megabytes with the static pages in it. *)
Definition demo_image : Layout := {|
  KERNEL_START := 0xffffffc040001000; KERNEL_END := 0xffffffc040080000;
  RODATA_START := 0xffffffc040080000; RODATA_END := 0xffffffc0400a0000;
  DATA_START := 0xffffffc0400a0000; DATA_END := 0xffffffc0400b0000;
  BSS_START := 0xffffffc0400b0000; BSS_END := 0xffffffc040200000;
  HEAP_START := 0xffffffc040200000;
|}.

Lemma demo_image_ok : layout_ok demo_image.
Proof.
  constructor; cbn -[MEM_SIZE VIRT_ADDR].
  - repeat constructor; apply Z.mod_divide; done.
  - by vm_compute.
  - split; [done|by vm_compute].
  - split; [done|by vm_compute].
  - split; [done|by vm_compute].
  - split; by vm_compute.
Qed.

#[local] Existing Instances Sv39_Entry Sv39_Mapper.

Lemma kernel_pt_init_correct_witness :
  ∃ r m' a', kernel_pt_init demo_image (∅, demo_static)
      = Ok ((mkMapper (table_at r), mkPP (r - PAGE_OFFSET)), (m', a')) ∧
    pt_wf m' r (λ x, pa_avail a' x ∨ heap_page demo_image x) ∧ pa_ready 100 a' ∧
    (∀ v, okpage v → translate m' r v =
       (λ mode, e_new (v - PAGE_OFFSET) true mode) <$> kernel_access demo_image v) ∧
    (∀ v mode, kernel_access demo_image v = Some mode → ¬ (Write ∈ mode ∧ Execute ∈ mode)) ∧
    (∀ v, (∀ x, okpage x → x mod vpn_limit ≠ v mod vpn_limit) → translate m' r v = None).
Proof.
  apply (kernel_pt_init_correct demo_image ∅ demo_static 100).
  - by vm_compute.
  - apply demo_image_ok.
  - intros x Hx. split; [by apply demo_static_range|].
    apply (static_avail_range demo_static x eq_refl) in Hx.
    change (pages_addr demo_static / 4096) with 0xffffffc040100 in Hx.
    unfold heap_page, STATIC_PAGE_CAP in *. cbn [demo_image HEAP_START]. lia.
  - apply demo_static_ready. vm_compute. lia.
Defined.
