(* ===== verification/CryptoFramework.v ===== *)
(** * The traits of the cryptographic code (src/crypto/crypto_framework/src/lib.rs)

    The traits [BlockCipher], [StreamCipher], [CryptoRandgen] and [Hash] are
    classes of operations, the generic code over them ([CbcCipher], [Hmac], the
    blanket implementation of [CryptoRandgen]) is defined for any instance.
    [&mut self] is state passing, [&mut [u8]] arguments are returned. *)

From S2P Require Import Prelude Bytes.

(** ** Block ciphers *)

Class BlockCipher (B : Type) := {
  bc_BLOCK_SIZE : nat;
  bc_KEY_SIZE : nat;
  bc_set_key : list Z → ST B unit;
  bc_block_encrypt : list Z → ST B (list Z);
  bc_block_decrypt : list Z → ST B (list Z);
}.

(** The const parameter [S] is the length of [prev_block]. *)
Record CbcCipher (B : Type) (S : nat) := {
  cbc_block_cipher : B;
  cbc_prev_block : list Z;
}.
Arguments cbc_block_cipher {B S}.
Arguments cbc_prev_block {B S}.

Section cbc.
Context {B : Type} `{!BlockCipher B} {S : nat}.

Definition CbcCipher_default (d : B) : CbcCipher B S :=
  {| cbc_block_cipher := d; cbc_prev_block := replicate S 0 |}.

Definition cbc_set_iv (iv : list Z) : ST (CbcCipher B S) unit := λ self,
  iv ← copy_from_slice S iv;
  Ok (tt, {| cbc_block_cipher := cbc_block_cipher self; cbc_prev_block := iv |}).

Definition cbc_set_key (key : list Z) : ST (CbcCipher B S) unit := λ self,
  '(_, b) ← bc_set_key key (cbc_block_cipher self);
  Ok (tt, {| cbc_block_cipher := b; cbc_prev_block := cbc_prev_block self |}).

(** [for (i, byte) in block.iter_mut().enumerate() { *byte ^= prev_block[i] }]. *)
Definition xor_prev (prev block : list Z) : res (list Z) :=
  for_each (range 0 (length block)) (λ i block,
    byte ← index block i;
    p ← index prev i;
    update block i (Z.lxor byte p)) block.

(** [block.try_into().unwrap()] to an array of length [S]. *)
Definition to_array (S : nat) (block : list Z) : res (list Z) :=
  if (length block =? S)%nat then Ok block else Panic.

Definition cbc_block_encrypt (block : list Z) : ST (CbcCipher B S) (list Z) := λ self,
  block ← xor_prev (cbc_prev_block self) block;
  '(block, b) ← bc_block_encrypt block (cbc_block_cipher self);
  prev ← to_array S block;
  Ok (block, {| cbc_block_cipher := b; cbc_prev_block := prev |}).

Definition cbc_block_decrypt (block : list Z) : ST (CbcCipher B S) (list Z) := λ self,
  prev_block ← to_array S block;
  '(block, b) ← bc_block_decrypt block (cbc_block_cipher self);
  block ← xor_prev (cbc_prev_block self) block;
  Ok (block, {| cbc_block_cipher := b; cbc_prev_block := prev_block |}).
End cbc.

(** [CbcCipher] is itself a block cipher. *)
#[global] Instance cbc_BlockCipher {B S} `{!BlockCipher B} : BlockCipher (CbcCipher B S) := {|
  bc_BLOCK_SIZE := bc_BLOCK_SIZE (B := B);
  bc_KEY_SIZE := bc_KEY_SIZE (B := B);
  bc_set_key := cbc_set_key;
  bc_block_encrypt := cbc_block_encrypt;
  bc_block_decrypt := cbc_block_decrypt;
|}.

(** ** Stream ciphers and random generators *)

Class StreamCipher (T : Type) := {
  sc_KEY_SIZE : nat;
  sc_NONCE_SIZE : nat;
  sc_set_key : list Z → ST T unit;
  sc_set_nonce : list Z → ST T unit;
  sc_encrypt : list Z → ST T (list Z);
}.

(** The default method of the trait. *)
Definition sc_decrypt {T} `{!StreamCipher T} (block : list Z) : ST T (list Z) := sc_encrypt block.

Class CryptoRandgen (T : Type) := {
  cr_SEED_SIZE : nat;
  cr_reseed : list Z → ST T unit;
  cr_gen_bytes : list Z → ST T (list Z);
}.

#[global] Instance StreamCipher_CryptoRandgen {T} `{!StreamCipher T} : CryptoRandgen T := {|
  cr_SEED_SIZE := (sc_KEY_SIZE (T := T) + sc_NONCE_SIZE (T := T))%nat;
  cr_reseed := λ seed,
    k ← lift (slice_to seed (sc_KEY_SIZE (T := T)));
    _ ← sc_set_key k;
    n ← lift (slice_from seed (sc_KEY_SIZE (T := T)));
    sc_set_nonce n;
  cr_gen_bytes := sc_encrypt;
|}.

(** ** Hashes and HMAC *)

Class Hash (H : Type) := {
  hash_DIGEST_LEN : nat;
  hash_default : H;
  hash_update : list Z → ST H unit;
  hash_digest : list Z → ST H (list Z);
}.

Record Hmac (H : Type) := { ihasher : H; ohasher : H }.
Arguments ihasher {H}.
Arguments ohasher {H}.

Section hmac.
Context {H : Type} `{!Hash H}.

Definition Hmac_new : Hmac H := {| ihasher := hash_default; ohasher := hash_default |}.

Definition hmac_set_key (key : list Z) : ST (Hmac H) unit := λ self,
  self ← for_each key (λ byte self,
    '(_, i) ← hash_update [Z.lxor 0x36 byte] (ihasher self);
    '(_, o) ← hash_update [Z.lxor 0x5c byte] (ohasher self);
    Ok {| ihasher := i; ohasher := o |}) self;
  Ok (tt, self).

Definition hmac_update (message : list Z) : ST (Hmac H) unit := λ self,
  '(_, i) ← hash_update message (ihasher self);
  Ok (tt, {| ihasher := i; ohasher := ohasher self |}).

Definition hmac_digest (sum : list Z) : ST (Hmac H) (list Z) := λ self,
  _ ← assert (length sum =? hash_DIGEST_LEN (H := H))%nat;
  '(sum, i) ← hash_digest sum (ihasher self);
  '(_, o) ← hash_update sum (ohasher self);
  '(sum, o) ← hash_digest sum o;
  Ok (sum, {| ihasher := i; ohasher := o |}).
End hmac.

(** ** What an implementation promises

    A block cipher that is ready (has its key) permutes the blocks: encryption
    returns a block that decryption maps back, and neither changes the cipher. *)
Definition bc_block (B : Type) `{!BlockCipher B} (x : list Z) : Prop :=
  length x = bc_BLOCK_SIZE (B := B) ∧ bytes x.

Class BlockCipherLaws (B : Type) `{!BlockCipher B} := {
  bc_ready : B → Prop;
  bc_enc : B → list Z → list Z;
  bc_encrypt_law : ∀ b x, bc_ready b → bc_block B x →
    bc_block_encrypt x b = Ok (bc_enc b x, b) ∧ bc_block B (bc_enc b x);
  bc_decrypt_law : ∀ b x, bc_ready b → bc_block B x →
    bc_block_decrypt (bc_enc b x) b = Ok (x, b);
}.
