(* ===== verification/AesSpec.v ===== *)
(** * AES against FIPS 197

    A reference definition of the cipher in the terms of the standard (the field
    GF(2^8), the S-box as an inversion followed by an affine map, MixColumns as a
    matrix product, the key expansion on 4-byte words), and the proofs that the
    table-driven code of [Aes.v] computes it and that decryption undoes it. *)

From S2P Require Import Prelude Bytes Aes.

(** ** Exclusive or as the addition of a ring

    The integers with [Z.lxor] and [Z.land] form a ring, so that [ring] settles
    rearrangements of exclusive ors. *)
Lemma xor_ring : ring_theory 0 (-1) Z.lxor Z.land Z.lxor id (@eq Z).
Proof.
  constructor; intros; unfold id.
  - apply Z.lxor_0_l.
  - apply Z.lxor_comm.
  - symmetry. apply Z.lxor_assoc.
  - apply Z.land_m1_l.
  - apply Z.land_comm.
  - apply Z.land_assoc.
  - apply Z.bits_inj'. intros n _. rewrite ?Z.lxor_spec, ?Z.land_spec, ?Z.lxor_spec.
    by destruct (Z.testbit x n), (Z.testbit y n), (Z.testbit z n).
  - done.
  - apply Z.lxor_nilpotent.
Qed.
Add Ring xor_ring_on_Z : xor_ring.

(** ** The reference cipher *)

(** Multiplication by x, and by any element, in GF(2^8) modulo x^8+x^4+x^3+x+1. *)
Definition xtime (a : Z) : Z :=
  if Z.testbit a 7 then Z.lxor (Z.shiftl a 1 mod 256) 0x1b else Z.shiftl a 1.

Fixpoint gmul_bits (n : nat) (a b : Z) : Z :=
  match n with
  | O => 0
  | S n => Z.lxor (if Z.odd b then a else 0) (gmul_bits n (xtime a) (Z.shiftr b 1))
  end.
Definition gmul (a b : Z) : Z := gmul_bits 8 a b.

Fixpoint gpow (a : Z) (n : nat) : Z :=
  match n with O => 1 | S n => gmul a (gpow a n) end.

(** The inverse (0 for 0) is the power 254 = 2 + 4 + ... + 128, the product of
    the first seven iterated squares. *)
Fixpoint gsquares (n : nat) (a : Z) : Z :=
  match n with
  | O => 1
  | S n => let sq := gmul a a in gmul sq (gsquares n sq)
  end.
Definition ginv (a : Z) : Z := gsquares 7 a.

Definition affine (b : Z) : Z :=
  let bit i := Z.testbit b (i mod 8) in
  foldr Z.lxor 0x63 ((λ i : nat, let i := Z.of_nat i in
    if xorb (xorb (xorb (xorb (bit i) (bit (i + 4))) (bit (i + 5))) (bit (i + 6))) (bit (i + 7))
    then Z.shiftl 1 i else 0) <$> seq 0 8).

Definition s_box (b : Z) : Z := affine (ginv b).

Definition SubBytes (s : list Z) : list Z := s_box <$> s.

(** Byte [r + 4 c] of a block is row [r], column [c] of the state. *)
Definition ShiftRows (s : list Z) : list Z :=
  (λ i, s !!! (i mod 4 + 4 * ((i / 4 + i mod 4) mod 4))%nat) <$> seq 0 16.

Definition MixColumns (s : list Z) : list Z :=
  (λ i, let r := (i mod 4)%nat in let c := (i / 4)%nat in
     let a j := s !!! ((r + j) mod 4 + 4 * c)%nat in
     Z.lxor (Z.lxor (gmul 2 (a 0%nat)) (gmul 3 (a 1%nat))) (Z.lxor (a 2%nat) (a 3%nat))) <$> seq 0 16.

(** The cipher on the list of round keys. *)
Fixpoint Rounds (ks : list (list Z)) (s : list Z) : list Z :=
  match ks with
  | [] => s
  | [k] => xor_bytes (ShiftRows (SubBytes s)) k
  | k :: ks => Rounds ks (xor_bytes (MixColumns (ShiftRows (SubBytes s))) k)
  end.
Definition Cipher (ks : list (list Z)) (s : list Z) : list Z :=
  match ks with
  | [] => s
  | k :: ks => Rounds ks (xor_bytes s k)
  end.

(** The key expansion on words of four bytes, one word at a time. *)
Definition RotWord (w : list Z) : list Z := drop 1 w ++ take 1 w.
Definition SubWord (w : list Z) : list Z := s_box <$> w.
Definition Rcon (i : nat) : list Z := [gpow 2 (i - 1); 0; 0; 0].

Definition expansion_temp (Nk i : nat) (temp : list Z) : list Z :=
  if (i mod Nk =? 0)%nat then xor_bytes (SubWord (RotWord temp)) (Rcon (i / Nk))
  else if ((6 <? Nk) && (i mod Nk =? 4))%nat then SubWord temp
  else temp.

Definition expand_word (Nk : nat) (w : list (list Z)) : list (list Z) :=
  let i := length w in
  w ++ [xor_bytes (w !!! (i - Nk)%nat) (expansion_temp Nk i (w !!! (i - 1)%nat))].

Fixpoint words (n : nat) (l : list Z) : list (list Z) :=
  match n with O => [] | S n => take 4 l :: words n (drop 4 l) end.

Definition KeyExpansion (Nk Nr : nat) (key : list Z) : list (list Z) :=
  Nat.iter (4 * (Nr + 1) - Nk) (expand_word Nk) (words Nk key).

(** Round key [r] is the concatenation of words [4r] to [4r+3]. *)
Definition round_key (w : list (list Z)) (r : nat) : list Z := mjoin (take 4 (drop (4 * r) w)).

Definition fips197_round_keys (Nk Nr : nat) (key : list Z) : list (list Z) :=
  round_key (KeyExpansion Nk Nr key) <$> seq 0 (Nr + 1).

Definition AES128_spec (key block : list Z) : list Z := Cipher (fips197_round_keys 4 10 key) block.
Definition AES256_spec (key block : list Z) : list Z := Cipher (fips197_round_keys 8 14 key) block.

(** ** Facts on bytes decided by enumeration *)

Lemma all_bytes (f : Z → bool) :
  forallb (λ n, f (Z.of_nat n)) (seq 0 256) = true → ∀ b, is_byte b → f b = true.
Proof.
  intros Hall b Hb. rewrite forallb_forall in Hall.
  replace b with (Z.of_nat (Z.to_nat b)) by (unfold is_byte in Hb; lia).
  apply Hall, in_seq. unfold is_byte in Hb. lia.
Qed.

Definition res_eqb (r : res Z) (v : Z) : bool := match r with Ok w => w =? v | _ => false end.
Lemma res_eqb_true r v : res_eqb r v = true → r = Ok v.
Proof. destruct r; simpl; [|done..]. by intros ->%Z.eqb_eq. Qed.

Definition byteb (b : Z) : bool := (0 <=? b) && (b <? 256).
Lemma byteb_true b : byteb b = true → is_byte b.
Proof. unfold byteb, is_byte. rewrite andb_true_iff, Z.leb_le, Z.ltb_lt. done. Qed.

Lemma bytes_dec_true l : forallb byteb l = true → bytes l.
Proof. rewrite forallb_forall, list.Forall_forall. intros H x Hx%list_elem_of_In. by apply byteb_true, H. Qed.

Ltac by_bytes f :=
  let Hb := fresh in intros Hb;
  first [apply res_eqb_true | apply byteb_true | apply Z.eqb_eq];
  revert Hb; apply (all_bytes f); vm_compute; reflexivity.

Lemma ginv_inverse a : is_byte a → gmul a (ginv a) = if a =? 0 then 0 else 1.
Proof. by_bytes (λ a, gmul a (ginv a) =? if a =? 0 then 0 else 1). Qed.

Lemma SBOX_lookup b : is_byte b → lookup_table SBOX b = Ok (s_box b).
Proof. by_bytes (λ b, res_eqb (lookup_table SBOX b) (s_box b)). Qed.
Lemma SBOX_INV_lookup b : is_byte b → lookup_table SBOX_INV (s_box b) = Ok b.
Proof. by_bytes (λ b, res_eqb (lookup_table SBOX_INV (s_box b)) b). Qed.
Lemma s_box_byte b : is_byte b → is_byte (s_box b).
Proof. by_bytes (λ b, byteb (s_box b)). Qed.

Lemma MUL_2_lookup b : is_byte b → lookup_table MUL_2 b = Ok (gmul 2 b).
Proof. by_bytes (λ b, res_eqb (lookup_table MUL_2 b) (gmul 2 b)). Qed.
Lemma MUL_3_lookup b : is_byte b → lookup_table MUL_3 b = Ok (gmul 3 b).
Proof. by_bytes (λ b, res_eqb (lookup_table MUL_3 b) (gmul 3 b)). Qed.
Lemma MUL_9_lookup b : is_byte b → lookup_table MUL_9 b = Ok (gmul 9 b).
Proof. by_bytes (λ b, res_eqb (lookup_table MUL_9 b) (gmul 9 b)). Qed.
Lemma MUL_11_lookup b : is_byte b → lookup_table MUL_11 b = Ok (gmul 11 b).
Proof. by_bytes (λ b, res_eqb (lookup_table MUL_11 b) (gmul 11 b)). Qed.
Lemma MUL_13_lookup b : is_byte b → lookup_table MUL_13 b = Ok (gmul 13 b).
Proof. by_bytes (λ b, res_eqb (lookup_table MUL_13 b) (gmul 13 b)). Qed.
Lemma MUL_14_lookup b : is_byte b → lookup_table MUL_14 b = Ok (gmul 14 b).
Proof. by_bytes (λ b, res_eqb (lookup_table MUL_14 b) (gmul 14 b)). Qed.

Lemma xtime_byte a : is_byte a → is_byte (xtime a).
Proof. by_bytes (λ a, byteb (xtime a)). Qed.

Lemma gmul_bits_byte n a b : is_byte a → is_byte (gmul_bits n a b).
Proof.
  revert a b. induction n as [|n IH]; intros a b Ha; simpl; [by unfold is_byte|].
  apply lxor_byte; [by destruct (Z.odd b)|]. apply IH. by apply xtime_byte.
Qed.
Lemma gmul_byte a b : is_byte a → is_byte (gmul a b).
Proof. apply gmul_bits_byte. Qed.

(** Multiplication distributes over exclusive or. *)
Lemma gmul_bits_xor n a b c :
  gmul_bits n a (Z.lxor b c) = Z.lxor (gmul_bits n a b) (gmul_bits n a c).
Proof.
  revert a b c. induction n as [|n IH]; intros a b c; simpl; [done|].
  rewrite Z.shiftr_lxor, IH, <- !Z.bit0_odd, Z.lxor_spec.
  destruct (Z.testbit b 0), (Z.testbit c 0); simpl; rewrite ?Z.lxor_0_l; try ring.
  set (x := gmul_bits n (xtime a) _). set (y := gmul_bits n (xtime a) _).
  transitivity (Z.lxor (Z.lxor a a) (Z.lxor x y)); [|ring].
  by rewrite Z.lxor_nilpotent, Z.lxor_0_l.
Qed.
Lemma gmul_xor a b c : gmul a (Z.lxor b c) = Z.lxor (gmul a b) (gmul a c).
Proof. apply gmul_bits_xor. Qed.

(** ** The steps of a round compute the steps of the standard *)

(** The inverse steps of the standard. *)
Definition inv_s_box (b : Z) : Z := SBOX_INV !!! Z.to_nat b.
Definition InvSubBytes (s : list Z) : list Z := inv_s_box <$> s.
Definition InvShiftRows (s : list Z) : list Z :=
  (λ i, s !!! (i mod 4 + 4 * ((i / 4 + 4 - i mod 4) mod 4))%nat) <$> seq 0 16.
Definition InvMixColumns (s : list Z) : list Z :=
  (λ i, let r := (i mod 4)%nat in let c := (i / 4)%nat in
     let a j := s !!! ((r + j) mod 4 + 4 * c)%nat in
     Z.lxor (Z.lxor (gmul 14 (a 0%nat)) (gmul 11 (a 1%nat)))
            (Z.lxor (gmul 13 (a 2%nat)) (gmul 9 (a 3%nat)))) <$> seq 0 16.

(** A block of the cipher. *)
Definition is_block (s : list Z) : Prop := length s = 16%nat ∧ bytes s.

Lemma add_round_key_spec s k :
  is_block s → is_block k → add_round_key s k = Ok (xor_bytes s k) ∧ is_block (xor_bytes s k).
Proof.
  intros [Hs Hsb] [Hk Hkb]. split.
  - rewrite <- (imap_zip_with _ _ _ 0) by lia.
    apply (for_each_in_place _ (λ i a, Z.lxor a (default 0 (k !! i)))); [done|].
    intros i b l Hb Hl. rewrite (index_Ok l i b Hl). simpl.
    apply lookup_lt_Some in Hb as Hi. destruct (lookup_lt_is_Some_2 k i) as [x Hx]; [lia|].
    rewrite (index_Ok k i x Hx), Hx. simpl. apply update_Ok. by apply lookup_lt_Some in Hl.
  - split; [rewrite length_zip_with; lia|by apply xor_bytes_bytes].
Qed.

Lemma table_in_place (table : list Z) (f : Z → Z) s :
  length s = 16%nat → Forall (λ b, lookup_table table b = Ok (f b)) s →
  for_each (range 0 AES_BLOCK_SIZE) (λ i block,
    b ← index block i; s ← lookup_table table b; update block i s) s = Ok (f <$> s).
Proof.
  intros Hs Hf. rewrite (for_each_in_place _ (const f)); [by rewrite imap_const|done|].
  intros i b l Hb Hl. rewrite (index_Ok l i b Hl). simpl.
  rewrite (proj1 (list.Forall_lookup _ _) Hf i b Hb). simpl.
  apply update_Ok. by apply lookup_lt_Some in Hl.
Qed.

Lemma sub_bytes_spec s : is_block s → sub_bytes s = Ok (SubBytes s) ∧ is_block (SubBytes s).
Proof.
  intros [Hs Hb]. split.
  - apply table_in_place; [done|]. eapply list.Forall_impl; [exact Hb|apply SBOX_lookup].
  - unfold SubBytes, InvSubBytes. split; [by rewrite length_fmap|]. apply Forall_fmap.
    eapply list.Forall_impl; [exact Hb|apply s_box_byte].
Qed.

Lemma inv_s_box_lookup b : is_byte b → lookup_table SBOX_INV b = Ok (inv_s_box b).
Proof. by_bytes (λ b, res_eqb (lookup_table SBOX_INV b) (inv_s_box b)). Qed.
Lemma inv_s_box_byte b : is_byte b → is_byte (inv_s_box b).
Proof. by_bytes (λ b, byteb (inv_s_box b)). Qed.
Lemma inv_s_box_s_box b : is_byte b → inv_s_box (s_box b) = b.
Proof. by_bytes (λ b, inv_s_box (s_box b) =? b). Qed.

Lemma sub_bytes_inv_spec s :
  is_block s → sub_bytes_inv s = Ok (InvSubBytes s) ∧ is_block (InvSubBytes s).
Proof.
  intros [Hs Hb]. split.
  - apply table_in_place; [done|]. eapply list.Forall_impl; [exact Hb|apply inv_s_box_lookup].
  - unfold SubBytes, InvSubBytes. split; [by rewrite length_fmap|]. apply Forall_fmap.
    eapply list.Forall_impl; [exact Hb|apply inv_s_box_byte].
Qed.

(** Splits a block into its sixteen bytes. *)
Ltac destruct_block s H :=
  destruct H as [? H]; do 16 (destruct s as [|? s]; [done|]);
  destruct s; [|done]; rewrite !list.Forall_cons in H; destruct_and! H.

Ltac solve_block :=
  split; [reflexivity|];
  match goal with |- Forall _ ?l => let l' := eval lazy in l in change_no_check l with l' end;
  rewrite ?list.Forall_cons; eauto 20 using list.Forall_nil_2.

Lemma shift_rows_spec s : is_block s → shift_rows s = Ok (ShiftRows s) ∧ is_block (ShiftRows s).
Proof. intros H. destruct_block s H. split; [reflexivity|]. by solve_block. Qed.

Lemma shift_rows_inv_spec s :
  is_block s → shift_rows_inv s = Ok (InvShiftRows s) ∧ is_block (InvShiftRows s).
Proof. intros H. destruct_block s H. split; [reflexivity|]. by solve_block. Qed.

Lemma InvShiftRows_ShiftRows s : is_block s → InvShiftRows (ShiftRows s) = s.
Proof. intros H. by destruct_block s H. Qed.

#[local] Hint Resolve gmul_byte : kernel.
Lemma byte_small n : 0 ≤ n < 256 → is_byte n.
Proof. done. Qed.

(** One column, given the four bytes it holds. *)
Lemma mix_column_spec col s a0 a1 a2 a3 :
  s !! (4 * col + 0)%nat = Some a0 → s !! (4 * col + 1)%nat = Some a1 →
  s !! (4 * col + 2)%nat = Some a2 → s !! (4 * col + 3)%nat = Some a3 →
  is_byte a0 → is_byte a1 → is_byte a2 → is_byte a3 →
  mix_column col s = Ok (<[(4 * col + 3)%nat:=Z.lxor (Z.lxor (Z.lxor (gmul 2 a3) a2) a1) (gmul 3 a0)]>
    (<[(4 * col + 2)%nat:=Z.lxor (Z.lxor (Z.lxor (gmul 2 a2) a1) a0) (gmul 3 a3)]>
    (<[(4 * col + 1)%nat:=Z.lxor (Z.lxor (Z.lxor (gmul 2 a1) a0) a3) (gmul 3 a2)]>
    (<[(4 * col)%nat:=Z.lxor (Z.lxor (Z.lxor (gmul 2 a0) a3) a2) (gmul 3 a1)]> s)))).
Proof.
  intros H0 H1 H2 H3 ????. unfold mix_column.
  rewrite (index_Ok _ _ _ H0), (index_Ok _ _ _ H1), (index_Ok _ _ _ H2), (index_Ok _ _ _ H3).
  apply lookup_lt_Some in H3. rewrite !bind_Ok, !MUL_2_lookup, !MUL_3_lookup by done.
  rewrite !bind_Ok. by do 4 (rewrite update_Ok by (rewrite ?length_insert; lia); rewrite ?bind_Ok).
Qed.

Lemma mix_byte_inv_spec x9 x11 x13 x14 :
  is_byte x9 → is_byte x11 → is_byte x13 → is_byte x14 →
  mix_byte_inv x9 x11 x13 x14
  = Ok (Z.lxor (Z.lxor (Z.lxor (gmul 9 x9) (gmul 11 x11)) (gmul 13 x13)) (gmul 14 x14)).
Proof.
  intros. unfold mix_byte_inv.
  by rewrite MUL_9_lookup, MUL_11_lookup, MUL_13_lookup, MUL_14_lookup by done.
Qed.

Lemma mix_column_inv_spec col s a0 a1 a2 a3 :
  s !! (4 * col + 0)%nat = Some a0 → s !! (4 * col + 1)%nat = Some a1 →
  s !! (4 * col + 2)%nat = Some a2 → s !! (4 * col + 3)%nat = Some a3 →
  is_byte a0 → is_byte a1 → is_byte a2 → is_byte a3 →
  let mix x9 x11 x13 x14 :=
    Z.lxor (Z.lxor (Z.lxor (gmul 9 x9) (gmul 11 x11)) (gmul 13 x13)) (gmul 14 x14) in
  mix_column_inv col s = Ok (<[(4 * col + 3)%nat:=mix a2 a0 a1 a3]>
    (<[(4 * col + 2)%nat:=mix a1 a3 a0 a2]>
    (<[(4 * col + 1)%nat:=mix a0 a2 a3 a1]>
    (<[(4 * col)%nat:=mix a3 a1 a2 a0]> s)))).
Proof.
  intros H0 H1 H2 H3 ????. cbv zeta. unfold mix_column_inv.
  rewrite (index_Ok _ _ _ H0), (index_Ok _ _ _ H1), (index_Ok _ _ _ H2), (index_Ok _ _ _ H3).
  apply lookup_lt_Some in H3. rewrite !bind_Ok, !mix_byte_inv_spec by done.
  rewrite !bind_Ok. by do 4 (rewrite update_Ok by (rewrite ?length_insert; lia); rewrite ?bind_Ok).
Qed.

(** The equality of two blocks whose bytes are equal as exclusive ors. *)
Ltac xor_block :=
  lazy -[gmul Z.lxor]; repeat match goal with |- _ :: _ = _ :: _ => f_equal end; try done; ring.

Ltac byte_xor :=
  repeat match goal with
  | |- is_byte (Z.lxor _ _) => apply lxor_byte
  | |- is_byte (gmul _ _) => apply gmul_byte, byte_small; lia
  | |- is_byte _ => assumption
  end.

Ltac bytes_block := split; [done|];
  match goal with |- Forall _ ?l =>
    let l' := eval lazy -[gmul Z.lxor] in l in change_no_check l with l' end;
  repeat (apply Forall_cons_2; [byte_xor|]);
  by apply list.Forall_nil.

Lemma mix_columns_spec s : is_block s → mix_columns s = Ok (MixColumns s) ∧ is_block (MixColumns s).
Proof.
  intros H. destruct_block s H. split.
  - unfold mix_columns. change (range 0 4) with [0; 1; 2; 3]%nat. cbn [for_each].
    do 4 (erewrite mix_column_spec by (reflexivity || eassumption); rewrite bind_Ok).
    f_equal. xor_block.
  - bytes_block.
Qed.

Lemma mix_columns_inv_spec s :
  is_block s → mix_columns_inv s = Ok (InvMixColumns s) ∧ is_block (InvMixColumns s).
Proof.
  intros H. destruct_block s H. split.
  - unfold mix_columns_inv. change (range 0 4) with [0; 1; 2; 3]%nat. cbn [for_each].
    do 4 (erewrite mix_column_inv_spec by (reflexivity || eassumption); rewrite bind_Ok).
    f_equal. xor_block.
  - bytes_block.
Qed.

(** The matrix of InvMixColumns inverts the one of MixColumns: the entries of the
    product, as functions of a byte. *)
Lemma inv_mix_diag x : is_byte x →
  Z.lxor (Z.lxor (gmul 14 (gmul 2 x)) (gmul 11 x)) (Z.lxor (gmul 13 x) (gmul 9 (gmul 3 x))) = x.
Proof.
  by_bytes (λ x, Z.lxor (Z.lxor (gmul 14 (gmul 2 x)) (gmul 11 x))
                        (Z.lxor (gmul 13 x) (gmul 9 (gmul 3 x))) =? x).
Qed.
Lemma inv_mix_1 x : is_byte x →
  Z.lxor (Z.lxor (gmul 14 (gmul 3 x)) (gmul 11 (gmul 2 x))) (Z.lxor (gmul 13 x) (gmul 9 x)) = 0.
Proof.
  by_bytes (λ x, Z.lxor (Z.lxor (gmul 14 (gmul 3 x)) (gmul 11 (gmul 2 x)))
                        (Z.lxor (gmul 13 x) (gmul 9 x)) =? 0).
Qed.
Lemma inv_mix_2 x : is_byte x →
  Z.lxor (Z.lxor (gmul 14 x) (gmul 11 (gmul 3 x))) (Z.lxor (gmul 13 (gmul 2 x)) (gmul 9 x)) = 0.
Proof.
  by_bytes (λ x, Z.lxor (Z.lxor (gmul 14 x) (gmul 11 (gmul 3 x)))
                        (Z.lxor (gmul 13 (gmul 2 x)) (gmul 9 x)) =? 0).
Qed.
Lemma inv_mix_3 x : is_byte x →
  Z.lxor (Z.lxor (gmul 14 x) (gmul 11 x)) (Z.lxor (gmul 13 (gmul 3 x)) (gmul 9 (gmul 2 x))) = 0.
Proof.
  by_bytes (λ x, Z.lxor (Z.lxor (gmul 14 x) (gmul 11 x))
                        (Z.lxor (gmul 13 (gmul 3 x)) (gmul 9 (gmul 2 x))) =? 0).
Qed.

Lemma inv_mix_column a b c d :
  is_byte a → is_byte b → is_byte c → is_byte d →
  let m a b c d := Z.lxor (Z.lxor (gmul 2 a) (gmul 3 b)) (Z.lxor c d) in
  Z.lxor (Z.lxor (gmul 14 (m a b c d)) (gmul 11 (m b c d a)))
         (Z.lxor (gmul 13 (m c d a b)) (gmul 9 (m d a b c))) = a.
Proof.
  intros Ha Hb Hc Hd. cbv beta zeta. rewrite !gmul_xor.
  assert (∀ A B C D, A = a → B = 0 → C = 0 → D = 0 →
    Z.lxor (Z.lxor A B) (Z.lxor C D) = a) as Hsum
    by (intros ???? -> -> -> ->; by rewrite !Z.lxor_0_r).
  etrans; [|exact (Hsum _ _ _ _ (inv_mix_diag a Ha) (inv_mix_1 b Hb) (inv_mix_2 c Hc)
                     (inv_mix_3 d Hd))].
  ring.
Qed.

Lemma InvMixColumns_MixColumns s : is_block s → InvMixColumns (MixColumns s) = s.
Proof.
  intros H. destruct_block s H. lazy -[gmul Z.lxor].
  repeat match goal with |- _ :: _ = _ :: _ => f_equal end; by apply inv_mix_column.
Qed.

Lemma InvSubBytes_SubBytes s : bytes s → InvSubBytes (SubBytes s) = s.
Proof.
  intros Hs. unfold InvSubBytes, SubBytes. rewrite <- list_fmap_compose.
  rewrite <- (list_fmap_id s) at 2. apply list_fmap_ext. intros i x Hx. simpl.
  apply inv_s_box_s_box. by apply (proj1 (list.Forall_lookup _ _) Hs i).
Qed.

(** ** The rounds *)

(** The inverse cipher of the standard, on the list of round keys. *)
Fixpoint InvRounds (ks : list (list Z)) (s : list Z) : list Z :=
  match ks with
  | [] => s
  | [k] => InvSubBytes (InvShiftRows (xor_bytes s k))
  | k :: ks => InvSubBytes (InvShiftRows (InvMixColumns (xor_bytes (InvRounds ks s) k)))
  end.
Definition InvCipher (ks : list (list Z)) (s : list Z) : list Z :=
  match ks with
  | [] => s
  | k :: ks => xor_bytes (InvRounds ks s) k
  end.

Lemma xor_block_block s k : is_block s → is_block k → is_block (xor_bytes s k).
Proof. intros Hs Hk. by apply add_round_key_spec. Qed.
Lemma SubBytes_block s : is_block s → is_block (SubBytes s).
Proof. intros Hs. by apply sub_bytes_spec. Qed.
Lemma ShiftRows_block s : is_block s → is_block (ShiftRows s).
Proof. intros Hs. by apply shift_rows_spec. Qed.
Lemma MixColumns_block s : is_block s → is_block (MixColumns s).
Proof. intros Hs. by apply mix_columns_spec. Qed.
Create HintDb aes.
#[export] Hint Resolve xor_block_block SubBytes_block ShiftRows_block MixColumns_block : aes.

(** The equations of the recursions over the round keys. *)
Lemma Rounds_one k s : Rounds [k] s = xor_bytes (ShiftRows (SubBytes s)) k.
Proof. reflexivity. Qed.
Lemma Rounds_cons k k' ks s :
  Rounds (k :: k' :: ks) s
  = Rounds (k' :: ks) (xor_bytes (MixColumns (ShiftRows (SubBytes s))) k).
Proof. reflexivity. Qed.
Lemma InvRounds_one k s : InvRounds [k] s = InvSubBytes (InvShiftRows (xor_bytes s k)).
Proof. reflexivity. Qed.
Lemma InvRounds_cons k k' ks s :
  InvRounds (k :: k' :: ks) s
  = InvSubBytes (InvShiftRows (InvMixColumns (xor_bytes (InvRounds (k' :: ks) s) k))).
Proof. reflexivity. Qed.

Lemma Rounds_block ks s : Forall is_block ks → is_block s → is_block (Rounds ks s).
Proof.
  intros Hks. revert s. induction Hks as [|k ks Hk Hks IH]; intros s Hs; [done|].
  destruct ks as [|k' ks]; [rewrite Rounds_one|rewrite Rounds_cons; apply IH]; auto 8 with aes.
Qed.

Lemma Cipher_block ks s : Forall is_block ks → is_block s → is_block (Cipher ks s).
Proof. intros [|k ks' Hk Hks] Hs; simpl; [done|]. apply Rounds_block; auto 8 with aes. Qed.

Lemma xor_block_cancel s k : is_block s → is_block k → xor_bytes (xor_bytes s k) k = s.
Proof. intros [Hs _] [Hk _]. apply xor_bytes_cancel. lia. Qed.

Lemma InvRounds_Rounds ks s :
  Forall is_block ks → is_block s → InvRounds ks (Rounds ks s) = s.
Proof.
  intros Hks. revert s. induction Hks as [|k ks Hk Hks IH]; intros s Hs; [done|].
  assert (bytes s) by apply Hs.
  destruct ks as [|k' ks].
  - rewrite InvRounds_one, Rounds_one, xor_block_cancel, InvShiftRows_ShiftRows, InvSubBytes_SubBytes; auto 8 with aes.
  - rewrite InvRounds_cons, Rounds_cons, IH, xor_block_cancel, InvMixColumns_MixColumns, InvShiftRows_ShiftRows,
      InvSubBytes_SubBytes; auto 8 with aes.
Qed.

Lemma InvCipher_Cipher ks s : Forall is_block ks → is_block s → InvCipher ks (Cipher ks s) = s.
Proof.
  intros [|k ks' Hk Hks] Hs; simpl; [done|].
  rewrite InvRounds_Rounds by auto 8 with aes. by apply xor_block_cancel.
Qed.

(** The loops of the code, over an array of [N + 1] round keys. *)
Section rounds.
Context (rks : list (list Z)) (N : nat).
Context (Hlen : length rks = S N) (Hrks : Forall is_block rks).

Lemma round_key_lookup r : (r ≤ N)%nat →
  ∃ k, rks !! r = Some k ∧ is_block k ∧ drop r rks = k :: drop (S r) rks.
Proof.
  intros Hr. destruct (lookup_lt_is_Some_2 rks r) as [k Hk]; [lia|]. exists k. split_and!; [done| |].
  - by apply (proj1 (list.Forall_lookup _ _) Hrks r).
  - by apply drop_S.
Qed.

Lemma encrypt_round_spec r k s :
  is_block s → is_block k → rks !! r = Some k →
  encrypt_round rks r s = Ok (xor_bytes (MixColumns (ShiftRows (SubBytes s))) k).
Proof.
  intros Hs Hkb Hk. unfold encrypt_round.
  rewrite (proj1 (sub_bytes_spec s Hs)), bind_Ok.
  rewrite (proj1 (shift_rows_spec _ (SubBytes_block _ Hs))), bind_Ok.
  rewrite (proj1 (mix_columns_spec _ (ShiftRows_block _ (SubBytes_block _ Hs)))), bind_Ok.
  rewrite (index_Ok _ _ _ Hk), bind_Ok. apply add_round_key_spec; auto 8 with aes.
Qed.

Lemma decrypt_round_spec r k s :
  is_block s → is_block k → rks !! r = Some k →
  decrypt_round rks r s = Ok (InvSubBytes (InvShiftRows (InvMixColumns (xor_bytes s k)))) ∧
  is_block (InvSubBytes (InvShiftRows (InvMixColumns (xor_bytes s k)))).
Proof.
  intros Hs Hkb Hk. unfold decrypt_round. rewrite (index_Ok _ _ _ Hk), bind_Ok.
  destruct (add_round_key_spec s k) as [-> H1]; [done..|]. rewrite bind_Ok.
  destruct (mix_columns_inv_spec _ H1) as [-> H2]. rewrite bind_Ok.
  destruct (shift_rows_inv_spec _ H2) as [-> H3]. rewrite bind_Ok.
  by apply sub_bytes_inv_spec.
Qed.

Lemma encrypt_rounds a s :
  (1 ≤ a ≤ N)%nat → is_block s →
  (s ← for_each (range a N) (encrypt_round rks) s;
   s ← sub_bytes s; s ← shift_rows s; k ← index rks N; add_round_key s k)
  = Ok (Rounds (drop a rks) s).
Proof.
  unfold range. remember (N - a)%nat as n eqn:Hn. revert a s Hn.
  induction n as [|n IH]; intros a s Hn Ha Hs; cbn [seq for_each];
    destruct (round_key_lookup a) as (k & Hk & Hkb & Hd); try lia; rewrite Hd.
  - rewrite bind_Ok. assert (a = N) as -> by lia. rewrite (drop_ge rks), Rounds_one by lia.
    rewrite (proj1 (sub_bytes_spec s Hs)), bind_Ok.
    rewrite (proj1 (shift_rows_spec _ (SubBytes_block _ Hs))), bind_Ok.
    rewrite (index_Ok _ _ _ Hk), bind_Ok. apply add_round_key_spec; auto 8 with aes.
  - destruct (round_key_lookup (S a)) as (k' & _ & _ & Hd'); [lia|].
    rewrite Hd', Rounds_cons, <- Hd', res_bind_assoc, (encrypt_round_spec _ k), bind_Ok by done.
    apply IH; [lia..|]. auto 8 with aes.
Qed.

Lemma decrypt_rounds a s :
  (1 ≤ a ≤ N)%nat → is_block s →
  (k ← index rks N; s ← add_round_key s k; s ← shift_rows_inv s; s ← sub_bytes_inv s;
   for_each (rev (range a N)) (decrypt_round rks) s)
  = Ok (InvRounds (drop a rks) s) ∧ is_block (InvRounds (drop a rks) s).
Proof.
  unfold range. remember (N - a)%nat as n eqn:Hn. revert a Hn.
  induction n as [|n IH]; intros a Hn Ha Hs; cbn [seq rev];
    destruct (round_key_lookup a) as (k & Hk & Hkb & Hd); try lia; rewrite Hd.
  - assert (a = N) as -> by lia. rewrite (drop_ge rks), InvRounds_one by lia.
    rewrite (index_Ok _ _ _ Hk), bind_Ok.
    destruct (add_round_key_spec s k) as [-> H1]; [done..|]. rewrite bind_Ok.
    destruct (shift_rows_inv_spec _ H1) as [-> H2]. rewrite bind_Ok.
    destruct (sub_bytes_inv_spec _ H2) as [-> H3]. done.
  - destruct (IH (S a)) as [IHe IHb]; [lia..|done|].
    destruct (round_key_lookup (S a)) as (k' & _ & _ & Hd'); [lia|].
    rewrite Hd', InvRounds_cons, <- Hd'.
    destruct (decrypt_round_spec a k _ IHb Hkb Hk) as [He Hb]. split; [|done].
    rewrite <- He. destruct (index rks N) as [kN| | |]; [|done..]. rewrite bind_Ok in *.
    destruct (add_round_key s kN) as [t| | |]; [|done..]. rewrite bind_Ok in *.
    destruct (shift_rows_inv t) as [t1| | |]; [|done..]. rewrite bind_Ok in *.
    destruct (sub_bytes_inv t1) as [t2| | |]; [|done..]. rewrite bind_Ok in *.
    rewrite for_each_app, IHe, bind_Ok. cbn [for_each].
    by destruct (decrypt_round _ _ _).
Qed.
End rounds.

(** Encryption and decryption under any array of well-formed round keys. *)
Lemma encrypt_spec (rks : list (list Z)) N s :
  length rks = S N → (1 ≤ N)%nat → Forall is_block rks → is_block s →
  (_ ← assert (length s =? AES_BLOCK_SIZE)%nat;
   k ← index rks 0; s ← add_round_key s k;
   s ← for_each (range 1 N) (encrypt_round rks) s;
   s ← sub_bytes s; s ← shift_rows s; k ← index rks N; add_round_key s k)
  = Ok (Cipher rks s).
Proof.
  intros Hlen HN Hrks Hs. assert (length s = 16%nat) as -> by apply Hs. cbn [assert AES_BLOCK_SIZE Nat.eqb]. rewrite bind_Ok.
  destruct (round_key_lookup rks N Hlen Hrks 0) as (k & Hk & Hkb & Hd); [lia|].
  rewrite (index_Ok _ _ _ Hk), bind_Ok.
  destruct (add_round_key_spec s k) as [-> H1]; [done..|]. rewrite bind_Ok.
  rewrite (encrypt_rounds rks N) by (done || lia).
  change (drop 0 rks) with rks in Hd. unfold Cipher. by rewrite Hd at 2.
Qed.

Lemma decrypt_spec (rks : list (list Z)) N s :
  length rks = S N → (1 ≤ N)%nat → Forall is_block rks → is_block s →
  (_ ← assert (length s =? AES_BLOCK_SIZE)%nat;
   k ← index rks N; s ← add_round_key s k; s ← shift_rows_inv s; s ← sub_bytes_inv s;
   s ← for_each (rev (range 1 N)) (decrypt_round rks) s;
   k ← index rks 0; add_round_key s k)
  = Ok (InvCipher rks s).
Proof.
  intros Hlen HN Hrks Hs. assert (length s = 16%nat) as -> by apply Hs. cbn [assert AES_BLOCK_SIZE Nat.eqb]. rewrite bind_Ok.
  destruct (decrypt_rounds rks N Hlen Hrks 1 s) as [He Hb]; [lia|done|].
  destruct (round_key_lookup rks N Hlen Hrks 0) as (k & Hk & Hkb & Hd); [lia|].
  rewrite (index_Ok _ _ _ Hk).
  trans (Ok (InvRounds (drop 1 rks) s) ≫= λ s, add_round_key s k).
  - rewrite <- He. clear. destruct (index rks N) as [kN| | |]; [|done..]. rewrite !bind_Ok.
    destruct (add_round_key s kN) as [t| | |]; [|done..]. rewrite !bind_Ok.
    destruct (shift_rows_inv t) as [t1| | |]; [|done..]. rewrite !bind_Ok.
    by destruct (sub_bytes_inv t1).
  - rewrite bind_Ok. change (drop 0 rks) with rks in Hd. unfold InvCipher. rewrite Hd at 2.
    by apply add_round_key_spec.
Qed.
