(* ===== verification/AesKeys.v ===== *)
(** * The key schedules of AES-128 and AES-256

    [set_key] of both ciphers fills the array of round keys with the key
    expansion of FIPS 197, whatever the array held before. *)

From S2P Require Import Prelude Bytes Aes AesSpec.

Lemma RC_lookup i : (i < 15)%nat → index RC i = Ok (gpow 2 i).
Proof. intros Hi. do 15 (destruct i as [|i]; [reflexivity|]). lia. Qed.

Lemma gpow_byte n : is_byte (gpow 2 n).
Proof. destruct n as [|n]; simpl; [apply byte_small; lia|apply gmul_byte, byte_small; lia]. Qed.

#[local] Opaque s_box gpow.

(** ** The bytes the code writes *)

Section writes.
Context (rks : list (list Z)) (round : nat) (Hround : (round < length rks)%nat).

Lemma set_key_byte_spec cur j v :
  (j < length cur)%nat →
  set_key_byte (<[round:=cur]> rks) round j v = Ok (<[round:=<[j:=v]> cur]> rks).
Proof.
  intros Hj. unfold set_key_byte. rewrite (index_Ok _ _ cur) by (by apply list_lookup_insert_eq).
  rewrite bind_Ok, update_Ok, bind_Ok, update_Ok by (rewrite ?length_insert; done).
  by rewrite list_insert_insert_eq.
Qed.

Lemma earlier_key_lookup back cur prev :
  (0 < back ≤ round)%nat → rks !! (round - back)%nat = Some prev →
  index (<[round:=cur]> rks) (round - back) = Ok prev.
Proof. intros Hb Hp. apply index_Ok. rewrite list_lookup_insert_ne; [done|lia]. Qed.

Lemma expand_byte_spec back prev cur col row p c :
  (0 < back ≤ round)%nat → rks !! (round - back)%nat = Some prev → length cur = 16%nat →
  (4 * col + row < 16)%nat →
  prev !! (4 * col + row)%nat = Some p → cur !! (4 * (col - 1) + row)%nat = Some c →
  expand_byte back round col row (<[round:=cur]> rks)
  = Ok (<[round:=<[(4 * col + row)%nat:=Z.lxor p c]> cur]> rks).
Proof.
  intros Hb Hprev Hcur Hj Hp Hc. unfold expand_byte.
  rewrite (earlier_key_lookup _ _ prev), bind_Ok, (index_Ok _ _ _ Hp), bind_Ok by done.
  rewrite (index_Ok _ round cur), bind_Ok, (index_Ok _ _ _ Hc), bind_Ok
    by (done || by apply list_lookup_insert_eq).
  apply set_key_byte_spec. lia.
Qed.

Lemma aes128_first_byte_spec prev cur row rc t p :
  (1 ≤ round)%nat → rks !! (round - 1)%nat = Some prev → length cur = 16%nat → (row < 4)%nat →
  (if (row =? 0)%nat then index RC (round - 1) else Ok 0) = Ok rc →
  prev !! (4 * 3 + (row + 1) mod 4)%nat = Some t → is_byte t → prev !! row = Some p →
  aes128_first_byte round row (<[round:=cur]> rks)
  = Ok (<[round:=<[row:=Z.lxor (Z.lxor rc (s_box t)) p]> cur]> rks).
Proof.
  intros Hr Hprev Hcur Hrow Hrc Ht Htb Hp. unfold aes128_first_byte.
  rewrite (earlier_key_lookup 1 _ prev), bind_Ok, Hrc, bind_Ok by (done || lia).
  rewrite (index_Ok _ _ _ Ht), bind_Ok, SBOX_lookup, bind_Ok, (index_Ok _ _ _ Hp), bind_Ok by done.
  apply set_key_byte_spec. lia.
Qed.

Lemma aes256_first_byte_spec (even : bool) prev w_1 cur row rc t p :
  (round mod 2 =? 0)%nat = even → (2 ≤ round)%nat → rks !! (round - 2)%nat = Some prev → rks !! (round - 1)%nat = Some w_1 →
  length cur = 16%nat → (row < 4)%nat →
  (if (row =? 0)%nat then index RC ((round - 1) / 2)%nat else Ok 0) = Ok rc →
  w_1 !! (if even then (4 * 3 + (row + 1) mod 4)%nat else (4 * 3 + row)%nat)
    = Some t → is_byte t → prev !! row = Some p →
  aes256_first_byte round row (<[round:=cur]> rks)
  = Ok (<[round:=<[row:=Z.lxor (if even then Z.lxor rc (s_box t) else s_box t) p]> cur]> rks).
Proof.
  intros He Hr Hprev Hw Hcur Hrow Hrc Ht Htb Hp. unfold aes256_first_byte.
  rewrite (earlier_key_lookup 2 _ prev), bind_Ok by (done || lia).
  rewrite (earlier_key_lookup 1 _ w_1), bind_Ok, Hrc, bind_Ok by (done || lia).
  rewrite He. destruct even;
    rewrite (index_Ok _ _ _ Ht), bind_Ok, SBOX_lookup, bind_Ok, (index_Ok _ _ _ Hp), bind_Ok by done;
    apply set_key_byte_spec; lia.
Qed.
End writes.

(** ** One round of the schedule *)

(** The round key that follows [prev] when the word mixed into its first word is
    [t]. *)
Definition next_key (t prev : list Z) : list Z :=
  let n0 := xor_bytes (take 4 prev) t in
  let n1 := xor_bytes (take 4 (drop 4 prev)) n0 in
  let n2 := xor_bytes (take 4 (drop 8 prev)) n1 in
  let n3 := xor_bytes (take 4 (drop 12 prev)) n2 in
  n0 ++ n1 ++ n2 ++ n3.

(** Splits a list of sixteen elements. *)
Ltac destruct_sixteen l H := do 16 (destruct l as [|? l]; [done|]); destruct l; [|done]; clear H.

Lemma expand_columns_spec rks round back prev cur :
  (round < length rks)%nat → (0 < back ≤ round)%nat → rks !! (round - back)%nat = Some prev →
  is_block prev → length cur = 16%nat →
  expand_columns back round (<[round:=cur]> rks)
  = Ok (<[round:=let n0 := take 4 cur in
                 let n1 := xor_bytes (take 4 (drop 4 prev)) n0 in
                 let n2 := xor_bytes (take 4 (drop 8 prev)) n1 in
                 let n3 := xor_bytes (take 4 (drop 12 prev)) n2 in
                 n0 ++ n1 ++ n2 ++ n3]> rks).
Proof.
  intros Hr Hb Hprev Hp Hcur. destruct_block prev Hp. destruct_sixteen cur Hcur.
  unfold expand_columns. change (range 1 4) with [1; 2; 3]%nat. change (range 0 4) with [0; 1; 2; 3]%nat.
  cbn [for_each app].
  do 3 (do 4 (erewrite expand_byte_spec by (eassumption || lia || reflexivity); rewrite bind_Ok);
        rewrite bind_Ok).
  reflexivity.
Qed.

Lemma aes128_round_spec rks round prev cur :
  (round < length rks)%nat → (1 ≤ round ≤ 10)%nat → rks !! (round - 1)%nat = Some prev →
  is_block prev → rks !! round = Some cur → length cur = 16%nat →
  (rks ← aes128_first_column round rks; expand_columns 1 round rks)
  = Ok (<[round:=next_key (xor_bytes (SubWord (RotWord (drop 12 prev))) (Rcon round)) prev]> rks).
Proof.
  intros Hr Hr10 Hprev Hp Hcur Hlen. rewrite <- (list_insert_id rks round cur) at 1 by done.
  assert (Hp' := Hp). destruct_block prev Hp'.
  destruct_sixteen cur Hlen. unfold aes128_first_column.
  change (range 0 4) with [0; 1; 2; 3]%nat. cbn [for_each].
  assert (index RC (round - 1) = Ok (gpow 2 (round - 1))) as Hrc by (apply RC_lookup; lia).
  do 4 (erewrite aes128_first_byte_spec by (eassumption || lia || reflexivity); rewrite bind_Ok).
  rewrite bind_Ok. cbn [insert list_insert].
  rewrite (expand_columns_spec _ _ 1 _ _ Hr (conj Nat.lt_0_1 (proj1 Hr10)) Hprev Hp) by reflexivity.
  f_equal. f_equal. lazy -[s_box gpow Z.lxor].
  repeat (apply (f_equal2 (@cons Z)); [ring|]). reflexivity.
Qed.

Lemma aes256_round_spec rks round prev w_1 cur :
  (round < length rks)%nat → (2 ≤ round ≤ 14)%nat → rks !! (round - 2)%nat = Some prev →
  rks !! (round - 1)%nat = Some w_1 → is_block prev → is_block w_1 →
  rks !! round = Some cur → length cur = 16%nat →
  (rks ← aes256_first_column round rks; expand_columns 2 round rks)
  = Ok (<[round:=next_key (if (round mod 2 =? 0)%nat
                           then xor_bytes (SubWord (RotWord (drop 12 w_1))) (Rcon (round / 2))
                           else SubWord (drop 12 w_1)) prev]> rks).
Proof.
  intros Hr Hr14 Hprev Hw Hp Hwb Hcur Hlen. rewrite <- (list_insert_id rks round cur) at 1 by done.
  assert (Hp' := Hp). destruct_block prev Hp'. destruct_block w_1 Hwb.
  destruct_sixteen cur Hlen. unfold aes256_first_column.
  change (range 0 4) with [0; 1; 2; 3]%nat. cbn [for_each].
  assert (index RC ((round - 1) / 2)%nat = Ok (gpow 2 ((round - 1) / 2))) as Hrc.
  { apply RC_lookup. apply Nat.Div0.div_lt_upper_bound. lia. }
  assert (round mod 2 = 0 → (round - 1) / 2 = round / 2 - 1)%nat as Hhalf.
  { intros Hm. apply Nat.Div0.mod_divides in Hm as [c ->]. replace (2 * c - 1)%nat with (1 + (c - 1) * 2)%nat by lia.
    rewrite Nat.div_add, Nat.mul_comm, Nat.div_mul by lia. simpl. lia. }
  assert (0 < 2 ≤ round)%nat as Hback by lia.
  destruct (round mod 2 =? 0)%nat eqn:He;
    do 4 (erewrite (aes256_first_byte_spec rks round Hr _)
      by first [eassumption | lia | reflexivity]; rewrite bind_Ok);
    rewrite bind_Ok; cbn [insert list_insert];
    rewrite (expand_columns_spec _ _ 2 _ _ Hr Hback Hprev Hp) by reflexivity.
  - f_equal. f_equal. rewrite Hhalf by (by apply Nat.eqb_eq). lazy -[s_box gpow Z.lxor Nat.div Nat.sub].
    repeat (apply (f_equal2 (@cons Z)); [ring|]). reflexivity.
  - f_equal. f_equal. lazy -[s_box gpow Z.lxor].
    repeat (apply (f_equal2 (@cons Z)); [ring|]). reflexivity.
Qed.

(** ** The key expansion of the standard *)

Definition is_word (w : list Z) : Prop := length w = 4%nat ∧ bytes w.

Lemma xor_word v w : is_word v → is_word w → is_word (xor_bytes v w).
Proof.
  intros [Hv Hvb] [Hw Hwb]. split; [rewrite length_zip_with; lia|by apply xor_bytes_bytes].
Qed.

Lemma SubWord_word w : is_word w → is_word (SubWord w).
Proof.
  intros [Hw Hb]. unfold SubWord. split; [by rewrite length_fmap|]. apply Forall_fmap.
  eapply list.Forall_impl; [exact Hb|apply s_box_byte].
Qed.

Lemma RotWord_word w : is_word w → is_word (RotWord w).
Proof.
  intros [Hw Hb]. unfold RotWord. split; [rewrite length_app, length_drop, length_take; lia|].
  apply Forall_app. split; [by apply Forall_drop|by apply Forall_take].
Qed.

Lemma Rcon_word i : is_word (Rcon i).
Proof.
  split; [done|]. unfold Rcon.
  repeat (apply Forall_cons_2; [first [apply gpow_byte | apply byte_small; lia]|]).
  by apply list.Forall_nil.
Qed.

Lemma expansion_temp_word Nk i t : is_word t → is_word (expansion_temp Nk i t).
Proof.
  intros Ht. unfold expansion_temp.
  destruct (_ =? 0)%nat; [apply xor_word; [by apply SubWord_word, RotWord_word|apply Rcon_word]|].
  destruct (_ && _)%nat; [by apply SubWord_word|done].
Qed.

Lemma length_words n l : length (words n l) = n.
Proof. revert l. induction n as [|n IH]; intros l; simpl; [done|]. by rewrite IH. Qed.

Lemma words_word n l : length l = (4 * n)%nat → bytes l → Forall is_word (words n l).
Proof.
  revert l. induction n as [|n IH]; intros l Hl Hb; simpl; constructor.
  - split; [rewrite length_take; lia|by apply Forall_take].
  - apply IH; [rewrite length_drop; lia|by apply Forall_drop].
Qed.

Section expansion.
Context (Nk : nat) (key : list Z) (HNk : (1 ≤ Nk)%nat).
Context (Hkey : length key = (4 * Nk)%nat) (Hbytes : bytes key).
Let E (n : nat) : list (list Z) := Nat.iter n (expand_word Nk) (words Nk key).

Lemma length_E n : length (E n) = (Nk + n)%nat.
Proof.
  induction n as [|n IH]; simpl; [rewrite length_words; lia|].
  unfold expand_word. rewrite length_app. fold (E n). rewrite IH. simpl. lia.
Qed.

Lemma E_S n : E (S n) = expand_word Nk (E n).
Proof. done. Qed.

Lemma E_word n : Forall is_word (E n).
Proof.
  induction n as [|n IH]; [by apply words_word|]. rewrite E_S. unfold expand_word.
  assert (∀ i, (i < Nk + n)%nat → is_word (E n !!! i)) as Hw.
  { intros i Hi. destruct (lookup_lt_is_Some_2 (E n) i) as [x Hx]; [rewrite length_E; lia|].
    rewrite (list_lookup_total_correct _ _ _ Hx). by apply (proj1 (list.Forall_lookup _ _) IH i). }
  apply Forall_app. split; [done|]. constructor; [|done]. rewrite length_E.
  apply xor_word; [|apply expansion_temp_word]; apply Hw; lia.
Qed.

Lemma E_last n i : (i < Nk + n)%nat → E (S n) !!! i = E n !!! i.
Proof.
  intros Hi. rewrite E_S. unfold expand_word.
  by rewrite lookup_total_app_l by (rewrite length_E; lia).
Qed.

(** Every word after the first [Nk] satisfies the recurrence of the standard. *)
Lemma E_rec n i : (Nk ≤ i < Nk + n)%nat →
  E n !!! i = xor_bytes (E n !!! (i - Nk)%nat) (expansion_temp Nk i (E n !!! (i - 1)%nat)).
Proof.
  induction n as [|n IH]; intros Hi; [lia|]. rewrite !(E_last n (i - _)) by lia.
  destruct (decide (i = Nk + n)%nat) as [->|Hne].
  - rewrite E_S. unfold expand_word. rewrite length_E.
    rewrite lookup_total_app_r by (rewrite length_E; lia). rewrite length_E, Nat.sub_diag. done.
  - rewrite E_last by lia. apply IH. lia.
Qed.
End expansion.

Lemma next_key_words t a b c d :
  length a = 4%nat → length b = 4%nat → length c = 4%nat → length d = 4%nat →
  next_key t (a ++ b ++ c ++ d)
  = xor_bytes a t ++ xor_bytes b (xor_bytes a t) ++ xor_bytes c (xor_bytes b (xor_bytes a t))
    ++ xor_bytes d (xor_bytes c (xor_bytes b (xor_bytes a t))).
Proof.
  intros Ha Hb Hc Hd. do 4 (destruct a as [|? a]; [done|]). destruct a; [|done].
  do 4 (destruct b as [|? b]; [done|]). destruct b; [|done].
  do 4 (destruct c as [|? c]; [done|]). destruct c; [|done].
  do 4 (destruct d as [|? d]; [done|]). by destruct d.
Qed.

(** ** Round keys of the standard follow from the earlier ones *)

Section round_keys.
Context (w : list (list Z)) (Hw : Forall is_word w).

Lemma word_at i : (i < length w)%nat → is_word (w !!! i).
Proof.
  intros Hi. destruct (lookup_lt_is_Some_2 w i) as [x Hx]; [done|].
  rewrite (list_lookup_total_correct _ _ _ Hx). by apply (proj1 (list.Forall_lookup _ _) Hw i).
Qed.

Lemma round_key_words r :
  (4 * r + 4 ≤ length w)%nat →
  round_key w r = w !!! (4 * r)%nat ++ w !!! (4 * r + 1)%nat ++ w !!! (4 * r + 2)%nat
                  ++ w !!! (4 * r + 3)%nat.
Proof.
  intros Hr. unfold round_key.
  assert (∀ i, (i < length w)%nat → drop i w = w !!! i :: drop (S i) w) as Hd.
  { intros i Hi. apply drop_S. by apply list_lookup_lookup_total_lt. }
  do 4 rewrite Hd by lia. simpl. rewrite ?app_nil_r.
  repeat f_equal; lia.
Qed.

Lemma round_key_block r : (4 * r + 4 ≤ length w)%nat → is_block (round_key w r).
Proof.
  intros Hr. rewrite round_key_words by done.
  destruct (word_at (4 * r)) as [L0 B0]; [lia|]. destruct (word_at (4 * r + 1)) as [L1 B1]; [lia|].
  destruct (word_at (4 * r + 2)) as [L2 B2]; [lia|]. destruct (word_at (4 * r + 3)) as [L3 B3]; [lia|].
  split; [rewrite !length_app; lia|]. by rewrite !Forall_app.
Qed.

(** A round key each of whose words is the exclusive or of the word [back]
    rounds earlier with the word before, the first one mixed with [t]. *)
Lemma round_key_next back t r :
  (0 < back ≤ r)%nat → (4 * r + 4 ≤ length w)%nat →
  w !!! (4 * r)%nat = xor_bytes (w !!! (4 * (r - back))%nat) t →
  (∀ j, (1 ≤ j < 4)%nat →
    w !!! (4 * r + j)%nat = xor_bytes (w !!! (4 * (r - back) + j)%nat) (w !!! (4 * r + j - 1)%nat)) →
  round_key w r = next_key t (round_key w (r - back)).
Proof.
  intros Hb Hr H0 Hj. rewrite !round_key_words by lia.
  pose proof (Hj 3%nat ltac:(lia)) as H3. pose proof (Hj 2%nat ltac:(lia)) as H2.
  pose proof (Hj 1%nat ltac:(lia)) as H1.
  replace (4 * r + 3 - 1)%nat with (4 * r + 2)%nat in H3 by lia.
  replace (4 * r + 2 - 1)%nat with (4 * r + 1)%nat in H2 by lia.
  replace (4 * r + 1 - 1)%nat with (4 * r)%nat in H1 by lia.
  rewrite H3, H2, H1, H0. clear H3 H2 H1 H0 Hj.
  destruct (word_at (4 * (r - back))) as [L0 _]; [lia|].
  destruct (word_at (4 * (r - back) + 1)) as [L1 _]; [lia|].
  destruct (word_at (4 * (r - back) + 2)) as [L2 _]; [lia|].
  destruct (word_at (4 * (r - back) + 3)) as [L3 _]; [lia|].
  by rewrite next_key_words.
Qed.

Lemma drop_12_round_key r :
  (4 * r + 4 ≤ length w)%nat → drop 12 (round_key w r) = w !!! (4 * r + 3)%nat.
Proof.
  intros Hr. rewrite round_key_words by done.
  destruct (word_at (4 * r)) as [L0 _]; [lia|]. destruct (word_at (4 * r + 1)) as [L1 _]; [lia|].
  destruct (word_at (4 * r + 2)) as [L2 _]; [lia|].
  rewrite !(assoc_L (++)), drop_app_length'; [done|rewrite !length_app; lia].
Qed.

(** A loop that writes each round key into the array. *)
Lemma schedule_loop (step : nat → list (list Z) → res (list (list Z))) N a rks :
  (∀ r rks, (a ≤ r ≤ N)%nat → length rks = S N → Forall (λ k, length k = 16%nat) rks →
    (∀ i, (i < r)%nat → rks !! i = Some (round_key w i)) →
    step r rks = Ok (<[r:=round_key w r]> rks)) →
  (4 * N + 4 ≤ length w)%nat → (a ≤ S N)%nat →
  length rks = S N → Forall (λ k, length k = 16%nat) rks →
  (∀ i, (i < a)%nat → rks !! i = Some (round_key w i)) →
  for_each (range a (S N)) step rks = Ok (round_key w <$> seq 0 (S N)).
Proof.
  intros Hstep HN. unfold range. remember (S N - a)%nat as n eqn:Hn. revert a rks Hn Hstep.
  induction n as [|n IH]; intros a rks Hn Hstep Ha Hlen H16 Hpre; cbn [seq for_each].
  - change (0%nat :: seq 1 N) with (seq 0 (S N)). f_equal.
    apply list_eq. intros i. rewrite list_lookup_fmap.
    destruct (decide (i < S N)%nat) as [Hi|Hi].
    + rewrite Hpre, lookup_seq_lt by lia. done.
    + rewrite lookup_ge_None_2, lookup_seq_ge by lia. done.
  - change (0%nat :: seq 1 N) with (seq 0 (S N)).
    rewrite Hstep by (done || lia). rewrite bind_Ok. apply IH; [lia| |lia|by rewrite length_insert| |].
    + intros r rks' Hr. apply Hstep. lia.
    + apply Forall_insert; [done|]. apply round_key_block. lia.
    + intros i Hi. destruct (decide (i = a)) as [->|Hne].
      * apply list_lookup_insert_eq. lia.
      * rewrite list_lookup_insert_ne by done. apply Hpre. lia.
Qed.
End round_keys.

Lemma KeyExpansion_spec Nk Nr key :
  (1 ≤ Nk ≤ 4 * (Nr + 1))%nat → length key = (4 * Nk)%nat → bytes key →
  let w := KeyExpansion Nk Nr key in
  length w = (4 * (Nr + 1))%nat ∧ Forall is_word w ∧
  (∀ i, (i < Nk)%nat → w !!! i = words Nk key !!! i) ∧
  (∀ i, (Nk ≤ i < 4 * (Nr + 1))%nat →
    w !!! i = xor_bytes (w !!! (i - Nk)%nat) (expansion_temp Nk i (w !!! (i - 1)%nat))).
Proof.
  intros HNk Hkey Hb w. unfold w, KeyExpansion. split_and!.
  - rewrite length_E; lia.
  - apply E_word; lia || done.
  - intros i Hi. induction (4 * (Nr + 1) - Nk)%nat as [|n IH]; [done|].
    rewrite E_last by lia. exact IH.
  - intros i Hi. apply E_rec; lia.
Qed.

(** ** [set_key] computes the key expansion *)

Lemma aes128_round_key w r :
  Forall is_word w → length w = 44%nat → (1 ≤ r ≤ 10)%nat →
  (∀ i, (4 ≤ i < 44)%nat →
    w !!! i = xor_bytes (w !!! (i - 4)%nat) (expansion_temp 4 i (w !!! (i - 1)%nat))) →
  round_key w r
  = next_key (xor_bytes (SubWord (RotWord (drop 12 (round_key w (r - 1))))) (Rcon r))
      (round_key w (r - 1)).
Proof.
  intros Hw Hlen Hr Hrec. rewrite drop_12_round_key by (done || lia).
  apply round_key_next; [done|lia..| |].
  - rewrite Hrec by lia. f_equal; [f_equal; lia|]. unfold expansion_temp.
    rewrite Nat.mul_comm, Nat.Div0.mod_mul, Nat.div_mul by lia. simpl.
    do 4 f_equal. lia.
  - intros j Hj. rewrite Hrec by lia. f_equal; [f_equal; lia|]. unfold expansion_temp.
    rewrite (Nat.mul_comm 4), Nat.add_comm, Nat.Div0.mod_add, Nat.mod_small by lia.
    by destruct j as [|j]; [lia|].
Qed.

Lemma aes128_set_key_spec key self :
  length key = 16%nat → bytes key →
  length (aes128_round_keys self) = 11%nat →
  Forall (λ k, length k = 16%nat) (aes128_round_keys self) →
  aes128_set_key key self = Ok {| aes128_round_keys := fips197_round_keys 4 10 key |}.
Proof.
  intros Hkey Hb Hlen H16. unfold aes128_set_key. rewrite Hkey. cbn [assert AES128_KEY_SIZE Nat.eqb].
  rewrite bind_Ok, update_Ok, bind_Ok by lia. unfold fips197_round_keys.
  destruct (KeyExpansion_spec 4 10 key) as (Hw & Hwords & Hfirst & Hrec); [lia|done..|].
  revert Hw Hwords Hfirst Hrec. generalize (KeyExpansion 4 10 key). intros w Hw Hwords Hfirst Hrec.
  rewrite (schedule_loop w Hwords _ AES128_ROUND 1); [done| |unfold AES128_ROUND; lia..| | |].
  - unfold AES128_ROUND. intros r rks Hr Hl HF Hpre.
    destruct (lookup_lt_is_Some_2 rks r) as [cur Hcur]; [lia|].
    rewrite (aes128_round_spec rks r (round_key w (r - 1)) cur); [|lia..| | |done|].
    + by rewrite <- aes128_round_key by (done || lia).
    + apply Hpre. lia.
    + apply round_key_block; [done|lia].
    + by apply (proj1 (list.Forall_lookup _ _) HF r).
  - by rewrite length_insert.
  - by apply Forall_insert.
  - intros i Hi. assert (i = 0%nat) as -> by lia. rewrite list_lookup_insert_eq by lia. f_equal.
    rewrite round_key_words by lia. rewrite !Hfirst by lia. by destruct_sixteen key Hkey.
Qed.

Lemma aes256_round_key w r :
  Forall is_word w → length w = 60%nat → (2 ≤ r ≤ 14)%nat →
  (∀ i, (8 ≤ i < 60)%nat →
    w !!! i = xor_bytes (w !!! (i - 8)%nat) (expansion_temp 8 i (w !!! (i - 1)%nat))) →
  round_key w r
  = next_key (if (r mod 2 =? 0)%nat
              then xor_bytes (SubWord (RotWord (drop 12 (round_key w (r - 1))))) (Rcon (r / 2))
              else SubWord (drop 12 (round_key w (r - 1))))
      (round_key w (r - 2)).
Proof.
  intros Hw Hlen Hr Hrec. rewrite drop_12_round_key by (done || lia).
  assert (∃ q b, r = 2 * q + b ∧ b < 2)%nat as (q & b & -> & Hb).
  { exists (r / 2)%nat, (r mod 2)%nat. split; [apply Nat.Div0.div_mod|by apply Nat.mod_upper_bound]. }
  assert ((2 * q + b) mod 2 = b)%nat as ->.
  { rewrite Nat.add_comm, Nat.mul_comm, Nat.Div0.mod_add. by apply Nat.mod_small. }
  assert ((2 * q + b) / 2 = q)%nat as ->.
  { rewrite Nat.add_comm, Nat.mul_comm, Nat.div_add by lia. rewrite Nat.div_small by done. lia. }
  assert (∀ j, j < 4 → (4 * (2 * q + b) + j) mod 8 = 4 * b + j)%nat as Hmod.
  { intros j Hj. replace (4 * (2 * q + b) + j)%nat with (4 * b + j + q * 8)%nat by lia.
    rewrite Nat.Div0.mod_add. apply Nat.mod_small. lia. }
  apply round_key_next; [done|lia..| |].
  - rewrite Hrec by lia. f_equal; [f_equal; lia|]. unfold expansion_temp.
    pose proof (Hmod 0%nat ltac:(lia)) as Hm. rewrite !Nat.add_0_r in Hm. rewrite Hm.
    assert (∀ b', (4 * (2 * q + b') - 1 = 4 * (2 * q + b' - 1) + 3 ∨ 2 * q + b' = 0)%nat) as Hlast by lia.
    destruct b as [|[|b]]; [| |lia]; simpl Nat.eqb; simpl Nat.ltb; cbn [andb].
    + replace (4 * (2 * q + 0) / 8)%nat with q; [|apply (Nat.div_unique _ 8 q 0); lia].
      do 4 f_equal. lia.
    + do 2 f_equal. lia.
  - intros j Hj. rewrite Hrec by lia. f_equal; [f_equal; lia|]. unfold expansion_temp.
    rewrite Hmod by lia.
    destruct b as [|[|b]], j as [|[|[|[|j]]]]; try lia; reflexivity.
Qed.

Lemma aes256_set_key_spec key self :
  length key = 32%nat → bytes key →
  length (aes256_round_keys self) = 15%nat →
  Forall (λ k, length k = 16%nat) (aes256_round_keys self) →
  aes256_set_key key self = Ok {| aes256_round_keys := fips197_round_keys 8 14 key |}.
Proof.
  intros Hkey Hb Hlen H16. unfold aes256_set_key. rewrite Hkey. cbn [assert AES256_KEY_SIZE Nat.eqb].
  rewrite bind_Ok, update_Ok, bind_Ok, update_Ok, bind_Ok by (rewrite ?length_insert; lia).
  unfold fips197_round_keys, AES_BLOCK_SIZE.
  destruct (KeyExpansion_spec 8 14 key) as (Hw & Hwords & Hfirst & Hrec); [lia|done..|].
  revert Hw Hwords Hfirst Hrec. generalize (KeyExpansion 8 14 key). intros w Hw Hwords Hfirst Hrec.
  rewrite (schedule_loop w Hwords _ AES256_ROUND 2); [done| |unfold AES256_ROUND; lia..| | |].
  - unfold AES256_ROUND. intros r rks Hr Hl HF Hpre.
    destruct (lookup_lt_is_Some_2 rks r) as [cur Hcur]; [lia|].
    rewrite (aes256_round_spec rks r (round_key w (r - 2)) (round_key w (r - 1)) cur);
      [|lia..| | | | |done|].
    + by rewrite <- aes256_round_key by (done || lia).
    + apply Hpre. lia.
    + apply Hpre. lia.
    + apply round_key_block; [done|lia].
    + apply round_key_block; [done|lia].
    + by apply (proj1 (list.Forall_lookup _ _) HF r).
  - by rewrite !length_insert.
  - apply Forall_insert; [apply Forall_insert; [done|]|]; [rewrite length_take|rewrite length_drop]; lia.
  - intros i Hi. destruct i as [|[|i]]; [| |lia].
    + rewrite list_lookup_insert_ne, list_lookup_insert_eq by lia. f_equal.
      rewrite round_key_words by lia. rewrite !Hfirst by lia.
      do 32 (destruct key as [|? key]; [done|]). reflexivity.
    + rewrite list_lookup_insert_eq by (rewrite length_insert; lia). f_equal.
      rewrite round_key_words by lia. rewrite !Hfirst by lia.
      do 32 (destruct key as [|? key]; [done|]). by destruct key.
Qed.

(** The round keys are blocks. *)
Lemma fips197_round_keys_blocks Nk Nr key :
  (1 ≤ Nk ≤ 4 * (Nr + 1))%nat → length key = (4 * Nk)%nat → bytes key →
  length (fips197_round_keys Nk Nr key) = S Nr ∧ Forall is_block (fips197_round_keys Nk Nr key).
Proof.
  intros HNk Hkey Hb. destruct (KeyExpansion_spec Nk Nr key) as (Hw & Hwords & _ & _); [done..|].
  unfold fips197_round_keys. split; [rewrite length_fmap, length_seq; lia|].
  apply Forall_fmap, list.Forall_forall. intros r Hr%elem_of_seq. apply round_key_block; [done|lia].
Qed.
