(* ===== verification/AesTheorems.v ===== *)
(** * Correctness of the AES code

    The two claims on the block cipher and their witnesses, on the vectors of
    NIST SP 800-38A that the source's own tests use. *)

From S2P Require Import Prelude Bytes Aes AesSpec AesKeys.

(** A cipher object of either size has its array of 16-byte round keys. *)
Definition aes128_shape (self : Aes128) : Prop :=
  length (aes128_round_keys self) = 11%nat ∧
  Forall (λ k, length k = 16%nat) (aes128_round_keys self).
Definition aes256_shape (self : Aes256) : Prop :=
  length (aes256_round_keys self) = 15%nat ∧
  Forall (λ k, length k = 16%nat) (aes256_round_keys self).

Lemma aes128_block_encrypt_spec key block :
  length key = 16%nat → bytes key → is_block block →
  aes128_block_encrypt block {| aes128_round_keys := fips197_round_keys 4 10 key |}
  = Ok (AES128_spec key block).
Proof.
  intros Hk Hb Hblk. destruct (fips197_round_keys_blocks 4 10 key) as [HL HB]; [lia|done..|].
  by apply (encrypt_spec _ 10); [|lia|..].
Qed.

Lemma aes256_block_encrypt_spec key block :
  length key = 32%nat → bytes key → is_block block →
  aes256_block_encrypt block {| aes256_round_keys := fips197_round_keys 8 14 key |}
  = Ok (AES256_spec key block).
Proof.
  intros Hk Hb Hblk. destruct (fips197_round_keys_blocks 8 14 key) as [HL HB]; [lia|done..|].
  by apply (encrypt_spec _ 14); [|lia|..].
Qed.

(** C14: for every key and every block, setting the key and encrypting the block
    returns, without a panic, the ciphertext that FIPS 197 defines: AES-128 and
    AES-256 with their table lookups and in-place loops implement the cipher of
    the standard over GF(2^8). *)
Theorem aes_encrypt_fips197 (self128 : Aes128) (self256 : Aes256) (key128 key256 block : list Z) :
  aes128_shape self128 → aes256_shape self256 →
  length key128 = 16%nat → bytes key128 → length key256 = 32%nat → bytes key256 →
  is_block block →
  (self ← aes128_set_key key128 self128; aes128_block_encrypt block self)
    = Ok (AES128_spec key128 block) ∧
  (self ← aes256_set_key key256 self256; aes256_block_encrypt block self)
    = Ok (AES256_spec key256 block).
Proof.
  intros [H1 H2] [H3 H4] Hk Hkb Hk' Hkb' Hb.
  rewrite aes128_set_key_spec, aes256_set_key_spec, !bind_Ok by done.
  by rewrite aes128_block_encrypt_spec, aes256_block_encrypt_spec.
Qed.

Definition key128_example : list Z :=
  [0x2b; 0x7e; 0x15; 0x16; 0x28; 0xae; 0xd2; 0xa6; 0xab; 0xf7; 0x15; 0x88; 0x09; 0xcf; 0x4f; 0x3c].
Definition key256_example : list Z :=
  [0x60; 0x3d; 0xeb; 0x10; 0x15; 0xca; 0x71; 0xbe; 0x2b; 0x73; 0xae; 0xf0; 0x85; 0x7d; 0x77; 0x81;
   0x1f; 0x35; 0x2c; 0x07; 0x3b; 0x61; 0x08; 0xd7; 0x2d; 0x98; 0x10; 0xa3; 0x09; 0x14; 0xdf; 0xf4].
Definition block_example : list Z :=
  [0x6b; 0xc1; 0xbe; 0xe2; 0x2e; 0x40; 0x9f; 0x96; 0xe9; 0x3d; 0x7e; 0x11; 0x73; 0x93; 0x17; 0x2a].

Lemma shapes_default : aes128_shape Aes128_default ∧ aes256_shape Aes256_default.
Proof. repeat split; repeat (constructor; try done). Qed.


Lemma aes_encrypt_fips197_witness :
  (self ← aes128_set_key key128_example Aes128_default; aes128_block_encrypt block_example self)
    = Ok [0x3a; 0xd7; 0x7b; 0xb4; 0x0d; 0x7a; 0x36; 0x60; 0xa8; 0x9e; 0xca; 0xf3; 0x24; 0x66; 0xef; 0x97] ∧
  AES128_spec key128_example block_example
    = [0x3a; 0xd7; 0x7b; 0xb4; 0x0d; 0x7a; 0x36; 0x60; 0xa8; 0x9e; 0xca; 0xf3; 0x24; 0x66; 0xef; 0x97].
Proof.
  pose proof (aes_encrypt_fips197 Aes128_default Aes256_default key128_example key256_example block_example
    (proj1 shapes_default) (proj2 shapes_default) eq_refl (bytes_dec_true key128_example eq_refl) eq_refl
    (bytes_dec_true key256_example eq_refl) (conj eq_refl (bytes_dec_true block_example eq_refl))) as [-> _].
  split; vm_compute; reflexivity.
Defined.

(** C15: decryption undoes encryption under the same key, for every key and block,
    for AES-128 and AES-256; neither direction panics. *)
Theorem aes_decrypt_encrypt (self128 : Aes128) (self256 : Aes256) (key128 key256 block : list Z) :
  aes128_shape self128 → aes256_shape self256 →
  length key128 = 16%nat → bytes key128 → length key256 = 32%nat → bytes key256 →
  is_block block →
  (self ← aes128_set_key key128 self128;
   c ← aes128_block_encrypt block self; aes128_block_decrypt c self) = Ok block ∧
  (self ← aes256_set_key key256 self256;
   c ← aes256_block_encrypt block self; aes256_block_decrypt c self) = Ok block.
Proof.
  intros [H1 H2] [H3 H4] Hk Hkb Hk' Hkb' Hb.
  rewrite aes128_set_key_spec, aes256_set_key_spec, !bind_Ok by done.
  rewrite aes128_block_encrypt_spec, aes256_block_encrypt_spec, !bind_Ok by done.
  destruct (fips197_round_keys_blocks 4 10 key128) as [HL HB]; [lia|done..|].
  destruct (fips197_round_keys_blocks 8 14 key256) as [HL' HB']; [lia|done..|].
  unfold AES128_spec, AES256_spec. split.
  - rewrite <- (InvCipher_Cipher (fips197_round_keys 4 10 key128) block) at 2 by done.
    by apply (decrypt_spec _ 10); [|lia|..|apply Cipher_block].
  - rewrite <- (InvCipher_Cipher (fips197_round_keys 8 14 key256) block) at 2 by done.
    by apply (decrypt_spec _ 14); [|lia|..|apply Cipher_block].
Qed.

Lemma aes_decrypt_encrypt_witness :
  (self ← aes256_set_key key256_example Aes256_default;
   c ← aes256_block_encrypt block_example self; aes256_block_decrypt c self) = Ok block_example ∧
  (self ← aes256_set_key key256_example Aes256_default; aes256_block_encrypt block_example self)
    = Ok [0xf3; 0xee; 0xd1; 0xbd; 0xb5; 0xd2; 0xa0; 0x3c; 0x06; 0x4b; 0x5a; 0x7e; 0x3d; 0xb1; 0x81; 0xf8].
Proof.
  split; [|vm_compute; reflexivity].
  apply (aes_decrypt_encrypt Aes128_default Aes256_default key128_example key256_example block_example
    (proj1 shapes_default) (proj2 shapes_default) eq_refl (bytes_dec_true key128_example eq_refl) eq_refl
    (bytes_dec_true key256_example eq_refl) (conj eq_refl (bytes_dec_true block_example eq_refl))).
Defined.
