(* ===== verification/CryptoTheorems.v ===== *)
(** * Correctness of the generic cryptographic code

    CBC over any block cipher that satisfies [BlockCipherLaws], and the instances
    of the interface for AES.  HMAC is in [HmacTheorems.v]. *)

From S2P Require Import Prelude Bytes CryptoFramework Aes AesSpec AesKeys.

(** ** The AES instances *)

#[global] Instance Aes128_BlockCipher : BlockCipher Aes128 := {|
  bc_BLOCK_SIZE := AES_BLOCK_SIZE;
  bc_KEY_SIZE := AES128_KEY_SIZE;
  bc_set_key := λ key self, self ← aes128_set_key key self; Ok (tt, self);
  bc_block_encrypt := λ block self, block ← aes128_block_encrypt block self; Ok (block, self);
  bc_block_decrypt := λ block self, block ← aes128_block_decrypt block self; Ok (block, self);
|}.

#[global] Instance Aes256_BlockCipher : BlockCipher Aes256 := {|
  bc_BLOCK_SIZE := AES_BLOCK_SIZE;
  bc_KEY_SIZE := AES256_KEY_SIZE;
  bc_set_key := λ key self, self ← aes256_set_key key self; Ok (tt, self);
  bc_block_encrypt := λ block self, block ← aes256_block_encrypt block self; Ok (block, self);
  bc_block_decrypt := λ block self, block ← aes256_block_decrypt block self; Ok (block, self);
|}.

#[global] Program Instance Aes128_laws : BlockCipherLaws Aes128 := {|
  bc_ready := λ a, length (aes128_round_keys a) = 11%nat ∧ Forall is_block (aes128_round_keys a);
  bc_enc := λ a, Cipher (aes128_round_keys a);
|}.
Next Obligation.
  intros a x [HL HB] Hx. cbn [bc_block_encrypt Aes128_BlockCipher]. unfold aes128_block_encrypt.
  rewrite (encrypt_spec _ 10) by (done || lia). split; [done|]. by apply Cipher_block.
Qed.
Next Obligation.
  intros a x [HL HB] Hx. cbn [bc_block_decrypt Aes128_BlockCipher]. unfold aes128_block_decrypt.
  rewrite (decrypt_spec _ 10) by (done || lia || by apply Cipher_block).
  by rewrite bind_Ok, InvCipher_Cipher.
Qed.

#[global] Program Instance Aes256_laws : BlockCipherLaws Aes256 := {|
  bc_ready := λ a, length (aes256_round_keys a) = 15%nat ∧ Forall is_block (aes256_round_keys a);
  bc_enc := λ a, Cipher (aes256_round_keys a);
|}.
Next Obligation.
  intros a x [HL HB] Hx. cbn [bc_block_encrypt Aes256_BlockCipher]. unfold aes256_block_encrypt.
  rewrite (encrypt_spec _ 14) by (done || lia). split; [done|]. by apply Cipher_block.
Qed.
Next Obligation.
  intros a x [HL HB] Hx. cbn [bc_block_decrypt Aes256_BlockCipher]. unfold aes256_block_decrypt.
  rewrite (decrypt_spec _ 14) by (done || lia || by apply Cipher_block).
  by rewrite bind_Ok, InvCipher_Cipher.
Qed.

(** ** Cipher block chaining *)

(** A method called on each block of a message in turn. *)
Fixpoint each_block {C : Type} (f : list Z → ST C (list Z)) (l : list (list Z)) : ST C (list (list Z)) :=
  match l with
  | [] => mret []
  | x :: l => y ← f x; ys ← each_block f l; mret (y :: ys)
  end.

(** The chaining mode: each block is combined with the previous ciphertext. *)
Fixpoint cbc_spec (enc : list Z → list Z) (prev : list Z) (l : list (list Z)) : list (list Z) :=
  match l with
  | [] => []
  | x :: l => let c := enc (xor_bytes x prev) in c :: cbc_spec enc c l
  end.

Section cbc_laws.
Context {B : Type} `{!BlockCipher B, !BlockCipherLaws B}.
Abbreviation Cbc := (CbcCipher B (bc_BLOCK_SIZE (B := B))).

Lemma xor_prev_spec prev x :
  (length x ≤ length prev)%nat → xor_prev prev x = Ok (xor_bytes x prev).
Proof.
  intros Hl. rewrite <- (imap_zip_with _ _ _ 0) by done.
  apply (for_each_in_place _ (λ i a, Z.lxor a (default 0 (prev !! i)))); [done|].
  intros i b l Hb Hi. rewrite (index_Ok l i b Hi). simpl.
  apply lookup_lt_Some in Hb as Hib. destruct (lookup_lt_is_Some_2 prev i) as [y Hy]; [lia|].
  rewrite (index_Ok prev i y Hy), Hy. simpl. apply update_Ok. by apply lookup_lt_Some in Hi.
Qed.

Lemma xor_bc_block x y : bc_block B x → bc_block B y → bc_block B (xor_bytes x y).
Proof.
  intros [Hx Hxb] [Hy Hyb]. split; [rewrite length_zip_with; lia|by apply xor_bytes_bytes].
Qed.

Lemma to_array_spec x : bc_block B x → to_array (bc_BLOCK_SIZE (B := B)) x = Ok x.
Proof. intros [Hx _]. unfold to_array. by rewrite Hx, Nat.eqb_refl. Qed.

Lemma cbc_block_encrypt_spec (c : Cbc) x :
  bc_ready (cbc_block_cipher c) → bc_block B (cbc_prev_block c) → bc_block B x →
  let y := bc_enc (cbc_block_cipher c) (xor_bytes x (cbc_prev_block c)) in
  cbc_block_encrypt x c
    = Ok (y, {| cbc_block_cipher := cbc_block_cipher c; cbc_prev_block := y |}) ∧ bc_block B y.
Proof.
  intros Hr Hp Hx y.
  destruct (bc_encrypt_law (cbc_block_cipher c) (xor_bytes x (cbc_prev_block c)) Hr) as [He Hy];
    [by apply xor_bc_block|].
  split; [|done]. unfold cbc_block_encrypt. destruct Hp as [Hp _], Hx as [Hx _].
  rewrite xor_prev_spec, bind_Ok, He, bind_Ok by lia. by rewrite to_array_spec.
Qed.

Lemma cbc_block_decrypt_spec (c : Cbc) x :
  bc_ready (cbc_block_cipher c) → bc_block B (cbc_prev_block c) → bc_block B x →
  let y := bc_enc (cbc_block_cipher c) (xor_bytes x (cbc_prev_block c)) in
  cbc_block_decrypt y c
    = Ok (x, {| cbc_block_cipher := cbc_block_cipher c; cbc_prev_block := y |}).
Proof.
  intros Hr Hp Hx y.
  assert (bc_block B (xor_bytes x (cbc_prev_block c))) as Hxp by by apply xor_bc_block.
  destruct (bc_encrypt_law _ _ Hr Hxp) as [_ Hy]. unfold cbc_block_decrypt.
  rewrite to_array_spec, bind_Ok by done. unfold y. rewrite bc_decrypt_law, bind_Ok by done.
  destruct Hp as [Hp _], Hx as [Hx _].
  rewrite xor_prev_spec by (rewrite length_zip_with; lia).
  by rewrite xor_bytes_cancel by lia.
Qed.

Lemma each_block_cons {C} (f : list Z → ST C (list Z)) x l c y c' ys c'' :
  f x c = Ok (y, c') → each_block f l c' = Ok (ys, c'') →
  each_block f (x :: l) c = Ok (y :: ys, c'').
Proof.
  intros Hf Hl. cbn [each_block]. unfold mbind, st_bind. rewrite Hf. cbn [mbind res_bind].
  by rewrite Hl.
Qed.
End cbc_laws.

(** C18: CBC mode over any block cipher that keeps its promises: encrypting a
    message block by block gives the ciphertext of the chaining mode, and
    decrypting that ciphertext from the same key and initialisation vector gives
    the message back. *)
Theorem cbc_decrypt_encrypt {B} `{!BlockCipher B, !BlockCipherLaws B}
    (c : CbcCipher B (bc_BLOCK_SIZE (B := B))) (msg : list (list Z)) :
  bc_ready (cbc_block_cipher c) → bc_block B (cbc_prev_block c) → Forall (bc_block B) msg →
  ∃ c',
    each_block cbc_block_encrypt msg c
      = Ok (cbc_spec (bc_enc (cbc_block_cipher c)) (cbc_prev_block c) msg, c') ∧
    each_block cbc_block_decrypt
      (cbc_spec (bc_enc (cbc_block_cipher c)) (cbc_prev_block c) msg) c = Ok (msg, c').
Proof.
  intros Hr Hp Hmsg. revert c Hr Hp. induction Hmsg as [|x msg Hx Hmsg IH]; intros c Hr Hp.
  { by exists c. }
  destruct (cbc_block_encrypt_spec c x Hr Hp Hx) as [He Hy].
  pose proof (cbc_block_decrypt_spec c x Hr Hp Hx) as Hd.
  set (y := bc_enc _ _) in *.
  destruct (IH {| cbc_block_cipher := cbc_block_cipher c; cbc_prev_block := y |} Hr Hy) as (c' & He' & Hd'). exists c'.
  split; by eapply each_block_cons.
Qed.

(** The message of two blocks of NIST SP 800-38A, F.2.1. *)
Lemma cbc_decrypt_encrypt_witness :
  ∃ (c c' : CbcCipher Aes128 16) (msg cs : list (list Z)),
    length msg = 2%nat ∧
    each_block cbc_block_encrypt msg c = Ok (cs, c') ∧
    each_block cbc_block_decrypt cs c = Ok (msg, c').
Proof.
  set (key := [0x2b; 0x7e; 0x15; 0x16; 0x28; 0xae; 0xd2; 0xa6; 0xab; 0xf7; 0x15; 0x88; 0x09; 0xcf; 0x4f; 0x3c]).
  set (x := [0x6b; 0xc1; 0xbe; 0xe2; 0x2e; 0x40; 0x9f; 0x96; 0xe9; 0x3d; 0x7e; 0x11; 0x73; 0x93; 0x17; 0x2a]).
  set (a := {| aes128_round_keys := fips197_round_keys 4 10 key |}).
  assert (is_block x) as Hx by (split; [done|by apply bytes_dec_true]).
  assert (is_block key) as [Hk Hkb] by (split; [done|by apply bytes_dec_true]).
  destruct (cbc_decrypt_encrypt {| cbc_block_cipher := a; cbc_prev_block := key |} [x; x])
    as (c' & He & Hd).
  - destruct (fips197_round_keys_blocks 4 10 key) as [HL HB]; [lia|done..|]. by split.
  - by split.
  - by repeat constructor.
  - eexists _, c', [x; x], _. split; [reflexivity|]. split; [exact He|exact Hd].
Defined.
