(* ===== verification/ChaCha20.v ===== *)
(** * ChaCha20 (src/crypto/chacha20/src/lib.rs)

    The stream cipher as the code has it: the block function on a matrix of
    sixteen words updated by quarter rounds, and [encrypt], which consumes the
    key stream from a position kept in [state_ptr].  The counter is incremented
    with overflow checks. *)

From S2P Require Import Prelude Bytes CryptoFramework.

Definition C : list Z := [0x61707865; 0x3320646e; 0x79622d32; 0x6b206574].

Definition quarter_round (a b c d : Z) : Z * Z * Z * Z :=
  let a := wrapping_add a b in
  let d := Z.lxor d a in
  let d := rotate_left d 16 in
  let c := wrapping_add c d in
  let b := Z.lxor b c in
  let b := rotate_left b 12 in
  let a := wrapping_add a b in
  let d := Z.lxor d a in
  let d := rotate_left d 8 in
  let c := wrapping_add c d in
  let b := Z.lxor b c in
  let b := rotate_left b 7 in
  (a, b, c, d).

(** The macro [quarter_round!]. *)
Definition quarter_round_at (a b c d : nat) (matrix : list Z) : res (list Z) :=
  va ← index matrix a;
  vb ← index matrix b;
  vc ← index matrix c;
  vd ← index matrix d;
  let '(va, vb, vc, vd) := quarter_round va vb vc vd in
  matrix ← update matrix a va;
  matrix ← update matrix b vb;
  matrix ← update matrix c vc;
  update matrix d vd.

Record ChaCha20 := {
  key : list Z;
  nonce : list Z;
  counter : Z;
  state : list Z;
  state_ptr : nat;
}.

Definition ChaCha20_default : ChaCha20 := {|
  key := replicate 8 0;
  nonce := replicate 3 0;
  counter := 0;
  state := replicate 64 0;
  state_ptr := 0;
|}.

(** The body of the loop of ten double rounds. *)
Definition double_round (matrix : list Z) : res (list Z) :=
  matrix ← quarter_round_at 0 4 8 12 matrix;
  matrix ← quarter_round_at 1 5 9 13 matrix;
  matrix ← quarter_round_at 2 6 10 14 matrix;
  matrix ← quarter_round_at 3 7 11 15 matrix;
  matrix ← quarter_round_at 0 5 10 15 matrix;
  matrix ← quarter_round_at 1 6 11 12 matrix;
  matrix ← quarter_round_at 2 7 8 13 matrix;
  quarter_round_at 3 4 9 14 matrix.

(** The body of the final loop of [update_state]: word [i] is added to the
    initial one and its bytes are stored. *)
Definition serialize_word (origin : list Z) (i : nat) (ms : list Z * list Z) : res (list Z * list Z) :=
  let '(matrix, st) := ms in
  ele ← index matrix i;
  o ← index origin i;
  let ele := wrapping_add ele o in
  matrix ← update matrix i ele;
  st ← write_slice st (4 * i)%nat (to_le_bytes 4 ele);
  Ok (matrix, st).

Definition update_state (self : ChaCha20) : res ChaCha20 :=
  matrix ← write_slice (replicate 16 0) 0 C;
  matrix ← write_slice matrix 4 (key self);
  matrix ← update matrix 12 (counter self);
  matrix ← write_slice matrix 13 (nonce self);
  let origin := matrix in
  matrix ← for_each (range 0 10) (λ _, double_round) matrix;
  '(_, st) ← for_each (range 0 16) (serialize_word origin) (matrix, state self);
  Ok {| key := key self; nonce := nonce self; counter := counter self; state := st;
        state_ptr := state_ptr self |}.

Definition CHACHA_KEY_SIZE : nat := 32.
Definition CHACHA_NONCE_SIZE : nat := 12.

(** The loop of [set_key] and [set_nonce]: [words] 32-bit words of [src]. *)
Definition read_words (words : nat) (src : list Z) : list Z :=
  (λ i, from_le_bytes (take 4 (drop (4 * i) src))) <$> range 0 words.

Definition chacha_set_key (k : list Z) : ST ChaCha20 unit := λ self,
  _ ← assert (length k =? CHACHA_KEY_SIZE)%nat;
  Ok (tt, {| key := read_words 8 k; nonce := nonce self; counter := counter self;
             state := state self; state_ptr := state_ptr self |}).

Definition chacha_set_nonce (n : list Z) : ST ChaCha20 unit := λ self,
  _ ← assert (length n =? CHACHA_NONCE_SIZE)%nat;
  Ok (tt, {| key := key self; nonce := read_words 3 n; counter := counter self;
             state := state self; state_ptr := state_ptr self |}).

(** One iteration of the loop of [encrypt]: a new block of the key stream when
    the last one is used up, then the bytes written and what is left. *)
Definition refill (self : ChaCha20) : res ChaCha20 :=
  if (state_ptr self =? 0)%nat then
    self ← update_state self;
    if counter self + 1 <? U32 then
      Ok {| key := key self; nonce := nonce self; counter := counter self + 1;
            state := state self; state_ptr := state_ptr self |}
    else Panic
  else Ok self.

Definition take_chunk (block : list Z) (self : ChaCha20) : res (list Z * list Z * ChaCha20) :=
  let xor_len := Nat.min (length block) (64 - state_ptr self) in
  let output := take xor_len block in
  let rest := drop xor_len block in
  _ ← assert (state_ptr self + xor_len <=? length (state self))%nat;
  let key_stream := take xor_len (drop (state_ptr self) (state self)) in
  Ok (zip_with Z.lxor output key_stream, rest,
      {| key := key self; nonce := nonce self; counter := counter self; state := state self;
         state_ptr := (state_ptr self + xor_len) mod 64 |}).

Definition encrypt_chunk (block : list Z) (self : ChaCha20) : res (list Z * list Z * ChaCha20) :=
  self ← refill self;
  take_chunk block self.

Fixpoint encrypt_fuel (fuel : nat) (block : list Z) (self : ChaCha20) : res (list Z * ChaCha20) :=
  match block with
  | [] => Ok ([], self)
  | _ =>
    match fuel with
    | O => NoFuel
    | S fuel =>
      '(out, rest, self) ← encrypt_chunk block self;
      '(out', self) ← encrypt_fuel fuel rest self;
      Ok (out ++ out', self)
    end
  end.

(** Every iteration consumes at least a byte. *)
Definition chacha_encrypt (block : list Z) : ST ChaCha20 (list Z) := λ self,
  encrypt_fuel (length block) block self.

#[global] Instance ChaCha20_StreamCipher : StreamCipher ChaCha20 := {|
  sc_KEY_SIZE := CHACHA_KEY_SIZE;
  sc_NONCE_SIZE := CHACHA_NONCE_SIZE;
  sc_set_key := chacha_set_key;
  sc_set_nonce := chacha_set_nonce;
  sc_encrypt := chacha_encrypt;
|}.
