(* ===== verification/ChaCha20Theorems.v ===== *)
(** * Correctness of ChaCha20

    The block function against the formulation of RFC 8439 on rows of the
    matrix (a column round, then the same round on rotated rows), and [encrypt]
    against the key stream indexed by byte position. *)

From S2P Require Import Prelude Bytes CryptoFramework ChaCha20.

(** ** The reference block function, on rows of four words *)

Definition vadd : list Z → list Z → list Z := zip_with wrapping_add.
Definition vxor_rotl (n : Z) (x y : list Z) : list Z :=
  (λ w, rotate_left w n) <$> zip_with Z.lxor x y.

Definition round_rows (m : list Z * list Z * list Z * list Z) : list Z * list Z * list Z * list Z :=
  let '(a, b, c, d) := m in
  let a := vadd a b in let d := vxor_rotl 16 d a in
  let c := vadd c d in let b := vxor_rotl 12 b c in
  let a := vadd a b in let d := vxor_rotl 8 d a in
  let c := vadd c d in let b := vxor_rotl 7 b c in
  (a, b, c, d).

Definition rotate_row (n : nat) (r : list Z) : list Z := drop n r ++ take n r.

(** A column round, then a diagonal round. *)
Definition double_round_rows (m : list Z * list Z * list Z * list Z) :
    list Z * list Z * list Z * list Z :=
  let '(a, b, c, d) := round_rows m in
  let '(a, b, c, d) := round_rows (a, rotate_row 1 b, rotate_row 2 c, rotate_row 3 d) in
  (a, rotate_row 3 b, rotate_row 2 c, rotate_row 1 d).

Definition flatten_rows (m : list Z * list Z * list Z * list Z) : list Z :=
  let '(a, b, c, d) := m in a ++ b ++ c ++ d.

Definition chacha20_block (key nonce : list Z) (counter : Z) : list Z :=
  let init := (C, take 4 key, drop 4 key, counter :: nonce) in
  let final := Nat.iter 10 double_round_rows init in
  mjoin (to_le_bytes 4 <$> zip_with wrapping_add (flatten_rows final) (flatten_rows init)).

(** ** The code computes the reference block *)

Definition four_rows (m : list Z * list Z * list Z * list Z) : Prop :=
  let '(a, b, c, d) := m in
  length a = 4%nat ∧ length b = 4%nat ∧ length c = 4%nat ∧ length d = 4%nat.

Ltac destruct_row r H := do 4 (destruct r as [|? r]; [done|]); destruct r; [|done]; clear H.

Lemma round_rows_four m : four_rows m → four_rows (round_rows m).
Proof.
  destruct m as [[[a b] c] d]. intros (Ha & Hb & Hc & Hd).
  destruct_row a Ha. destruct_row b Hb. destruct_row c Hc. destruct_row d Hd. by repeat split.
Qed.

Lemma double_round_rows_four m : four_rows m → four_rows (double_round_rows m).
Proof.
  intros Hm. unfold double_round_rows. apply round_rows_four in Hm.
  destruct (round_rows m) as [[[a b] c] d]. destruct Hm as (Ha & Hb & Hc & Hd).
  assert (∀ n r, length r = 4%nat → (n ≤ 4)%nat → length (rotate_row n r) = 4%nat) as Hrot.
  { intros n r Hr Hn. unfold rotate_row. rewrite length_app, length_drop, length_take. lia. }
  pose proof (round_rows_four (a, rotate_row 1 b, rotate_row 2 c, rotate_row 3 d)) as H.
  destruct (round_rows _) as [[[a' b'] c'] d'].
  destruct H as (? & ? & ? & ?); [|by split_and!; auto].
  split_and!; auto.
Qed.

Lemma four_rows_length m : four_rows m → length (flatten_rows m) = 16%nat.
Proof.
  destruct m as [[[a b] c] d]. intros (Ha & Hb & Hc & Hd). unfold flatten_rows. rewrite !length_app. lia.
Qed.

Lemma quarter_round_at_spec a b c d m va vb vc vd :
  m !! a = Some va → m !! b = Some vb → m !! c = Some vc → m !! d = Some vd →
  quarter_round_at a b c d m =
    let '(va, vb, vc, vd) := quarter_round va vb vc vd in
    Ok (<[d:=vd]> (<[c:=vc]> (<[b:=vb]> (<[a:=va]> m)))).
Proof.
  intros Ha Hb Hc Hd. unfold quarter_round_at.
  rewrite (index_Ok _ _ _ Ha), (index_Ok _ _ _ Hb), (index_Ok _ _ _ Hc), (index_Ok _ _ _ Hd), !bind_Ok.
  destruct (quarter_round va vb vc vd) as [[[va' vb'] vc'] vd'].
  apply lookup_lt_Some in Ha, Hb, Hc, Hd.
  do 3 (rewrite update_Ok by (by rewrite ?length_insert); rewrite bind_Ok).
  by rewrite update_Ok by (by rewrite ?length_insert).
Qed.

Lemma double_round_spec m :
  four_rows m → double_round (flatten_rows m) = Ok (flatten_rows (double_round_rows m)).
Proof.
  destruct m as [[[a b] c] d]. intros (Ha & Hb & Hc & Hd).
  destruct_row a Ha. destruct_row b Hb. destruct_row c Hc. destruct_row d Hd.
  unfold double_round.
  do 7 (erewrite quarter_round_at_spec by reflexivity; cbn [quarter_round]; rewrite bind_Ok).
  erewrite quarter_round_at_spec by reflexivity. reflexivity.
Qed.

Lemma serialize_word_spec origin i m pre suf e o :
  m !! i = Some e → origin !! i = Some o → length pre = (4 * i)%nat → (4 ≤ length suf)%nat →
  serialize_word origin i (m, pre ++ suf)
  = Ok (<[i:=wrapping_add e o]> m, (pre ++ to_le_bytes 4 (wrapping_add e o)) ++ drop 4 suf).
Proof.
  intros He Ho Hpre Hsuf. unfold serialize_word.
  rewrite (index_Ok _ _ _ He), (index_Ok _ _ _ Ho), !bind_Ok.
  rewrite update_Ok, bind_Ok by (by apply lookup_lt_Some in He). rewrite <- Hpre.
  rewrite write_slice_spec by (rewrite length_to_le_bytes; lia).
  by rewrite bind_Ok, length_to_le_bytes, (assoc_L (++)).
Qed.

(** The loop that adds the initial matrix and serialises. *)
Lemma serialize_loop origin n i matrix pre suf :
  length origin = (i + n)%nat → length matrix = (i + n)%nat →
  length pre = (4 * i)%nat → length suf = (4 * n)%nat →
  ∃ m', for_each (seq i n) (serialize_word origin) (matrix, pre ++ suf)
  = Ok (m', pre ++ mjoin (to_le_bytes 4 <$> zip_with wrapping_add (drop i matrix) (drop i origin))).
Proof.
  revert i matrix pre suf. induction n as [|n IH]; intros i matrix pre suf Ho Hm Hpre Hsuf.
  - exists matrix. destruct suf; [|done]. cbn [seq for_each]. by rewrite (drop_ge matrix) by lia.
  - cbn [seq for_each].
    destruct (lookup_lt_is_Some_2 matrix i) as [e He]; [lia|].
    destruct (lookup_lt_is_Some_2 origin i) as [o Hoi]; [lia|].
    rewrite (serialize_word_spec _ _ _ _ _ e o), bind_Ok by (done || lia).
    destruct (IH (S i) (<[i:=wrapping_add e o]> matrix) (pre ++ to_le_bytes 4 (wrapping_add e o))
      (drop 4 suf)) as [m' Heq].
    + lia.
    + rewrite length_insert. lia.
    + rewrite length_app, length_to_le_bytes. lia.
    + rewrite length_drop. lia.
    + exists m'. rewrite Heq. f_equal. f_equal. rewrite <- (assoc_L (++)). f_equal.
      rewrite (drop_S matrix e i), (drop_S origin o i) by done. cbn [zip_with fmap list_fmap mjoin list_join].
      by rewrite drop_insert_lt by lia.
Qed.

Definition chacha_shape (self : ChaCha20) : Prop :=
  length (key self) = 8%nat ∧ length (nonce self) = 3%nat ∧ length (state self) = 64%nat.

Definition initial_rows (k n : list Z) (c : Z) : list Z * list Z * list Z * list Z :=
  (C, take 4 k, drop 4 k, c :: n).

Lemma initial_rows_four k n c : length k = 8%nat → length n = 3%nat → four_rows (initial_rows k n c).
Proof.
  intros Hk Hn. split_and!; [done|rewrite length_take; lia|rewrite length_drop; lia|simpl; lia].
Qed.

Lemma initial_matrix k n c (f : list Z → res ChaCha20) :
  length k = 8%nat → length n = 3%nat →
  (matrix ← write_slice (replicate 16 0) 0 C;
   matrix ← write_slice matrix 4 k;
   matrix ← update matrix 12 c;
   matrix ← write_slice matrix 13 n; f matrix) = f (flatten_rows (initial_rows k n c)).
Proof.
  intros Hk Hn. do 8 (destruct k as [|? k]; [done|]). destruct k; [|done].
  do 3 (destruct n as [|? n]; [done|]). by destruct n.
Qed.

#[local] Opaque double_round double_round_rows serialize_word.

Lemma iter_four m n : four_rows m → four_rows (Nat.iter n double_round_rows m).
Proof. intros Hm. induction n as [|n IH]; [done|]. by apply double_round_rows_four. Qed.

Lemma double_rounds_spec n i m :
  four_rows m →
  for_each (seq i n) (λ _, double_round) (flatten_rows m)
  = Ok (flatten_rows (Nat.iter n double_round_rows m)).
Proof.
  revert i m. induction n as [|n IH]; intros i m Hm; [done|]. cbn [seq for_each].
  rewrite double_round_spec, bind_Ok, IH by (done || by apply double_round_rows_four).
  by rewrite Nat.iter_succ_r.
Qed.

Lemma update_state_spec self :
  chacha_shape self →
  update_state self = Ok {| key := key self; nonce := nonce self; counter := counter self;
    state := chacha20_block (key self) (nonce self) (counter self); state_ptr := state_ptr self |}.
Proof.
  intros (Hk & Hn & Hs). unfold update_state. rewrite initial_matrix by done.
  unfold chacha20_block. fold (initial_rows (key self) (nonce self) (counter self)).
  pose proof (initial_rows_four _ _ (counter self) Hk Hn) as Hinit.
  set (init := initial_rows _ _ _) in *. clearbody init. cbv zeta.
  change (range 0 10) with (seq 0 10). change (range 0 16) with (seq 0 16).
  rewrite double_rounds_spec, bind_Ok by done.
  pose proof (iter_four init 10 Hinit) as Hfin. set (fin := Nat.iter 10 _ init) in *. clearbody fin.
  destruct (serialize_loop (flatten_rows init) 16 0 (flatten_rows fin) [] (state self)) as [m' Heq];
    [by apply four_rows_length..|done|done|].
  cbn [app] in Heq. by rewrite Heq, bind_Ok, !drop_0.
Qed.

Lemma length_words_bytes l : length (mjoin (to_le_bytes 4 <$> l)) = (4 * length l)%nat.
Proof.
  induction l as [|w l IH]; [done|].
  change (mjoin (to_le_bytes 4 <$> w :: l)) with (to_le_bytes 4 w ++ mjoin (to_le_bytes 4 <$> l)).
  rewrite length_app, IH, length_to_le_bytes. simpl. lia.
Qed.

Lemma length_chacha20_block k n c :
  length k = 8%nat → length n = 3%nat → length (chacha20_block k n c) = 64%nat.
Proof.
  intros Hk Hn. unfold chacha20_block. fold (initial_rows k n c). cbv zeta.
  pose proof (initial_rows_four k n c Hk Hn) as Hinit.
  pose proof (iter_four _ 10 Hinit) as Hf.
  apply four_rows_length in Hinit, Hf. rewrite length_words_bytes, length_zip_with, Hinit, Hf. done.
Qed.

(** ** The key stream

    Developed over any block function [blk] that gives 64 bytes and that
    [update_state] computes. *)

Section stream.
Context (blk : list Z → list Z → Z → list Z).

Definition keystream_byte (k n : list Z) (p : Z) : Z :=
  blk k n (p / 64) !!! Z.to_nat (p mod 64).
Definition keystream (k n : list Z) (p : Z) (len : nat) : list Z :=
  (λ i, keystream_byte k n (p + Z.of_nat i)) <$> seq 0 len.

Lemma keystream_app k n p a b :
  keystream k n p (a + b) = keystream k n p a ++ keystream k n (p + Z.of_nat a) b.
Proof.
  unfold keystream. rewrite seq_app, fmap_app. f_equal. rewrite Nat.add_0_l.
  rewrite <- (Nat.add_0_r a) at 1. rewrite <- fmap_add_seq, <- list_fmap_compose.
  apply list_fmap_ext. intros i x _. simpl. f_equal. lia.
Qed.

Lemma length_keystream k n p len : length (keystream k n p len) = len.
Proof. unfold keystream. by rewrite length_fmap, length_seq. Qed.

(** The position of a cipher in its key stream: how many bytes were consumed. *)
Definition position (self : ChaCha20) : Z :=
  if (state_ptr self =? 0)%nat then 64 * counter self
  else 64 * (counter self - 1) + Z.of_nat (state_ptr self).

(** The state holds the block of the key stream before the counter. *)
Definition holds_block (self : ChaCha20) : Prop :=
  state self = blk (key self) (nonce self) (counter self - 1).

(** Between calls, an unfinished block of the key stream is the one before the
    counter. *)
Definition chacha_wf (self : ChaCha20) : Prop :=
  chacha_shape self ∧ (state_ptr self < 64)%nat ∧ 0 ≤ counter self < U32 ∧
  (state_ptr self ≠ 0%nat → 1 ≤ counter self ∧ holds_block self).

(** The key stream is exhausted before the last value of the counter: the block
    of counter 2^32 - 1 is never used. *)
Definition keystream_end : Z := 64 * (U32 - 1).

Lemma slice_fmap (l : list Z) a n :
  (a + n ≤ length l)%nat → take n (drop a l) = (λ i, l !!! (a + i)%nat) <$> seq 0 n.
Proof.
  intros Hl. apply list_eq. intros i. rewrite list_lookup_fmap.
  destruct (decide (i < n)%nat) as [Hi|Hi].
  - rewrite lookup_take_lt, lookup_drop, lookup_seq_lt by done. simpl.
    apply list_lookup_lookup_total_lt. lia.
  - rewrite lookup_take_ge, lookup_seq_ge by lia. done.
Qed.

Context (blk_length : ∀ k n c, length k = 8%nat → length n = 3%nat → length (blk k n c) = 64%nat).
Context (blk_update : ∀ self, chacha_shape self →
  update_state self = Ok {| key := key self; nonce := nonce self; counter := counter self;
    state := blk (key self) (nonce self) (counter self); state_ptr := state_ptr self |}).

Lemma keystream_slice k n c a len :
  length k = 8%nat → length n = 3%nat → (a + len ≤ 64)%nat →
  take len (drop a (blk k n c)) = keystream k n (64 * c + Z.of_nat a) len.
Proof.
  intros Hk Hn Ha. rewrite slice_fmap by (rewrite blk_length; done).
  apply list_fmap_ext. intros i j [-> Hj]%lookup_seq. unfold keystream_byte.
  assert ((64 * c + Z.of_nat a + Z.of_nat (0 + i)) / 64 = c) as ->.
  { symmetry. apply (Z.div_unique _ _ _ (Z.of_nat (a + i))); lia. }
  assert ((64 * c + Z.of_nat a + Z.of_nat (0 + i)) mod 64 = Z.of_nat (a + i)) as ->.
  { symmetry. apply (Z.mod_unique _ _ c); lia. }
  by rewrite Nat2Z.id.
Qed.

(** ** [encrypt] consumes the key stream *)

Lemma nonempty_length (l : list Z) : l ≠ [] → (0 < length l)%nat.
Proof. destruct l; [done|simpl; lia]. Qed.

(** The state holds block [counter - 1] of the key stream from [state_ptr] on. *)
Lemma take_chunk_spec self block :
  chacha_shape self → (state_ptr self < 64)%nat → 1 ≤ counter self < U32 → block ≠ [] →
  holds_block self →
  let n := Nat.min (length block) (64 - state_ptr self) in
  let p := 64 * (counter self - 1) + Z.of_nat (state_ptr self) in
  ∃ self', take_chunk block self
      = Ok (xor_bytes (take n block) (keystream (key self) (nonce self) p n), drop n block, self') ∧
    chacha_wf self' ∧ position self' = p + Z.of_nat n ∧
    key self' = key self ∧ nonce self' = nonce self.
Proof.
  intros (Hk & Hn & Hs) Hptr Hc Hblk Hst n p.
  apply nonempty_length in Hblk as Hlen. assert (0 < n)%nat as Hn0 by (unfold n; lia).
  assert (state_ptr self + n ≤ 64)%nat as Hle by (unfold n; lia).
  exists {| key := key self; nonce := nonce self; counter := counter self; state := state self;
            state_ptr := (state_ptr self + n) mod 64 |}. split.
  { unfold take_chunk. fold n. rewrite (proj2 (Nat.leb_le _ _)) by lia. cbn [assert].
    unfold holds_block in Hst. rewrite bind_Ok, Hst at 1.
    rewrite keystream_slice by assumption. reflexivity. }
  unfold chacha_wf, chacha_shape, position. cbn [key nonce counter state state_ptr].
  destruct (decide (state_ptr self + n = 64)%nat) as [He|He].
  - rewrite He. change (64 mod 64)%nat with 0%nat. simpl Nat.eqb. split_and!; try done; try lia.
  - rewrite Nat.mod_small by lia. rewrite (proj2 (Nat.eqb_neq _ _)) by lia.
    split_and!; try done; try lia. intros _. split; [lia|exact Hst].
Qed.

(** One iteration: a panic when a new block is needed at the last counter,
    otherwise the next bytes of the key stream. *)
Lemma refill_spec self :
  chacha_wf self →
  (position self = keystream_end ∧ refill self = Panic) ∨
  (∃ self', refill self = Ok self' ∧
     position self < keystream_end ∧ chacha_shape self' ∧ 1 ≤ counter self' < U32 ∧
     holds_block self' ∧
     state_ptr self' = state_ptr self ∧ key self' = key self ∧ nonce self' = nonce self ∧
     64 * (counter self' - 1) + Z.of_nat (state_ptr self') = position self).
Proof.
  intros (Hshape & Hptr & Hc & Hst). unfold refill, position, keystream_end.
  destruct (Nat.eqb_spec (state_ptr self) 0) as [H0|H0].
  - rewrite blk_update, bind_Ok by done. cbn [counter key nonce state state_ptr].
    destruct (Z.ltb_spec (counter self + 1) U32) as [Hlt|Hge]; [right|left; split; [lia|done]].
    eexists. split; [done|]. cbn [counter key nonce state state_ptr]. split_and!; try done; try lia.
    + destruct Hshape as (?&?&?). split_and!; cbn [key nonce state]; [done..|].
      by apply blk_length.
    + unfold holds_block. cbn [state key nonce counter]. f_equal. lia.
  - right. exists self. destruct (Hst H0) as [Hc1 Hs]. split_and!; try done; lia.
Qed.

Lemma encrypt_chunk_spec self block :
  chacha_wf self → block ≠ [] →
  let n := Nat.min (length block) (64 - state_ptr self) in
  (position self = keystream_end ∧ encrypt_chunk block self = Panic) ∨
  (∃ self',
    encrypt_chunk block self
      = Ok (xor_bytes (take n block) (keystream (key self) (nonce self) (position self) n),
            drop n block, self') ∧
    chacha_wf self' ∧ position self' = position self + Z.of_nat n ∧
    position self < keystream_end ∧
    key self' = key self ∧ nonce self' = nonce self).
Proof.
  intros Hwf Hblk n. unfold encrypt_chunk.
  destruct (refill_spec self Hwf) as [[Hp ->]|(s1 & -> & Hlt & Hsh & Hc & Hst & Hptr & Hk & Hn & Hp)];
    [by left|right]. rewrite bind_Ok.
  destruct (take_chunk_spec s1 block) as (s2 & -> & Hwf2 & Hp2 & Hk2 & Hn2); [done| |done..|].
  - rewrite Hptr. apply Hwf.
  - exists s2. rewrite Hp2, Hp, Hptr, Hk2, Hn2, Hk, Hn. by split_and!.
Qed.

(** The whole of [encrypt], with fuel for at least a chunk per byte. *)
Lemma encrypt_fuel_spec fuel self block :
  chacha_wf self → (length block ≤ fuel)%nat →
  position self + Z.of_nat (length block) ≤ keystream_end →
  ∃ self', encrypt_fuel fuel block self
      = Ok (xor_bytes block (keystream (key self) (nonce self) (position self) (length block)), self') ∧
    chacha_wf self' ∧ position self' = position self + Z.of_nat (length block) ∧
    key self' = key self ∧ nonce self' = nonce self.
Proof.
  revert self block. induction fuel as [|fuel IH]; intros self block Hwf Hfuel Hend.
  { destruct block; [|simpl in Hfuel; lia]. exists self. split; [done|]. split_and!; [done|simpl; lia|done..]. }
  destruct (decide (block = [])) as [->|Hblk].
  { exists self. split; [done|]. split_and!; [done|simpl; lia|done..]. }
  apply nonempty_length in Hblk as Hlen.
  replace (encrypt_fuel (S fuel) block self) with
    ('(out, rest, self) ← encrypt_chunk block self;
     '(out', self) ← encrypt_fuel fuel rest self; Ok (out ++ out', self)) by (by destruct block).
  set (n := Nat.min (length block) (64 - state_ptr self)).
  assert (state_ptr self < 64)%nat as Hptr by apply Hwf.
  destruct (encrypt_chunk_spec self block Hwf Hblk) as
    [[Hp _]|(s1 & -> & Hwf1 & Hp1 & Hlt & Hk1 & Hn1)]; [lia|]. fold n in Hp1 |- *. rewrite bind_Ok.
  destruct (IH s1 (drop n block)) as (s2 & -> & Hwf2 & Hp2 & Hk2 & Hn2);
    [done|rewrite length_drop; unfold n; lia..|].
  rewrite bind_Ok, Hk1, Hn1, Hp1. exists s2. rewrite Hp2, Hp1, Hk2, Hn2, Hk1, Hn1, length_drop.
  split; [|split_and!; [done|unfold n; lia|done..]].
  do 2 f_equal. rewrite <- zip_with_app by (rewrite length_keystream, length_take; unfold n; lia).
  rewrite take_drop, <- keystream_app. do 2 f_equal. unfold n. lia.
Qed.

Lemma encrypt_fuel_panic fuel self block :
  chacha_wf self → (length block ≤ fuel)%nat →
  keystream_end < position self + Z.of_nat (length block) →
  encrypt_fuel fuel block self = Panic.
Proof.
  revert self block. induction fuel as [|fuel IH]; intros self block Hwf Hfuel Hend;
    assert (position self ≤ keystream_end) as Hpos.
  1, 3: destruct Hwf as (_ & Hptr & Hc & Hst); unfold position, keystream_end;
    destruct (Nat.eqb_spec (state_ptr self) 0); lia.
  { lia. }
  assert (block ≠ []) as Hblk by (intros ->; simpl in Hend; lia).
  replace (encrypt_fuel (S fuel) block self) with
    ('(out, rest, self) ← encrypt_chunk block self;
     '(out', self) ← encrypt_fuel fuel rest self; Ok (out ++ out', self)) by (by destruct block).
  assert (state_ptr self < 64)%nat as Hptr by apply Hwf.
  apply nonempty_length in Hblk as Hlen.
  destruct (encrypt_chunk_spec self block Hwf Hblk) as
    [[_ ->]|(s1 & -> & Hwf1 & Hp1 & Hlt & Hk1 & Hn1)]; [done|]. rewrite bind_Ok.
  rewrite IH; [done|done|rewrite length_drop; lia|rewrite length_drop; lia].
Qed.
End stream.

(** ** Claims *)

(** C17: [encrypt] from any state between calls returns, without a panic as long
    as the key stream lasts, the exclusive or of the message with the key stream
    of RFC 8439 from the current position on, and moves the position by the
    length of the message: how a message is cut into calls does not matter. *)
Theorem chacha_encrypt_keystream (self : ChaCha20) (block : list Z) :
  chacha_wf chacha20_block self →
  position self + Z.of_nat (length block) ≤ keystream_end →
  ∃ self', chacha_encrypt block self
      = Ok (xor_bytes block
              (keystream chacha20_block (key self) (nonce self) (position self) (length block)), self') ∧
    chacha_wf chacha20_block self' ∧
    position self' = position self + Z.of_nat (length block) ∧
    key self' = key self ∧ nonce self' = nonce self.
Proof.
  intros Hwf Hend. apply encrypt_fuel_spec; try done.
  - exact length_chacha20_block.
  - exact update_state_spec.
Qed.

(** The default state is a state between calls. *)
Lemma chacha_default_wf : chacha_wf chacha20_block ChaCha20_default.
Proof. split; [done|]. split; [simpl; lia|]. split; [done|]. intros H. by destruct H. Qed.

Lemma chacha_encrypt_keystream_witness :
  ∃ self', chacha_encrypt [0; 1; 2] ChaCha20_default
    = Ok (xor_bytes [0; 1; 2] [0x76; 0xb8; 0xe0], self') ∧ position self' = 3.
Proof.
  destruct (chacha_encrypt_keystream ChaCha20_default [0; 1; 2] chacha_default_wf) as (s & He & _ & Hp & _).
  - vm_compute. discriminate.
  - exists s. split; [|exact Hp]. rewrite He. vm_compute. reflexivity.
Defined.

(** A message longer than what is left of the key stream makes [encrypt]
    panic: the increment of the 32-bit counter overflows before the block of
    counter 2^32 - 1 is used. *)
Theorem chacha_encrypt_overflow (self : ChaCha20) (block : list Z) :
  chacha_wf chacha20_block self →
  keystream_end < position self + Z.of_nat (length block) →
  chacha_encrypt block self = Panic.
Proof.
  intros Hwf Hend. apply (encrypt_fuel_panic chacha20_block); try done.
  - exact length_chacha20_block.
  - exact update_state_spec.
Qed.

Lemma chacha_encrypt_overflow_witness :
  chacha_encrypt [0] {| key := replicate 8 0; nonce := replicate 3 0; counter := U32 - 1;
    state := replicate 64 0; state_ptr := 0 |} = Panic.
Proof.
  apply chacha_encrypt_overflow.
  - split; [done|]. split; [simpl; lia|]. split; [done|]. intros H. by destruct H.
  - vm_compute. reflexivity.
Defined.
