(* ===== verification/Sha256.v ===== *)
(** * SHA-256 (src/crypto/sha2/src/lib.rs)

    The hash as the code has it: a buffer of at most 63 pending bytes, a message
    schedule table and the chaining value, with [update] and [digest] that
    process blocks of 64 bytes. *)

From S2P Require Import Prelude Bytes CryptoFramework.

Definition SHA256_DIGEST_LEN : nat := 32.

Definition K_TABLE : list Z :=
  [0x428a2f98; 0x71374491; 0xb5c0fbcf; 0xe9b5dba5] ++ [0x3956c25b; 0x59f111f1; 0x923f82a4; 0xab1c5ed5] ++
  [0xd807aa98; 0x12835b01; 0x243185be; 0x550c7dc3] ++ [0x72be5d74; 0x80deb1fe; 0x9bdc06a7; 0xc19bf174] ++
  [0xe49b69c1; 0xefbe4786; 0x0fc19dc6; 0x240ca1cc] ++ [0x2de92c6f; 0x4a7484aa; 0x5cb0a9dc; 0x76f988da] ++
  [0x983e5152; 0xa831c66d; 0xb00327c8; 0xbf597fc7] ++ [0xc6e00bf3; 0xd5a79147; 0x06ca6351; 0x14292967] ++
  [0x27b70a85; 0x2e1b2138; 0x4d2c6dfc; 0x53380d13] ++ [0x650a7354; 0x766a0abb; 0x81c2c92e; 0x92722c85] ++
  [0xa2bfe8a1; 0xa81a664b; 0xc24b8b70; 0xc76c51a3] ++ [0xd192e819; 0xd6990624; 0xf40e3585; 0x106aa070] ++
  [0x19a4c116; 0x1e376c08; 0x2748774c; 0x34b0bcb5] ++ [0x391c0cb3; 0x4ed8aa4a; 0x5b9cca4f; 0x682e6ff3] ++
  [0x748f82ee; 0x78a5636f; 0x84c87814; 0x8cc70208] ++ [0x90befffa; 0xa4506ceb; 0xbef9a3f7; 0xc67178f2].

Definition ch (x y z : Z) : Z := Z.lxor (Z.land x y) (Z.land (not32 x) z).
Definition maj (x y z : Z) : Z := Z.lxor (Z.lxor (Z.land x y) (Z.land x z)) (Z.land y z).
Definition bsig0 (x : Z) : Z :=
  Z.lxor (Z.lxor (rotate_right x 2) (rotate_right x 13)) (rotate_right x 22).
Definition bsig1 (x : Z) : Z :=
  Z.lxor (Z.lxor (rotate_right x 6) (rotate_right x 11)) (rotate_right x 25).
Definition ssig0 (x : Z) : Z :=
  Z.lxor (Z.lxor (rotate_right x 7) (rotate_right x 18)) (Z.shiftr x 3).
Definition ssig1 (x : Z) : Z :=
  Z.lxor (Z.lxor (rotate_right x 17) (rotate_right x 19)) (Z.shiftr x 10).

Record Sha256 := {
  message_len : Z;
  w_table : list Z;
  bytes_remain : list Z;
  bytes_remain_len : nat;
  h : list Z;
}.

Definition Sha256_default : Sha256 := {|
  message_len := 0;
  w_table := replicate 64 0;
  bytes_remain := replicate 64 0;
  bytes_remain_len := 0;
  h := [0x6a09e667; 0xbb67ae85; 0x3c6ef372; 0xa54ff53a;
        0x510e527f; 0x9b05688c; 0x1f83d9ab; 0x5be0cd19];
|}.

(** Assignments to a field. *)
Definition set_len (n : Z) (s : Sha256) : Sha256 :=
  {| message_len := n; w_table := w_table s; bytes_remain := bytes_remain s;
     bytes_remain_len := bytes_remain_len s; h := h s |}.
Definition set_w (w : list Z) (s : Sha256) : Sha256 :=
  {| message_len := message_len s; w_table := w; bytes_remain := bytes_remain s;
     bytes_remain_len := bytes_remain_len s; h := h s |}.
Definition set_remain (b : list Z) (n : nat) (s : Sha256) : Sha256 :=
  {| message_len := message_len s; w_table := w_table s; bytes_remain := b;
     bytes_remain_len := n; h := h s |}.
Definition set_h (v : list Z) (s : Sha256) : Sha256 :=
  {| message_len := message_len s; w_table := w_table s; bytes_remain := bytes_remain s;
     bytes_remain_len := bytes_remain_len s; h := v |}.

(** The body of the first loop of [update_w_table]: [i] ranges over the words
    of the table, [message] is the slice that is consumed. *)
Definition load_word (i : nat) (s : list Z * list Z) : res (list Z * list Z) :=
  let '(w, message) := s in
  four ← slice_to message 4;
  w ← update w i (from_be_bytes four);
  rest ← slice_from message 4;
  Ok (w, rest).

(** The body of the second loop. *)
Definition schedule_word (i : nat) (w : list Z) : res (list Z) :=
  w16 ← index w (i - 16);
  w15 ← index w (i - 15);
  w7 ← index w (i - 7);
  w2 ← index w (i - 2);
  update w i (wrapping_add (wrapping_add (wrapping_add w16 (ssig0 w15)) w7) (ssig1 w2)).

Definition update_w_table (message : list Z) (self : Sha256) : res Sha256 :=
  '(w, _) ← for_each (range 0 16) load_word (w_table self, message);
  w ← for_each (range 16 64) schedule_word w;
  Ok (set_w w self).

(** One round of [update_h] on the working copy of [h]. *)
Definition hash_round (w : list Z) (rk : nat * Z) (v : list Z) : res (list Z) :=
  let '(round, k_r) := rk in
  h0 ← index v 0; h1 ← index v 1; h2 ← index v 2; h3 ← index v 3;
  h4 ← index v 4; h5 ← index v 5; h6 ← index v 6; h7 ← index v 7;
  w_r ← index w round;
  let c := ch h4 h5 h6 in
  let temp1 := wrapping_add (wrapping_add (wrapping_add (wrapping_add h7 (bsig1 h4)) c) k_r) w_r in
  let m := maj h0 h1 h2 in
  let temp2 := wrapping_add (bsig0 h0) m in
  v ← update v 7 h6;
  v ← update v 6 h5;
  v ← update v 5 h4;
  v ← update v 4 (wrapping_add h3 temp1);
  v ← update v 3 h2;
  v ← update v 2 h1;
  v ← update v 1 h0;
  update v 0 (wrapping_add temp1 temp2).

(** The last loop of [update_h]. *)
Definition add_h (v : list Z) (i : nat) (hs : list Z) : res (list Z) :=
  h_i ← index hs i;
  v_i ← index v i;
  update hs i (wrapping_add h_i v_i).

Definition update_h (self : Sha256) : res Sha256 :=
  v ← for_each (imap pair K_TABLE) (hash_round (w_table self)) (h self);
  hs ← for_each (range 0 (length (h self))) (add_h v) (h self);
  Ok (set_h hs self).

(** [update_w_table(chunk); update_h()]. *)
Definition process (chunk : list Z) (self : Sha256) : res Sha256 :=
  self ← update_w_table chunk self;
  update_h self.

(** The loop over the whole blocks of the message, and what is left. *)
Fixpoint blocks_loop (fuel : nat) (message : list Z) (self : Sha256) : res (list Z * Sha256) :=
  if (64 <=? length message)%nat then
    match fuel with
    | O => NoFuel
    | S fuel =>
      chunk ← slice_to message 64;
      self ← process chunk self;
      message ← slice_from message 64;
      blocks_loop fuel message self
    end
  else Ok (message, self).

(** The part of [update] after the pending bytes were dealt with. *)
Definition absorb (message : list Z) (self : Sha256) : res Sha256 :=
  '(message, self) ← blocks_loop (length message) message self;
  if (length message =? 0)%nat then Ok self
  else
    b ← write_slice (bytes_remain self) 0 message;
    Ok (set_remain b (length message) self).

(** The 64-byte chunk made of the pending bytes and [rest]. *)
Definition pending_chunk (self : Sha256) : res (list Z) :=
  pend ← slice_to (bytes_remain self) (bytes_remain_len self);
  write_slice (replicate 64 0) 0 pend.

Definition sha_update (message : list Z) : ST Sha256 unit := λ self,
  bits ← 8 *! Z.of_nat (length message);
  len ← message_len self +! bits;
  let self := set_len len self in
  let r := bytes_remain_len self in
  if (0 <? r)%nat then
    if (64 <=? r + length message)%nat then
      chunk ← pending_chunk self;
      first ← slice_to message (64 - r);
      chunk ← write_slice chunk r first;
      self ← process chunk self;
      message ← slice_to message (64 - r);
      self ← absorb message (set_remain (bytes_remain self) 0 self);
      Ok (tt, self)
    else
      b ← write_slice (bytes_remain self) r message;
      Ok (tt, set_remain b (r + length message) self)
  else
    self ← absorb message self;
    Ok (tt, self).

(** The loop of [digest] that writes the words of [h] into [sum]. *)
Definition write_digest (hs sum : list Z) : res (list Z) :=
  for_each (imap pair hs) (λ '(i, word) sum,
    write_slice sum (4 * i)%nat (to_be_bytes 4 word)) sum.

Definition sha_digest (sum : list Z) : ST Sha256 (list Z) := λ self,
  let r := bytes_remain_len self in
  self ← (if (64 - 9 <? r)%nat then
            chunk ← pending_chunk self;
            chunk ← update chunk r 0x80;
            self ← process chunk self;
            chunk ← write_slice (replicate 64 0) 56 (to_be_bytes 8 (message_len self));
            process chunk self
          else
            chunk ← pending_chunk self;
            chunk ← update chunk r 0x80;
            chunk ← write_slice chunk 56 (to_be_bytes 8 (message_len self));
            process chunk self);
  sum ← write_digest (h self) sum;
  Ok (sum, self).

#[global] Instance Sha256_Hash : Hash Sha256 := {|
  hash_DIGEST_LEN := SHA256_DIGEST_LEN;
  hash_default := Sha256_default;
  hash_update := sha_update;
  hash_digest := sha_digest;
|}.
