(* ===== verification/Sha256Theorems.v ===== *)
(** * Correctness of SHA-256

    A reference definition in the terms of FIPS 180-4 (functions, constants from
    the roots of primes, padding, blocks, message schedule, compression) that uses
    nothing of the code and is checked on test vectors, the relation between the
    state of the code and the message absorbed so far, and the proofs that one [update] followed by
    [digest] computes the hash, that [update] keeps the relation unless it
    completes a pending block, and what it absorbs instead when it does. *)

From S2P Require Import Prelude Bytes CryptoFramework Sha256.

(** ** Reference *)

(** Section 4.1.2: the functions on 32-bit words. *)
Definition ROTR (n x : Z) : Z := Z.lor (Z.shiftr x n) (Z.shiftl x (32 - n) mod 2 ^ 32).
Definition SHR (n x : Z) : Z := Z.shiftr x n.
Definition NOT32 (x : Z) : Z := 2 ^ 32 - 1 - x.
Definition Ch (x y z : Z) : Z := Z.lxor (Z.land x y) (Z.land (NOT32 x) z).
Definition Maj (x y z : Z) : Z := Z.lxor (Z.lxor (Z.land x y) (Z.land x z)) (Z.land y z).
Definition SIGMA0 (x : Z) : Z := Z.lxor (Z.lxor (ROTR 2 x) (ROTR 13 x)) (ROTR 22 x).
Definition SIGMA1 (x : Z) : Z := Z.lxor (Z.lxor (ROTR 6 x) (ROTR 11 x)) (ROTR 25 x).
Definition sigma0 (x : Z) : Z := Z.lxor (Z.lxor (ROTR 7 x) (ROTR 18 x)) (SHR 3 x).
Definition sigma1 (x : Z) : Z := Z.lxor (Z.lxor (ROTR 17 x) (ROTR 19 x)) (SHR 10 x).

(** Sections 4.2.2 and 5.3.3: the first 32 bits of the fractional parts of the
    cube roots of the first 64 primes, and of the square roots of the first 8. *)
Definition is_prime (n : Z) : bool :=
  (2 <=? n) && forallb (λ d, negb (n mod Z.of_nat d =? 0)) (seq 2 (Z.to_nat n - 2)).
Definition first_primes : list Z := filter is_prime (Z.of_nat <$> seq 2 310).
Definition root_bits (r : Z → Z → bool) (n : Z) : Z :=
  foldl (λ a i, let a' := a + 2 ^ Z.of_nat (39 - i) in if r a' n then a' else a) 0 (seq 0 40).
Definition cube_root_bits (p : Z) : Z := root_bits (λ a n, a ^ 3 <=? n) (p * 2 ^ 96) mod 2 ^ 32.
Definition square_root_bits (p : Z) : Z := root_bits (λ a n, a ^ 2 <=? n) (p * 2 ^ 64) mod 2 ^ 32.
Definition sha_K : list Z := cube_root_bits <$> take 64 first_primes.
Definition sha_H0 : list Z := square_root_bits <$> take 8 first_primes.

Definition sha_next_word (w : list Z) : Z :=
  let t := length w in
  (sigma1 (w !!! (t - 2)%nat) + w !!! (t - 7)%nat + sigma0 (w !!! (t - 15)%nat)
   + w !!! (t - 16)%nat) mod 2 ^ 32.

Fixpoint be_words (n : nat) (l : list Z) : list Z :=
  match n with O => [] | S n => from_be_bytes (take 4 l) :: be_words n (drop 4 l) end.

Definition sha_schedule (block : list Z) : list Z :=
  Nat.iter 48 (λ w, w ++ [sha_next_word w]) (be_words 16 block).

Definition sha_round (v : list Z) (kw : Z * Z) : list Z :=
  match v with
  | [a; b; c; d; e; f; g; h] =>
    let T1 := (h + SIGMA1 e + Ch e f g + kw.1 + kw.2) mod 2 ^ 32 in
    let T2 := (SIGMA0 a + Maj a b c) mod 2 ^ 32 in
    [(T1 + T2) mod 2 ^ 32; a; b; c; (d + T1) mod 2 ^ 32; e; f; g]
  | _ => v
  end.

Definition block_hash (hs block : list Z) : list Z :=
  zip_with (λ x y, (x + y) mod 2 ^ 32) hs (foldl sha_round hs (zip sha_K (sha_schedule block))).

Fixpoint blocks (n : nat) (l : list Z) : list (list Z) :=
  match n with O => [] | S n => take 64 l :: blocks n (drop 64 l) end.

(** The chaining value after the whole blocks of a message, from [hs], for a
    compression function [bh]. *)
Definition hash_blocks (bh : list Z → list Z → list Z) (hs l : list Z) : list Z :=
  foldl bh hs (blocks (length l / 64) l).

Definition sha_pad (n : Z) (m : list Z) : list Z :=
  m ++ [0x80] ++ replicate ((119 - length m mod 64) mod 64)%nat 0 ++ to_be_bytes 8 n.

Definition SHA256_spec (m : list Z) : list Z :=
  mjoin (to_be_bytes 4 <$> hash_blocks block_hash sha_H0 (sha_pad (8 * Z.of_nat (length m)) m)).

(** The examples of the standard: the hash of "abc", and of a message of two
    blocks. *)
Definition ABC_DIGEST : list Z := to_be_bytes 32
  0xba7816bf8f01cfea414140de5dae2223b00361a396177a9cb410ff61f20015ad.
Example SHA256_abc : SHA256_spec [0x61; 0x62; 0x63] = ABC_DIGEST.
Proof. vm_compute. reflexivity. Qed.
Example SHA256_two_blocks :
  SHA256_spec (mjoin ((λ i, Z.of_nat <$> seq i 4) <$> seq 0x61 14)) = to_be_bytes 32
    0x248d6a61d20638b8e5c026930c3e6039a33ce45964ff2167f6ecedd419db06c1.
Proof. vm_compute. reflexivity. Qed.

(** The tables of the code are these constants. *)
Lemma K_TABLE_primes : sha_K = K_TABLE.
Proof. vm_compute. reflexivity. Qed.
Lemma H0_primes : sha_H0 = h Sha256_default.
Proof. vm_compute. reflexivity. Qed.

(** ** The message schedule *)

Lemma wrapping_add_sum a b : wrapping_add (a mod U32) b = (a + b) mod U32.
Proof. unfold wrapping_add. by rewrite Z.add_mod_idemp_l by done. Qed.

Lemma be_words_S n l : be_words (S n) l = from_be_bytes (take 4 l) :: be_words n (drop 4 l).
Proof. done. Qed.
Lemma length_be_words n l : length (be_words n l) = n.
Proof. revert l. induction n as [|n IH]; intros l; [done|]. rewrite be_words_S. simpl. by rewrite IH. Qed.

Lemma slice_to_Ok l n : (n ≤ length l)%nat → slice_to l n = Ok (take n l).
Proof. intros. unfold slice_to. by rewrite (proj2 (Nat.leb_le _ _)). Qed.
Lemma slice_from_Ok l n : (n ≤ length l)%nat → slice_from l n = Ok (drop n l).
Proof. intros. unfold slice_from. by rewrite (proj2 (Nat.leb_le _ _)). Qed.

Lemma load_word_spec i w message :
  (4 ≤ length message)%nat → (i < length w)%nat →
  load_word i (w, message) = Ok (<[i:=from_be_bytes (take 4 message)]> w, drop 4 message).
Proof.
  intros Hm Hw. unfold load_word. rewrite slice_to_Ok, bind_Ok by lia.
  by rewrite update_Ok, bind_Ok, slice_from_Ok, bind_Ok by lia.
Qed.

Lemma load_words_spec n i w message :
  (4 * n ≤ length message)%nat → (i + n ≤ length w)%nat →
  for_each (seq i n) load_word (w, message)
  = Ok (take i w ++ be_words n message ++ drop (i + n) w, drop (4 * n) message).
Proof.
  revert i w message. induction n as [|n IH]; intros i w message Hm Hw.
  - cbn [seq for_each be_words app]. rewrite Nat.add_0_r, take_drop. by rewrite Nat.mul_0_r, drop_0.
  - cbn [seq for_each]. rewrite load_word_spec, bind_Ok by lia.
    rewrite IH by (rewrite ?length_drop, ?length_insert; lia). f_equal. f_equal.
    + rewrite (take_S_r _ i (from_be_bytes (take 4 message))) by (apply list_lookup_insert_eq; lia).
      rewrite take_insert_ge, drop_insert_lt by lia. rewrite <- !(assoc_L (++)). simpl.
      do 3 f_equal. f_equal. lia.
    + rewrite drop_drop. f_equal. lia.
Qed.

(** What the second loop writes: the table holds the schedule up to [i]. *)
Lemma schedule_word_spec w s i :
  (16 ≤ i)%nat → length s = i → (i < length w)%nat → take i w = s →
  schedule_word i w = Ok (<[i:=sha_next_word s]> w).
Proof.
  intros Hi Hs Hw Ht. unfold schedule_word.
  assert (∀ k, (1 ≤ k ≤ 16)%nat → index w (i - k) = Ok (s !!! (i - k)%nat)) as Hidx.
  { intros k Hk. apply index_Ok. rewrite <- Ht.
    rewrite <- (lookup_take_lt w i) by lia. apply list_lookup_lookup_total_lt.
    rewrite length_take. lia. }
  rewrite !Hidx, !bind_Ok, update_Ok by lia. do 2 f_equal.
  unfold sha_next_word. rewrite Hs. change sigma0 with ssig0. change sigma1 with ssig1.
  change (2 ^ 32) with U32. unfold wrapping_add.
  rewrite Z.add_mod_idemp_l, <- Z.add_assoc, Z.add_mod_idemp_l by done. f_equal. lia.
Qed.

Lemma schedule_loop_spec n i w s :
  (16 ≤ i)%nat → length s = i → (i + n ≤ length w)%nat → take i w = s →
  for_each (seq i n) schedule_word w
  = Ok (Nat.iter n (λ s, s ++ [sha_next_word s]) s ++ drop (i + n) w).
Proof.
  revert i w s. induction n as [|n IH]; intros i w s Hi Hs Hw Ht.
  - rewrite Nat.add_0_r. simpl. by rewrite <- Ht, take_drop.
  - cbn [seq for_each]. rewrite (schedule_word_spec w s i), bind_Ok by (done || lia).
    rewrite (IH (S i) _ (s ++ [sha_next_word s])).
    + rewrite Nat.iter_succ_r, drop_insert_lt by lia. do 3 f_equal. lia.
    + lia.
    + rewrite length_app. simpl. lia.
    + rewrite length_insert. lia.
    + rewrite (take_S_r _ i (sha_next_word s)) by (apply list_lookup_insert_eq; lia).
      rewrite take_insert_ge by lia. by rewrite Ht.
Qed.

Lemma update_w_table_spec chunk self :
  length chunk = 64%nat → length (w_table self) = 64%nat →
  update_w_table chunk self = Ok (set_w (sha_schedule chunk) self).
Proof.
  intros Hc Hw. unfold update_w_table. change (range 0 16) with (seq 0 16).
  rewrite load_words_spec, bind_Ok by lia. rewrite take_0, app_nil_l.
  change (range 16 64) with (seq 16 48).
  rewrite (schedule_loop_spec _ _ _ (be_words 16 chunk)).
  - rewrite bind_Ok. unfold sha_schedule.
    rewrite (drop_ge _ (16 + 48)), app_nil_r; [exact eq_refl|]. rewrite length_app, length_be_words, length_drop. lia.
  - lia.
  - apply length_be_words.
  - rewrite length_app, length_be_words, length_drop. lia.
  - rewrite take_app_length'; [done|]. by rewrite length_be_words.
Qed.

Lemma length_iter_app {A} (f : list A → A) n l :
  length (Nat.iter n (λ s, s ++ [f s]) l) = (length l + n)%nat.
Proof. induction n as [|n IH]; simpl; [lia|]. rewrite length_app, IH. simpl. lia. Qed.

Lemma length_sha_schedule chunk : length (sha_schedule chunk) = 64%nat.
Proof. unfold sha_schedule. by rewrite length_iter_app, length_be_words. Qed.

(** ** Compression *)

Lemma sum_mod_4 a b c d e :
  wrapping_add (wrapping_add (wrapping_add (wrapping_add a b) c) d) e = (a + b + c + d + e) mod U32.
Proof. unfold wrapping_add at 4. by rewrite !wrapping_add_sum. Qed.

Lemma hash_round_spec w v round k x :
  length v = 8%nat → w !! round = Some x → hash_round w (round, k) v = Ok (sha_round v (k, x)).
Proof.
  intros Hv Hx. do 8 (destruct v as [|? v]; [done|]). destruct v; [|done]. unfold hash_round.
  rewrite (index_Ok _ _ _ Hx). unfold sha_round. cbn [fst snd]. rewrite <- sum_mod_4. reflexivity.
Qed.

Lemma length_sha_round v kx : length (sha_round v kx) = length v.
Proof. do 8 (destruct v as [|? v]; [done|]). by destruct v. Qed.

Lemma rounds_loop_spec ks i w v :
  length v = 8%nat → (i + length ks ≤ length w)%nat →
  for_each (imap (λ j, pair (i + j)%nat) ks) (hash_round w) v
  = Ok (foldl sha_round v (zip ks (drop i w))) ∧ length (foldl sha_round v (zip ks (drop i w))) = 8%nat.
Proof.
  revert i v. induction ks as [|k ks IH]; intros i v Hv Hw; [done|].
  cbn [length] in Hw. destruct (lookup_lt_is_Some_2 w i) as [x Hx]; [lia|].
  rewrite (drop_S w x i) by done. cbn [imap for_each zip_with foldl].
  rewrite Nat.add_0_r, (hash_round_spec _ _ _ _ x), bind_Ok by done.
  destruct (IH (S i) (sha_round v (k, x))) as [IH1 IH2]; [by rewrite length_sha_round|lia|].
  split; [|exact IH2]. rewrite <- IH1. f_equal. apply imap_ext. intros j y _. simpl. f_equal. lia.
Qed.

Lemma add_h_spec v hs : length v = length hs →
  for_each (range 0 (length hs)) (add_h v) hs = Ok (zip_with (λ x y, (x + y) mod U32) hs v).
Proof.
  intros Hl. rewrite <- (imap_zip_with _ _ _ 0) by lia.
  apply (for_each_in_place _ (λ i a, (a + default 0 (v !! i)) mod U32)); [done|].
  intros i b l Hb Hi. unfold add_h. rewrite (index_Ok l i b Hi), bind_Ok.
  apply lookup_lt_Some in Hb. destruct (lookup_lt_is_Some_2 v i) as [y Hy]; [lia|].
  rewrite (index_Ok v i y Hy), Hy. apply update_Ok. by apply lookup_lt_Some in Hi.
Qed.

Lemma process_spec chunk self :
  length chunk = 64%nat → length (w_table self) = 64%nat → length (h self) = 8%nat →
  process chunk self = Ok (set_h (block_hash (h self) chunk) (set_w (sha_schedule chunk) self)) ∧
  length (block_hash (h self) chunk) = 8%nat.
Proof.
  intros Hc Hw Hh. unfold process. rewrite update_w_table_spec, bind_Ok by done. unfold update_h.
  destruct self as [n wt br bl hh]. cbn [set_w w_table h message_len bytes_remain bytes_remain_len] in *.
  pose proof (length_sha_schedule chunk) as Hs. unfold block_hash. rewrite K_TABLE_primes.
  destruct (rounds_loop_spec K_TABLE 0 (sha_schedule chunk) hh Hh) as [H1 H2];
    [rewrite Hs; change (length K_TABLE) with 64%nat; lia|].
  rewrite drop_0 in H1, H2. change (imap (λ j, pair (0 + j)%nat) K_TABLE) with (imap pair K_TABLE) in H1.
  rewrite H1, bind_Ok. revert H2. generalize (foldl sha_round hh (zip K_TABLE (sha_schedule chunk))).
  intros v Hv. rewrite add_h_spec, bind_Ok by lia. split; [done|]. rewrite length_zip_with. lia.
Qed.

(** ** Whole blocks and the rest of a message *)

Definition tail (m : list Z) : list Z := drop (64 * (length m / 64)) m.

Lemma length_tail m : length (tail m) = (length m mod 64)%nat.
Proof. unfold tail. rewrite length_drop. pose proof (Nat.div_mod_eq (length m) 64). lia. Qed.

Lemma tail_small m : (length m < 64)%nat → tail m = m.
Proof. intros Hm. unfold tail. by rewrite Nat.div_small, Nat.mul_0_r, drop_0. Qed.

Section absorb.
Context (bh : list Z → list Z → list Z).
Abbreviation hash_blocks := (hash_blocks bh).

Lemma hash_blocks_small hs m : (length m < 64)%nat → hash_blocks hs m = hs.
Proof. intros Hm. unfold Sha256Theorems.hash_blocks. by rewrite Nat.div_small. Qed.

Lemma block_app a b : length a = 64%nat →
  tail (a ++ b) = tail b ∧ ∀ hs, hash_blocks hs (a ++ b) = hash_blocks (bh hs a) b.
Proof.
  intros Ha. assert (length (a ++ b) / 64 = S (length b / 64))%nat as Hd.
  { rewrite length_app, Ha. replace (64 + length b)%nat with (length b + 1 * 64)%nat by lia.
    rewrite Nat.div_add by lia. lia. }
  unfold tail, Sha256Theorems.hash_blocks. rewrite Hd. split.
  - replace (64 * S (length b / 64))%nat with (length a + 64 * (length b / 64))%nat by lia.
    apply drop_app_add.
  - intros hs. cbn [blocks foldl]. by rewrite take_app_length', drop_app_length' by done.
Qed.

Lemma whole_app q a b : length a = (64 * q)%nat →
  tail (a ++ b) = tail b ∧ ∀ hs, hash_blocks hs (a ++ b) = hash_blocks (hash_blocks hs a) b.
Proof.
  revert a. induction q as [|q IH]; intros a Ha.
  { destruct a; [|done]. split; [done|]. intros hs. rewrite (hash_blocks_small hs []) by (simpl; lia). done. }
  rewrite <- (take_drop 64 a). rewrite <- (assoc_L (++)).
  assert (length (take 64 a) = 64%nat) as H64 by (rewrite length_take; lia).
  destruct (IH (drop 64 a)) as [IHt IHh]; [rewrite length_drop; lia|].
  destruct (block_app (take 64 a) (drop 64 a ++ b) H64) as [Ht Hh].
  destruct (block_app (take 64 a) (drop 64 a) H64) as [_ Hh'].
  split; [by rewrite Ht|]. intros hs. by rewrite Hh, Hh', IHh.
Qed.

(** A message is its whole blocks followed by its tail. *)
Lemma whole_tail m : ∃ a q, m = a ++ tail m ∧ length a = (64 * q)%nat ∧
  ∀ hs, hash_blocks hs m = hash_blocks hs a.
Proof.
  pose proof (Nat.div_mod_eq (length m) 64) as Hd.
  exists (take (64 * (length m / 64)) m), (length m / 64)%nat.
  assert (length (take (64 * (length m / 64)) m) = 64 * (length m / 64))%nat as Ha
    by (rewrite length_take; lia).
  split_and!; [by rewrite <- (take_drop (64 * (length m / 64)) m) at 1|done|].
  intros hs. rewrite <- (take_drop (64 * (length m / 64)) m) at 1.
  rewrite (proj2 (whole_app _ _ _ Ha)). apply hash_blocks_small.
  fold (tail m). rewrite length_tail. by apply Nat.mod_upper_bound.
Qed.

Context (process_law : ∀ chunk self,
  length chunk = 64%nat → length (w_table self) = 64%nat → length (h self) = 8%nat →
  ∃ w, process chunk self = Ok (set_h (bh (h self) chunk) (set_w w self)) ∧
    length w = 64%nat ∧ length (bh (h self) chunk) = 8%nat).

Definition sha_shape (self : Sha256) : Prop :=
  length (w_table self) = 64%nat ∧ length (bytes_remain self) = 64%nat ∧ length (h self) = 8%nat.

(** The state after the bytes [m], with [n] bits counted. *)
Definition absorbed (self : Sha256) (m : list Z) (n : Z) : Prop :=
  sha_shape self ∧ message_len self = n ∧
  bytes_remain_len self = length (tail m) ∧
  take (length (tail m)) (bytes_remain self) = tail m ∧
  h self = hash_blocks (h Sha256_default) m.

Lemma process_shape chunk self :
  sha_shape self → length chunk = 64%nat →
  ∃ self', process chunk self = Ok self' ∧ sha_shape self' ∧ h self' = bh (h self) chunk ∧
    message_len self' = message_len self ∧ bytes_remain self' = bytes_remain self ∧
    bytes_remain_len self' = bytes_remain_len self.
Proof.
  intros (Hw & Hb & Hh) Hc. destruct (process_law chunk self Hc Hw Hh) as (w & -> & Hlw & Hlh).
  eexists. split; [done|]. by split_and!.
Qed.

Lemma blocks_loop_spec fuel message self :
  (length message ≤ fuel)%nat → sha_shape self →
  ∃ self', blocks_loop fuel message self = Ok (tail message, self') ∧ sha_shape self' ∧
    h self' = hash_blocks (h self) message ∧
    message_len self' = message_len self ∧ bytes_remain self' = bytes_remain self ∧
    bytes_remain_len self' = bytes_remain_len self.
Proof.
  revert message self. induction fuel as [|fuel IH]; intros message self Hf Hs; cbn [blocks_loop].
  - destruct message; [|simpl in Hf; lia]. exists self. split; [done|]. split_and!; done.
  - destruct (Nat.leb_spec 64 (length message)) as [Hl|Hl].
    + rewrite slice_to_Ok, bind_Ok by done.
      destruct (process_shape (take 64 message) self Hs) as (s1 & -> & Hs1 & Hh1 & Hn1 & Hb1 & Hr1);
        [rewrite length_take; lia|].
      rewrite bind_Ok, slice_from_Ok, bind_Ok by done.
      destruct (IH (drop 64 message) s1) as (s2 & -> & Hs2 & Hh2 & Hn2 & Hb2 & Hr2);
        [rewrite length_drop; lia|done|].
      destruct (block_app (take 64 message) (drop 64 message)) as [Ht Hh];
        [rewrite length_take; lia|]. rewrite take_drop in Ht, Hh.
      exists s2. rewrite Ht, Hh, Hh2, Hh1, Hn2, Hb2, Hr2. by split_and!.
    + exists self. rewrite tail_small, hash_blocks_small by lia. by split_and!.
Qed.

(** [absorb] from a state without pending bytes. *)
Lemma absorb_spec a q self message :
  sha_shape self → length a = (64 * q)%nat → bytes_remain_len self = 0%nat →
  h self = hash_blocks (h Sha256_default) a →
  ∃ self', absorb message self = Ok self' ∧ absorbed self' (a ++ message) (message_len self).
Proof.
  intros Hs Ha Hr Hh. unfold absorb. destruct (whole_app q a message Ha) as [Ht Hha].
  destruct (blocks_loop_spec (length message) message self) as (s1 & -> & Hs1 & Hh1 & Hn1 & Hb1 & Hr1);
    [done..|]. rewrite bind_Ok.
  assert (length (tail message) < 64)%nat as Hlt
    by (rewrite length_tail; by apply Nat.mod_upper_bound).
  destruct (Nat.eqb_spec (length (tail message)) 0) as [H0|H0].
  - exists s1. split; [done|]. unfold absorbed. rewrite Ht, Hha, <- Hh, H0.
    apply nil_length_inv in H0. rewrite H0. split_and!; [done|done|by rewrite Hr1|done|done].
  - pose proof (write_slice_spec [] (bytes_remain s1) (tail message)) as Hws. cbn [app length] in Hws.
    destruct Hs1 as (Hsw & Hsb & Hsh).
    rewrite Hws, bind_Ok by lia. eexists. split; [done|].
    unfold absorbed, sha_shape. cbn [set_remain w_table bytes_remain h message_len bytes_remain_len].
    rewrite Ht, Hha, <- Hh. split_and!; try done.
    + rewrite length_app, length_drop. lia.
    + by rewrite take_app_length.
Qed.

(** The pending bytes in a chunk of zeros. *)
Lemma pending_chunk_spec self m n :
  absorbed self m n →
  pending_chunk self = Ok (tail m ++ replicate (64 - length (tail m)) 0) ∧ (length (tail m) < 64)%nat.
Proof.
  intros ((_ & Hb & _) & _ & Hr & Hp & _).
  assert (length (tail m) < 64)%nat as Hlt
    by (rewrite length_tail; by apply Nat.mod_upper_bound).
  split; [|done]. unfold pending_chunk. rewrite Hr, slice_to_Ok, bind_Ok, Hp by lia.
  pose proof (write_slice_spec [] (replicate 64 0) (tail m)) as Hw. cbn [app length] in Hw.
  rewrite Hw by (rewrite length_replicate; lia). by rewrite drop_replicate.
Qed.

(** [update] on a state that has absorbed [m]. *)
Lemma sha_update_spec self m n x :
  absorbed self m n → 0 ≤ n → n + 8 * Z.of_nat (length x) < U64 →
  let r := length (tail m) in
  let m' := if ((0 <? r) && (64 <=? r + length x))%nat
            then m ++ take (64 - r) x ++ take (64 - r) x else m ++ x in
  ∃ self', sha_update x self = Ok (tt, self') ∧
    absorbed self' m' (n + 8 * Z.of_nat (length x)).
Proof.
  intros Habs Hn0 Hn r m'. unfold sha_update. pose proof Habs as (Hs & Hlen & Hr & Hp & Hh).
  rewrite umul_Ok, bind_Ok, Hlen, uadd_Ok, bind_Ok by lia.
  set (n' := n + 8 * Z.of_nat (length x)) in *. set (s0 := set_len n' self).
  assert (absorbed s0 m n') as Habs0 by done.
  assert (sha_shape s0) as Hs0 by done. change (bytes_remain_len s0) with (bytes_remain_len self).
  rewrite Hr. fold r in Hr, Hp |- *.
  assert (r < 64)%nat as Hr64 by (unfold r; rewrite length_tail; by apply Nat.mod_upper_bound).
  destruct (whole_tail m) as (a & q & Hm & Ha & Hha).
  destruct (Nat.ltb_spec 0 r) as [Hpos|Hzero]; [destruct (Nat.leb_spec 64 (r + length x)) as [Hbig|Hsmall]|].
  - destruct (pending_chunk_spec s0 m n' Habs0) as [-> _]. rewrite bind_Ok, slice_to_Ok, bind_Ok by lia.
    fold r.
    rewrite write_slice_spec, bind_Ok by (rewrite length_take, length_replicate; lia).
    rewrite (drop_ge (replicate _ _)), app_nil_r by (rewrite length_replicate, length_take; lia).
    assert (length (tail m ++ take (64 - r) x) = 64%nat) as Hc by (rewrite length_app, length_take; lia).
    destruct (process_shape _ s0 Hs0 Hc) as (s1 & -> & Hs1 & Hh1 & Hn1 & _ & _). rewrite !bind_Ok.
    destruct (absorb_spec (m ++ take (64 - r) x) (S q) (set_remain (bytes_remain s1) 0 s1) (take (64 - r) x))
      as (s2 & -> & Habs2).
    + done.
    + rewrite Hm, <- (assoc_L (++)), length_app, Hc, Ha. lia.
    + done.
    + cbn [set_remain h]. rewrite Hh1. cbn [s0 set_len h]. rewrite Hh, Hha.
      rewrite Hm at 2. rewrite <- (assoc_L (++)), (proj2 (whole_app q a _ Ha)).
      rewrite <- (app_nil_r (tail m ++ _)) at 2.
      rewrite (proj2 (block_app _ [] Hc)). symmetry. apply hash_blocks_small. simpl. lia.
    + exists s2. split; [done|]. cbn [set_remain message_len] in Habs2. rewrite Hn1 in Habs2.
      unfold m'. cbn [andb]. by rewrite (assoc_L (++)).
  - assert (bytes_remain s0 = tail m ++ drop r (bytes_remain s0)) as Hbr.
    { rewrite <- Hp. symmetry. apply take_drop. }
    assert (length (bytes_remain s0) = 64%nat) as Hl by apply Hs0.
    pose proof (write_slice_spec (tail m) (drop r (bytes_remain s0)) x) as Hw. fold r in Hw.
    rewrite Hbr, Hw, bind_Ok by (rewrite length_drop; lia). eexists. split; [done|].
    unfold m'. cbn [andb]. destruct (whole_app q a (tail m ++ x) Ha) as [Ht Hhx].
    rewrite (assoc_L (++)), <- Hm in Ht, Hhx.
    assert (length (tail m ++ x) < 64)%nat as Hsm by (rewrite length_app; lia).
    unfold absorbed, sha_shape. rewrite Ht, Hhx, (tail_small (tail m ++ x)), (hash_blocks_small _ (tail m ++ x)) by done.
    destruct Hs0 as (Hw0 & _ & Hh0). cbn [set_remain w_table bytes_remain h message_len bytes_remain_len].
    split_and!; try done.
    + rewrite !length_app, !length_drop. fold r. lia.
    + by rewrite length_app.
    + by rewrite (assoc_L (++)), take_app_length.
    + cbn [s0 set_len h]. rewrite Hh. apply Hha.
  - assert (tail m = []) as Ht0 by (apply nil_length_inv; unfold r in Hzero; lia).
    rewrite Ht0, app_nil_r in Hm. subst a.
    destruct (absorb_spec m q s0 x) as (s1 & -> & Habs1); [done|done|cbn [s0 set_len bytes_remain_len]; lia|done|].
    by exists s1.
Qed.

(** ** [digest] *)

Lemma sha_pad_tail n m : ∃ a q, length a = (64 * q)%nat ∧ sha_pad n m = a ++ sha_pad n (tail m) ∧
  ∀ hs, hash_blocks hs m = hash_blocks hs a.
Proof.
  destruct (whole_tail m) as (a & q & Hm & Ha & Hh). exists a, q. split_and!; [done| |done].
  unfold sha_pad. rewrite length_tail, Nat.Div0.mod_mod, (assoc_L (++) a), <- Hm. done.
Qed.

(** The padding of a tail is one chunk or two. *)
Lemma sha_pad_one n t : (length t ≤ 55)%nat →
  sha_pad n t = t ++ [0x80] ++ replicate (55 - length t) 0 ++ to_be_bytes 8 n.
Proof.
  intros Ht. unfold sha_pad. rewrite (Nat.mod_small (length t)) by lia. do 4 f_equal.
  replace (119 - length t)%nat with ((55 - length t) + 1 * 64)%nat by lia.
  rewrite Nat.Div0.mod_add. apply Nat.mod_small. lia.
Qed.

Lemma sha_pad_two n t : (55 < length t < 64)%nat →
  sha_pad n t = (t ++ [0x80] ++ replicate (63 - length t) 0) ++ replicate 56 0 ++ to_be_bytes 8 n.
Proof.
  intros Ht. unfold sha_pad. rewrite (Nat.mod_small (length t)), Nat.mod_small by lia.
  rewrite <- !(assoc_L (++)). do 2 f_equal. rewrite (assoc_L (++)), <- replicate_add.
  do 2 f_equal. lia.
Qed.

(** [chunk[r] = 0x80] on the pending chunk. *)
Lemma mark_chunk t : (length t < 64)%nat →
  update (t ++ replicate (64 - length t) 0) (length t) 0x80
  = Ok (t ++ [0x80] ++ replicate (63 - length t) 0).
Proof.
  intros Ht. rewrite update_Ok by (rewrite length_app, length_replicate; lia).
  rewrite insert_app_r_alt, Nat.sub_diag by lia.
  by replace (64 - length t)%nat with (S (63 - length t)) by lia.
Qed.

Lemma write_length t n : (length t ≤ 55)%nat →
  write_slice (t ++ [0x80] ++ replicate (63 - length t) 0) 56 (to_be_bytes 8 n) = Ok (sha_pad n t).
Proof.
  intros Ht. rewrite sha_pad_one by done.
  replace (63 - length t)%nat with ((55 - length t) + 8)%nat by lia.
  rewrite replicate_add, !(assoc_L (++)).
  pose proof (write_slice_spec ((t ++ [128]) ++ replicate (55 - length t) 0) (replicate 8 0)
    (to_be_bytes 8 n)) as Hw.
  rewrite !length_app, !length_replicate, length_to_be_bytes in Hw. cbn [length] in Hw.
  replace (length t + 1 + (55 - length t))%nat with 56%nat in Hw by lia.
  rewrite Hw by lia. cbn [drop replicate]. by rewrite app_nil_r.
Qed.

Lemma write_digest_loop hs i pre suf :
  length pre = (4 * i)%nat → length suf = (4 * length hs)%nat →
  for_each (imap (λ j, pair (i + j)%nat) hs)
    (λ '(i, word) sum, write_slice sum (4 * i)%nat (to_be_bytes 4 word)) (pre ++ suf)
  = Ok (pre ++ mjoin (to_be_bytes 4 <$> hs)).
Proof.
  revert i pre suf. induction hs as [|w hs IH]; intros i pre suf Hp Hs.
  { destruct suf; [done|done]. }
  cbn [imap for_each]. rewrite Nat.add_0_r, <- Hp.
  rewrite write_slice_spec, bind_Ok by (rewrite length_to_be_bytes; cbn [length] in Hs; lia).
  rewrite length_to_be_bytes, (assoc_L (++)).
  change (mjoin (to_be_bytes 4 <$> w :: hs)) with (to_be_bytes 4 w ++ mjoin (to_be_bytes 4 <$> hs)).
  rewrite (assoc_L (++)), <- (IH (S i) (pre ++ to_be_bytes 4 w) (drop 4 suf)).
  - f_equal. apply imap_ext. intros j y _. simpl. f_equal. lia.
  - rewrite length_app, length_to_be_bytes. lia.
  - rewrite length_drop. cbn [length] in Hs. lia.
Qed.

Lemma sha_digest_spec self m n sum :
  absorbed self m n → length sum = 32%nat →
  ∃ self', sha_digest sum self
    = Ok (mjoin (to_be_bytes 4 <$> hash_blocks (h Sha256_default) (sha_pad n m)), self').
Proof.
  intros Habs Hsum. destruct (pending_chunk_spec self m n Habs) as [Hpend Hlt].
  destruct Habs as (Hs & Hlen & Hr & _ & Hh).
  destruct (sha_pad_tail n m) as (a & q & Ha & Hpad & Hha).
  enough (∃ s1, (if (64 - 9 <? bytes_remain_len self)%nat then
      chunk ← pending_chunk self; chunk ← update chunk (bytes_remain_len self) 0x80;
      self ← process chunk self;
      chunk ← write_slice (replicate 64 0) 56 (to_be_bytes 8 (message_len self)); process chunk self
    else chunk ← pending_chunk self; chunk ← update chunk (bytes_remain_len self) 0x80;
      chunk ← write_slice chunk 56 (to_be_bytes 8 (message_len self)); process chunk self) = Ok s1 ∧
    sha_shape s1 ∧ h s1 = hash_blocks (h self) (sha_pad n (tail m))) as (s1 & He & (_ & _ & Hl1) & Hh1).
  { exists s1. unfold sha_digest. rewrite He, bind_Ok. unfold write_digest.
    pose proof (write_digest_loop (h s1) 0 [] sum) as Hw. cbn [app] in Hw.
    change (imap (λ j, pair (0 + j)%nat) (h s1)) with (imap pair (h s1)) in Hw.
    rewrite Hw by (done || lia). rewrite bind_Ok, Hpad, (proj2 (whole_app q a _ Ha)), <- Hha, <- Hh, Hh1.
    done. }
  rewrite Hr, Hpend, Hlen. set (t := tail m) in *.
  destruct (Nat.ltb_spec (64 - 9) (length t)) as [Hbig|Hsmall]; rewrite bind_Ok, mark_chunk, bind_Ok by done.
  - assert (length (t ++ [0x80] ++ replicate (63 - length t) 0) = 64%nat) as Hc1
      by (rewrite !length_app, length_replicate; simpl; lia).
    destruct (process_shape _ self Hs Hc1) as (s1 & -> & Hs1 & Hh1 & Hn1 & _). rewrite bind_Ok, Hn1, Hlen.
    change (replicate 64 0) with (replicate 56 0 ++ replicate 8 0).
    pose proof (write_slice_spec (replicate 56 0) (replicate 8 0) (to_be_bytes 8 n)) as Hw.
    rewrite length_to_be_bytes, !length_replicate in Hw. rewrite Hw, bind_Ok by lia.
    cbn [drop replicate app]. rewrite app_nil_r.
    assert (length (replicate 56 0 ++ to_be_bytes 8 n) = 64%nat) as Hc2
      by (by rewrite length_app, length_replicate, length_to_be_bytes).
    destruct (process_shape _ s1 Hs1 Hc2) as (s2 & He2 & Hs2 & Hh2 & _). exists s2.
    split; [exact He2|]. split; [done|]. rewrite Hh2, Hh1, sha_pad_two by lia.
    rewrite (proj2 (block_app _ _ Hc1)). rewrite <- (app_nil_r (replicate 56 0 ++ _)) at 2.
    rewrite (proj2 (block_app _ [] Hc2)). symmetry. apply hash_blocks_small. simpl. lia.
  - rewrite write_length, bind_Ok by lia.
    assert (length (sha_pad n t) = 64%nat) as Hc.
    { rewrite sha_pad_one, !length_app, length_replicate, length_to_be_bytes by lia.
      cbn in *. lia. }
    destruct (process_shape _ self Hs Hc) as (s1 & -> & Hs1 & Hh1 & _). exists s1.
    split; [done|]. split; [done|]. rewrite Hh1, <- (app_nil_r (sha_pad n t)) at 1.
    rewrite <- (app_nil_r (sha_pad n t)) at 2. rewrite (proj2 (block_app _ [] Hc)). symmetry.
    rewrite app_nil_r. apply hash_blocks_small. simpl. lia.
Qed.
End absorb.

(** ** Claims *)

(** [update] called on each piece of a message. *)
Fixpoint updates (xs : list (list Z)) : ST Sha256 unit :=
  match xs with
  | [] => mret tt
  | x :: xs => _ ← sha_update x; updates xs
  end.

(** No piece completes a block of which earlier pieces supplied the beginning;
    [r] is the number of pending bytes. *)
Fixpoint no_straddle (r : nat) (xs : list (list Z)) : bool :=
  match xs with
  | [] => true
  | x :: xs =>
    negb ((0 <? r) && (64 <=? r + length x))%nat && no_straddle ((r + length x) mod 64)%nat xs
  end.

Lemma block_hash_law chunk self :
  length chunk = 64%nat → length (w_table self) = 64%nat → length (h self) = 8%nat →
  ∃ w, process chunk self = Ok (set_h (block_hash (h self) chunk) (set_w w self)) ∧
    length w = 64%nat ∧ length (block_hash (h self) chunk) = 8%nat.
Proof.
  intros H1 H2 H3. destruct (process_spec chunk self H1 H2 H3) as [He Hl].
  exists (sha_schedule chunk). split; [exact He|]. split; [apply length_sha_schedule|exact Hl].
Qed.

Lemma default_absorbed : absorbed block_hash Sha256_default [] 0.
Proof. by repeat split. Qed.

Lemma updates_spec xs self m n :
  absorbed block_hash self m n → 0 ≤ n → no_straddle (length m mod 64) xs = true →
  n + 8 * Z.of_nat (length (mjoin xs)) < U64 →
  ∃ self', updates xs self = Ok (tt, self') ∧
    absorbed block_hash self' (m ++ mjoin xs) (n + 8 * Z.of_nat (length (mjoin xs))).
Proof.
  revert self m n. induction xs as [|x xs IH]; intros self m n Habs Hn Hns Hlen.
  { exists self. split; [done|]. rewrite app_nil_r. by rewrite Z.add_0_r. }
  change (mjoin (x :: xs)) with (x ++ mjoin xs) in *. rewrite length_app in *.
  cbn [no_straddle] in Hns. apply andb_true_iff in Hns as [Hx Hxs]. apply negb_true_iff in Hx.
  destruct (sha_update_spec block_hash block_hash_law self m n x Habs Hn) as (s1 & He & Habs1); [lia|].
  rewrite length_tail, Hx in Habs1.
  destruct (IH s1 (m ++ x) (n + 8 * Z.of_nat (length x))) as (s2 & He2 & Habs2); [done|lia| |lia|].
  { rewrite length_app. by rewrite <- Nat.Div0.add_mod_idemp_l. }
  exists s2. split.
  - cbn [updates]. unfold mbind, st_bind. rewrite He. exact He2.
  - rewrite <- (assoc_L (++)) in Habs2.
    replace (n + 8 * Z.of_nat (length x + length (mjoin xs)))
      with (n + 8 * Z.of_nat (length x) + 8 * Z.of_nat (length (mjoin xs))) by lia. done.
Qed.

(** C16: for a message given in one or more pieces none of which completes a
    pending block, [update] on each piece followed by [digest] returns the
    SHA-256 hash of the concatenation as FIPS 180-4 defines it, with constants
    computed from the roots of primes; in particular
    one [update] with the whole message does, for every message of less than
    2^61 bytes. *)
Theorem sha256_updates_digest (xs : list (list Z)) (sum : list Z) :
  no_straddle 0 xs = true → 8 * Z.of_nat (length (mjoin xs)) < U64 → length sum = 32%nat →
  ∃ self', (_ ← updates xs; sha_digest sum) Sha256_default = Ok (SHA256_spec (mjoin xs), self').
Proof.
  intros Hns Hlen Hsum.
  destruct (updates_spec xs Sha256_default [] 0 default_absorbed) as (s1 & He & Habs); [done..|].
  destruct (sha_digest_spec block_hash block_hash_law s1 _ _ sum Habs Hsum) as (s2 & He2).
  exists s2. unfold mbind at 1, st_bind. rewrite He. unfold SHA256_spec. rewrite H0_primes. exact He2.
Qed.

Lemma sha256_updates_digest_witness :
  ∃ self', (_ ← updates [[0x61]; [0x62; 0x63]]; sha_digest (replicate 32 0)) Sha256_default
    = Ok (ABC_DIGEST, self').
Proof.
  rewrite <- SHA256_abc.
  apply (sha256_updates_digest [[0x61]; [0x62; 0x63]] (replicate 32 0)); [reflexivity..|].
  reflexivity.
Defined.

(** A piece [y] that completes a pending block is not absorbed as it
    should be: the bytes of [y] that complete the block are absorbed a second
    time and the others are dropped, while the length counts all of [y].  After
    [x] and [y], [digest] returns the hash of [x ++ y1 ++ y1] padded with the
    length of [x ++ y], where [y1] is the part of [y] that completes the block. *)
Theorem sha256_update_straddle (x y sum : list Z) :
  let r := (length x mod 64)%nat in
  let y1 := take (64 - r) y in
  (0 < r)%nat → (64 ≤ r + length y)%nat →
  8 * Z.of_nat (length x + length y) < U64 → length sum = 32%nat →
  ∃ self', (_ ← sha_update x; _ ← sha_update y; sha_digest sum) Sha256_default
    = Ok (mjoin (to_be_bytes 4 <$> hash_blocks block_hash (h Sha256_default)
            (sha_pad (8 * Z.of_nat (length x + length y)) (x ++ y1 ++ y1))), self').
Proof.
  intros r y1 Hr Hy Hlen Hsum.
  destruct (sha_update_spec block_hash block_hash_law _ _ _ x default_absorbed) as (s1 & He1 & Habs1);
    [done|lia|]. cbn [tail length Nat.ltb Nat.leb andb app] in Habs1.
  destruct (sha_update_spec block_hash block_hash_law _ _ _ y Habs1) as (s2 & He2 & Habs2); [lia..|].
  rewrite length_tail in Habs2. fold r in Habs2.
  rewrite (proj2 (Nat.ltb_lt _ _) Hr), (proj2 (Nat.leb_le _ _) Hy) in Habs2. cbn [andb] in Habs2.
  destruct (sha_digest_spec block_hash block_hash_law s2 _ _ sum Habs2 Hsum) as (s3 & He3).
  exists s3. unfold mbind, st_bind. rewrite He1. cbn [mbind res_bind]. rewrite He2. cbn [mbind res_bind].
  rewrite He3. unfold y1.
  by replace (0 + 8 * Z.of_nat (length x) + 8 * Z.of_nat (length y))
    with (8 * Z.of_nat (length x + length y)) by lia.
Qed.

(** Sixty-three bytes, then two: not the hash of the sixty-five bytes. *)
Lemma sha256_update_straddle_witness :
  let x := replicate 63 0x61 in let y := [0x62; 0x63] in
  ∃ sum self', (_ ← sha_update x; _ ← sha_update y; sha_digest (replicate 32 0)) Sha256_default
    = Ok (sum, self') ∧ sum ≠ SHA256_spec (x ++ y).
Proof.
  intros x y.
  destruct (sha256_update_straddle x y (replicate 32 0)) as [s He]; [cbn; lia..|reflexivity|reflexivity|].
  eexists _, s. split; [exact He|]. vm_compute. discriminate.
Defined.
