(* ===== verification/HmacTheorems.v ===== *)
(** * HMAC over SHA-256

    The generic [Hmac] of the framework with the hash of [Sha256.v].  A key is
    fed to the two hashers byte by byte and is not extended to the block size,
    and the restriction on pieces of [Sha256Theorems.v] decides for which keys
    and messages the nested hash is computed. *)

From S2P Require Import Prelude Bytes CryptoFramework Sha256 Sha256Theorems.

Abbreviation sha_absorbed := (absorbed block_hash).

(** The two hashers after their keys, with [p] the constant of the pad. *)
Definition pad_key (p : Z) (key : list Z) : list Z := Z.lxor p <$> key.

Lemma sha_update_plain self m x :
  sha_absorbed self m (8 * Z.of_nat (length m)) →
  8 * Z.of_nat (length m + length x) < U64 →
  (length m mod 64 = 0 ∨ length m mod 64 + length x < 64)%nat →
  ∃ self', sha_update x self = Ok (tt, self') ∧
    sha_absorbed self' (m ++ x) (8 * Z.of_nat (length (m ++ x))).
Proof.
  intros Habs Hlen Hfit.
  destruct (sha_update_spec block_hash block_hash_law self m _ x Habs) as (s1 & He & Habs1); [lia..|].
  rewrite length_tail in Habs1.
  assert ((0 <? length m mod 64) && (64 <=? length m mod 64 + length x) = false)%nat as Hns.
  { apply andb_false_iff. rewrite Nat.ltb_ge, Nat.leb_gt. lia. }
  rewrite Hns in Habs1. exists s1. split; [exact He|]. rewrite length_app.
  replace (8 * Z.of_nat (length m + length x))
    with (8 * Z.of_nat (length m) + 8 * Z.of_nat (length x)) by lia. exact Habs1.
Qed.

Lemma hmac_set_key_spec key (i o : Sha256) mi mo :
  sha_absorbed i mi (8 * Z.of_nat (length mi)) → sha_absorbed o mo (8 * Z.of_nat (length mo)) →
  (length mi + length key < 64)%nat → (length mo + length key < 64)%nat →
  ∃ i' o', hmac_set_key key {| ihasher := i; ohasher := o |}
      = Ok (tt, {| ihasher := i'; ohasher := o' |}) ∧
    sha_absorbed i' (mi ++ pad_key 0x36 key) (8 * Z.of_nat (length (mi ++ pad_key 0x36 key))) ∧
    sha_absorbed o' (mo ++ pad_key 0x5c key) (8 * Z.of_nat (length (mo ++ pad_key 0x5c key))).
Proof.
  unfold hmac_set_key.
  revert i o mi mo. induction key as [|b key IH]; intros i o mi mo Hi Ho Hli Hlo.
  { exists i, o. split; [done|]. cbn [pad_key fmap list_fmap]. by rewrite !app_nil_r. }
  cbn [length] in Hli, Hlo. cbn [for_each ihasher ohasher hash_update Sha256_Hash].
  assert (∀ n, (n < 56)%nat → 8 * Z.of_nat n < U64) as Hu by (intros n Hn; unfold U64; lia).
  destruct (sha_update_plain i mi [Z.lxor 0x36 b] Hi) as (i1 & -> & Hi1);
    [unfold U64; cbn [length]; lia|cbn [length]; rewrite Nat.mod_small by lia; lia|].
  destruct (sha_update_plain o mo [Z.lxor 0x5c b] Ho) as (o1 & -> & Ho1);
    [unfold U64; cbn [length]; lia|cbn [length]; rewrite Nat.mod_small by lia; lia|].
  rewrite !bind_Ok.
  destruct (IH i1 o1 _ _ Hi1 Ho1) as (i2 & o2 & He & Hi2 & Ho2); [rewrite length_app; simpl; lia..|].
  exists i2, o2. split; [exact He|]. rewrite <- (assoc_L (++)) in Hi2, Ho2. by split.
Qed.

(** [hash_digest] of a state that has absorbed [m] is the hash of [m]. *)
Lemma sha_digest_plain self m sum :
  sha_absorbed self m (8 * Z.of_nat (length m)) → length sum = 32%nat →
  ∃ self', sha_digest sum self = Ok (SHA256_spec m, self').
Proof. intros Habs Hsum. exact (sha_digest_spec block_hash block_hash_law self m _ sum Habs Hsum). Qed.

Lemma length_block_hash hs b : length (block_hash hs b) = length hs.
Proof.
  unfold block_hash. rewrite length_zip_with.
  assert (∀ l v, length (foldl sha_round v l) = length v) as ->; [|lia].
  induction l as [|x l IH]; intros v; [done|]. cbn [foldl]. by rewrite IH, length_sha_round.
Qed.

Lemma length_SHA256_spec m : length (SHA256_spec m) = 32%nat.
Proof.
  unfold SHA256_spec, hash_blocks. rewrite H0_primes. generalize (blocks (length (sha_pad (8 * Z.of_nat (length m)) m) / 64)
    (sha_pad (8 * Z.of_nat (length m)) m)). intros bs.
  assert (length (foldl block_hash (h Sha256_default) bs) = 8%nat) as Hl.
  { change 8%nat with (length (h Sha256_default)). generalize (h Sha256_default).
    induction bs as [|b bs IH]; intros v; [done|]. cbn [foldl]. by rewrite IH, length_block_hash. }
  revert Hl. generalize (foldl block_hash (h Sha256_default) bs). intros hs Hl.
  do 8 (destruct hs as [|? hs]; [done|]). destruct hs; [|done]. reflexivity.
Qed.

(** The calls that compute a code: [new], [set_key], [update], [digest]. *)
Definition hmac_sha256 (key msg sum : list Z) : res (list Z * Hmac Sha256) :=
  (_ ← hmac_set_key key; _ ← hmac_update msg; hmac_digest sum) Hmac_new.

(** Up to the second [update], for a key shorter than a block and a message
    that does not fill the block the key began. *)
Lemma hmac_sha256_spec key msg sum :
  (0 < length key)%nat → (length key + length msg < 64)%nat → length sum = 32%nat →
  let inner := SHA256_spec (pad_key 0x36 key ++ msg) in
  ∃ i o, sha_absorbed o (pad_key 0x5c key) (8 * Z.of_nat (length key)) ∧
    hmac_sha256 key msg sum
    = '(_, o) ← sha_update inner o; '(sum, o) ← sha_digest inner o;
      Ok (sum, {| ihasher := i; ohasher := o |}).
Proof.
  intros Hk Hm Hsum inner.
  destruct (hmac_set_key_spec key Sha256_default Sha256_default [] [] default_absorbed default_absorbed)
    as (i1 & o1 & He1 & Hi1 & Ho1); [simpl; lia..|]. cbn [app] in Hi1, Ho1.
  destruct (sha_update_plain i1 _ msg Hi1) as (i2 & He2 & Hi2).
  { unfold pad_key. rewrite length_fmap. unfold U64. lia. }
  { right. unfold pad_key. rewrite length_fmap, Nat.mod_small by lia. lia. }
  destruct (sha_digest_plain i2 _ sum Hi2 Hsum) as (i3 & He3).
  exists i3, o1. split; [unfold pad_key in *; by rewrite length_fmap in Ho1|].
  unfold hmac_sha256, Hmac_new, mbind at 1 2, st_bind. cbn [hash_default Sha256_Hash]. rewrite He1.
  cbn [mbind res_bind]. unfold hmac_update, hmac_digest.
  cbn [hash_update hash_digest Sha256_Hash ihasher ohasher]. rewrite He2. cbn [mbind res_bind].
  cbn [hash_DIGEST_LEN Sha256_Hash]. rewrite Hsum. cbn [assert SHA256_DIGEST_LEN Nat.eqb ihasher ohasher mbind res_bind].
  rewrite He3. reflexivity.
Qed.

(** For a key of less than 32 bytes and a message that fits in the rest of
    the block the key began, the code computes the nested hash
    H(key xor opad, H(key xor ipad, message)), with the key not extended to the
    block size. *)
Theorem hmac_sha256_short_key (key msg sum : list Z) :
  (0 < length key < 32)%nat → (length key + length msg < 64)%nat → length sum = 32%nat →
  ∃ self', hmac_sha256 key msg sum
    = Ok (SHA256_spec (pad_key 0x5c key ++ SHA256_spec (pad_key 0x36 key ++ msg)), self').
Proof.
  intros Hk Hm Hsum. destruct (hmac_sha256_spec key msg sum) as (i & o & Ho & ->); [lia..|done|].
  pose proof (length_SHA256_spec (pad_key 0x36 key ++ msg)) as Hl.
  revert Hl. generalize (SHA256_spec (pad_key 0x36 key ++ msg)). intros inner Hl.
  assert (length (pad_key 0x5c key) = length key) as Hpk by apply length_fmap. rewrite <- Hpk in Ho.
  destruct (sha_update_plain o _ inner Ho) as (o1 & -> & Ho1).
  { unfold U64. lia. }
  { right. rewrite Nat.mod_small by lia. lia. }
  rewrite bind_Ok. destruct (sha_digest_plain o1 _ inner Ho1 Hl) as (o2 & ->).
  by eexists.
Qed.

Lemma hmac_sha256_short_key_witness :
  ∃ self', hmac_sha256 [1; 2; 3] [4; 5] (replicate 32 0)
    = Ok (SHA256_spec (pad_key 0x5c [1; 2; 3] ++ SHA256_spec (pad_key 0x36 [1; 2; 3] ++ [4; 5])), self').
Proof. apply hmac_sha256_short_key; [simpl; lia|simpl; lia|reflexivity]. Defined.

(** With a key as long as the digest, which is the length the documentation
    of [set_key] demands, the outer hash is not the hash of the key and the inner
    digest: the 32 bytes of the inner digest complete the block the key began,
    and are absorbed twice.  The code returned is the hash of
    [key xor opad ++ inner ++ inner] padded as a message of 64 bytes. *)
Theorem hmac_sha256_digest_len_key (key msg sum : list Z) :
  length key = 32%nat → (length msg < 32)%nat → length sum = 32%nat →
  let inner := SHA256_spec (pad_key 0x36 key ++ msg) in
  ∃ self', hmac_sha256 key msg sum
    = Ok (mjoin (to_be_bytes 4 <$> hash_blocks block_hash (h Sha256_default)
            (sha_pad (8 * 64) (pad_key 0x5c key ++ inner ++ inner))), self').
Proof.
  intros Hk Hm Hsum inner. destruct (hmac_sha256_spec key msg sum) as (i & o & Ho & ->); [lia..|done|].
  fold inner. pose proof (length_SHA256_spec (pad_key 0x36 key ++ msg)) as Hl. fold inner in Hl.
  revert Hl. generalize inner. clear inner. intros inner Hl.
  assert (length (pad_key 0x5c key) = 32%nat) as Hpk by (unfold pad_key; by rewrite length_fmap).
  destruct (sha_update_spec block_hash block_hash_law o _ _ inner Ho) as (o1 & -> & Ho1);
    [lia|unfold U64; lia|].
  rewrite length_tail, Hpk, Hl, Hk in Ho1.
  change (32 mod 64)%nat with 32%nat in Ho1.
  change ((0 <? 32) && (64 <=? 32 + 32))%nat with true in Ho1. change (64 - 32)%nat with 32%nat in Ho1.
  cbv iota in Ho1. rewrite (take_ge inner 32) in Ho1 by lia. rewrite bind_Ok.
  destruct (sha_digest_spec block_hash block_hash_law o1 _ _ inner Ho1 Hl) as (o2 & ->).
  by eexists.
Qed.

Lemma hmac_sha256_digest_len_key_witness :
  let key := replicate 32 7 in let inner := SHA256_spec (pad_key 0x36 key ++ [1]) in
  ∃ sum self', hmac_sha256 key [1] (replicate 32 0) = Ok (sum, self') ∧
    sum ≠ SHA256_spec (pad_key 0x5c key ++ inner).
Proof.
  intros key inner.
  destruct (hmac_sha256_digest_len_key key [1] (replicate 32 0)) as (s & He); [reflexivity|simpl; lia|reflexivity|].
  eexists _, s. split; [exact He|]. vm_compute. discriminate.
Defined.
