(* ===== verification/Spinlock.v ===== *)
(** * Spinlocks (src/lib/spinlock/src/lib.rs)

    Any number of CPUs run the code of [lock] and of a guard's [drop]; each
    atomic action of the source is one step of the relation [step].  Guards are
    dropped in the reverse order of their creation, as those of nested scopes
    are.  For progress, the CPUs that one waits for and the work that is left. *)

From S2P Require Import Prelude.

(** ** The interrupt mask of a CPU *)

(** [irq_save], [disable_interrupts] and [irq_load] on the register that holds
    the mask: [sstatus] on RISC-V and [DAIF] on Arm. *)
Class IrqArch := {
  irq_save : Z → Z;
  disable_interrupts : Z → Z;
  irq_load : Z → Z → Z;
  enabled : Z → bool;
}.

(** What [lock] and [drop] rely on. *)
Class IrqLaws `{!IrqArch} : Prop := {
  irq_disabled : ∀ r, enabled (disable_interrupts r) = false;
  irq_restore : ∀ r, irq_load (irq_save r) (disable_interrupts r) = r;
}.

Definition SSTATUS_SIE : Z := Z.shiftl 1 1.
Definition riscv_irq_save (sstatus : Z) : Z := Z.land sstatus (Z.shiftl 1 1).
Definition riscv_disable_interrupts (sstatus : Z) : Z := Z.ldiff sstatus 2.
Definition riscv_irq_load (irq sstatus : Z) : Z := Z.lor sstatus irq.

Definition riscv_irq : IrqArch := {|
  irq_save := riscv_irq_save;
  disable_interrupts := riscv_disable_interrupts;
  irq_load := riscv_irq_load;
  enabled := λ sstatus, Z.testbit sstatus 1;
|}.

(** [DAIFSet, #2] and [DAIFClr, #2] set and clear the I bit, bit 7 of [DAIF]. *)
Definition arm_irq_save (daif : Z) : Z := Z.land daif (Z.shiftl 1 7).
Definition arm_disable_interrupts (daif : Z) : Z := Z.lor daif (Z.shiftl 1 7).
Definition arm_irq_load (irq daif : Z) : Z :=
  if irq =? 0 then Z.ldiff daif (Z.shiftl 1 7) else daif.

Definition arm_irq : IrqArch := {|
  irq_save := arm_irq_save;
  disable_interrupts := arm_disable_interrupts;
  irq_load := arm_irq_load;
  enabled := λ daif, negb (Z.testbit daif 7);
|}.

(** ** CPUs and locks *)

(** A guard: the lock it was made by and the mask [lock] had saved. *)
Record SpinGuard := mkGuard { g_lock : nat; g_irq : Z }.

(** Where a CPU is: in code of its own, in [lock] after [irq_save], in the loop
    of [lock], or in [drop] after [unlock]. *)
Inductive pc := Run | Saved (l : nat) (irq : Z) | Spin (l : nat) (irq : Z) | Dropped (irq : Z).

Record Cpu := mkCpu { cpu_pc : pc; mask : Z; guards : list SpinGuard }.

(** [locked] holds the locks whose flag is set; [data] what the locks protect. *)
Record System (T : Type) := mkSystem {
  locked : gset nat;
  data : nat → T;
  cpus : list Cpu;
}.
Arguments mkSystem {T}.
Arguments locked {T}.
Arguments data {T}.
Arguments cpus {T}.

Section spinlock.
Context `{!IrqArch} {T : Type}.

(** One action of a CPU [c]; the loop's [swap] either finds the flag set and
    goes on, or takes the lock. *)
Inductive cpu_step (s : System T) (c : Cpu) : gset nat → (nat → T) → Cpu → Prop :=
| step_save l :
    cpu_pc c = Run →
    cpu_step s c (locked s) (data s) (mkCpu (Saved l (irq_save (mask c))) (mask c) (guards c))
| step_disable l irq :
    cpu_pc c = Saved l irq →
    cpu_step s c (locked s) (data s) (mkCpu (Spin l irq) (disable_interrupts (mask c)) (guards c))
| step_swap_busy l irq :
    cpu_pc c = Spin l irq → l ∈ locked s →
    cpu_step s c (locked s) (data s) c
| step_swap_free l irq :
    cpu_pc c = Spin l irq → l ∉ locked s →
    cpu_step s c ({[l]} ∪ locked s) (data s) (mkCpu Run (mask c) (mkGuard l irq :: guards c))
| step_deref_mut g x :
    cpu_pc c = Run → g ∈ guards c →
    cpu_step s c (locked s) (λ l, if decide (l = g_lock g) then x else data s l) c
| step_unlock g gs :
    cpu_pc c = Run → guards c = g :: gs →
    cpu_step s c (locked s ∖ {[g_lock g]}) (data s) (mkCpu (Dropped (g_irq g)) (mask c) gs)
| step_irq_load irq :
    cpu_pc c = Dropped irq →
    cpu_step s c (locked s) (data s) (mkCpu Run (irq_load irq (mask c)) (guards c)).

(** CPU number [i] acts. *)
Inductive step (i : nat) (s s' : System T) : Prop :=
| step_cpu c lk d c' :
    cpus s !! i = Some c → cpu_step s c lk d c' →
    s' = mkSystem lk d (<[i:=c']> (cpus s)) → step i s s'.

(** A system in which no lock is taken and no CPU is in the lock's code. *)
Definition initial (masks : list Z) (s : System T) : Prop :=
  locked s = ∅ ∧ cpus s = (λ r, mkCpu Run r []) <$> masks.

Inductive reachable (masks : list Z) : System T → Prop :=
| reachable_init s : initial masks s → reachable masks s
| reachable_step s i s' : reachable masks s → step i s s' → reachable masks s'.

(** ** Invariants *)

(** How many guards for [l] the CPUs hold. *)
Definition held_by (l : nat) (c : Cpu) : nat := length (filter (λ g, g_lock g = l) (guards c)).
Definition held (l : nat) (s : System T) : nat := sum_list (held_by l <$> cpus s).

(** The flag of a lock is set exactly when there is a guard, and there is then
    one only. *)
Definition flags_ok (s : System T) : Prop :=
  ∀ l, held l s = if decide (l ∈ locked s) then 1%nat else 0%nat.

(** Dropping the guards in turn leads from mask [r] back to [r0], with
    interrupts masked until the last one is gone. *)
Fixpoint stack_ok (r0 r : Z) (gs : list SpinGuard) : Prop :=
  match gs with
  | [] => r = r0
  | g :: gs => enabled r = false ∧ stack_ok r0 (irq_load (g_irq g) r) gs
  end.

Definition cpu_ok (r0 : Z) (c : Cpu) : Prop :=
  match cpu_pc c with
  | Run => stack_ok r0 (mask c) (guards c)
  | Saved l irq => irq = irq_save (mask c) ∧ stack_ok r0 (mask c) (guards c)
  | Spin l irq => stack_ok r0 (mask c) (mkGuard l irq :: guards c)
  | Dropped irq => enabled (mask c) = false ∧ stack_ok r0 (irq_load irq (mask c)) (guards c)
  end.

Lemma sum_list_insert (l : list nat) i x y :
  l !! i = Some x → (sum_list (<[i:=y]> l) + x = sum_list l + y)%nat.
Proof.
  revert i. induction l as [|z l IH]; intros [|i] Hi; simplify_eq/=; [lia|].
  specialize (IH i Hi). lia.
Qed.

Lemma held_step s i c lk d c' l :
  cpus s !! i = Some c →
  (held l (mkSystem lk d (<[i:=c']> (cpus s))) + held_by l c = held l s + held_by l c')%nat.
Proof.
  intros Hi. unfold held. cbn [cpus]. rewrite list_fmap_insert.
  apply sum_list_insert. by rewrite list_lookup_fmap, Hi.
Qed.

Lemma flags_ok_initial masks s : initial masks s → flags_ok s.
Proof.
  intros [Hl Hc] l. rewrite Hl, decide_False by set_solver. unfold held. rewrite Hc.
  clear. induction masks as [|r masks IH]; [done|]. exact IH.
Qed.

Lemma flags_ok_step i s s' : flags_ok s → step i s s' → flags_ok s'.
Proof.
  intros Hf [c lk d c' Hi Hstep ->] l. pose proof (held_step s i c lk d c' l Hi) as Hsum.
  specialize (Hf l). cbn [locked].
  destruct Hstep as [l' Hpc|l' irq Hpc|l' irq Hpc Hl'|l' irq Hpc Hl'|g x Hpc Hg|g gs Hpc Hg|irq Hpc];
    try (unfold held_by in Hsum; cbn [guards] in Hsum; lia).
  - unfold held_by in Hsum. cbn [guards] in Hsum. rewrite filter_cons in Hsum. cbn [g_lock] in Hsum.
    destruct (decide (l' = l)) as [->|Hne]; cbn [length] in Hsum.
    + rewrite decide_False in Hf by done. rewrite decide_True by set_solver. lia.
    + rewrite (decide_ext _ (l ∈ locked s)) by set_solver. lia.
  - unfold held_by in Hsum. rewrite Hg in Hsum. cbn [guards] in Hsum. rewrite filter_cons in Hsum.
    destruct (decide (g_lock g = l)) as [->|Hne]; cbn [length] in Hsum.
    + rewrite decide_False by set_solver. destruct (decide (l ∈ locked s)); lia.
    + rewrite (decide_ext _ (l ∈ locked s)) by set_solver. lia.
Qed.

Lemma reachable_flags masks s : reachable masks s → flags_ok s.
Proof. induction 1; eauto using flags_ok_initial, flags_ok_step. Qed.

Lemma held_by_pos l c : (0 < held_by l c)%nat ↔ ∃ g, g ∈ guards c ∧ g_lock g = l.
Proof.
  unfold held_by. split.
  - destruct (filter _ (guards c)) as [|g gs] eqn:Hf; simpl; [lia|]. intros _.
    assert (g ∈ filter (λ g, g_lock g = l) (guards c)) as [? ?]%list_elem_of_filter
      by (rewrite Hf; by left). by exists g.
  - intros (g & Hg & Hl). assert (g ∈ filter (λ g, g_lock g = l) (guards c)) as Hin
      by (by apply list_elem_of_filter). destruct (filter _ (guards c)); [by apply elem_of_nil in Hin|].
    simpl. lia.
Qed.

Lemma sum_list_pos (l : list nat) i x : l !! i = Some x → (x ≤ sum_list l)%nat.
Proof. revert i. induction l as [|y l IH]; intros [|i] Hi; simplify_eq/=; [lia|]. specialize (IH i Hi). lia. Qed.

Lemma sum_list_two (l : list nat) i j x y :
  i ≠ j → l !! i = Some x → l !! j = Some y → (x + y ≤ sum_list l)%nat.
Proof.
  revert i j. induction l as [|z l IH]; intros [|i] [|j] Hne Hi Hj; simplify_eq/=.
  - pose proof (sum_list_pos l j y Hj). lia.
  - pose proof (sum_list_pos l i x Hi). lia.
  - specialize (IH i j ltac:(lia) Hi Hj). lia.
Qed.

Lemma sum_list_some (l : list nat) : (0 < sum_list l)%nat → ∃ i x, l !! i = Some x ∧ (0 < x)%nat.
Proof.
  induction l as [|x l IH]; simpl; [lia|]. intros Hs. destruct x as [|x].
  - destruct (IH Hs) as (i & y & Hi & Hy). by exists (S i), y.
  - exists 0%nat, (S x). split; [done|lia].
Qed.

Section laws.
Context `{!IrqLaws}.

Lemma cpu_ok_step r0 s c lk d c' : cpu_step s c lk d c' → cpu_ok r0 c → cpu_ok r0 c'.
Proof.
  intros Hstep Hok. unfold cpu_ok in *.
  destruct Hstep as [l Hpc|l irq Hpc|l irq Hpc Hl|l irq Hpc Hl|g x Hpc Hg|g gs Hpc Hg|irq Hpc];
    cbn [cpu_pc mask guards] in *; rewrite Hpc in *.
  - done.
  - destruct Hok as [-> Hok]. cbn [stack_ok g_irq]. by rewrite irq_disabled, irq_restore.
  - done.
  - done.
  - done.
  - rewrite Hg in Hok. done.
  - by apply Hok.
Qed.

Lemma reachable_cpu_ok masks s : reachable masks s → Forall2 cpu_ok masks (cpus s).
Proof.
  induction 1 as [s [_ ->]|s i s' _ IH [c lk d c' Hi Hstep ->]].
  - induction masks as [|r masks IH]; [constructor|]. by constructor.
  - cbn [cpus]. destruct (Forall2_lookup_r _ _ _ _ _ IH Hi) as (r0 & Hr0 & Hok).
    rewrite <- (list_insert_id masks i r0 Hr0). apply Forall2_insert; [done|].
    by eapply cpu_ok_step.
Qed.
End laws.

(** ** Lock order and waiting *)

(** The lock a CPU in the code of [lock] is about to take. *)
Definition wanted (c : Cpu) : option nat :=
  match cpu_pc c with Saved l _ | Spin l _ => Some l | _ => None end.

Definition spinning (c : Cpu) : option nat := match cpu_pc c with Spin l _ => Some l | _ => None end.

(** A CPU asks only for a lock that comes after all those it holds. *)
Definition ordered (s : System T) : Prop :=
  ∀ c l g, c ∈ cpus s → wanted c = Some l → g ∈ guards c → (g_lock g < l)%nat.

(** CPU [i] spins for a lock that CPU [j] holds. *)
Definition waits_on (s : System T) (i j : nat) : Prop :=
  ∃ c l c' g, cpus s !! i = Some c ∧ spinning c = Some l ∧
    cpus s !! j = Some c' ∧ g ∈ guards c' ∧ g_lock g = l.

(** Some CPU acts. *)
Definition steps : relation (System T) := rtc (λ s s', ∃ j, step j s s').

(** The locks waited for are bounded. *)
Lemma spinning_bound (cs : list Cpu) :
  ∃ b, ∀ c l, c ∈ cs → spinning c = Some l → (l < b)%nat.
Proof.
  induction cs as [|c cs [b IH]]; [exists 0%nat; by intros c l ?%elem_of_nil|].
  exists (b + S (default 0%nat (spinning c)))%nat. intros c' l [->|Hin]%elem_of_cons Hs.
  - rewrite Hs. simpl. lia.
  - specialize (IH c' l Hin Hs). lia.
Qed.

Lemma spinning_wanted c l : spinning c = Some l → wanted c = Some l.
Proof. unfold spinning, wanted. by destruct (cpu_pc c). Qed.

(** A CPU that can go on: its lock is free, or it holds a guard and does not
    wait. *)
Definition unblocked (s : System T) (c : Cpu) : Prop :=
  (∃ l, spinning c = Some l ∧ l ∉ locked s) ∨ (spinning c = None ∧ guards c ≠ []).

(** What is left to do until every call of [lock] has returned and every guard
    is dropped. *)
Definition cpu_work (c : Cpu) : nat :=
  2 * length (guards c) +
  match cpu_pc c with Run => 0 | Dropped _ => 1 | Spin _ _ => 3 | Saved _ _ => 4 end.
Definition work (s : System T) : nat := sum_list (cpu_work <$> cpus s).

(** The step of such a CPU leaves less to do and asks for no further lock. *)
Lemma unblocked_cpu_step s c : unblocked s c →
  ∃ lk d c', cpu_step s c lk d c' ∧ (cpu_work c' < cpu_work c)%nat ∧
    (wanted c' = None ∨ wanted c' = wanted c ∧ guards c' = guards c) ∧
    (∀ l irq, cpu_pc c = Spin l irq → c' = mkCpu Run (mask c) (mkGuard l irq :: guards c)).
Proof.
  intros Hu. unfold unblocked, spinning in Hu. unfold cpu_work, wanted.
  destruct (cpu_pc c) as [|l irq|l irq|irq] eqn:Hpc;
    destruct Hu as [(l' & [= ->] & Hl)|[Hn Hg]]; try done.
  - destruct (guards c) as [|g gs] eqn:Hgs; [done|].
    do 3 eexists. split; [by eapply step_unlock|]. cbn. split_and!; [lia|by left|done].
  - do 3 eexists. split; [by eapply step_disable|]. cbn. split_and!; [lia|by right|done].
  - do 3 eexists. split; [by eapply step_swap_free|]. cbn. split_and!; [lia|by left|].
    by intros ? ? [= <- <-].
  - do 3 eexists. split; [by eapply step_irq_load|]. cbn. split_and!; [lia|by left|done].
Qed.

Lemma ordered_step s j c c' lk d : ordered s → cpus s !! j = Some c →
  (wanted c' = None ∨ wanted c' = wanted c ∧ guards c' = guards c) →
  ordered (mkSystem lk d (<[j:=c']> (cpus s))).
Proof.
  intros Ho Hj Hw c1 l g Hc1 Hl Hg. cbn [cpus] in Hc1.
  apply list_elem_of_lookup in Hc1 as [k Hk]. destruct (decide (j = k)) as [->|Hne].
  - rewrite list_lookup_insert_eq in Hk by (by eapply lookup_lt_Some). simplify_eq.
    destruct Hw as [Hw|[Hw Hgs]]; [congruence|]. rewrite Hw in Hl. rewrite Hgs in Hg.
    eapply Ho; [by eapply list_elem_of_lookup_2|done..].
  - rewrite list_lookup_insert_ne in Hk by done. eapply Ho; [by eapply list_elem_of_lookup_2|done..].
Qed.

Lemma work_step s j c c' lk d : cpus s !! j = Some c → (cpu_work c' < cpu_work c)%nat →
  (work (mkSystem lk d (<[j:=c']> (cpus s))) < work s)%nat.
Proof.
  intros Hj Hlt. unfold work. cbn [cpus]. rewrite list_fmap_insert.
  pose proof (sum_list_insert (cpu_work <$> cpus s) j (cpu_work c) (cpu_work c')) as Hs.
  rewrite list_lookup_fmap, Hj in Hs. specialize (Hs eq_refl). lia.
Qed.

(** Following the holders of the locks waited for ends at such a CPU. *)
Lemma wait_chain s b : flags_ok s → ordered s →
  (∀ c l, c ∈ cpus s → spinning c = Some l → (l < b)%nat) →
  ∀ n i c l, cpus s !! i = Some c → spinning c = Some l → (b - l ≤ n)%nat →
  ∃ j c', rtc (waits_on s) i j ∧ cpus s !! j = Some c' ∧ unblocked s c'.
Proof.
  intros Hf Hord Hb. induction n as [|n IH]; intros i c l Hi Hs Hn;
    pose proof (Hb c l (list_elem_of_lookup_2 _ _ _ Hi) Hs) as Hlb; [lia|].
  destruct (decide (l ∈ locked s)) as [Hl|Hl];
    [|exists i, c; split_and!; [done|done|left; by exists l]].
  specialize (Hf l). rewrite decide_True in Hf by done.
  destruct (sum_list_some (held_by l <$> cpus s)) as (j & x & Hj & Hx); [unfold held in Hf; lia|].
  apply list_lookup_fmap_Some in Hj as (c' & -> & Hc'). apply held_by_pos in Hx as (g & Hg & Hgl).
  assert (waits_on s i j) as Hw by (by exists c, l, c', g).
  destruct (spinning c') as [l'|] eqn:Hs'.
  - assert (l < l')%nat as Hlt.
    { rewrite <- Hgl. apply (Hord c' l' g); [by eapply list_elem_of_lookup_2| |done].
      by apply spinning_wanted. }
    destruct (IH j c' l') as (k & ck & Hjk & Hk & Hu); [done..|lia|].
    exists k, ck. split_and!; [by eapply rtc_l|done..].
  - exists j, c'. split_and!; [by apply rtc_once|done|]. right. split; [done|].
    intros Hnil. rewrite Hnil in Hg. by apply elem_of_nil in Hg.
Qed.

Lemma ahead_of s i c l : flags_ok s → ordered s → cpus s !! i = Some c → spinning c = Some l →
  ∃ j c', rtc (waits_on s) i j ∧ cpus s !! j = Some c' ∧ unblocked s c'.
Proof.
  intros Hf Ho Hi Hs. destruct (spinning_bound (cpus s)) as [b Hb]. by eapply (wait_chain s b).
Qed.

(** Letting the CPU at the end of the chain go on, again and again, serves the
    one that waits. *)
Lemma waiting_served n : ∀ s i c l irq, (work s < n)%nat → flags_ok s → ordered s →
  cpus s !! i = Some c → cpu_pc c = Spin l irq →
  ∃ s', steps s s' ∧ cpus s' !! i = Some (mkCpu Run (mask c) (mkGuard l irq :: guards c)).
Proof.
  induction n as [|n IH]; intros s i c l irq Hn Hf Ho Hi Hpc; [lia|].
  destruct (ahead_of s i c l) as (j & c1 & _ & Hj & Hu); [done..|by unfold spinning; rewrite Hpc|].
  destruct (unblocked_cpu_step s c1 Hu) as (lk & d & c2 & Hst & Hlt & Hw & Htake).
  assert (step j s (mkSystem lk d (<[j:=c2]> (cpus s)))) as Hstep by (by econstructor).
  destruct (decide (j = i)) as [->|Hne].
  - simplify_eq. rewrite (Htake l irq Hpc) in Hstep. eexists. split; [apply rtc_once; by exists i|].
    cbn [cpus]. apply list_lookup_insert_eq. by eapply lookup_lt_Some.
  - destruct (IH (mkSystem lk d (<[j:=c2]> (cpus s))) i c l irq) as (s' & Hs' & Hi').
    + pose proof (work_step s j c1 c2 lk d Hj Hlt). lia.
    + by eapply flags_ok_step.
    + by eapply ordered_step.
    + cbn [cpus]. by rewrite list_lookup_insert_ne.
    + done.
    + exists s'. split; [|done]. eapply rtc_l; [|done]. by exists j.
Qed.
End spinlock.

(** ** Theorems *)

(** Both architectures save and restore the mask as [lock] and [drop] need. *)
#[export] Instance riscv_irq_laws : @IrqLaws riscv_irq.
Proof.
  constructor; intros r; cbn [riscv_irq enabled disable_interrupts irq_load irq_save].
  - unfold riscv_disable_interrupts. by rewrite Z.ldiff_spec, andb_false_r.
  - unfold riscv_irq_load, riscv_disable_interrupts, riscv_irq_save. change (Z.shiftl 1 1) with 2.
    apply Z.bits_inj'. intros n Hn. rewrite Z.lor_spec, Z.ldiff_spec, Z.land_spec.
    by destruct (Z.testbit r n), (Z.testbit 2 n).
Qed.

#[export] Instance arm_irq_laws : @IrqLaws arm_irq.
Proof.
  constructor; intros r; cbn [arm_irq enabled disable_interrupts irq_load irq_save].
  - unfold arm_disable_interrupts. by rewrite Z.lor_spec, orb_true_r.
  - unfold arm_irq_load, arm_disable_interrupts, arm_irq_save. change (Z.shiftl 1 7) with (2 ^ 7).
    assert (Z.land r (2 ^ 7) = if Z.testbit r 7 then 2 ^ 7 else 0) as ->.
    { apply Z.bits_inj'. intros n Hn. rewrite Z.land_spec. destruct (decide (n = 7)) as [->|Hne].
      - rewrite Z.pow2_bits_true by lia. by destruct (Z.testbit r 7).
      - rewrite Z.pow2_bits_false, andb_false_r by lia.
        destruct (Z.testbit r 7); [by rewrite Z.pow2_bits_false by lia|by rewrite Z.bits_0]. }
    apply Z.bits_inj'. intros n Hn. destruct (decide (n = 7)) as [->|Hne].
    + destruct (Z.testbit r 7) eqn:Hb; cbn [Z.eqb]; simpl Z.eqb; cbv iota.
      * by rewrite Z.lor_spec, orb_true_r.
      * rewrite Z.ldiff_spec. by rewrite andb_false_r.
    + assert (Z.testbit (2 ^ 7) n = false) as H7 by (apply Z.pow2_bits_false; lia).
      destruct (Z.testbit r 7); simpl Z.eqb; cbv iota; rewrite ?Z.ldiff_spec, Z.lor_spec, H7;
        by rewrite ?orb_false_r, ?andb_true_r.
Qed.

Section theorems.
Context `{!IrqArch} {T : Type}.

(** C19: mutual exclusion.  In every reachable state the flag of a lock is set
    exactly when some CPU has a guard for it, and two guards for the same lock
    are never held by two CPUs. *)
Theorem spinlock_mutual_exclusion masks (s : System T) :
  reachable masks s →
  (∀ l, l ∈ locked s ↔ ∃ c g, c ∈ cpus s ∧ g ∈ guards c ∧ g_lock g = l) ∧
  (∀ i j c c' g g', cpus s !! i = Some c → cpus s !! j = Some c' →
     g ∈ guards c → g' ∈ guards c' → g_lock g = g_lock g' → i = j).
Proof.
  intros Hr%reachable_flags. split.
  - intros l. specialize (Hr l). split.
    + intros Hl. rewrite decide_True in Hr by done.
      destruct (sum_list_some (held_by l <$> cpus s)) as (i & x & Hi & Hx); [unfold held in Hr; lia|].
      apply list_lookup_fmap_Some in Hi as (c & -> & Hc).
      apply held_by_pos in Hx as (g & Hg & Hgl). exists c, g.
      split_and!; [by eapply list_elem_of_lookup_2|done..].
    + intros (c & g & Hc & Hg & Hgl). apply list_elem_of_lookup in Hc as [i Hi].
      assert (0 < held_by l c)%nat as Hpos by (apply held_by_pos; by exists g).
      assert ((held_by l <$> cpus s) !! i = Some (held_by l c)) as Hl
        by (by rewrite list_lookup_fmap, Hi).
      apply sum_list_pos in Hl. fold (held l s) in Hl. destruct (decide (l ∈ locked s)); [done|lia].
  - intros i j c c' g g' Hi Hj Hg Hg' Heq. destruct (decide (i = j)) as [|Hne]; [done|exfalso].
    set (l := g_lock g). specialize (Hr l).
    assert (0 < held_by l c)%nat as Hpos by (apply held_by_pos; by exists g).
    assert (0 < held_by l c')%nat as Hpos' by (apply held_by_pos; by exists g').
    pose proof (sum_list_two (held_by l <$> cpus s) i j (held_by l c) (held_by l c') Hne) as Htwo.
    rewrite !list_lookup_fmap, Hi, Hj in Htwo. specialize (Htwo eq_refl eq_refl).
    fold (held l s) in Htwo. destruct (decide (l ∈ locked s)); lia.
Qed.

(** C20: a CPU that holds a guard, waits for a lock or has just released one has
    interrupts masked; when its last guard is gone its mask is the one it started
    with, however its critical sections were nested. *)
Theorem spinlock_masks_interrupts `{!IrqLaws} masks (s : System T) i c r0 :
  reachable masks s → cpus s !! i = Some c → masks !! i = Some r0 →
  (guards c ≠ [] ∨ spinning c ≠ None ∨ (∃ irq, cpu_pc c = Dropped irq) → enabled (mask c) = false) ∧
  (cpu_pc c = Run → guards c = [] → mask c = r0).
Proof.
  intros Hr%reachable_cpu_ok Hc Hm. pose proof (Forall2_lookup_lr _ _ _ _ _ _ Hr Hm Hc) as Hok.
  unfold cpu_ok, spinning in *. destruct (cpu_pc c) as [|l irq|l irq|irq]; cbn [stack_ok] in Hok.
  - split; [|intros _ Hg; by rewrite Hg in Hok].
    intros [Hg|[Hg|[irq Hg]]]; [|done..]. destruct (guards c); [done|]. apply Hok.
  - split; [|done]. intros [Hg|[Hg|[irq' Hg]]]; [|done..]. destruct Hok as [_ Hok].
    destruct (guards c); [done|]. apply Hok.
  - split; [|done]. intros _. apply Hok.
  - split; [|done]. intros _. apply Hok.
Qed.

(** C21: no deadlock under a lock order.  When every CPU asks only for locks that
    come after those it holds, a CPU that spins for a lock is never stuck: among
    the CPUs it waits for, directly or through others, one has a step that leaves
    less to do (its lock is free, or it holds a guard and does not wait), and
    there is a continuation in which the waiting CPU returns from [lock] with its
    guard. *)
Theorem spinlock_progress masks (s : System T) i c l irq :
  reachable masks s → ordered s → cpus s !! i = Some c → cpu_pc c = Spin l irq →
  (∃ j c' s', rtc (waits_on s) i j ∧ cpus s !! j = Some c' ∧
     ((∃ l', spinning c' = Some l' ∧ l' ∉ locked s) ∨ (spinning c' = None ∧ guards c' ≠ [])) ∧
     step j s s' ∧ (work s' < work s)%nat) ∧
  ∃ s', steps s s' ∧ cpus s' !! i = Some (mkCpu Run (mask c) (mkGuard l irq :: guards c)).
Proof.
  intros Hr%reachable_flags Ho Hi Hpc. split; [|by eapply (waiting_served (S (work s))); [lia|..]].
  destruct (ahead_of s i c l) as (j & c1 & Hij & Hj & Hu); [done..|by unfold spinning; rewrite Hpc|].
  destruct (unblocked_cpu_step s c1 Hu) as (lk & d & c2 & Hst & Hlt & _).
  exists j, c1, (mkSystem lk d (<[j:=c2]> (cpus s))).
  split_and!; [done..|by econstructor|by eapply work_step].
Qed.
End theorems.

(** ** Witnesses *)

#[local] Existing Instance riscv_irq.

(** Two CPUs: the first has taken lock 0, the second waits for it. *)
Definition demo_start : System Z :=
  mkSystem ∅ (λ _, 0) [mkCpu Run 2 []; mkCpu Run 2 []].
Definition demo_locks : System Z :=
  mkSystem {[0%nat]} (λ _, 0) [mkCpu Run 0 [mkGuard 0 2]; mkCpu (Spin 0 2) 0 []].

Lemma demo_locks_reachable : reachable [2; 2] demo_locks.
Proof.
  assert (reachable [2; 2] demo_start) as H0 by (apply reachable_init; done).
  assert (reachable [2; 2] (mkSystem ∅ (λ _, 0) [mkCpu (Saved 0 2) 2 []; mkCpu Run 2 []])) as H1.
  { eapply (reachable_step _ _ 0 _ H0). eapply step_cpu; [done|by apply (step_save _ _ 0)|done]. }
  assert (reachable [2; 2] (mkSystem ∅ (λ _, 0) [mkCpu (Spin 0 2) 0 []; mkCpu Run 2 []])) as H2.
  { eapply (reachable_step _ _ 0 _ H1). eapply step_cpu; [done|by eapply step_disable|done]. }
  assert (reachable [2; 2] (mkSystem {[0%nat]} (λ _, 0)
    [mkCpu Run 0 [mkGuard 0 2]; mkCpu Run 2 []])) as H3.
  { eapply (reachable_step _ _ 0 _ H2). eapply step_cpu; [done| |].
    - eapply step_swap_free; [done|]. cbn [locked]. set_solver.
    - cbn [locked]. by rewrite (union_empty_r_L {[0%nat]}). }
  assert (reachable [2; 2] (mkSystem {[0%nat]} (λ _, 0)
    [mkCpu Run 0 [mkGuard 0 2]; mkCpu (Saved 0 2) 2 []])) as H4.
  { eapply (reachable_step _ _ 1 _ H3). eapply step_cpu; [done|by apply (step_save _ _ 0)|done]. }
  eapply (reachable_step _ _ 1 _ H4). eapply step_cpu; [done|by eapply step_disable|done].
Qed.

Lemma spinlock_mutual_exclusion_witness :
  0%nat ∈ locked demo_locks ↔ ∃ c g, c ∈ cpus demo_locks ∧ g ∈ guards c ∧ g_lock g = 0%nat.
Proof. apply (spinlock_mutual_exclusion [2; 2] demo_locks). apply demo_locks_reachable. Defined.

Lemma spinlock_masks_interrupts_witness :
  let c := mkCpu Run 0 [mkGuard 0 2] in
  (guards c ≠ [] ∨ spinning c ≠ None ∨ (∃ irq, cpu_pc c = Dropped irq) → enabled (mask c) = false) ∧
  (cpu_pc c = Run → guards c = [] → mask c = 2).
Proof.
  apply (spinlock_masks_interrupts [2; 2] demo_locks 0).
  - apply demo_locks_reachable.
  - reflexivity.
  - reflexivity.
Defined.

Lemma spinlock_progress_witness :
  (∃ j c' s', rtc (waits_on demo_locks) 1%nat j ∧ cpus demo_locks !! j = Some c' ∧
     ((∃ l', spinning c' = Some l' ∧ l' ∉ locked demo_locks) ∨ (spinning c' = None ∧ guards c' ≠ [])) ∧
     step j demo_locks s' ∧ (work s' < work demo_locks)%nat) ∧
  ∃ s', steps demo_locks s' ∧ cpus s' !! 1%nat = Some (mkCpu Run 0 [mkGuard 0 2]).
Proof.
  apply (spinlock_progress [2; 2] demo_locks 1 (mkCpu (Spin 0 2) 0 []) 0 2).
  - apply demo_locks_reachable.
  - intros c l g Hc Hpc Hg. cbn in Hc. apply list_elem_of_In in Hc as [<-|[<-|[]]]; [done|].
    cbn in Hg. by apply elem_of_nil in Hg.
  - reflexivity.
  - reflexivity.
Defined.
