(* ===== verification/Rand.v ===== *)
(** * The random generator (src/src/rand.rs)

    [MT19937] keeps its last 624 words in a ring; the specification is the
    recurrence over an unbounded sequence of words. *)

From S2P Require Import Prelude Bytes.

Definition MT_N : nat := 624.
Definition MT_M : nat := 397.
Definition MT_W : Z := 32.
Definition MT_R : Z := 31.
Definition UMASK : Z := shl32 0xffffffff MT_R.
Definition LMASK : Z := Z.shiftr 0xffffffff (MT_W - MT_R).
Definition MT_A : Z := 0x9908b0df.
Definition MT_U : Z := 11.
Definition MT_S : Z := 7.
Definition MT_T : Z := 15.
Definition MT_L : Z := 18.
Definition MT_B : Z := 0x9d2c5680.
Definition MT_C : Z := 0xefc60000.
Definition MT_F : Z := 1812433253.

(** ** The trait and its default methods *)

Class RandomGenerator (G : Type) := {
  rg_seed : Z → ST G unit;
  random_uint32 : ST G Z;
}.

Definition u32_add (a b : Z) : res Z := if a + b <? U32 then Ok (a + b) else Panic.
Definition u32_rem (a b : Z) : res Z := if b =? 0 then Panic else Ok (a mod b).

Section generator.
Context {G : Type} `{!RandomGenerator G}.

Definition range_uint32 (start fin : Z) : ST G Z :=
  rand ← random_uint32;
  range_delta ← lift (fin -! start);
  r ← lift (u32_rem rand range_delta);
  lift (u32_add start r).

(** The loop of [gen_bytes]: at most one round per byte of the buffer. *)
Fixpoint gen_loop (fuel : nat) (ptr : nat) (buf : list Z) : ST G (list Z) :=
  match fuel with
  | O => lift NoFuel
  | S fuel =>
    if (ptr <? length buf)%nat then
      let fin := Nat.min (length buf) (ptr + 4) in
      w ← random_uint32;
      src ← lift (slice_to (to_be_bytes 4 w) (fin - ptr));
      buf ← lift (write_slice buf ptr src);
      gen_loop fuel (ptr + 4) buf
    else mret buf
  end.

Definition gen_bytes (buf : list Z) : ST G (list Z) := gen_loop (S (length buf)) 0 buf.
End generator.

(** ** MT19937 *)

Record MT19937 := mkMT { state_array : list Z; state_index : nat }.

(** The body of the loop of [seed]: the array and the running [seed]. *)
Definition seed_step (i : nat) (s : list Z * Z) : res (list Z * Z) :=
  let '(arr, seed) := s in
  let seed := wrapping_add (wrapping_mul MT_F (Z.lxor seed (Z.shiftr seed (MT_W - 2)))) (Z.of_nat i) in
  arr ← update arr i seed;
  Ok (arr, seed).

Definition mt_seed (seed : Z) : ST MT19937 unit := λ s,
  arr ← update (state_array s) 0 seed;
  '(arr, _) ← for_each (range 1 MT_N) seed_step (arr, seed);
  Ok (tt, mkMT arr (state_index s)).

Definition mt_new (seed : Z) : res MT19937 :=
  '(_, s) ← mt_seed seed (mkMT (replicate MT_N 0) 0);
  Ok s.

(** The tempering at the end of [random_uint32]. *)
Definition temper (y : Z) : Z :=
  let y := Z.lxor y (Z.shiftr y MT_U) in
  let y := Z.lxor y (Z.land (shl32 y MT_S) MT_B) in
  let y := Z.lxor y (Z.land (shl32 y MT_T) MT_C) in
  Z.lxor y (Z.shiftr y MT_L).

Definition mt_random_uint32 : ST MT19937 Z := λ s,
  let k := state_index s in
  a0 ← index (state_array s) k;
  a1 ← index (state_array s) ((k + 1) mod MT_N);
  let y := Z.lor (Z.land a0 UMASK) (Z.land a1 LMASK) in
  let a := if Z.land y 1 =? 1 then Z.lxor (Z.shiftr y 1) MT_A else Z.shiftr y 1 in
  am ← index (state_array s) ((k + MT_M) mod MT_N);
  let y := Z.lxor am a in
  arr ← update (state_array s) k y;
  Ok (temper y, mkMT arr ((k + 1) mod MT_N)).

#[export] Instance MT_RandomGenerator : RandomGenerator MT19937 := {|
  rg_seed := mt_seed;
  random_uint32 := mt_random_uint32;
|}.

Definition SEED : Z := 0.
Definition rand_init : res MT19937 := mt_new SEED.

(** ** The sequence *)

(** The first [n] words, from the one with index [i] and value [x]. *)
Fixpoint mt_init_from (n : nat) (i : nat) (x : Z) : list Z :=
  match n with
  | O => []
  | S n => x :: mt_init_from n (S i) ((MT_F * (Z.lxor x (Z.shiftr x 30)) + Z.of_nat (S i)) mod U32)
  end.
Definition mt_init (seed : Z) : list Z := mt_init_from MT_N 0 seed.

(** The matrix product of the recurrence. *)
Definition mul_A (y : Z) : Z := Z.lxor (y / 2) (if Z.odd y then MT_A else 0).

(** One word from the words 624, 623 and 227 places before it: the top bit of
    the first and the low 31 bits of the second, multiplied, and the third. *)
Definition mt_next (x0 x1 xm : Z) : Z :=
  Z.lxor xm (mul_A (Z.lor (Z.land x0 (2 ^ 31)) (Z.land x1 (2 ^ 31 - 1)))).

Fixpoint mt_seq (seed : Z) (n : nat) : list Z :=
  match n with
  | O => mt_init seed
  | S n => let l := mt_seq seed n in
           l ++ [mt_next (l !!! n) (l !!! (n + 1)%nat) (l !!! (n + MT_M)%nat)]
  end.

(** The [i]-th output after seeding. *)
Definition mt_output (seed : Z) (i : nat) : Z := temper (mt_seq seed (S i) !!! (MT_N + i)%nat).

Example mt_output_reference : mt_output 5489 0 = 3499211612 ∧ mt_output 5489 1 = 581869302.
Proof. split; vm_compute; reflexivity. Qed.
