(* ===== verification/RandTheorems.v ===== *)
(** * The random generator: theorems *)

From S2P Require Import Prelude Bytes Rand.

Lemma MT_sizes : (0 < MT_M < MT_N)%nat ∧ (1 < MT_N)%nat.
Proof. split; [split|]; apply Nat.ltb_lt; reflexivity. Qed.

#[local] Opaque MT_N MT_M.

(** ** Seeding *)

Lemma length_mt_init_from n i x : length (mt_init_from n i x) = n.
Proof. revert i x. induction n as [|n IH]; intros i x; simpl; [done|]. by rewrite IH. Qed.

Lemma length_mt_seq seed n : length (mt_seq seed n) = (MT_N + n)%nat.
Proof.
  induction n as [|n IH]; cbn [mt_seq].
  - unfold mt_init. rewrite length_mt_init_from. lia.
  - rewrite length_app, IH. simpl. lia.
Qed.

Lemma seed_value x i :
  wrapping_add (wrapping_mul MT_F (Z.lxor x (Z.shiftr x (MT_W - 2)))) (Z.of_nat i)
  = (MT_F * Z.lxor x (Z.shiftr x 30) + Z.of_nat i) mod U32.
Proof.
  unfold wrapping_add, wrapping_mul. change (MT_W - 2) with 30. by rewrite Zplus_mod_idemp_l.
Qed.

Lemma seed_step_run i arr x :
  (i < length arr)%nat →
  seed_step i (arr, x) = let v := (MT_F * Z.lxor x (Z.shiftr x 30) + Z.of_nat i) mod U32 in
                         Ok (<[i:=v]> arr, v).
Proof. intros Hi. unfold seed_step. rewrite seed_value. by rewrite update_Ok. Qed.

Lemma seed_loop n : ∀ i l1 l2 x,
  length l1 = S i → length l2 = n →
  ∃ y, for_each (seq (S i) n) seed_step (l1 ++ l2, x)
  = Ok (l1 ++ mt_init_from n (S i) ((MT_F * Z.lxor x (Z.shiftr x 30) + Z.of_nat (S i)) mod U32), y).
Proof.
  induction n as [|n IH]; intros i l1 l2 x Hl1 Hl2.
  { destruct l2; [|done]. cbn. by eexists. }
  destruct l2 as [|b l2]; [done|]. injection Hl2 as Hl2. cbn [seq for_each].
  rewrite seed_step_run by (rewrite length_app; simpl; lia). cbn [mbind res_bind].
  rewrite insert_app_r_alt, Hl1, Nat.sub_diag by lia. cbn [insert list_insert].
  set (v := _ mod U32). replace (l1 ++ v :: l2) with ((l1 ++ [v]) ++ l2) by (by rewrite <- (assoc_L (++))).
  destruct (IH (S i) (l1 ++ [v]) l2 v) as [y Hy]; [rewrite length_app; simpl; lia|done|].
  exists y. rewrite Hy. cbn [mt_init_from]. by rewrite <- (assoc_L (++)).
Qed.

Lemma mt_seed_run seed s :
  length (state_array s) = MT_N →
  mt_seed seed s = Ok (tt, mkMT (mt_init seed) (state_index s)).
Proof.
  intros Hlen. pose proof MT_sizes as [_ HN]. unfold mt_seed. rewrite update_Ok by lia. cbn [mbind res_bind].
  destruct (state_array s) as [|a arr]; [simpl in Hlen; lia|]. cbn [insert list_insert].
  destruct MT_N as [|n] eqn:HMN; [lia|]. cbn [length] in Hlen. injection Hlen as Hlen.
  unfold range. rewrite Nat.sub_succ, Nat.sub_0_r.
  destruct (seed_loop n 0 [seed] arr seed) as [y Hy]; [done..|]. cbn [app] in Hy. rewrite Hy.
  cbn [mbind res_bind]. unfold mt_init. rewrite HMN. done.
Qed.

(** ** The ring *)

(** After [i] outputs the ring holds the words [i .. i + 624] of the sequence,
    each at its index modulo 624. *)
Definition mt_inv (seed : Z) (i : nat) (s : MT19937) : Prop :=
  length (state_array s) = MT_N ∧ state_index s = (i mod MT_N)%nat ∧
  ∀ p, (i ≤ p < i + MT_N)%nat → state_array s !! (p mod MT_N)%nat = mt_seq seed i !! p.

Lemma mod_eq_near a b n : (0 < n)%nat → (a mod n = b mod n)%nat → (a ≤ b < a + n)%nat → a = b.
Proof.
  intros Hn Heq Hab. pose proof (Nat.div_mod_eq a n) as Ha. pose proof (Nat.div_mod_eq b n) as Hb.
  rewrite Heq in Ha. assert (a / n = b / n)%nat as Hd; [|rewrite Hd in Ha; lia].
  assert (a / n ≤ b / n)%nat by (apply Nat.Div0.div_le_mono; lia).
  destruct (decide (a / n = b / n)%nat) as [|Hne]; [done|]. nia.
Qed.

Lemma mt_init_inv seed : mt_inv seed 0 (mkMT (mt_init seed) 0).
Proof.
  pose proof MT_sizes as [_ HN]. unfold mt_inv. cbn [state_array state_index mt_seq]. split_and!.
  - apply length_mt_init_from.
  - by rewrite Nat.Div0.mod_0_l.
  - intros p Hp. by rewrite Nat.mod_small by lia.
Qed.

Lemma mul_A_code y :
  (if Z.land y 1 =? 1 then Z.lxor (Z.shiftr y 1) MT_A else Z.shiftr y 1) = mul_A y.
Proof.
  unfold mul_A. change 1 with (Z.ones 1) at 1. rewrite Z.land_ones by lia. change (2 ^ 1) with 2.
  rewrite Zmod_odd, Z.shiftr_div_pow2 by lia. change (2 ^ 1) with 2.
  destruct (Z.odd y); simpl Z.eqb; cbv iota; [done|by rewrite Z.lxor_0_r].
Qed.

Lemma mt_step seed i s :
  mt_inv seed i s →
  ∃ s', mt_random_uint32 s = Ok (mt_output seed i, s') ∧ mt_inv seed (S i) s'.
Proof.
  intros (Hlen & Hidx & Hring). pose proof MT_sizes as [HM HN]. pose proof (length_mt_seq seed i) as Hls.
  assert (∀ p, (i ≤ p < i + MT_N)%nat →
    index (state_array s) (p mod MT_N) = Ok (mt_seq seed i !!! p)) as Hget.
  { intros p Hp. apply index_Ok. rewrite Hring by done. apply list_lookup_lookup_total_lt. lia. }
  set (y := mt_next (mt_seq seed i !!! i) (mt_seq seed i !!! (i + 1)%nat) (mt_seq seed i !!! (i + MT_M)%nat)).
  assert (mt_seq seed (S i) = mt_seq seed i ++ [y]) as Hnext by done.
  assert (state_index s < MT_N)%nat as Hk by (rewrite Hidx; apply Nat.mod_upper_bound; lia).
  exists (mkMT (<[state_index s:=y]> (state_array s)) ((state_index s + 1) mod MT_N)). split.
  - unfold mt_random_uint32. cbv zeta. rewrite Hidx, !Nat.Div0.add_mod_idemp_l.
    rewrite (Hget i) by lia. cbn [mbind res_bind]. rewrite (Hget (i + 1)%nat) by lia. cbn [mbind res_bind].
    rewrite mul_A_code. rewrite (Hget (i + MT_M)%nat) by lia. cbn [mbind res_bind].
    rewrite Hidx in Hk. rewrite update_Ok by lia. cbn [mbind res_bind].
    unfold mt_output. rewrite Hnext.
    rewrite lookup_total_app_r by lia. rewrite Hls, Nat.sub_diag. done.
  - unfold mt_inv. cbn [state_array state_index]. split_and!.
    + by rewrite length_insert.
    + rewrite Hidx, Nat.Div0.add_mod_idemp_l. f_equal. lia.
    + intros p Hp. rewrite Hnext, Hidx. destruct (decide (p = i + MT_N)%nat) as [->|Hne].
      * rewrite lookup_app_r, Hls by lia. replace (i + MT_N - (MT_N + i))%nat with 0%nat by lia.
        replace ((i + MT_N) mod MT_N)%nat with (i mod MT_N)%nat.
        -- apply list_lookup_insert_eq. rewrite Hlen. apply Nat.mod_upper_bound. lia.
        -- rewrite <- (Nat.mul_1_l MT_N) at 2. by rewrite Nat.Div0.mod_add.
      * rewrite list_lookup_insert_ne.
        -- rewrite Hring by lia. by rewrite lookup_app_l by lia.
        -- intros Heq. apply (mod_eq_near i p MT_N) in Heq; lia.
Qed.

(** ** Many outputs *)

Fixpoint outputs (n : nat) : ST MT19937 (list Z) :=
  match n with
  | O => mret []
  | S n => w ← random_uint32; ws ← outputs n; mret (w :: ws)
  end.

Lemma outputs_run seed n : ∀ i s,
  mt_inv seed i s → ∃ s', outputs n s = Ok (mt_output seed <$> seq i n, s') ∧ mt_inv seed (i + n) s'.
Proof.
  induction n as [|n IH]; intros i s Hs.
  - exists s. rewrite Nat.add_0_r. done.
  - destruct (mt_step seed i s Hs) as (s1 & Hrun1 & Hs1).
    destruct (IH (S i) s1 Hs1) as (s2 & Hrun2 & Hs2). exists s2. split.
    + cbn [outputs]. rewrite (st_run _ _ _ _ _ Hrun1), (st_run _ _ _ _ _ Hrun2). done.
    + by replace (i + S n)%nat with (S i + n)%nat by lia.
Qed.

(** ** Bytes *)

(** The words with indices [i .. i + n] as bytes, big-endian. *)
Definition mt_stream (seed : Z) (i n : nat) : list Z :=
  seq i n ≫= λ j, to_be_bytes 4 (mt_output seed j).

(** How many words a buffer of [len] bytes takes. *)
Definition words_for (len : nat) : nat := ((len + 3) / 4)%nat.

Lemma words_for_step len : (4 ≤ len)%nat → words_for len = S (words_for (len - 4)).
Proof.
  intros Hl. unfold words_for. replace (len + 3)%nat with (1 * 4 + (len - 4 + 3))%nat by lia.
  rewrite Nat.div_add_l by lia. done.
Qed.

Lemma words_for_small len : (0 < len < 4)%nat → words_for len = 1%nat.
Proof.
  intros Hl. unfold words_for. symmetry. apply (Nat.div_unique _ _ _ (len - 1)); lia.
Qed.

Lemma gen_loop_run seed fuel : ∀ pre suf i s,
  (length suf < fuel)%nat → mt_inv seed i s →
  ∃ s', gen_loop fuel (length pre) (pre ++ suf) s
      = Ok (pre ++ take (length suf) (mt_stream seed i (words_for (length suf))), s') ∧
    mt_inv seed (i + words_for (length suf)) s'.
Proof.
  induction fuel as [|fuel IH]; intros pre suf i s Hfuel Hs; [lia|].
  destruct suf as [|b suf0].
  { exists s. cbn [gen_loop]. rewrite app_nil_r, Nat.ltb_irrefl. change (words_for (length [])) with 0%nat.
    rewrite Nat.add_0_r. split; [|done]. by rewrite app_nil_r. }
  set (suf := b :: suf0) in *. assert (0 < length suf)%nat as Hpos by (simpl; lia).
  cbn [gen_loop]. rewrite (proj2 (Nat.ltb_lt _ _)) by (rewrite length_app; lia).
  destruct (mt_step seed i s Hs) as (s1 & Hrun1 & Hs1). rewrite (st_run _ _ _ _ _ Hrun1).
  set (n := Nat.min 4 (length suf)).
  replace (Nat.min (length (pre ++ suf)) (length pre + 4) - length pre)%nat with n
    by (rewrite length_app; unfold n; lia).
  set (w := to_be_bytes 4 (mt_output seed i)). assert (length w = 4%nat) as Hw by apply length_to_be_bytes.
  rewrite (st_run_lift _ _ _ (take n w)).
  2: { unfold slice_to. by rewrite (proj2 (Nat.leb_le _ _)) by (unfold n; lia). }
  assert (length (take n w) = n) as Hn by (rewrite length_take, Hw; unfold n; lia).
  rewrite (st_run_lift _ _ _ (pre ++ take n w ++ drop n suf)).
  2: { rewrite write_slice_spec by (unfold n in *; lia). by rewrite Hn. }
  destruct (decide (4 ≤ length suf)%nat) as [Hge|Hlt].
  - assert (n = 4%nat) as Hn4 by (unfold n; lia).
    rewrite Hn4 in *. rewrite (take_ge w) by lia.
    destruct (IH (pre ++ w) (drop 4 suf) (S i) s1) as (s2 & Hrun2 & Hs2); [rewrite length_drop; lia|done|].
    rewrite length_app, Hw, <- (assoc_L (++)), length_drop in Hrun2. rewrite length_drop in Hs2.
    exists s2. rewrite words_for_step by done. split.
    + rewrite Hrun2. f_equal. f_equal. rewrite <- (assoc_L (++)). f_equal. unfold mt_stream.
      cbn [seq]. rewrite bind_cons. fold w. rewrite take_app_ge, Hw by lia. done.
    + by replace (i + S (words_for (length suf - 4)))%nat with (S i + words_for (length suf - 4))%nat by lia.
  - assert (n = length suf) as Hnl by (unfold n; lia). rewrite Hnl, drop_ge, app_nil_r by lia.
    rewrite words_for_small by lia. exists s1. split; [|by rewrite Nat.add_1_r].
    destruct fuel as [|fuel]; [lia|]. cbn [gen_loop].
    rewrite (proj2 (Nat.ltb_ge _ _)) by (rewrite length_app, length_take; lia).
    unfold mret, st_ret. by do 3 f_equal.
Qed.

(** ** Theorems *)

(** C38: a generator made by [new] fills any buffer, without a panic and with no
    word left over in between, with the big-endian bytes of the MT19937 sequence
    of its seed; a second buffer goes on where the first one stopped. *)
Theorem gen_bytes_correct seed buf1 buf2 :
  ∃ s0 s1 s2, mt_new seed = Ok s0 ∧
    gen_bytes buf1 s0 = Ok (take (length buf1) (mt_stream seed 0 (words_for (length buf1))), s1) ∧
    gen_bytes buf2 s1 = Ok (take (length buf2)
      (mt_stream seed (words_for (length buf1)) (words_for (length buf2))), s2).
Proof.
  exists (mkMT (mt_init seed) 0).
  destruct (gen_loop_run seed (S (length buf1)) [] buf1 0 (mkMT (mt_init seed) 0))
    as (s1 & Hrun1 & Hs1); [lia|apply mt_init_inv|].
  destruct (gen_loop_run seed (S (length buf2)) [] buf2 (words_for (length buf1)) s1)
    as (s2 & Hrun2 & _); [lia|done|].
  exists s1, s2. split_and!; [|exact Hrun1|exact Hrun2].
  unfold mt_new. rewrite mt_seed_run by (cbn [state_array]; apply length_replicate). done.
Qed.

(** Reseeding keeps the position in the ring, so that it does not give the
    sequence of the new seed once a word has been drawn. *)
Lemma mt_seed_keeps_index seed seed' i s :
  mt_inv seed i s →
  ∃ s', mt_seed seed' s = Ok (tt, s') ∧ state_index s' = (i mod MT_N)%nat ∧
    state_array s' = mt_init seed'.
Proof.
  intros (Hlen & Hidx & _). rewrite mt_seed_run by done. by eexists.
Qed.

(** [range_uint32] stays in its range, and panics on an empty one. *)
Lemma range_uint32_run seed i s start fin :
  mt_inv seed i s → 0 ≤ start < U32 → 0 ≤ fin < U32 →
  if decide (start < fin)
  then ∃ r s', range_uint32 start fin s = Ok (r, s') ∧ start ≤ r < fin ∧ mt_inv seed (S i) s'
  else range_uint32 start fin s = Panic.
Proof.
  intros Hs Hst Hfin. destruct (mt_step seed i s Hs) as (s1 & Hrun1 & Hs1).
  unfold range_uint32. rewrite (st_run _ _ _ _ _ Hrun1). unfold usub, u32_rem, u32_add.
  destruct (decide (start < fin)) as [Hlt|Hge].
  - rewrite (proj2 (Z.leb_le _ _)) by lia. unfold mbind, st_bind, lift. cbn [mbind res_bind].
    rewrite (proj2 (Z.eqb_neq _ _)) by lia. cbn [mbind res_bind].
    pose proof (Z.mod_pos_bound (mt_output seed i) (fin - start)).
    rewrite (proj2 (Z.ltb_lt _ _)) by lia. cbn [mbind res_bind]. eexists _, s1. split; [done|].
    split; [lia|done].
  - unfold mbind, st_bind, lift. destruct (Z.leb_spec start fin); cbn [mbind res_bind]; [|done].
    by rewrite (proj2 (Z.eqb_eq _ _)) by lia.
Qed.
