(* ===== verification/Text.v ===== *)
(** * Strings (the parts of Rust's strings that the kernel uses)

    A [str] is the list of its UTF-8 bytes.  Splitting, prefixes, the lossy
    conversion of bytes to text and the decimal formatting of numbers follow the
    standard library. *)

From Stdlib Require Import Ascii String.
From S2P Require Import Prelude Bytes.

Abbreviation str := (list Z).

(** String literals. *)
Fixpoint lit (s : string) : str :=
  match s with
  | EmptyString => []
  | String a s => Z.of_nat (nat_of_ascii a) :: lit s
  end.
Arguments lit s%_string_scope.

(** [str::starts_with] a string. *)
Fixpoint starts_with_str (s prefix : str) {struct prefix} : bool :=
  match prefix, s with
  | [], _ => true
  | p :: prefix, c :: s => (c =? p) && starts_with_str s prefix
  | _ :: _, [] => false
  end.

(** [s.split(c)]: at least one piece. *)
Fixpoint split_at (c : Z) (s : str) : list str :=
  match s with
  | [] => [[]]
  | b :: s =>
    if b =? c then [] :: split_at c s
    else match split_at c s with
         | [] => [[b]]
         | p :: ps => (b :: p) :: ps
         end
  end.

Fixpoint join (c : Z) (ps : list str) : str :=
  match ps with
  | [] => []
  | [p] => p
  | p :: ps => p ++ c :: join c ps
  end.

(** The continuation bytes a lead byte of a multi-byte character asks for, and
    the range of the first of them. *)
Definition utf8_lead (b : Z) : option (nat * Z * Z) :=
  if (0xc2 <=? b) && (b <=? 0xdf) then Some (1%nat, 0x80, 0xbf)
  else if b =? 0xe0 then Some (2%nat, 0xa0, 0xbf)
  else if b =? 0xed then Some (2%nat, 0x80, 0x9f)
  else if (0xe1 <=? b) && (b <=? 0xef) then Some (2%nat, 0x80, 0xbf)
  else if b =? 0xf0 then Some (3%nat, 0x90, 0xbf)
  else if (0xf1 <=? b) && (b <=? 0xf3) then Some (3%nat, 0x80, 0xbf)
  else if b =? 0xf4 then Some (3%nat, 0x80, 0x8f)
  else None.

Definition in_range (lo hi b : Z) : bool := (lo <=? b) && (b <=? hi).

(** U+FFFD, the replacement character. *)
Definition REPLACEMENT : str := [0xef; 0xbf; 0xbd].

(** [String::from_utf8_lossy]: every maximal piece that is not UTF-8 becomes one
    replacement character. *)
Fixpoint from_utf8_lossy (s : list Z) : str :=
  match s with
  | [] => []
  | b :: s1 =>
    if b <? 0x80 then b :: from_utf8_lossy s1
    else match utf8_lead b with
    | None => REPLACEMENT ++ from_utf8_lossy s1
    | Some (n, lo, hi) =>
      match s1 with
      | [] => REPLACEMENT
      | c1 :: s2 =>
        if negb (in_range lo hi c1) then REPLACEMENT ++ from_utf8_lossy s1
        else if (n =? 1)%nat then b :: c1 :: from_utf8_lossy s2
        else match s2 with
        | [] => REPLACEMENT
        | c2 :: s3 =>
          if negb (in_range 0x80 0xbf c2) then REPLACEMENT ++ from_utf8_lossy s2
          else if (n =? 2)%nat then b :: c1 :: c2 :: from_utf8_lossy s3
          else match s3 with
          | [] => REPLACEMENT
          | c3 :: s4 =>
            if negb (in_range 0x80 0xbf c3) then REPLACEMENT ++ from_utf8_lossy s3
            else b :: c1 :: c2 :: c3 :: from_utf8_lossy s4
          end
        end
      end
    end
  end.

(** Decimal digits, most significant first; 20 digits hold every [u64]. *)
Fixpoint digits (fuel : nat) (n : Z) (acc : str) : str :=
  match fuel with
  | O => acc
  | S fuel =>
    let acc := (48 + n mod 10) :: acc in
    if n <? 10 then acc else digits fuel (n / 10) acc
  end.
Definition fmt_dec (n : Z) : str := digits 20 n [].

(** [{:w}] pads with spaces and [{:0w}] with zeros, on the left. *)
Definition pad_left (c : Z) (w : nat) (s : str) : str := replicate (w - length s) c ++ s.

(** ** Facts *)

Lemma starts_with_str_spec s p : starts_with_str s p = true ↔ ∃ t, s = p ++ t.
Proof.
  revert s. induction p as [|b p IH]; intros s; simpl.
  - split; [intros _; by exists s|done].
  - destruct s as [|c s]; [split; [done|by intros [t ?]]|].
    rewrite andb_true_iff, Z.eqb_eq, IH. split.
    + intros [-> [t ->]]. by exists t.
    + intros [t [= -> ->]]. split; [done|by exists t].
Qed.

Lemma starts_with_str_refl s : starts_with_str s s = true.
Proof. apply starts_with_str_spec. exists []. by rewrite app_nil_r. Qed.

Lemma split_at_nonempty c s : ∃ p ps, split_at c s = p :: ps.
Proof.
  induction s as [|b s (p & ps & IH)]; simpl; [by eexists _, _|].
  destruct (b =? c); [by eexists _, _|]. rewrite IH. by eexists _, _.
Qed.

(** Joining the pieces gives the string back, and no piece has the separator. *)
Lemma join_split c s : join c (split_at c s) = s.
Proof.
  induction s as [|b s IH]; simpl; [done|]. destruct (split_at_nonempty c s) as (p & ps & Hs).
  rewrite Hs in *. destruct (Z.eqb_spec b c) as [->|Hne].
  - cbn [join app]. by rewrite <- IH.
  - destruct ps as [|p2 ps]; cbn [join app] in *; by rewrite <- IH.
Qed.

Lemma split_no_sep c s : Forall (λ p, c ∉ p) (split_at c s).
Proof.
  induction s as [|b s IH]; simpl; [by repeat constructor; apply not_elem_of_nil|].
  destruct (Z.eqb_spec b c) as [->|Hne]; [constructor; [apply not_elem_of_nil|done]|].
  destruct (split_at c s) as [|p ps]; [by repeat constructor; set_solver|].
  apply list.Forall_cons in IH as [Hp Hps]. constructor; [|done].
  intros [->|Hin]%elem_of_cons; done.
Qed.

Lemma split_app c p s : c ∉ p → split_at c (p ++ c :: s) = p :: split_at c s.
Proof.
  induction p as [|b p IH]; intros Hp; simpl; [by rewrite Z.eqb_refl|].
  apply not_elem_of_cons in Hp as [Hb Hp]. rewrite (proj2 (Z.eqb_neq _ _)) by congruence.
  by rewrite IH.
Qed.

Lemma split_single c p : c ∉ p → split_at c p = [p].
Proof.
  induction p as [|b p IH]; intros Hp; simpl; [done|].
  apply not_elem_of_cons in Hp as [Hb Hp]. rewrite (proj2 (Z.eqb_neq _ _)) by congruence.
  by rewrite IH.
Qed.

(** ASCII text is kept as it is. *)
Lemma from_utf8_lossy_ascii s : Forall (λ b, 0 ≤ b < 128) s → from_utf8_lossy s = s.
Proof.
  induction 1 as [|b s Hb Hs IH]; [done|]. cbn [from_utf8_lossy].
  rewrite (proj2 (Z.ltb_lt _ _)) by lia. by rewrite IH.
Qed.
