(* ===== verification/Path.v ===== *)
(** * Paths (src/src/path.rs)

    [Path] and [PathBuf] are transparent over a string. *)

From Stdlib Require Import String.
From S2P Require Import Prelude Bytes Text.

Abbreviation Path := (list Z).
Abbreviation PathBuf := (list Z).

Definition Path_new (path : str) : Path := path.
Definition PathBuf_new (path : str) : PathBuf := path.
Definition to_owned (p : Path) : PathBuf := PathBuf_new p.

Definition SLASH : Z := 47.

(** [Iter] wraps the iterator of [str::split]: the items it has still to give. *)
Abbreviation Iter := (list str).
Definition iter_next (it : Iter) : option str * Iter :=
  match it with [] => (None, []) | item :: it => (Some item, it) end.

Definition path_iter (p : Path) : Iter := split_at SLASH p.
Definition path_into_iter (p : Path) : Iter := split_at SLASH p.

(** The conversions between strings and paths. *)
Definition str_as_ref (s : str) : Path := Path_new s.
Definition PathBuf_as_ref (p : PathBuf) : Path := Path_new p.
Definition PathBuf_deref (p : PathBuf) : Path := Path_new p.
Definition PathBuf_borrow (p : PathBuf) : Path := Path_new p.

Definition starts_with (p other : Path) : bool := starts_with_str p other.
Definition is_absolute (p : Path) : bool := starts_with_str p (lit "/").

(** [self.inner[prefix.inner.len()..]] of a string that has the prefix. *)
Definition strip_prefix (p prefix : PathBuf) : option PathBuf :=
  if starts_with p prefix then Some (drop (length prefix) p) else None.

Lemma strip_prefix_app prefix rest : strip_prefix (prefix ++ rest) prefix = Some rest.
Proof.
  unfold strip_prefix, starts_with.
  rewrite (proj2 (starts_with_str_spec (prefix ++ rest) prefix)) by (by exists rest).
  by rewrite drop_app_length.
Qed.

Lemma strip_prefix_Some p prefix rest : strip_prefix p prefix = Some rest ↔ p = prefix ++ rest.
Proof.
  split; [|intros ->; apply strip_prefix_app]. unfold strip_prefix, starts_with.
  destruct (starts_with_str p prefix) eqn:Hs; [|done]. intros [= <-].
  apply starts_with_str_spec in Hs as [t ->]. by rewrite drop_app_length.
Qed.
