(* ===== verification/BTree.v ===== *)
(** * Ordered maps

    A [BTreeMap] whose iteration order the code relies on is the list of its
    entries in the order of their keys. *)

From S2P Require Import Prelude.

Section btree.
Context {V : Type}.

Fixpoint bt_insert (k : Z) (v : V) (m : list (Z * V)) : list (Z * V) :=
  match m with
  | [] => [(k, v)]
  | (k', v') :: m =>
    if k <? k' then (k, v) :: (k', v') :: m
    else if k =? k' then (k, v) :: m
    else (k', v') :: bt_insert k v m
  end.

Fixpoint bt_get (k : Z) (m : list (Z * V)) : option V :=
  match m with
  | [] => None
  | (k', v) :: m => if k =? k' then Some v else bt_get k m
  end.

Fixpoint bt_remove (k : Z) (m : list (Z * V)) : list (Z * V) :=
  match m with
  | [] => []
  | (k', v) :: m => if k =? k' then m else (k', v) :: bt_remove k m
  end.

(** Keys are strictly increasing. *)
Fixpoint bt_sorted (m : list (Z * V)) : Prop :=
  match m with
  | [] => True
  | (k, _) :: m => Forall (λ e, k < e.1) m ∧ bt_sorted m
  end.

Lemma bt_insert_last k v m : Forall (λ e, e.1 < k) m → bt_insert k v m = m ++ [(k, v)].
Proof.
  induction 1 as [|[k' v'] m Hk Hm IH]; simpl; [done|]. cbn [fst] in Hk.
  rewrite (proj2 (Z.ltb_ge _ _)), (proj2 (Z.eqb_neq _ _)) by lia. by rewrite IH.
Qed.

Lemma bt_sorted_app m k v : bt_sorted m → Forall (λ e, e.1 < k) m → bt_sorted (m ++ [(k, v)]).
Proof.
  induction m as [|[k' v'] m IH]; simpl.
  - intros _ _. by split; [constructor|].
  - intros [Hlt Hs] [Hk Hm]%list.Forall_cons. split; [|by apply IH].
    apply Forall_app_2; [done|]. by repeat constructor.
Qed.

Lemma bt_remove_elem k m e : e ∈ bt_remove k m → e ∈ m.
Proof.
  induction m as [|[k' v'] m IH]; simpl; [done|]. destruct (k =? k').
  - intros He. by right.
  - intros [->|He]%elem_of_cons; [by left|]. right. auto.
Qed.

Lemma bt_remove_sorted k m : bt_sorted m → bt_sorted (bt_remove k m).
Proof.
  induction m as [|[k' v'] m IH]; simpl; [done|]. intros [Hlt Hs]. destruct (k =? k'); [done|].
  split; [|auto]. apply list.Forall_forall. intros e He%bt_remove_elem.
  by eapply list.Forall_forall in Hlt.
Qed.

Lemma bt_sorted_get m k v : bt_sorted m → (k, v) ∈ m → bt_get k m = Some v.
Proof.
  induction m as [|[k' v'] m IH]; simpl; intros Hs Hin; [by apply elem_of_nil in Hin|].
  destruct Hs as [Hlt Hs]. apply elem_of_cons in Hin as [[= -> ->]|Hin]; [by rewrite Z.eqb_refl|].
  destruct (Z.eqb_spec k k') as [->|Hne]; [|by apply IH].
  eapply list.Forall_forall in Hlt; [|done]. cbn [fst] in Hlt. lia.
Qed.

Lemma bt_get_elem m k v : bt_get k m = Some v → (k, v) ∈ m.
Proof.
  induction m as [|[k' v'] m IH]; simpl; [done|]. destruct (Z.eqb_spec k k') as [->|Hne].
  - intros [= ->]. by left.
  - intros Hg. right. auto.
Qed.

Lemma bt_get_remove m k k' : bt_sorted m →
  bt_get k' (bt_remove k m) = if decide (k' = k) then None else bt_get k' m.
Proof.
  intros Hs. induction m as [|[k0 v0] m IH]; simpl; [by destruct (decide _)|].
  destruct Hs as [Hlt Hs]. specialize (IH Hs).
  destruct (Z.eqb_spec k k0) as [<-|Hne].
  - destruct (decide (k' = k)) as [->|Hk']; [|by rewrite (proj2 (Z.eqb_neq _ _)) by done].
    destruct (bt_get k m) as [v|] eqn:Hg; [|done]. apply bt_get_elem in Hg.
    eapply list.Forall_forall in Hlt; [|done]. cbn [fst] in Hlt. lia.
  - simpl. destruct (Z.eqb_spec k' k0) as [->|Hne']; [by rewrite decide_False|done].
Qed.

Lemma bt_remove_app m k v : Forall (λ e, e.1 < k) m → bt_remove k (m ++ [(k, v)]) = m.
Proof.
  induction 1 as [|[k' v'] m Hk Hm IH]; simpl; [by rewrite Z.eqb_refl|]. cbn [fst] in Hk.
  rewrite (proj2 (Z.eqb_neq _ _)) by lia. by rewrite IH.
Qed.
End btree.
