(* ===== verification/Device.v ===== *)
(** * Character devices (src/src/device.rs, src/src/device/uart.rs)

    A driver acts on the outside by volatile writes of bytes; the model keeps
    their trace, the address and the value of each. *)

From Stdlib Require Import String.
From S2P Require Import Prelude Bytes Text.

(** The volatile writes so far, in order. *)
Abbreviation Mmio := (list (Z * Z)).

Definition write_volatile (addr v : Z) : ST Mmio unit := modify (λ t, t ++ [(addr, v)]).

(** The trait; [put_char] and [get_char] may have effects. *)
Class CharDevOps (D : Type) := {
  can_read : D → bool;
  can_write : D → bool;
  put_char : D → Z → ST Mmio unit;
  get_char : D → ST Mmio Z;
}.

Section char_dev.
Context {D : Type} `{!CharDevOps D}.

Fixpoint print_str (dev : D) (s : str) : ST Mmio unit :=
  match s with
  | [] => mret tt
  | b :: s => _ ← put_char dev b; print_str dev s
  end.

(** [input_str] reads up to a newline. *)
Fixpoint input_loop (fuel : nat) (dev : D) (input : list Z) : ST Mmio str :=
  match fuel with
  | O => lift NoFuel
  | S fuel =>
    c ← get_char dev;
    if c =? 10 then mret (from_utf8_lossy input) else input_loop fuel dev (input ++ [c])
  end.
Definition input_str (fuel : nat) (dev : D) : ST Mmio str := input_loop fuel dev [].
End char_dev.

(** ** The serial drivers *)

(** [Box<dyn CharDev>]: one of the two drivers, at its base address. *)
Inductive CharDev := NS16550 (addr : Z) | PL011 (addr : Z).

Definition ns16550_put_char (addr c : Z) : ST Mmio unit := write_volatile addr c.
Definition pl011_put_char (addr c : Z) : ST Mmio unit := write_volatile addr c.

(** Reading is [unimplemented!] in both. *)
#[export] Instance Uart_CharDev : CharDevOps CharDev := {|
  can_read := λ _, false;
  can_write := λ _, true;
  put_char := λ d c, match d with
                     | NS16550 addr => ns16550_put_char addr c
                     | PL011 addr => pl011_put_char addr c
                     end;
  get_char := λ _, lift Panic;
|}.

(** [NS16550::init]; [lcr] is what the line control register reads as. *)
Definition ns16550_init (uart_addr lcr : Z) : ST Mmio unit :=
  _ ← write_volatile (uart_addr + 3) 8;
  _ ← write_volatile (uart_addr + 2) 1;
  _ ← write_volatile (uart_addr + 1) 1;
  let divisor := 592 in
  let divisor_low := Z.land divisor 0xff in
  let divisor_high := Z.shiftr divisor 8 in
  _ ← write_volatile (uart_addr + 3) (Z.lor lcr (Z.shiftl 1 7));
  _ ← write_volatile (uart_addr + 0) divisor_low;
  _ ← write_volatile (uart_addr + 1) divisor_high;
  write_volatile (uart_addr + 3) lcr.

Definition pl011_init (_uart_addr : Z) : ST Mmio unit := mret tt.

(** ** The device manager *)

Record DeviceManager := mkDeviceManager { char_devs : list CharDev }.

Definition DeviceManager_default : DeviceManager := mkDeviceManager [].

(** [device_init]: the manager behind [DEVICE_MGR]. *)
Definition device_init : DeviceManager := DeviceManager_default.

Definition register_char_dev (dev : CharDev) : ST DeviceManager nat := λ m,
  Ok (length (char_devs m), mkDeviceManager (char_devs m ++ [dev])).

(** ** What printing writes *)

Definition dev_addr (d : CharDev) : Z := match d with NS16550 a => a | PL011 a => a end.

Definition printed (d : CharDev) (s : str) : Mmio := (λ b, (dev_addr d, b)) <$> s.

Lemma print_str_run d s t : print_str d s t = Ok (tt, t ++ printed d s).
Proof.
  revert t. induction s as [|b s IH]; intros t; cbn [print_str].
  - unfold printed. simpl. by rewrite app_nil_r.
  - assert (put_char d b t = Ok (tt, t ++ [(dev_addr d, b)])) as Hput by (by destruct d).
    rewrite (st_run _ _ _ _ _ Hput), IH. unfold printed. rewrite fmap_cons. by rewrite <- (assoc_L (++)).
Qed.

(** A registered device is found under the number it was given, and the others
    keep theirs. *)
Lemma register_char_dev_lookup dev m id m' :
  register_char_dev dev m = Ok (id, m') →
  char_devs m' !! id = Some dev ∧ ∀ i d, char_devs m !! i = Some d → char_devs m' !! i = Some d.
Proof.
  intros [= <- <-]. cbn [char_devs]. split; [by apply list_lookup_middle|].
  intros i d Hi. by apply lookup_app_l_Some.
Qed.
