(* ===== verification/Kmsg.v ===== *)
(** * The kernel log (src/src/kmsg.rs) *)

From Stdlib Require Import String.
From S2P Require Import Prelude Bytes Text Device.

Definition KMSG_MAX : Z := 1024.

Inductive KernelMessageLevel := Fatal | Error | Warning | Debug.

Record KernelMessageEntry := mkEntry {
  level : KernelMessageLevel;
  time : Z;
  message : str;
  module : option str;
}.

Definition KernelMessageEntry_new (module : option str) (time : Z) (level : KernelMessageLevel)
    (msg : str) : KernelMessageEntry := mkEntry level time msg module.

(** [to_string]: [[ttttt.tttttt] ] and the message. *)
Definition entry_to_string (e : KernelMessageEntry) : str :=
  lit "[" ++ pad_left 32 5 (fmt_dec (time e / 1000000000)) ++ lit "." ++
  pad_left 48 6 (fmt_dec (time e mod 1000000000 / 1000)) ++ lit "] " ++
  match module e with Some m => m ++ lit ": " | None => [] end ++ message e.

Record KernelMessage := mkKmsg {
  msgs : list KernelMessageEntry;
  max_log : Z;
  output_handler : option CharDev;
}.

Definition KernelMessage_default : KernelMessage := mkKmsg [] KMSG_MAX None.

(** [VecDeque::pop_front]. *)
Definition pop_front {A} (l : list A) : list A := drop 1 l.

(** The current time is read once, at the start. *)
Definition add_message (now : Z) (module : option str) (level : KernelMessageLevel) (msg : str) :
    ST (KernelMessage * Mmio) unit := λ s,
  let '(k, t) := s in
  let ms := msgs k ++ [KernelMessageEntry_new module now level msg] in
  let ms := if max_log k <? Z.of_nat (length ms) then pop_front ms else ms in
  let k := mkKmsg ms (max_log k) (output_handler k) in
  match output_handler k with
  | Some output_fn =>
    e ← unwrap (list.last ms);
    '(_, t) ← print_str output_fn (entry_to_string e) t;
    Ok (tt, (k, t))
  | None => Ok (tt, (k, t))
  end.

Definition kmsg_fatal now module msg := add_message now module Fatal msg.
Definition kmsg_error now module msg := add_message now module Error msg.
Definition kmsg_warning now module msg := add_message now module Warning msg.
Definition kmsg_debug now module msg := add_message now module Debug msg.

(** The macros, with the formatted text. *)
Definition printk_error now msg := kmsg_error now None msg.
Definition printk_warning now msg := kmsg_warning now None msg.
Definition printk now msg := kmsg_debug now None msg.

(** Both halves of the deque in turn are its items in order. *)
Definition get_messages (k : KernelMessage) : list KernelMessageEntry := msgs k.

(** The loop of [set_max_log]. *)
Fixpoint trim (max : Z) (ms : list KernelMessageEntry) : list KernelMessageEntry :=
  match ms with
  | [] => []
  | _ :: rest => if max <? Z.of_nat (length ms) then trim max rest else ms
  end.

Definition set_max_log (max : Z) : ST KernelMessage unit := λ k,
  Ok (tt, mkKmsg (trim max (msgs k)) max (output_handler k)).

Definition get_max_log (k : KernelMessage) : Z := max_log k.

(** ** What the log keeps *)

(** The last [n] items. *)
Definition lastn {A} (n : nat) (l : list A) : list A := drop (length l - n) l.

Lemma trim_lastn max ms : 0 ≤ max → trim max ms = lastn (Z.to_nat max) ms.
Proof.
  intros Hmax. induction ms as [|e ms IH]; [done|]. cbn [trim]. unfold lastn in *.
  destruct (Z.ltb_spec max (Z.of_nat (length (e :: ms)))) as [Hlt|Hge].
  - rewrite IH. cbn [length] in *.
    by replace (S (length ms) - Z.to_nat max)%nat with (S (length ms - Z.to_nat max)) by lia.
  - by replace (length (e :: ms) - Z.to_nat max)%nat with 0%nat by lia.
Qed.

Lemma lastn_app {A} n (l es : list A) : lastn n (lastn n l ++ es) = lastn n (l ++ es).
Proof.
  unfold lastn. rewrite !length_app, length_drop.
  destruct (decide (length l ≤ n)%nat) as [Hle|Hgt].
  - by replace (length l - n)%nat with 0%nat by lia; rewrite Nat.sub_0_r.
  - replace (length l - (length l - n) + length es - n)%nat with (length es) by lia.
    replace (length l + length es - n)%nat with (length l - n + length es)%nat by lia.
    by rewrite <- drop_drop, (drop_app_le l) by lia.
Qed.

Lemma pop_front_lastn n (l : list KernelMessageEntry) x :
  (0 ≤ n) → (length l ≤ Z.to_nat n)%nat →
  (if n <? Z.of_nat (length (l ++ [x])) then pop_front (l ++ [x]) else l ++ [x])
  = lastn (Z.to_nat n) (l ++ [x]).
Proof.
  intros Hn Hl. unfold lastn, pop_front. rewrite length_app. cbn [length].
  destruct (Z.ltb_spec n (Z.of_nat (length l + 1))).
  - f_equal. lia.
  - by replace (length l + 1 - Z.to_nat n)%nat with 0%nat by lia.
Qed.

Lemma length_lastn {A} n (l : list A) : (length (lastn n l) ≤ n)%nat.
Proof. unfold lastn. rewrite length_drop. lia. Qed.

Lemma last_lastn {A} n (l : list A) x : (0 < n)%nat → list.last (lastn n (l ++ [x])) = Some x.
Proof.
  intros Hn. unfold lastn. rewrite length_app. cbn [length].
  rewrite drop_app_le by lia. apply last_snoc.
Qed.
