(* ===== verification/Vfs.v ===== *)
(** * The virtual file system (src/src/vfs.rs)

    A mounted file system is any type with the operations of the trait
    [FileSystem]; [W] is the rest of the kernel's state, which a file system may
    use (the log, the random generator, the devices). *)

From Stdlib Require Import String.
From S2P Require Import Prelude Bytes Text Path BTree.

Inductive FsError := NoSuchFile | NotSupported | PermissionDenied | FsOther.
Inductive VfsError := NotMounted | VfsFsError (e : FsError).

Inductive FileType := RegularFile | Directory | CharDevice | BlockDevice | SymbolLink.

Record File := mkFile { f_fd : Z; f_type : FileType }.

Record VfsFile := mkVfsFile { vf_fd : File; offset : Z; fs_id : Z }.

(** [Result<A, E>]. *)
Abbreviation Result A E := (A + E)%type.

Class FileSystem (W FS : Type) := {
  fs_create : Path → ST (W * FS) (Result File FsError);
  fs_open : Path → ST (W * FS) (Result File FsError);
  fs_write : File → list Z → Z → ST (W * FS) (Result Z FsError);
  (** The buffer is returned with the result. *)
  fs_read : File → list Z → Z → ST (W * FS) (Result Z FsError * list Z);
  fs_remove : Path → ST (W * FS) (Result unit FsError);
  fs_rename : Path → Path → ST (W * FS) (Result unit FsError);
  fs_close : File → ST (W * FS) (Result unit FsError);
  fs_list_dir : ST (W * FS) (Result (list str) FsError);
  fs_mknod : Path → FileType → Z * Z → ST (W * FS) (Result unit FsError);
}.

(** The default body of [mknod]. *)
Definition default_mknod {W FS} (_path : Path) (_type : FileType) (_id : Z * Z) :
    ST (W * FS) (Result unit FsError) := mret (inr NotSupported).

Record VirtualFileSystem (FS : Type) := mkVfs {
  max_id : Z;
  mount_points : list (Z * PathBuf);
  mounted_fs : gmap Z FS;
}.
Arguments mkVfs {FS}.
Arguments max_id {FS}.
Arguments mount_points {FS}.
Arguments mounted_fs {FS}.

Section vfs.
Context {W FS : Type} `{!FileSystem W FS}.

Abbreviation VFS := (VirtualFileSystem FS).
Abbreviation V := (ST (W * VFS)).

Definition Vfs_default : VFS := mkVfs 0 [] ∅.

(** The loops over [mount_points]: the first entry whose mount point the path
    starts with. *)
Fixpoint find_mount (path : Path) (mps : list (Z * PathBuf)) : option (Z * PathBuf) :=
  match mps with
  | [] => None
  | (fs_id, mpoint) :: mps =>
    if starts_with path mpoint then Some (fs_id, mpoint) else find_mount path mps
  end.

(** A call on the file system behind [id], which the map keeps. *)
Definition on_fs {B} (id : Z) (fs : FS) (f : ST (W * FS) B) : V B := λ s,
  '(b, (w, fs)) ← f (s.1, fs);
  Ok (b, (w, mkVfs (max_id s.2) (mount_points s.2) (<[id:=fs]> (mounted_fs s.2)))).

Definition vfs_open (path : Path) : V (Result VfsFile VfsError) :=
  _ ← lift (assert (is_absolute path));
  s ← get;
  let found := find_mount path (mount_points s.2) in
  match '(id, mpoint) ← found; fs ← mounted_fs s.2 !! id; Some (id, mpoint, fs) with
  | Some (found_fs_id, prefix, fs) =>
    rest ← lift (unwrap (strip_prefix (to_owned path) prefix));
    r ← on_fs found_fs_id fs (fs_open rest);
    mret (match r with
          | inl fd => inl (mkVfsFile fd 0 found_fs_id)
          | inr err => inr (VfsFsError err)
          end)
  | None => mret (inr NotMounted)
  end.

Definition vfs_mount (fs : FS) (mount_point : Path) : V unit :=
  _ ← lift (assert (is_absolute mount_point));
  s ← get;
  let v := s.2 in
  id ← lift (max_id v +! 1);
  put (s.1, mkVfs id (bt_insert (max_id v) (to_owned mount_point) (mount_points v))
              (<[max_id v:=fs]> (mounted_fs v))).

Definition vfs_umount (mount_point : Path) : V unit :=
  s ← get;
  let v := s.2 in
  match find_mount mount_point (mount_points v) with
  | Some (fs_id, _) =>
    put (s.1, mkVfs (max_id v) (bt_remove fs_id (mount_points v)) (delete fs_id (mounted_fs v)))
  | None => mret tt
  end.

(** [get_fs_mut]: the file system and the key it is kept under. *)
Definition get_fs_mut (mount_point : Path) (v : VFS) : option (Z * FS) :=
  '(fs_id, _) ← find_mount mount_point (mount_points v);
  fs ← mounted_fs v !! fs_id;
  Some (fs_id, fs).

(** [read], [write] and [close] take the open file; the first two return it with
    its new offset, [read] also the buffer. *)
Definition vfs_read (fd : VfsFile) (buf : list Z) : V (Result Z FsError * (VfsFile * list Z)) :=
  s ← get;
  fs ← lift (unwrap (mounted_fs s.2 !! fs_id fd));
  '(r, buf) ← on_fs (fs_id fd) fs (fs_read (vf_fd fd) buf (offset fd));
  match r with
  | inl size =>
    off ← lift (offset fd +! size);
    mret (inl size, (mkVfsFile (vf_fd fd) off (fs_id fd), buf))
  | inr err => mret (inr err, (fd, buf))
  end.

Definition vfs_write (fd : VfsFile) (buf : list Z) : V (Result Z FsError * VfsFile) :=
  s ← get;
  fs ← lift (unwrap (mounted_fs s.2 !! fs_id fd));
  r ← on_fs (fs_id fd) fs (fs_write (vf_fd fd) buf (offset fd));
  match r with
  | inl size =>
    off ← lift (offset fd +! size);
    mret (inl size, mkVfsFile (vf_fd fd) off (fs_id fd))
  | inr err => mret (inr err, fd)
  end.

Definition vfs_close (fd : VfsFile) : V (Result unit FsError) :=
  s ← get;
  fs ← lift (unwrap (mounted_fs s.2 !! fs_id fd));
  on_fs (fs_id fd) fs (fs_close (vf_fd fd)).

(** ** The invariant *)

(** The two maps have the same keys, all below [max_id]. *)
Record vfs_wf (v : VFS) : Prop := {
  vw_sorted : bt_sorted (mount_points v);
  vw_below : Forall (λ e, e.1 < max_id v) (mount_points v);
  vw_keys : ∀ id, is_Some (mounted_fs v !! id) ↔ is_Some (bt_get id (mount_points v));
}.

Lemma find_mount_spec path mps id mp :
  find_mount path mps = Some (id, mp) ↔
  ∃ i, mps !! i = Some (id, mp) ∧ starts_with path mp = true ∧
    ∀ j e, (j < i)%nat → mps !! j = Some e → starts_with path e.2 = false.
Proof.
  induction mps as [|[id0 mp0] mps IH]; simpl; [by split; [|intros (? & ? & _)]|].
  destruct (starts_with path mp0) eqn:Hs.
  - split.
    + intros [= -> ->]. exists 0%nat. split_and!; [done..|]. intros j e Hj. lia.
    + intros ([|i] & Hi & Hp & Hmin); simpl in Hi; [by injection Hi as -> ->|].
      specialize (Hmin 0%nat (id0, mp0) ltac:(lia) eq_refl). simpl in Hmin. congruence.
  - rewrite IH. split.
    + intros (i & Hi & Hp & Hmin). exists (S i). split_and!; [done..|].
      intros [|j] e Hj He; simpl in He; [by injection He as <-|]. apply (Hmin j e); [lia|done].
    + intros ([|i] & Hi & Hp & Hmin); simpl in Hi; [injection Hi as -> ->; congruence|].
      exists i. split_and!; [done..|]. intros j e Hj He. apply (Hmin (S j) e); [lia|done].
Qed.

Lemma find_mount_None path mps :
  find_mount path mps = None ↔ ∀ e, e ∈ mps → starts_with path e.2 = false.
Proof.
  induction mps as [|[id0 mp0] mps IH]; simpl.
  - split; [intros _ e He; by apply elem_of_nil in He|done].
  - destruct (starts_with path mp0) eqn:Hs.
    + split; [done|]. intros Hall. specialize (Hall (id0, mp0) ltac:(by left)). simpl in Hall. congruence.
    + rewrite IH. split.
      * intros Hall e [->|He]%elem_of_cons; [done|auto].
      * intros Hall e He. apply Hall. by right.
Qed.

Lemma find_mount_mounted v path id mp :
  vfs_wf v → find_mount path (mount_points v) = Some (id, mp) → is_Some (mounted_fs v !! id).
Proof.
  intros Hwf (i & Hi & _)%find_mount_spec. apply (vw_keys _ Hwf).
  rewrite (bt_sorted_get _ id mp); [by eexists|apply Hwf|by eapply list_elem_of_lookup_2].
Qed.

Lemma vfs_default_wf : vfs_wf Vfs_default.
Proof. constructor; simpl; [done|constructor|]. intros id. by rewrite lookup_empty. Qed.

(** A call on a mounted file system keeps the invariant. *)
Lemma insert_fs_wf v id fs :
  vfs_wf v → is_Some (mounted_fs v !! id) →
  vfs_wf (mkVfs (max_id v) (mount_points v) (<[id:=fs]> (mounted_fs v))).
Proof.
  intros [Hs Hb Hk] Hid. constructor; cbn [mount_points max_id mounted_fs]; [done..|].
  intros id'. rewrite <- Hk. destruct (decide (id' = id)) as [->|Hne].
  - rewrite lookup_insert_eq. by split.
  - by rewrite lookup_insert_ne by congruence.
Qed.

Lemma mount_wf v fs mp :
  vfs_wf v →
  vfs_wf (mkVfs (max_id v + 1) (bt_insert (max_id v) mp (mount_points v))
            (<[max_id v:=fs]> (mounted_fs v))).
Proof.
  intros [Hs Hb Hk]. rewrite bt_insert_last by done.
  constructor; cbn [mount_points max_id mounted_fs].
  - by apply bt_sorted_app.
  - apply Forall_app_2; [|by repeat constructor; simpl; lia].
    eapply list.Forall_impl; [exact Hb|]. simpl. lia.
  - assert (∀ (m : list (Z * PathBuf)) id, Forall (λ e, e.1 < max_id v) m →
      bt_get id (m ++ [(max_id v, mp)]) = if decide (id = max_id v) then Some mp else bt_get id m) as Hget.
    { intros m id. induction 1 as [|[k0 v0] m Hk0 Hm IH]; simpl.
      - destruct (Z.eqb_spec id (max_id v)); by destruct (decide _).
      - rewrite IH. cbn [fst] in Hk0. destruct (Z.eqb_spec id k0) as [->|]; [|done].
        by rewrite decide_False by lia. }
    intros id. rewrite Hget by done. destruct (decide (id = max_id v)) as [->|Hne].
    + rewrite lookup_insert_eq. split; by eexists.
    + by rewrite lookup_insert_ne by congruence.
Qed.

Lemma umount_wf v id :
  vfs_wf v → vfs_wf (mkVfs (max_id v) (bt_remove id (mount_points v)) (delete id (mounted_fs v))).
Proof.
  intros [Hs Hb Hk]. constructor; cbn [mount_points max_id mounted_fs].
  - by apply bt_remove_sorted.
  - apply list.Forall_forall. intros e He%bt_remove_elem. by eapply list.Forall_forall in Hb.
  - intros id'. rewrite bt_get_remove by done. destruct (decide (id' = id)) as [->|Hne].
    + rewrite lookup_delete_eq. split; by intros [? ?].
    + by rewrite lookup_delete_ne by congruence.
Qed.
End vfs.
