(* ===== verification/Devfs.v ===== *)
(** * The device file system (src/src/devfs.rs) *)

From Stdlib Require Import String.
From S2P Require Import Prelude Bytes Text Path Device Kmsg Rand Vfs.

(** The global state that the device files give access to. *)
Record World := mkWorld {
  w_kmsg : KernelMessage;
  w_rng : MT19937;
  w_devices : DeviceManager;
  w_mmio : Mmio;
}.

Definition CHAR_DEV_MAJOR : Z := 1.

Record DevFS := mkDevFS {
  fds : gmap Z str;
  devs : gmap str (Z * Z);
}.

Definition DevFS_default : DevFS := mkDevFS ∅ ∅.

Definition DEVFS_FILES : list str :=
  [lit "zero"; lit "null"; lit "kmsg"; lit "random"; lit "urandom"].

Abbreviation D := (ST (World * DevFS)).

Definition devfs_create (_path : Path) : D (Result File FsError) := mret (inr NotSupported).

(** [let fd = self.fds.len() as u64; self.fds.insert(fd, name); Ok(File)]. *)
Definition new_fd (name : str) : D (Result File FsError) := λ s,
  let fd := Z.of_nat (size (fds s.2)) in
  Ok (inl (mkFile fd CharDevice), (s.1, mkDevFS (<[fd:=name]> (fds s.2)) (devs s.2))).

Definition devfs_open (path : Path) : D (Result File FsError) :=
  dev ← lift (unwrap (path_iter path !! 1%nat));
  s ← get;
  if bool_decide (dev ∈ DEVFS_FILES) then new_fd dev
  else match devs s.2 !! dev with
  | Some _dev => new_fd dev
  | None => mret (inr NoSuchFile)
  end.

(** The loop over the messages of the log: the buffer, [buf_off] and [offset]. *)
Fixpoint kmsg_loop (msgs : list KernelMessageEntry) (buf : list Z) (buf_off : nat) (offset : Z) :
    res (list Z * nat) :=
  match msgs with
  | [] => Ok (buf, buf_off)
  | msg_entry :: msgs =>
    if (buf_off =? length buf)%nat then Ok (buf, buf_off)
    else
      let msg := entry_to_string msg_entry in
      if Z.of_nat (length msg) <=? offset
      then kmsg_loop msgs buf buf_off (offset - Z.of_nat (length msg))
      else
        let off := Z.to_nat offset in
        let read_size := Nat.min (length buf - buf_off) (length msg - off) in
        buf ← write_slice buf buf_off (take read_size (drop off msg));
        kmsg_loop msgs buf (buf_off + read_size) 0
  end.

Definition is_name (name : str) (s : string) : bool := bool_decide (name = lit s).
Arguments is_name name s%_string_scope.

Definition devfs_read (fd : File) (buf : list Z) (offset : Z) : D (Result Z FsError * list Z) := λ s,
  let '(w, fs) := s in
  match fds fs !! f_fd fd with
  | Some file_name =>
    if is_name file_name "zero" then
      Ok ((inl (Z.of_nat (length buf)), replicate (length buf) 0), (w, fs))
    else if is_name file_name "kmsg" then
      '(buf, buf_off) ← kmsg_loop (get_messages (w_kmsg w)) buf 0 offset;
      Ok ((inl (Z.of_nat buf_off), buf), (w, fs))
    else if is_name file_name "random" || is_name file_name "urandom" then
      '(buf, rng) ← gen_bytes buf (w_rng w);
      Ok ((inl (Z.of_nat (length buf)), buf),
          (mkWorld (w_kmsg w) rng (w_devices w) (w_mmio w), fs))
    else Ok ((inr PermissionDenied, buf), (w, fs))
  | None => Ok ((inr NoSuchFile, buf), (w, fs))
  end.

Definition devfs_write (fd : File) (buf : list Z) (_offset : Z) : D (Result Z FsError) := λ s,
  let '(w, fs) := s in
  match fds fs !! f_fd fd with
  | Some file_name =>
    if is_name file_name "null" then Ok (inl (Z.of_nat (length buf)), (w, fs))
    else match devs fs !! file_name with
    | Some (_major, minor) =>
      dev ← index (char_devs (w_devices w)) (Z.to_nat minor);
      '(_, t) ← print_str dev (from_utf8_lossy buf) (w_mmio w);
      Ok (inl (Z.of_nat (length buf)), (mkWorld (w_kmsg w) (w_rng w) (w_devices w) t, fs))
    | None => Ok (inr PermissionDenied, (w, fs))
    end
  | None => Ok (inr NoSuchFile, (w, fs))
  end.

Definition devfs_remove (_path : Path) : D (Result unit FsError) := mret (inr NotSupported).
Definition devfs_rename (_src _dst : Path) : D (Result unit FsError) := mret (inr NotSupported).

Definition devfs_close (fd : File) : D (Result unit FsError) := λ s,
  Ok (inl tt, (s.1, mkDevFS (delete (f_fd fd) (fds s.2)) (devs s.2))).

Definition devfs_list_dir : D (Result (list str) FsError) := mret (inl DEVFS_FILES).

Definition devfs_mknod {W} (path : Path) (_type : FileType) (id : Z * Z) : ST (W * DevFS) (Result unit FsError) :=
  dev ← lift (unwrap (head (path_iter path)));
  s ← get;
  _ ← put (s.1, mkDevFS (fds s.2) (<[dev:=id]> (devs s.2)));
  mret (inl tt).

(** [add_device]: the guard returns early for every name that is not in the
    list. *)
Definition add_device (name : str) (id : Z * Z) (fs : DevFS) : DevFS :=
  if negb (bool_decide (name ∈ DEVFS_FILES)) then fs
  else mkDevFS (fds fs) (<[name:=id]> (devs fs)).

#[export] Instance DevFS_FileSystem : FileSystem World DevFS := {|
  fs_create := devfs_create;
  fs_open := devfs_open;
  fs_write := devfs_write;
  fs_read := devfs_read;
  fs_remove := devfs_remove;
  fs_rename := devfs_rename;
  fs_close := devfs_close;
  fs_list_dir := devfs_list_dir;
  fs_mknod := devfs_mknod;
|}.

(** [vfs_init] (src/src/vfs.rs): the device files under [/dev]. *)
Definition vfs_init {W} (w : W) : res (W * VirtualFileSystem DevFS) :=
  '(_, s) ← vfs_mount DevFS_default (lit "/dev") (w, Vfs_default);
  Ok s.

(** ** Reading the log *)

(** The text of the whole log. *)
Definition log_text (ms : list KernelMessageEntry) : list Z := ms ≫= entry_to_string.

(** The loop copies the part of the text that starts at [offset], as much of it
    as the rest of the buffer holds. *)
Lemma kmsg_loop_run ms : ∀ pre suf offset,
  0 ≤ offset →
  let got := take (length suf) (drop (Z.to_nat offset) (log_text ms)) in
  kmsg_loop ms (pre ++ suf) (length pre) offset
  = Ok (pre ++ got ++ drop (length got) suf, (length pre + length got)%nat).
Proof.
  induction ms as [|e ms IH]; intros pre suf offset Hoff got.
  { unfold got, log_text. simpl. rewrite drop_nil, take_nil. simpl. rewrite drop_0.
    by rewrite Nat.add_0_r. }
  assert (log_text (e :: ms) = entry_to_string e ++ log_text ms) as Htext by done.
  set (msg := entry_to_string e) in *. cbn [kmsg_loop]. fold msg. rewrite length_app.
  destruct (Nat.eqb_spec (length pre) (length pre + length suf)) as [Hfull|Hroom].
  { assert (suf = []) as -> by (apply nil_length_inv; lia). unfold got. simpl.
    by rewrite Nat.add_0_r. }
  destruct (Z.leb_spec (Z.of_nat (length msg)) offset) as [Hskip|Hin].
  - rewrite (IH pre suf (offset - Z.of_nat (length msg))) by lia. unfold got. rewrite Htext.
    rewrite (drop_app_ge msg) by lia.
    by replace (Z.to_nat offset - length msg)%nat with (Z.to_nat (offset - Z.of_nat (length msg))) by lia.
  - set (off := Z.to_nat offset) in *.
    replace (length pre + length suf - length pre)%nat with (length suf) by lia.
    set (piece := drop off msg). assert (length piece = (length msg - off)%nat) as Hlp by apply length_drop.
    set (n := Nat.min (length suf) (length msg - off)).
    assert (length (take n piece) = n) as Hn by (rewrite length_take; unfold n; lia).
    rewrite write_slice_spec by (rewrite Hn; unfold n; lia). cbn [mbind res_bind]. rewrite Hn.
    rewrite (assoc_L (++) pre). replace (length pre + n)%nat with (length (pre ++ take n piece))
      by (rewrite length_app; lia).
    rewrite IH by lia. change (Z.to_nat 0) with 0%nat. rewrite drop_0, length_drop.
    assert (got = take n piece ++ take (length suf - n) (log_text ms)) as ->.
    { unfold got. rewrite Htext, drop_app_le by lia. fold piece.
      destruct (decide (length suf ≤ length piece)%nat) as [Hle|Hgt].
      - rewrite take_app_le by done. replace n with (length suf) by (unfold n; lia).
        by rewrite Nat.sub_diag, take_0, app_nil_r.
      - rewrite take_app_ge by lia. replace n with (length piece) by (unfold n; lia).
        by rewrite (take_ge piece) by lia. }
    rewrite !length_app, Hn. f_equal. f_equal; [|lia].
    rewrite <- !(assoc_L (++)). do 3 f_equal. by rewrite drop_drop.
Qed.
