(* ===== verification/FsTheorems.v ===== *)
(** * The log and the file systems: theorems *)

From Stdlib Require Import String.
From S2P Require Import Prelude Bytes Text Path BTree Device Kmsg Rand RandTheorems Vfs Devfs.

(** ** The log *)

(** The arguments of a call of [add_message]: the time, the module, the level
    and the text. *)
Definition log_call : Type := Z * option str * KernelMessageLevel * str.

Fixpoint add_messages (cs : list log_call) : ST (KernelMessage * Mmio) unit :=
  match cs with
  | [] => mret tt
  | (now, md, lv, msg) :: cs => _ ← add_message now md lv msg; add_messages cs
  end.

Definition call_entry (c : log_call) : KernelMessageEntry :=
  let '(now, md, lv, msg) := c in KernelMessageEntry_new md now lv msg.

(** What the console is sent for a message. *)
Definition console_output (h : option CharDev) (e : KernelMessageEntry) : Mmio :=
  match h with Some d => printed d (entry_to_string e) | None => [] end.

Lemma add_message_run now md lv msg k t :
  0 < max_log k → (length (msgs k) ≤ Z.to_nat (max_log k))%nat →
  add_message now md lv msg (k, t)
  = Ok (tt, (mkKmsg (lastn (Z.to_nat (max_log k)) (msgs k ++ [call_entry (now, md, lv, msg)]))
                    (max_log k) (output_handler k),
             t ++ console_output (output_handler k) (call_entry (now, md, lv, msg)))).
Proof.
  intros Hmax Hlen. unfold add_message. rewrite pop_front_lastn by lia. cbn [output_handler max_log].
  destruct (output_handler k) as [d|] eqn:Hh; cbn [console_output].
  - rewrite last_lastn by lia. cbn [unwrap mbind res_bind]. rewrite print_str_run. done.
  - by rewrite app_nil_r.
Qed.

(** C36: after any sequence of messages the log holds the last [max_log] of all
    that were ever added, in order, and the console has been sent the text of
    every one of them, in order. *)
Theorem kmsg_keeps_last cs k t :
  0 < max_log k → (length (msgs k) ≤ Z.to_nat (max_log k))%nat →
  add_messages cs (k, t)
  = Ok (tt, (mkKmsg (lastn (Z.to_nat (max_log k)) (msgs k ++ (call_entry <$> cs)))
                    (max_log k) (output_handler k),
             t ++ (cs ≫= λ c, console_output (output_handler k) (call_entry c)))).
Proof.
  revert k t. induction cs as [|[[[now md] lv] msg] cs IH]; intros k t Hmax Hlen.
  - cbn [add_messages fmap list_fmap mbind list_bind]. rewrite !app_nil_r.
    unfold lastn. replace (length (msgs k) - Z.to_nat (max_log k))%nat with 0%nat by lia.
    rewrite drop_0. by destruct k.
  - cbn [add_messages]. rewrite (st_run _ _ _ _ _ (add_message_run now md lv msg k t Hmax Hlen)).
    rewrite IH; cbn [max_log msgs output_handler]; [|done|apply length_lastn].
    rewrite fmap_cons, bind_cons, <- (assoc_L (++)). do 4 f_equal.
    by rewrite lastn_app, <- (assoc_L (++)).
Qed.

Lemma kmsg_keeps_last_witness :
  add_messages [(5, None, Debug, lit "a"); (7, Some (lit "m"), Fatal, lit "b")]
    (mkKmsg [] 1 (Some (PL011 0x9000000)), [])
  = Ok (tt, (mkKmsg (lastn 1 [mkEntry Debug 5 (lit "a") None; mkEntry Fatal 7 (lit "b") (Some (lit "m"))])
               1 (Some (PL011 0x9000000)),
             printed (PL011 0x9000000) (lit "[    0.000000] a[    0.000000] m: b"))).
Proof.
  apply (kmsg_keeps_last [(5, None, Debug, lit "a"); (7, Some (lit "m"), Fatal, lit "b")]
    (mkKmsg [] 1 (Some (PL011 0x9000000))) []).
  - reflexivity.
  - simpl. lia.
Defined.

(** ** The virtual file system *)

Section vfs_theorems.
Context {W FS : Type} `{!FileSystem W FS}.

(** The calls of the virtual file system. *)
Inductive vfs_op :=
| OpMount (fs : FS) (mount_point : Path)
| OpUmount (mount_point : Path)
| OpOpen (path : Path)
| OpRead (fd : VfsFile) (buf : list Z)
| OpWrite (fd : VfsFile) (buf : list Z)
| OpClose (fd : VfsFile).

Definition run_vfs_op (op : vfs_op) : ST (W * VirtualFileSystem FS) unit :=
  match op with
  | OpMount fs mp => vfs_mount fs mp
  | OpUmount mp => vfs_umount mp
  | OpOpen path => _ ← vfs_open path; mret tt
  | OpRead fd buf => _ ← vfs_read fd buf; mret tt
  | OpWrite fd buf => _ ← vfs_write fd buf; mret tt
  | OpClose fd => _ ← vfs_close fd; mret tt
  end.

(** The states that calls lead to from an empty file system. *)
Inductive vfs_reachable : VirtualFileSystem FS → Prop :=
| vfs_reach_default : vfs_reachable Vfs_default
| vfs_reach_op op w v w' v' :
    vfs_reachable v → run_vfs_op op (w, v) = Ok (tt, (w', v')) → vfs_reachable v'.

Lemma on_fs_inv {B} id fs (f : ST (W * FS) B) w v b s' :
  on_fs id fs f (w, v) = Ok (b, s') →
  ∃ w' fs', s' = (w', mkVfs (max_id v) (mount_points v) (<[id:=fs']> (mounted_fs v))).
Proof.
  unfold on_fs. cbn [fst snd]. destruct (f (w, fs)) as [[b' [w' fs']]| | |]; [|done..].
  cbn [mbind res_bind]. intros [= <- <-]. by exists w', fs'.
Qed.

(** A call that goes through [on_fs] keeps the invariant. *)
Lemma on_fs_wf {B C} id fs (f : ST (W * FS) B) (g : B → ST (W * VirtualFileSystem FS) C) w v c w' v' :
  vfs_wf v → mounted_fs v !! id = Some fs →
  (∀ b s c s', g b s = Ok (c, s') → s' = s) →
  (on_fs id fs f ≫= g) (w, v) = Ok (c, (w', v')) → vfs_wf v'.
Proof.
  intros Hwf Hid Hg Hrun. rewrite st_run_bind in Hrun.
  destruct (on_fs id fs f (w, v)) as [[b s]| | |] eqn:Hon; [|done..]. cbn [mbind res_bind] in Hrun.
  apply Hg in Hrun. apply on_fs_inv in Hon as (w1 & fs1 & ->). injection Hrun as -> ->.
  apply insert_fs_wf; [done|]. by eexists.
Qed.

Lemma run_vfs_op_wf op w v w' v' :
  vfs_wf v → run_vfs_op op (w, v) = Ok (tt, (w', v')) → vfs_wf v'.
Proof.
  intros Hwf. assert (∀ B (m : ST (W * VirtualFileSystem FS) B),
    (∀ b w' v', m (w, v) = Ok (b, (w', v')) → vfs_wf v') →
    (_ ← m; mret tt) (w, v) = Ok (tt, (w', v')) → vfs_wf v') as Hdrop.
  { intros B m Hm. rewrite st_run_bind. destruct (m (w, v)) as [[b [w1 v1]]| | |] eqn:Hrun; [|done..].
    cbn [mbind res_bind mret st_ret]. intros [= -> ->]. by eapply Hm. }
  destruct op as [fs mp|mp|path|fd buf|fd buf|fd]; cbn [run_vfs_op]; [| |apply Hdrop..];
    try intros b w1 v1.
  - unfold vfs_mount. destruct (is_absolute mp); [|done].
    rewrite (st_run_lift _ _ _ tt) by done. rewrite st_run_get. cbn [fst snd].
    rewrite st_run_bind. unfold lift. destruct (max_id v +! 1) as [id| | |] eqn:Hid; [|done..].
    apply uadd_inv in Hid as [-> _]. cbn [mbind res_bind put]. intros [= _ <-].
    by apply mount_wf.
  - unfold vfs_umount. rewrite st_run_get. cbn [fst snd].
    destruct (find_mount _ _) as [[id mp']|]; [|by intros [= _ <-]]. intros [= _ <-].
    by apply umount_wf.
  - unfold vfs_open. destruct (is_absolute path); [|done].
    rewrite (st_run_lift _ _ _ tt) by done. rewrite st_run_get. cbn [fst snd].
    destruct (find_mount _ _) as [[id mp]|]; [|by intros [= _ _ <-]]. cbn [mbind option_bind].
    destruct (mounted_fs v !! id) as [fs|] eqn:Hfs; [|by intros [= _ _ <-]].
    cbn [mbind option_bind]. destruct (strip_prefix (to_owned path) mp) as [rest|]; [|done]. rewrite (st_run_lift _ _ _ rest) by done. intros Hrun. eapply (on_fs_wf id fs); [done..| |exact Hrun].
    by intros r s c s' [= _ <-].
  - unfold vfs_read. rewrite st_run_get. cbn [fst snd].
    destruct (mounted_fs v !! fs_id fd) as [fs|] eqn:Hfs; [|done].
    rewrite (st_run_lift _ _ _ fs) by done. intros Hrun. eapply (on_fs_wf (fs_id fd) fs); [done..| |exact Hrun].
    intros [[size|err] buf'] s c s'; [|by intros [= _ <-]]. rewrite st_run_bind. unfold lift.
    destruct (offset fd +! size); [|done..]. by intros [= _ <-].
  - unfold vfs_write. rewrite st_run_get. cbn [fst snd].
    destruct (mounted_fs v !! fs_id fd) as [fs|] eqn:Hfs; [|done].
    rewrite (st_run_lift _ _ _ fs) by done. intros Hrun. eapply (on_fs_wf (fs_id fd) fs); [done..| |exact Hrun].
    intros [size|err] s c s'; [|by intros [= _ <-]]. rewrite st_run_bind. unfold lift.
    destruct (offset fd +! size); [|done..]. by intros [= _ <-].
  - unfold vfs_close. rewrite st_run_get. cbn [fst snd].
    destruct (mounted_fs v !! fs_id fd) as [fs|] eqn:Hfs; [|done].
    rewrite (st_run_lift _ _ _ fs) by done. intros Hrun.
    apply on_fs_inv in Hrun as (w2 & fs2 & [= -> ->]). apply insert_fs_wf; [done|]. by eexists.
Qed.

(** C37: in every state that calls lead to, each mount point has its file system
    and each file system its mount point, under identifiers below the next one,
    so that a path with a mounted prefix is never answered with [NotMounted]. *)
Theorem vfs_reachable_wf v w path :
  vfs_reachable v →
  vfs_wf v ∧
  (is_absolute path = true → (∃ e, e ∈ mount_points v ∧ starts_with path e.2 = true) →
   ∀ s', vfs_open path (w, v) ≠ Ok (inr NotMounted, s')).
Proof.
  intros Hr. assert (vfs_wf v) as Hwf.
  { induction Hr as [|op w0 v w' v' _ IH Hrun]; [apply vfs_default_wf|by eapply run_vfs_op_wf]. }
  split; [done|]. intros Habs (e & He & Hp) s'. unfold vfs_open. rewrite Habs.
  rewrite (st_run_lift _ _ _ tt) by done. rewrite st_run_get. cbn [snd].
  destruct (find_mount path (mount_points v)) as [[id mp]|] eqn:Hf.
  2: { rewrite find_mount_None in Hf. apply Hf in He. congruence. }
  destruct (find_mount_mounted v path id mp Hwf Hf) as [fs Hfs]. cbn [mbind option_bind]. rewrite Hfs.
  cbn [mbind option_bind]. destruct (strip_prefix (to_owned path) mp) as [rest|]; [|done]. rewrite (st_run_lift _ _ _ rest) by done. rewrite st_run_bind.
  destruct (on_fs id fs (fs_open rest) (w, v)) as [[[fd|err] s1]| | |]; done.
Qed.

(** [open] hands the rest of the path to the file system of the first mount
    point, in the order of mounting, that is a textual prefix of it, and wraps
    the answer: the file at offset 0, or the error; without such a mount point
    the answer is [NotMounted]. *)
Theorem vfs_open_correct w v path :
  vfs_wf v → is_absolute path = true →
  ((∀ e, e ∈ mount_points v → starts_with path e.2 = false) →
     vfs_open path (w, v) = Ok (inr NotMounted, (w, v))) ∧
  (∀ i id mp rest, mount_points v !! i = Some (id, mp) → path = mp ++ rest →
     (∀ j e, (j < i)%nat → mount_points v !! j = Some e → starts_with path e.2 = false) →
     ∃ fs, mounted_fs v !! id = Some fs ∧
     ∀ r w' fs', fs_open rest (w, fs) = Ok (r, (w', fs')) →
       vfs_open path (w, v)
       = Ok (match r with inl fd => inl (mkVfsFile fd 0 id) | inr err => inr (VfsFsError err) end,
             (w', mkVfs (max_id v) (mount_points v) (<[id:=fs']> (mounted_fs v))))).
Proof.
  intros Hwf Habs. unfold vfs_open. rewrite Habs. rewrite (st_run_lift _ _ _ tt) by done.
  rewrite st_run_get. cbn [snd]. split.
  - intros Hnone. by rewrite (proj2 (find_mount_None path _) Hnone).
  - intros i id mp rest Hi -> Hmin. assert (find_mount (mp ++ rest) (mount_points v) = Some (id, mp)) as Hf.
    { apply find_mount_spec. exists i. split_and!; [done| |done]. apply starts_with_str_spec. by exists rest. }
    destruct (find_mount_mounted v _ id mp Hwf Hf) as [fs Hfs]. exists fs. split; [done|].
    intros r w' fs' Hopen. rewrite Hf. cbn [mbind option_bind]. rewrite Hfs.
    cbn [mbind option_bind]. rewrite (st_run_lift _ _ _ rest) by (unfold to_owned, PathBuf_new; by rewrite strip_prefix_app).
    rewrite st_run_bind. unfold on_fs. cbn [fst snd]. by rewrite Hopen.
Qed.
End vfs_theorems.

(** A log of two messages and the file system of [vfs_init]. *)
Definition demo_log : list KernelMessageEntry :=
  [mkEntry Debug 1500000000 (lit "boot") None; mkEntry Error 2000003000 (lit "disk") (Some (lit "ata"))].
Definition demo_world : World :=
  mkWorld (mkKmsg demo_log 1024 None) (mkMT [] 0) DeviceManager_default [].
Definition demo_vfs : VirtualFileSystem DevFS :=
  mkVfs 1 [(0, lit "/dev")] {[0 := DevFS_default]}.

Lemma demo_vfs_init : vfs_init demo_world = Ok (demo_world, demo_vfs).
Proof. reflexivity. Qed.

Lemma demo_vfs_reachable : vfs_reachable (W:=World) demo_vfs.
Proof.
  apply (vfs_reach_op (OpMount DevFS_default (lit "/dev")) demo_world Vfs_default demo_world).
  - apply vfs_reach_default.
  - reflexivity.
Qed.

Lemma vfs_reachable_wf_witness :
  vfs_wf demo_vfs ∧
  (is_absolute (lit "/dev/zero") = true →
   (∃ e, e ∈ mount_points demo_vfs ∧ starts_with (lit "/dev/zero") e.2 = true) →
   ∀ s', vfs_open (lit "/dev/zero") (demo_world, demo_vfs) ≠ Ok (inr NotMounted, s')).
Proof.
  apply (vfs_reachable_wf (W:=World) demo_vfs demo_world (lit "/dev/zero")).
  apply demo_vfs_reachable.
Defined.

Lemma vfs_open_correct_witness :
  ∃ fs, mounted_fs demo_vfs !! 0 = Some fs ∧
  ∀ r w' fs', fs_open (lit "/kmsg") (demo_world, fs) = Ok (r, (w', fs')) →
    vfs_open (lit "/dev/kmsg") (demo_world, demo_vfs)
    = Ok (match r with inl fd => inl (mkVfsFile fd 0 0) | inr err => inr (VfsFsError err) end,
          (w', mkVfs 1 [(0, lit "/dev")] (<[0:=fs']> (mounted_fs demo_vfs)))).
Proof.
  apply (vfs_open_correct demo_world demo_vfs (lit "/dev/kmsg")) with (i := 0%nat) (mp := lit "/dev").
  - constructor; cbn [mount_points max_id mounted_fs demo_vfs].
    + split; [constructor|exact I].
    + repeat constructor.
    + intros id. simpl. destruct (Z.eqb_spec id 0) as [->|Hne].
      * rewrite lookup_singleton_eq. split; by eexists.
      * rewrite lookup_singleton_ne by congruence. split; by intros [? ?].
  - reflexivity.
  - reflexivity.
  - reflexivity.
  - intros j e Hj. lia.
Defined.

(** ** Reading the log through a file *)

(** Reads into a sequence of buffers: the bytes that were read. *)
Fixpoint read_all (fd : VfsFile) (bufs : list (list Z)) :
    ST (World * VirtualFileSystem DevFS) (list Z) :=
  match bufs with
  | [] => mret []
  | buf :: bufs =>
    '(r, (fd, buf)) ← vfs_read fd buf;
    match r with
    | inl n => rest ← read_all fd bufs; mret (take (Z.to_nat n) buf ++ rest)
    | inr _ => mret []
    end
  end.

(** An open file that stands for the log. *)
Definition kmsg_file (v : VirtualFileSystem DevFS) (fd : VfsFile) : Prop :=
  ∃ fs, mounted_fs v !! fs_id fd = Some fs ∧ fds fs !! f_fd (vf_fd fd) = Some (lit "kmsg").

Lemma vfs_read_kmsg w v fd buf :
  kmsg_file v fd → 0 ≤ offset fd → offset fd + Z.of_nat (length buf) < U64 →
  let got := take (length buf) (drop (Z.to_nat (offset fd)) (log_text (msgs (w_kmsg w)))) in
  vfs_read fd buf (w, v)
  = Ok ((inl (Z.of_nat (length got)),
         (mkVfsFile (vf_fd fd) (offset fd + Z.of_nat (length got)) (fs_id fd),
          got ++ drop (length got) buf)), (w, v)).
Proof.
  intros (fs & Hfs & Hname) Hoff Hlt got. unfold vfs_read. rewrite st_run_get. cbn [snd].
  rewrite Hfs. rewrite (st_run_lift _ _ _ fs) by done.
  assert (fs_read (vf_fd fd) buf (offset fd) (w, fs)
    = Ok ((inl (Z.of_nat (length got)), got ++ drop (length got) buf), (w, fs))) as Hread.
  { cbn [fs_read DevFS_FileSystem]. unfold devfs_read. rewrite Hname.
    change (is_name (lit "kmsg") "zero") with false. change (is_name (lit "kmsg") "kmsg") with true.
    cbv iota. pose proof (kmsg_loop_run (msgs (w_kmsg w)) [] buf (offset fd) Hoff) as Hloop.
    cbn [app length] in Hloop. unfold get_messages. rewrite Hloop. done. }
  rewrite st_run_bind. unfold on_fs. cbn [fst snd]. rewrite Hread. cbn [mbind res_bind].
  assert (length got ≤ length buf)%nat as Hle by (unfold got; rewrite length_take; lia).
  rewrite (st_run_lift _ _ _ (offset fd + Z.of_nat (length got))) by (apply uadd_Ok; lia).
  unfold mret, st_ret. rewrite insert_id by done. by destruct v.
Qed.

(** C35: reading the log through the virtual file system: however the reads are
    cut into buffers, the bytes they return, put together, are the text of the
    log from the file's offset on, as much of it as the buffers hold; nothing is
    skipped or repeated between two reads. *)
Theorem kmsg_reads_contiguous w v fd bufs :
  kmsg_file v fd → 0 ≤ offset fd →
  offset fd + Z.of_nat (length (concat bufs)) < U64 →
  read_all fd bufs (w, v)
  = Ok (take (length (concat bufs))
          (drop (Z.to_nat (offset fd)) (log_text (msgs (w_kmsg w)))), (w, v)).
Proof.
  revert fd. induction bufs as [|buf bufs IH]; intros fd Hf Hoff Hlt; [done|].
  cbn [concat read_all] in *. rewrite length_app in *.
  rewrite (st_run _ _ _ _ _ (vfs_read_kmsg w v fd buf Hf Hoff ltac:(lia))).
  set (text := drop (Z.to_nat (offset fd)) _). set (got := take (length buf) text).
  assert (length got ≤ length buf)%nat as Hle by (unfold got; rewrite length_take; lia).
  rewrite Nat2Z.id, take_app_length.
  set (fd' := mkVfsFile (vf_fd fd) (offset fd + Z.of_nat (length got)) (fs_id fd)).
  rewrite (st_run _ _ _ _ _ (IH fd' Hf ltac:(simpl; lia) ltac:(simpl; lia))).
  unfold mret, st_ret. do 2 f_equal. unfold fd'. cbn [offset]. rewrite Z2Nat.inj_add, Nat2Z.id by lia.
  rewrite <- drop_drop. fold text. unfold got. rewrite length_take.
  destruct (decide (length buf ≤ length text)%nat) as [Hle'|Hgt].
  - rewrite Nat.min_l by done. by rewrite take_take_drop.
  - rewrite Nat.min_r by lia. rewrite drop_ge, take_nil, app_nil_r by lia. rewrite !take_ge by lia. done.
Qed.

(** The file that opening [/dev/kmsg] gives. *)
Definition demo_open : VirtualFileSystem DevFS :=
  mkVfs 1 [(0, lit "/dev")] {[0 := mkDevFS {[0 := lit "kmsg"]} ∅]}.

Lemma kmsg_reads_contiguous_witness :
  vfs_open (lit "/dev/kmsg") (demo_world, demo_vfs)
    = Ok (inl (mkVfsFile (mkFile 0 CharDevice) 0 0), (demo_world, demo_open)) ∧
  read_all (mkVfsFile (mkFile 0 CharDevice) 0 0) [replicate 10 0; replicate 30 0; replicate 40 0]
    (demo_world, demo_open)
  = Ok (lit "[    1.500000] boot[    2.000003] ata: disk", (demo_world, demo_open)).
Proof.
  split; [reflexivity|].
  apply (kmsg_reads_contiguous demo_world demo_open (mkVfsFile (mkFile 0 CharDevice) 0 0)
    [replicate 10 0; replicate 30 0; replicate 40 0]).
  - by eexists.
  - simpl. lia.
  - vm_compute. reflexivity.
Defined.

(** ** Descriptors of the device files *)

(** Descriptors are numbered by the count of open files.  Two files are
    opened, the first is closed and a third is opened: it gets the descriptor of
    the second, which is still open and from then on stands for the third. *)
Theorem devfs_descriptor_collision w fs n a b c :
  a ∈ DEVFS_FILES → b ∈ DEVFS_FILES → c ∈ DEVFS_FILES →
  size (fds fs) = n → fds fs !! Z.of_nat n = None → fds fs !! Z.of_nat (S n) = None →
  ∃ fs1 fs2 fs3 fs4 : DevFS,
    devfs_open (SLASH :: a) (w, fs) = Ok (inl (mkFile (Z.of_nat n) CharDevice), (w, fs1)) ∧
    devfs_open (SLASH :: b) (w, fs1) = Ok (inl (mkFile (Z.of_nat (S n)) CharDevice), (w, fs2)) ∧
    fds fs2 !! Z.of_nat (S n) = Some b ∧
    devfs_close (mkFile (Z.of_nat n) CharDevice) (w, fs2) = Ok (inl tt, (w, fs3)) ∧
    devfs_open (SLASH :: c) (w, fs3) = Ok (inl (mkFile (Z.of_nat (S n)) CharDevice), (w, fs4)) ∧
    fds fs4 !! Z.of_nat (S n) = Some c.
Proof.
  intros Ha Hb Hc Hsize Hn Hn1.
  assert (∀ x (g : DevFS), x ∈ DEVFS_FILES →
    devfs_open (SLASH :: x) (w, g) = Ok (inl (mkFile (Z.of_nat (size (fds g))) CharDevice),
      (w, mkDevFS (<[Z.of_nat (size (fds g)):=x]> (fds g)) (devs g)))) as Hopen.
  { intros x g Hx. unfold devfs_open. assert (path_iter (SLASH :: x) !! 1%nat = Some x) as Hit.
    { unfold path_iter. cbn [split_at]. rewrite Z.eqb_refl. rewrite split_single; [done|].
      unfold DEVFS_FILES in Hx. repeat (apply elem_of_cons in Hx as [->|Hx]; [vm_compute; set_solver|]).
      by apply elem_of_nil in Hx. }
    rewrite Hit. rewrite (st_run_lift _ _ _ x) by done. rewrite st_run_get.
    by rewrite bool_decide_eq_true_2. }
  exists (mkDevFS (<[Z.of_nat n:=a]> (fds fs)) (devs fs)).
  exists (mkDevFS (<[Z.of_nat (S n):=b]> (<[Z.of_nat n:=a]> (fds fs))) (devs fs)).
  exists (mkDevFS (delete (Z.of_nat n) (<[Z.of_nat (S n):=b]> (<[Z.of_nat n:=a]> (fds fs)))) (devs fs)).
  exists (mkDevFS (<[Z.of_nat (S n):=c]>
    (delete (Z.of_nat n) (<[Z.of_nat (S n):=b]> (<[Z.of_nat n:=a]> (fds fs))))) (devs fs)).
  assert (size (<[Z.of_nat n:=a]> (fds fs)) = S n) as Hs1 by (rewrite map_size_insert_None by done; lia).
  assert (size (<[Z.of_nat (S n):=b]> (<[Z.of_nat n:=a]> (fds fs))) = S (S n)) as Hs2.
  { rewrite map_size_insert_None; [lia|]. rewrite lookup_insert_ne by lia. done. }
  split_and!.
  - rewrite Hopen by done. by rewrite Hsize.
  - rewrite Hopen by done. cbn [fds devs]. by rewrite Hs1.
  - cbn [fds]. apply lookup_insert_eq.
  - done.
  - rewrite Hopen by done. cbn [fds devs]. rewrite map_size_delete_Some.
    + rewrite Hs2. done.
    + rewrite lookup_insert_ne by lia. rewrite lookup_insert_eq. by eexists.
  - cbn [fds]. apply lookup_insert_eq.
Qed.

Lemma devfs_descriptor_collision_witness :
  ∃ fs1 fs2 fs3 fs4 : DevFS,
    devfs_open (lit "/zero") (demo_world, DevFS_default) = Ok (inl (mkFile 0 CharDevice), (demo_world, fs1)) ∧
    devfs_open (lit "/null") (demo_world, fs1) = Ok (inl (mkFile 1 CharDevice), (demo_world, fs2)) ∧
    fds fs2 !! 1 = Some (lit "null") ∧
    devfs_close (mkFile 0 CharDevice) (demo_world, fs2) = Ok (inl tt, (demo_world, fs3)) ∧
    devfs_open (lit "/random") (demo_world, fs3) = Ok (inl (mkFile 1 CharDevice), (demo_world, fs4)) ∧
    fds fs4 !! 1 = Some (lit "random").
Proof.
  apply (devfs_descriptor_collision demo_world DevFS_default 0 (lit "zero") (lit "null") (lit "random")).
  - unfold DEVFS_FILES. set_solver.
  - unfold DEVFS_FILES. set_solver.
  - unfold DEVFS_FILES. set_solver.
  - reflexivity.
  - reflexivity.
  - reflexivity.
Defined.
