(* ===== verification/Elf.v ===== *)
(** * ELF files (src/lib/elf/src/lib.rs, src/lib/elf/src/program.rs) *)

From S2P Require Import Prelude Bytes Text.

Definition ELF_HEADER : list Z := [0x7f; 0x45; 0x4c; 0x46].
Definition ELF_CLASS_32 : Z := 1.
Definition ELF_CLASS_64 : Z := 2.
Definition PH_SIZE_32 : Z := 32.
Definition PH_SIZE_64 : Z := 56.

(** The macro [int!] at a type of [size] bytes. *)
Definition int (size : nat) (bytes : list Z) (offset endian : Z) : res Z :=
  fin ← offset +! Z.of_nat size;
  s ← slice bytes offset fin;
  Ok (if endian =? 1 then from_le_bytes s else from_be_bytes s).

Inductive ElfError :=
| InvalidHeader | InvalidAbi (abi : Z) | InvalidType (t : Z) | InvalidArchitecture (a : Z).

Inductive ElfAbi := SystemV | NetBSD | Linux | Solaris | FreeBSD | OpenBSD.
Inductive ElfType := TypeNone | Rel | Exec | Dyn.
Inductive ElfMachine := NoSpec | X86 | Arm | X86_64 | Arm64 | Riscv.

(** ** Program headers *)

Definition FLAGS_X : Z := 1.
Definition FLAGS_W : Z := 2.
Definition FLAGS_R : Z := 4.

Inductive PType := Null | Load | Dynamic | Interp | Note.
Inductive PFlags := PExec | PWrite | PRead.

#[global] Instance PFlags_eq_dec : EqDecision PFlags.
Proof. solve_decision. Defined.
#[global] Instance PType_eq_dec : EqDecision PType.
Proof. solve_decision. Defined.

Record Program := mkProgram {
  p_type : PType;
  p_flags : list PFlags;
  p_offset : Z;
  v_addr : Z;
  p_addr : Z;
  p_filesz : Z;
  p_memsz : Z;
}.

Definition type_of_int (t : Z) : PType :=
  if t =? 0 then Null else if t =? 1 then Load else if t =? 2 then Dynamic
  else if t =? 3 then Interp else if t =? 4 then Note else Null.

Definition flags_of_bits (flags_bits : Z) : list PFlags :=
  (if 0 <? Z.land flags_bits FLAGS_X then [PExec] else []) ++
  (if 0 <? Z.land flags_bits FLAGS_W then [PWrite] else []) ++
  (if 0 <? Z.land flags_bits FLAGS_R then [PRead] else []).

(** A field that is 4 bytes at [off32] in class 32 and 8 bytes at [off64]
    otherwise. *)
Definition word_field (bytes : list Z) (class endian off32 off64 : Z) : res Z :=
  if class =? ELF_CLASS_32 then int 4 bytes off32 endian else int 8 bytes off64 endian.

Definition Program_parse (bytes : list Z) (class endian : Z) : res Program :=
  t ← int 4 bytes 0 endian;
  flags_bits ← (if class =? ELF_CLASS_64 then int 8 bytes 4 endian else int 8 bytes 24 endian);
  p_offset ← word_field bytes class endian 4 8;
  v_addr ← word_field bytes class endian 8 16;
  p_addr ← word_field bytes class endian 12 24;
  p_filesz ← word_field bytes class endian 16 32;
  p_memsz ← word_field bytes class endian 20 40;
  Ok (mkProgram (type_of_int t) (flags_of_bits flags_bits) p_offset v_addr p_addr p_filesz p_memsz).

(** ** The file header *)

Record Elf := mkElf {
  e_abi : ElfAbi;
  e_machine : ElfMachine;
  e_type : ElfType;
  e_entry : Z;
  p_headers : list Program;
}.

Definition abi_of_int (b : Z) : ElfAbi + ElfError :=
  if b =? 0x00 then inl SystemV else if b =? 0x02 then inl NetBSD else if b =? 0x03 then inl Linux
  else if b =? 0x06 then inl Solaris else if b =? 0x09 then inl FreeBSD
  else if b =? 0x0c then inl OpenBSD else inr (InvalidAbi b).

Definition etype_of_int (t : Z) : ElfType + ElfError :=
  if t =? 0 then inl TypeNone else if t =? 1 then inl Rel else if t =? 2 then inl Exec
  else if t =? 3 then inl Dyn else inr (InvalidType t).

Definition machine_of_int (a : Z) : ElfMachine + ElfError :=
  if a =? 0x00 then inl NoSpec else if a =? 0x03 then inl X86 else if a =? 0x28 then inl Arm
  else if a =? 0x3e then inl X86_64 else if a =? 0xb7 then inl Arm64
  else if a =? 0xf3 then inl Riscv else inr (InvalidArchitecture a).

(** The loop over the program headers: [sec] counts up to [e_phnum]. *)
Fixpoint parse_headers (bytes : list Z) (class endian e_phoff : Z) (sec : Z) (n : nat) :
    res (list Program) :=
  match n with
  | O => Ok []
  | S n =>
    let size := if class =? ELF_CLASS_32 then PH_SIZE_32 else PH_SIZE_64 in
    sh_start ← e_phoff +! sec * size;
    sh_end ← e_phoff +! (sec + 1) * size;
    b ← slice bytes sh_start sh_end;
    section ← Program_parse b class endian;
    sections ← parse_headers bytes class endian e_phoff (sec + 1) n;
    Ok (section :: sections)
  end.

(** [match r { Ok(x) => x, Err(e) => return Err(e) }]. *)
Definition or_return {A B E} (r : A + E) (k : A → res (B + E)) : res (B + E) :=
  match r with inl a => k a | inr e => Ok (inr e) end.

Definition Elf_parse (bytes : list Z) : res (Elf + ElfError) :=
  if negb (starts_with_str bytes ELF_HEADER) then Ok (inr InvalidHeader)
  else
    class ← index bytes 4;
    endian ← index bytes 5;
    abi ← index bytes 7;
    or_return (abi_of_int abi) (λ e_abi,
    t ← int 2 bytes 16 endian;
    or_return (etype_of_int t) (λ e_type,
    a ← int 2 bytes 18 endian;
    or_return (machine_of_int a) (λ e_machine,
    e_entry ← word_field bytes class endian 24 24;
    e_phoff ← word_field bytes class endian 28 32;
    e_phnum ← (if class =? ELF_CLASS_32 then int 2 bytes 44 endian else int 2 bytes 56 endian);
    sections ← parse_headers bytes class endian e_phoff 0 (Z.to_nat e_phnum);
    Ok (inl (mkElf e_abi e_machine e_type e_entry sections))))).
