(* ===== verification/ElfTheorems.v ===== *)
(** * What the ELF parser does *)

From S2P Require Import Prelude Bytes Text Elf.

(** ** What the file holds *)

(** The integer [v] in the [n] bytes of the file at the offset [o], in its byte
    order. *)
Definition reads (l : list Z) (endian o : Z) (n : nat) (v : Z) : Prop :=
  0 ≤ o ∧ o + Z.of_nat n ≤ Z.of_nat (length l) ∧
  v = let s := take n (drop (Z.to_nat o) l) in
      if endian =? 1 then from_le_bytes s else from_be_bytes s.

Definition abi_code (a : ElfAbi) : Z :=
  match a with SystemV => 0 | NetBSD => 2 | Linux => 3 | Solaris => 6 | FreeBSD => 9 | OpenBSD => 12 end.
Definition type_code (t : ElfType) : Z := match t with TypeNone => 0 | Rel => 1 | Exec => 2 | Dyn => 3 end.
Definition machine_code (m : ElfMachine) : Z :=
  match m with NoSpec => 0 | X86 => 3 | Arm => 0x28 | X86_64 => 0x3e | Arm64 => 0xb7 | Riscv => 0xf3 end.
Definition ptype_code (t : PType) : Z := match t with Null => 0 | Load => 1 | Dynamic => 2 | Interp => 3 | Note => 4 end.

(** Bit 0, 1 and 2 of the flags of a segment. *)
Definition flag_list (fl : Z) : list PFlags :=
  (if Z.testbit fl 0 then [PExec] else []) ++ (if Z.testbit fl 1 then [PWrite] else []) ++
  (if Z.testbit fl 2 then [PRead] else []).

(** The sizes of an address and of a program header in a file of the class. *)
Definition word_size (class : Z) : Z := if class =? ELF_CLASS_32 then 4 else 8.
Definition header_size (class : Z) : Z := if class =? ELF_CLASS_32 then 32 else 56.

(** An address at one of two offsets, by the class. *)
Definition word_at (l : list Z) (class endian o32 o64 v : Z) : Prop :=
  reads l endian (if class =? ELF_CLASS_32 then o32 else o64) (Z.to_nat (word_size class)) v ∧
  0 ≤ v < 256 ^ word_size class.

(** The program header at the offset [o] is [p].  Types above 4 count as null;
    the flags are the low bits of the eight bytes at their place. *)
Record program_in (l : list Z) (class endian o : Z) (p : Program) : Prop := {
  pi_type : ∃ t, reads l endian o 4 t ∧ (t = ptype_code (p_type p) ∨ p_type p = Null ∧ 4 < t);
  pi_flags : ∃ fl, reads l endian (o + if class =? ELF_CLASS_64 then 4 else 24) 8 fl ∧
    p_flags p = flag_list fl;
  pi_offset : word_at l class endian (o + 4) (o + 8) (p_offset p);
  pi_vaddr : word_at l class endian (o + 8) (o + 16) (v_addr p);
  pi_paddr : word_at l class endian (o + 12) (o + 24) (p_addr p);
  pi_filesz : word_at l class endian (o + 16) (o + 32) (p_filesz p);
  pi_memsz : word_at l class endian (o + 20) (o + 40) (p_memsz p);
}.

(** The table of program headers: its offset and the number of its entries. *)
Definition table_at (l : list Z) (class endian phoff phnum : Z) : Prop :=
  word_at l class endian 28 32 phoff ∧
  reads l endian (if class =? ELF_CLASS_32 then 44 else 56) 2 phnum ∧ 0 ≤ phnum < 2 ^ 16.

(** The file holds the executable [e]. *)
Record elf_in (l : list Z) (class endian : Z) (e : Elf) : Prop := {
  ei_abi : l !! 7%nat = Some (abi_code (e_abi e));
  ei_type : reads l endian 16 2 (type_code (e_type e));
  ei_machine : reads l endian 18 2 (machine_code (e_machine e));
  ei_entry : word_at l class endian 24 24 (e_entry e);
  ei_headers : ∃ phoff, table_at l class endian phoff (Z.of_nat (length (p_headers e))) ∧
    ∀ i p, p_headers e !! i = Some p →
      program_in l class endian (phoff + Z.of_nat i * header_size class) p;
}.

(** What the parser may answer for the bytes of a file: the executable the file
    holds, or the number at its place that is none of those accepted. *)
Definition elf_typed (l : list Z) (r : Elf + ElfError) : Prop :=
  match r with
  | inr InvalidHeader => starts_with_str l ELF_HEADER = false
  | inr (InvalidAbi b) => l !! 7%nat = Some b ∧ b ∉ [0x00; 0x02; 0x03; 0x06; 0x09; 0x0c]
  | inr (InvalidType t) => ∃ endian, l !! 5%nat = Some endian ∧
      reads l endian 16 2 t ∧ t ∉ [0; 1; 2; 3]
  | inr (InvalidArchitecture a) => ∃ endian, l !! 5%nat = Some endian ∧
      reads l endian 18 2 a ∧ a ∉ [0x00; 0x03; 0x28; 0x3e; 0xb7; 0xf3]
  | inl e => ∃ class endian, l !! 4%nat = Some class ∧ l !! 5%nat = Some endian ∧
      elf_in l class endian e
  end.

(** The file ends before its header or its table of program headers does. *)
Definition elf_short (l : list Z) : Prop :=
  (length l < 64)%nat ∨
  ∃ class endian phoff phnum, l !! 4%nat = Some class ∧ l !! 5%nat = Some endian ∧
    table_at l class endian phoff phnum ∧
    let fin := phoff + phnum * header_size class in Z.of_nat (length l) < fin ∨ U64 ≤ fin.

(** ** Results that are right or a panic *)

(** A value with [P], or a panic when [Q]. *)
Definition or_panics {A} (m : res A) (P : A → Prop) (Q : Prop) : Prop :=
  match m with Ok a => P a | Panic => Q | _ => False end.

Lemma or_panics_bind {A B} (m : res A) (f : A → res B) P P' Q :
  or_panics m P Q → (∀ a, P a → or_panics (f a) P' Q) → or_panics (m ≫= f) P' Q.
Proof. destruct m; cbn [or_panics mbind res_bind]; auto; done. Qed.

Lemma or_panics_return {A B E} (r : A + E) (k : A → res (B + E)) P Q :
  (∀ e, r = inr e → P (inr e)) → (∀ a, r = inl a → or_panics (k a) P Q) →
  or_panics (or_return r k) P Q.
Proof. destruct r; cbn [or_return or_panics]; auto. Qed.

Lemma or_panics_mono {A} (m : res A) (P P' : A → Prop) (Q Q' : Prop) :
  or_panics m P Q → (∀ a, P a → P' a) → (Q → Q') → or_panics m P' Q'.
Proof. destruct m; cbn [or_panics]; auto. Qed.

Lemma uadd_sum a b : or_panics (a +! b) (λ v, v = a + b ∧ v < U64) (U64 ≤ a + b).
Proof. unfold uadd. destruct (Z.ltb_spec (a + b) U64); by cbn. Qed.

Lemma index_lookup {A} (l : list A) i : or_panics (index l i) (λ a, l !! i = Some a) (length l ≤ i)%nat.
Proof.
  unfold index. destruct (l !! i) eqn:Hi; [done|]. cbn. by apply lookup_ge_None.
Qed.

Lemma slice_reads l a b : 0 ≤ a ≤ b →
  or_panics (slice l a b)
    (λ s, b ≤ Z.of_nat (length l) ∧ s = take (Z.to_nat (b - a)) (drop (Z.to_nat a) l))
    (Z.of_nat (length l) < b).
Proof.
  intros Hab. unfold slice. rewrite (proj2 (Z.leb_le a b)) by lia.
  by destruct (Z.leb_spec b (Z.of_nat (length l))).
Qed.

(** ** The numbers of the header *)

Ltac by_code := repeat match goal with |- context [?a =? ?b] => destruct (Z.eqb_spec a b); [by intros [= <-]|] end.

Lemma abi_of_int_spec b : match abi_of_int b with
  | inl a => b = abi_code a | inr e => e = InvalidAbi b ∧ b ∉ [0x00; 0x02; 0x03; 0x06; 0x09; 0x0c] end.
Proof. destruct (abi_of_int b) eqn:H; revert H; unfold abi_of_int; by_code; intros [= <-]; split; [done|set_solver]. Qed.

Lemma etype_of_int_spec t : match etype_of_int t with
  | inl a => t = type_code a | inr e => e = InvalidType t ∧ t ∉ [0; 1; 2; 3] end.
Proof. destruct (etype_of_int t) eqn:H; revert H; unfold etype_of_int; by_code; intros [= <-]; split; [done|set_solver]. Qed.

Lemma machine_of_int_spec a : match machine_of_int a with
  | inl m => a = machine_code m
  | inr e => e = InvalidArchitecture a ∧ a ∉ [0x00; 0x03; 0x28; 0x3e; 0xb7; 0xf3] end.
Proof. destruct (machine_of_int a) eqn:H; revert H; unfold machine_of_int; by_code; intros [= <-]; split; [done|set_solver]. Qed.

Lemma type_of_int_spec t : 0 ≤ t → t = ptype_code (type_of_int t) ∨ type_of_int t = Null ∧ 4 < t.
Proof.
  intros Ht. unfold type_of_int.
  repeat match goal with |- context [?a =? ?b] => destruct (Z.eqb_spec a b); [by left|] end. right. split; [done|lia].
Qed.

(** ** Reading integers *)

Lemma reads_range l endian o n v : bytes l → reads l endian o n v → 0 ≤ v < 256 ^ Z.of_nat n.
Proof.
  intros Hl (Ho & Hn & ->). cbv zeta. set (s := take n (drop (Z.to_nat o) l)).
  assert (bytes s) as Hs by (by apply Forall_take, Forall_drop).
  assert (length s = n) as Hlen by (unfold s; rewrite length_take, length_drop; lia).
  clearbody s. rewrite <- Hlen.
  destruct (endian =? 1); [by apply from_le_bytes_range|by apply from_be_bytes_range].
Qed.

Lemma int_reads n l o endian : 0 ≤ o → o + Z.of_nat n < U64 →
  or_panics (int n l o endian) (reads l endian o n) (Z.of_nat (length l) < o + Z.of_nat n).
Proof.
  intros Ho Hlt. unfold int. rewrite uadd_Ok by done. cbn [mbind res_bind].
  eapply or_panics_bind; [apply slice_reads; lia|]. intros s [Hle ->]. cbn [or_panics].
  split_and!; [done..|]. cbv zeta. by replace (Z.to_nat (o + Z.of_nat n - o)) with n by lia.
Qed.

(** An integer of a part of the file. *)
Lemma reads_part l endian a b o n v : 0 ≤ a ≤ b → b ≤ Z.of_nat (length l) →
  reads (take (Z.to_nat (b - a)) (drop (Z.to_nat a) l)) endian o n v → reads l endian (a + o) n v.
Proof.
  intros Ha Hb (Ho & Hn & ->). rewrite length_take, length_drop in Hn. split_and!; [lia..|]. cbv zeta.
  assert (take n (drop (Z.to_nat o) (take (Z.to_nat (b - a)) (drop (Z.to_nat a) l)))
    = take n (drop (Z.to_nat (a + o)) l)) as ->; [|done].
  apply list_eq. intros i. destruct (decide (i < n)%nat).
  - rewrite !lookup_take_lt by lia. rewrite !lookup_drop, lookup_take_lt, lookup_drop by lia. f_equal. lia.
  - rewrite !lookup_take_ge by lia. done.
Qed.

Lemma word_field_at l class endian o32 o64 : bytes l →
  0 ≤ o32 → 0 ≤ o64 → o32 + 8 ≤ 64 → o64 + 8 ≤ 64 →
  or_panics (word_field l class endian o32 o64) (word_at l class endian o32 o64)
    (Z.of_nat (length l) < (if class =? ELF_CLASS_32 then o32 else o64) + word_size class).
Proof.
  intros Hl H1 H2 H3 H4. unfold word_field, word_at, word_size.
  destruct (class =? ELF_CLASS_32); (eapply or_panics_mono; [apply int_reads; unfold U64; lia| |lia]).
  - intros v Hv. split; [done|]. by apply reads_range in Hv.
  - intros v Hv. split; [done|]. by apply reads_range in Hv.
Qed.

(** Only the low bits of the eight bytes read as flags count. *)
Lemma flags_low fl w : 0 ≤ fl → flags_of_bits (fl + U32 * w) = flag_list fl.
Proof.
  intros Hfl. unfold flags_of_bits, flag_list, FLAGS_X, FLAGS_W, FLAGS_R.
  assert (∀ j, 0 ≤ j < 3 → (0 <? Z.land (fl + U32 * w) (2 ^ j)) = Z.testbit fl j) as Hbit.
  { intros j Hj.
    assert (Z.testbit (fl + U32 * w) j = Z.testbit fl j) as <-.
    { rewrite <- (Z.mod_pow2_bits_low _ 32 j), <- (Z.mod_pow2_bits_low fl 32 j) by lia.
      f_equal. unfold U32. rewrite Z.mul_comm. apply Z.mod_add. lia. }
    set (x := fl + U32 * w). rewrite Z.land_comm.
    destruct (Z.testbit x j) eqn:Hx.
    - apply Z.ltb_lt. assert (Z.land (2 ^ j) x = 2 ^ j) as ->; [|apply Z.pow_pos_nonneg; lia].
      apply Z.bits_inj'. intros i Hi. rewrite Z.land_spec, Z.pow2_bits_eqb by lia.
      destruct (Z.eqb_spec j i) as [<-|]; [by rewrite Hx|done].
    - apply Z.ltb_ge. assert (Z.land (2 ^ j) x = 0) as ->; [|done].
      apply Z.bits_inj'. intros i Hi. rewrite Z.land_spec, Z.pow2_bits_eqb, Z.bits_0 by lia.
      destruct (Z.eqb_spec j i) as [<-|]; [by rewrite Hx|done]. }
  pose proof (Hbit 0 ltac:(lia)) as H0. pose proof (Hbit 1 ltac:(lia)) as H1. pose proof (Hbit 2 ltac:(lia)) as H2.
  change (2 ^ 0) with 1 in H0. change (2 ^ 1) with 2 in H1. change (2 ^ 2) with 4 in H2. by rewrite H0, H1, H2.
Qed.


Lemma word_at_part l class endian a b o32 o64 v : 0 ≤ a ≤ b → b ≤ Z.of_nat (length l) →
  word_at (take (Z.to_nat (b - a)) (drop (Z.to_nat a) l)) class endian o32 o64 v →
  word_at l class endian (a + o32) (a + o64) v.
Proof.
  intros Ha Hb [Hr Hv]. split; [|done]. apply (reads_part l endian a b) in Hr; [|done..].
  by destruct (class =? ELF_CLASS_32).
Qed.

Lemma program_in_part l class endian a b p : 0 ≤ a ≤ b → b ≤ Z.of_nat (length l) →
  program_in (take (Z.to_nat (b - a)) (drop (Z.to_nat a) l)) class endian 0 p →
  program_in l class endian a p.
Proof.
  intros Ha Hb [(t & Ht & Hty) (fl & Hfl & Hflags) H1 H2 H3 H4 H5]. rewrite Z.add_0_l in Hfl.
  apply (reads_part l endian a b) in Ht, Hfl; [|done..]. rewrite Z.add_0_r in Ht.
  constructor; [by exists t|by exists fl|by eapply word_at_part..].
Qed.

(** A program header is read without a panic from a slice of its size. *)
Lemma Program_parse_in l class endian : bytes l → Z.of_nat (length l) = header_size class →
  or_panics (Program_parse l class endian) (program_in l class endian 0) False.
Proof.
  intros Hl Hlen. unfold Program_parse, header_size in *.
  assert (∀ n o, 0 ≤ o → o + Z.of_nat n ≤ Z.of_nat (length l) →
    or_panics (int n l o endian) (reads l endian o n) False) as Hint.
  { intros n o Ho Hn. eapply or_panics_mono; [apply int_reads|done|]; [done| |lia].
    unfold U64. destruct (class =? ELF_CLASS_32); lia. }
  assert (∀ o32 o64, 0 ≤ o32 ≤ 24 → 0 ≤ o64 ≤ 48 →
    or_panics (word_field l class endian o32 o64) (word_at l class endian o32 o64) False) as Hword.
  { intros o32 o64 H1 H2. eapply or_panics_mono; [by apply word_field_at; [|lia..]|done|].
    unfold word_size. destruct (class =? ELF_CLASS_32); lia. }
  eapply or_panics_bind; [apply Hint; destruct (class =? ELF_CLASS_32); lia|]. intros t Ht.
  eapply (or_panics_bind _ _ (reads l endian (if class =? ELF_CLASS_64 then 4 else 24) 8)).
  { destruct (class =? ELF_CLASS_64); apply Hint; destruct (class =? ELF_CLASS_32); lia. }
  intros fl Hfl. do 5 (eapply or_panics_bind; [apply Hword; lia|]; intros ? ?).
  pose proof (reads_range _ _ _ _ _ Hl Ht) as [Ht0 _]. pose proof (reads_range _ _ _ _ _ Hl Hfl) as [Hf0 _].
  constructor; cbn [p_type p_flags p_offset v_addr p_addr p_filesz p_memsz]; rewrite ?Z.add_0_l; try done.
  - exists t. split; [done|]. by apply type_of_int_spec.
  - exists fl. split; [done|]. pose proof (flags_low fl 0 Hf0) as Hlow. by rewrite Z.add_0_r in Hlow.
Qed.

Lemma parse_headers_in l class endian off n : ∀ sec,
  bytes l → 0 ≤ off → 0 ≤ sec →
  or_panics (parse_headers l class endian off sec n)
    (λ ps, length ps = n ∧ ∀ i p, ps !! i = Some p →
      program_in l class endian (off + (sec + Z.of_nat i) * header_size class) p)
    (let fin := off + (sec + Z.of_nat n) * header_size class in
     Z.of_nat (length l) < fin ∨ U64 ≤ fin).
Proof.
  induction n as [|n IH]; intros sec Hl Ho Hs; cbn [parse_headers]; [done|].
  change (if class =? ELF_CLASS_32 then PH_SIZE_32 else PH_SIZE_64) with (header_size class).
  assert (0 < header_size class) as Hsz by (unfold header_size; by destruct (class =? ELF_CLASS_32)).
  cbv zeta. set (fin := off + (sec + Z.of_nat (S n)) * header_size class).
  assert (off + (sec + 1) * header_size class ≤ fin) as Hfin by (unfold fin; nia).
  eapply or_panics_bind.
  { eapply or_panics_mono; [apply uadd_sum|done|]. intros ?. right. lia. }
  intros st [-> _]. eapply or_panics_bind.
  { eapply or_panics_mono; [apply uadd_sum|done|]. intros ?. right. lia. }
  intros en [-> _]. eapply or_panics_bind.
  { eapply or_panics_mono; [apply slice_reads; nia|done|]. intros ?. left. lia. }
  intros b [Hle ->]. eapply or_panics_bind.
  { eapply or_panics_mono; [apply Program_parse_in|done|done].
    - by apply Forall_take, Forall_drop.
    - rewrite length_take, length_drop. nia. }
  intros p Hp. apply program_in_part in Hp; [|nia|done]. eapply or_panics_bind.
  { eapply or_panics_mono; [apply (IH (sec + 1)); [done|done|lia]|done|].
    cbv zeta. by replace (off + (sec + 1 + Z.of_nat n) * header_size class) with fin by (unfold fin; lia). }
  intros ps [Hlen Hps]. split; [cbn; by rewrite Hlen|]. intros [|i] q Hq.
  - injection Hq as <-. by rewrite Z.add_0_r.
  - specialize (Hps i q Hq). by replace (sec + Z.of_nat (S i)) with (sec + 1 + Z.of_nat i) by lia.
Qed.


(** ** Files of 64-bit little-endian executables *)

(** The integer [v] in [n] bytes at the offset [o]. *)
Definition field_at (l : list Z) (o : Z) (n : nat) (v : Z) : Prop :=
  ∃ pre suf, l = pre ++ to_le_bytes n v ++ suf ∧ Z.of_nat (length pre) = o ∧ 0 ≤ v < 256 ^ Z.of_nat n.

(** The fields of a segment fit in 64 bits. *)
Record program_typed (p : Program) : Prop := {
  pt_offset : 0 ≤ p_offset p < 2 ^ 64;
  pt_vaddr : 0 ≤ v_addr p < 2 ^ 64;
  pt_paddr : 0 ≤ p_addr p < 2 ^ 64;
  pt_filesz : 0 ≤ p_filesz p < 2 ^ 64;
  pt_memsz : 0 ≤ p_memsz p < 2 ^ 64;
}.

(** A program header: type, flags, the five words, the alignment. *)
Definition encode_program (p : Program) (fl align : Z) : list Z :=
  to_le_bytes 4 (ptype_code (p_type p)) ++ to_le_bytes 4 fl ++ to_le_bytes 8 (p_offset p) ++
  to_le_bytes 8 (v_addr p) ++ to_le_bytes 8 (p_addr p) ++ to_le_bytes 8 (p_filesz p) ++
  to_le_bytes 8 (p_memsz p) ++ to_le_bytes 8 align.

Definition program_at (l : list Z) (o : Z) (p : Program) : Prop :=
  ∃ fl align pre suf, l = pre ++ encode_program p fl align ++ suf ∧ Z.of_nat (length pre) = o ∧
    0 ≤ fl < U32 ∧ p_flags p = flag_list fl ∧ program_typed p.

(** The layout of a file that holds the executable [e]: the fields of the header
    at their places and the program headers one after the other. *)
Record elf64_file (l : list Z) (e : Elf) : Prop := {
  ef_magic : starts_with_str l ELF_HEADER = true;
  ef_class : l !! 4%nat = Some ELF_CLASS_64;
  ef_endian : l !! 5%nat = Some 1;
  ef_abi : l !! 7%nat = Some (abi_code (e_abi e));
  ef_type : field_at l 16 2 (type_code (e_type e));
  ef_machine : field_at l 18 2 (machine_code (e_machine e));
  ef_entry : field_at l 24 8 (e_entry e);
  ef_headers : ∃ phoff, field_at l 32 8 phoff ∧ field_at l 56 2 (Z.of_nat (length (p_headers e))) ∧
    phoff + Z.of_nat (length (p_headers e)) * PH_SIZE_64 < U64 ∧
    ∀ i p, p_headers e !! i = Some p → program_at l (phoff + Z.of_nat i * PH_SIZE_64) p;
}.

Lemma int_field l o n v : field_at l o n v → o + Z.of_nat n < U64 → int n l o 1 = Ok v.
Proof.
  intros (pre & suf & -> & <- & Hv) Hlt. unfold int. rewrite uadd_Ok by done. cbn [mbind res_bind].
  rewrite slice_app by (rewrite ?length_to_le_bytes; done). cbn [mbind res_bind].
  change (1 =? 1) with true. cbv iota. by rewrite from_to_le_bytes.
Qed.

Lemma word_field_64 l o32 o v : field_at l o 8 v → o + 8 < U64 → word_field l ELF_CLASS_64 1 o32 o = Ok v.
Proof. intros Hf Hlt. unfold word_field. cbn. by apply int_field. Qed.

(** A field of a program header, given the bytes before it. *)
Lemma field_after pre n v suf o :
  o = Z.of_nat (length pre) → 0 ≤ v < 256 ^ Z.of_nat n → field_at (pre ++ to_le_bytes n v ++ suf) o n v.
Proof. intros -> Hv. by exists pre, suf. Qed.

(** The flags and the low half of the next word, read as one integer. *)
Lemma two_halves a b : 0 ≤ a < U32 →
  to_le_bytes 4 a ++ to_le_bytes 8 b = to_le_bytes 8 (a + U32 * (b mod U32)) ++ to_le_bytes 4 (b / U32).
Proof.
  intros Ha. pose proof (to_le_bytes_add 4 4 (a + U32 * (b mod U32))) as H1.
  pose proof (to_le_bytes_add 4 4 b) as H2. change (4 + 4)%nat with 8%nat in *.
  change (256 ^ Z.of_nat 4) with U32 in *. rewrite H1, H2. rewrite <- (assoc_L (++)).
  rewrite (Z.mul_comm U32), Z.div_add by done. rewrite (Z.div_small a U32 Ha), Z.add_0_l.
  f_equal; [|f_equal].
  - rewrite <- (to_le_bytes_mod 4 (_ + _)). change (256 ^ Z.of_nat 4) with U32.
    rewrite Z_mod_plus_full, Z.mod_small by done. done.
  - change U32 with (256 ^ Z.of_nat 4). by rewrite to_le_bytes_mod.
Qed.

Lemma Program_parse_encode p fl align :
  0 ≤ fl < U32 → p_flags p = flag_list fl → program_typed p →
  Program_parse (encode_program p fl align) ELF_CLASS_64 1 = Ok p.
Proof.
  intros Hfl Hflags [Ho Hv Hp Hf Hm]. change (2 ^ 64) with (256 ^ Z.of_nat 8) in *.
  unfold Program_parse. set (l := encode_program p fl align).
  set (ty := to_le_bytes 4 (ptype_code (p_type p))). set (w := fl + U32 * (p_offset p mod U32)).
  assert (field_at l 0 4 (ptype_code (p_type p))) as H0.
  { apply (field_after []); [done|]. by destruct (p_type p). }
  assert (field_at l 4 8 w) as H4.
  { eexists ty, _. split; [|split; [unfold ty; by rewrite length_to_le_bytes|]].
    - unfold l, encode_program. fold ty. f_equal. rewrite (assoc_L (++)), two_halves by done.
      by rewrite <- (assoc_L (++)).
    - change (256 ^ Z.of_nat 8) with (U32 * U32). pose proof (Z.mod_pos_bound (p_offset p) U32 ltac:(done)).
      unfold w, U32 in *. lia. }
  assert (∀ o v pre suf, l = pre ++ to_le_bytes 8 v ++ suf → o = Z.of_nat (length pre) →
    0 ≤ v < 256 ^ Z.of_nat 8 → ∀ o32, o + 8 < U64 → word_field l ELF_CLASS_64 1 o32 o = Ok v) as Hw.
  { intros o v pre suf Hl -> Hr o32 Hlt. apply word_field_64; [|done]. by exists pre, suf. }
  rewrite (int_field l 0 4 _ H0) by done. cbn [mbind res_bind]. change (ELF_CLASS_64 =? ELF_CLASS_64) with true. cbv iota.
  rewrite (int_field l 4 8 _ H4) by done. cbn [mbind res_bind].
  set (fb := to_le_bytes 4 fl). set (b1 := to_le_bytes 8 (p_offset p)). set (b2 := to_le_bytes 8 (v_addr p)).
  set (b3 := to_le_bytes 8 (p_addr p)). set (b4 := to_le_bytes 8 (p_filesz p)). set (b5 := to_le_bytes 8 (p_memsz p)).
  assert (l = ty ++ fb ++ b1 ++ b2 ++ b3 ++ b4 ++ b5 ++ to_le_bytes 8 align) as Hl by done.
  rewrite (Hw 8 (p_offset p) (ty ++ fb) (b2 ++ b3 ++ b4 ++ b5 ++ to_le_bytes 8 align)) by (rewrite ?Hl, <- ?(assoc_L (++)); done).
  cbn [mbind res_bind].
  rewrite (Hw 16 (v_addr p) (ty ++ fb ++ b1) (b3 ++ b4 ++ b5 ++ to_le_bytes 8 align)) by (rewrite ?Hl, <- ?(assoc_L (++)); done).
  cbn [mbind res_bind].
  rewrite (Hw 24 (p_addr p) (ty ++ fb ++ b1 ++ b2) (b4 ++ b5 ++ to_le_bytes 8 align)) by (rewrite ?Hl, <- ?(assoc_L (++)); done).
  cbn [mbind res_bind].
  rewrite (Hw 32 (p_filesz p) (ty ++ fb ++ b1 ++ b2 ++ b3) (b5 ++ to_le_bytes 8 align)) by (rewrite ?Hl, <- ?(assoc_L (++)); done).
  cbn [mbind res_bind].
  rewrite (Hw 40 (p_memsz p) (ty ++ fb ++ b1 ++ b2 ++ b3 ++ b4) (to_le_bytes 8 align)) by (rewrite ?Hl, <- ?(assoc_L (++)); done).
  cbn [mbind res_bind]. unfold w. rewrite flags_low, <- Hflags by lia.
  assert (type_of_int (ptype_code (p_type p)) = p_type p) as -> by (by destruct (p_type p)). by destruct p.
Qed.

Lemma parse_headers_encode l phoff ps : ∀ i,
  (∀ j p, ps !! j = Some p → program_at l (phoff + (i + Z.of_nat j) * PH_SIZE_64) p) →
  0 ≤ i → phoff + (i + Z.of_nat (length ps)) * PH_SIZE_64 < U64 →
  parse_headers l ELF_CLASS_64 1 phoff i (length ps) = Ok ps.
Proof.
  induction ps as [|p ps IH]; intros i Hps Hi Hlt; [done|]. cbn [parse_headers length] in *.
  destruct (Hps 0%nat p eq_refl) as (fl & align & pre & suf & Hl & Hpre & Hfl & Hflags & Hty).
  rewrite Z.add_0_r in Hpre. change (if ELF_CLASS_64 =? ELF_CLASS_32 then PH_SIZE_32 else PH_SIZE_64) with PH_SIZE_64.
  unfold PH_SIZE_64 in *. rewrite !uadd_Ok by lia. cbn [mbind res_bind].
  assert (slice l (phoff + i * 56) (phoff + (i + 1) * 56) = Ok (encode_program p fl align)) as ->.
  { rewrite Hl. apply slice_app; [done|]. unfold encode_program. rewrite !length_app, !length_to_le_bytes. lia. }
  cbn [mbind res_bind]. rewrite Program_parse_encode by done. cbn [mbind res_bind].
  rewrite IH; [done| |lia|lia]. intros j q Hq. specialize (Hps (S j) q Hq).
  by replace (i + 1 + Z.of_nat j) with (i + Z.of_nat (S j)) by lia.
Qed.

(** C30: parsing the file of a 64-bit little-endian executable, with its program
    headers anywhere in the file, gives back the executable: its ABI, type,
    machine, entry point, and every segment in order with its type, access flags,
    addresses and sizes. *)
Theorem elf_parse_encode l e : elf64_file l e → Elf_parse l = Ok (inl e).
Proof.
  intros [Hmagic Hclass Hendian Habi Htype Hmach Hentry (phoff & Hoff & Hnum & Hlt & Hps)].
  unfold Elf_parse. rewrite Hmagic. cbn [negb]. unfold index. rewrite Hclass, Hendian, Habi. cbn [unwrap mbind res_bind].
  assert (abi_of_int (abi_code (e_abi e)) = inl (e_abi e)) as -> by (by destruct (e_abi e)). cbn [or_return].
  rewrite (int_field _ _ _ _ Htype) by done. cbn [mbind res_bind].
  assert (etype_of_int (type_code (e_type e)) = inl (e_type e)) as -> by (by destruct (e_type e)). cbn [or_return].
  rewrite (int_field _ _ _ _ Hmach) by done. cbn [mbind res_bind].
  assert (machine_of_int (machine_code (e_machine e)) = inl (e_machine e)) as -> by (by destruct (e_machine e)).
  cbn [or_return]. rewrite (word_field_64 _ _ _ _ Hentry) by done. cbn [mbind res_bind].
  rewrite (word_field_64 _ _ _ _ Hoff) by done. cbn [mbind res_bind].
  change (ELF_CLASS_64 =? ELF_CLASS_32) with false. cbv iota.
  rewrite (int_field _ _ _ _ Hnum) by done. cbn [mbind res_bind]. rewrite Nat2Z.id.
  rewrite (parse_headers_encode l phoff (p_headers e) 0); [by destruct e|done|done|by rewrite Z.add_0_l].
Qed.

(** ** Witnesses *)

Definition elf_demo : Elf := mkElf SystemV Riscv Exec 0x10000
  [mkProgram Load [PExec; PRead] 0x1000 0x10000 0x10000 0x200 0x200;
   mkProgram Load [PWrite; PRead] 0x2000 0x20000 0x20000 0x10 0x1000].
Definition elf_demo_file : list Z :=
  ELF_HEADER ++ [2; 1; 1; 0] ++ replicate 8 0 ++ to_le_bytes 2 2 ++ to_le_bytes 2 0xf3 ++ to_le_bytes 4 1 ++
  to_le_bytes 8 0x10000 ++ to_le_bytes 8 64 ++ to_le_bytes 8 0 ++ to_le_bytes 4 0 ++ to_le_bytes 2 64 ++
  to_le_bytes 2 56 ++ to_le_bytes 2 2 ++ to_le_bytes 2 0 ++ to_le_bytes 2 0 ++ to_le_bytes 2 0 ++
  concat ((λ p : Program * Z, encode_program p.1 p.2 0x1000) <$> zip (p_headers elf_demo) [5; 6]).

Lemma field_at_check l o n v :
  bool_decide (take n (drop (Z.to_nat o) l) = to_le_bytes n v) && (0 <=? o) && (o <=? Z.of_nat (length l)) &&
  (0 <=? v) && (v <? 256 ^ Z.of_nat n) = true → field_at l o n v.
Proof.
  rewrite !andb_true_iff, !Z.leb_le, Z.ltb_lt. intros [[[[H%bool_decide_eq_true H1] H2] H3] H4].
  exists (take (Z.to_nat o) l), (drop n (drop (Z.to_nat o) l)). rewrite <- H, !take_drop.
  split_and!; [done| |done|done]. rewrite length_take. lia.
Qed.

Lemma elf_demo_program i p : p_headers elf_demo !! i = Some p → program_at elf_demo_file (64 + Z.of_nat i * PH_SIZE_64) p.
Proof.
  destruct i as [|[|i]]; [intros [= <-]..|done].
  - exists 5, 0x1000, (take 64 elf_demo_file), (drop 120 elf_demo_file). split_and!; done.
  - exists 6, 0x1000, (take 120 elf_demo_file), []. split_and!; done.
Qed.

Lemma elf_parse_encode_witness : elf64_file elf_demo_file elf_demo ∧ Elf_parse elf_demo_file = Ok (inl elf_demo).
Proof.
  assert (elf64_file elf_demo_file elf_demo) as Hf.
  { constructor; try reflexivity; [apply field_at_check; reflexivity..|].
    exists 64. split_and!; [apply field_at_check; reflexivity..|reflexivity|apply elf_demo_program]. }
  split; [exact Hf|]. apply (elf_parse_encode elf_demo_file elf_demo Hf).
Defined.

