(* ===== verification/Dtb.v ===== *)
(** * Device trees (src/lib/dtb/src/lib.rs, src/lib/dtb/src/utils.rs)

    The parser of flattened device trees, and the helpers with which the kernel
    looks for nodes and reads their properties. *)

From Stdlib Require Import String.
From S2P Require Import Prelude Bytes Text.

Definition MAGIC : list Z := [0xd0; 0x0d; 0xfe; 0xed].
Definition FDT_BEGIN_NODE : Z := 0x01.
Definition FDT_END_NODE : Z := 0x02.
Definition FDT_PROP : Z := 0x03.
Definition FDT_NOP : Z := 0x04.
Definition FDT_END : Z := 0x09.

(** The macro [u32!]. *)
Definition u32_at (bytes : list Z) (offset : Z) : res Z :=
  s ← slice bytes offset (offset + 4);
  Ok (from_be_bytes s).

(** [String::push(b as char)]: the UTF-8 form of the character of a byte. *)
Definition push_char (b : Z) : str :=
  if b <? 0x80 then [b] else [Z.lor 0xc0 (Z.shiftr b 6); Z.lor 0x80 (Z.land b 0x3f)].

(** The bytes from the terminating NUL on, and the string before it. *)
Fixpoint parse_null_string (bytes : list Z) : res (list Z * str) :=
  match bytes with
  | [] => Panic
  | b :: rest =>
    if b =? 0 then Ok (bytes, [])
    else '(bytes, string) ← parse_null_string rest; Ok (bytes, push_char b ++ string)
  end.

Inductive ParseError := InvalidHeader (magic : list Z).

Record Property := mkProperty { pr_name : str; pr_value : list Z }.

Inductive Node := mkNode {
  n_name : str;
  progs : list Property;
  child_nodes : list Node;
  size_cells : Z;
  address_cells : Z;
}.

Definition set_size_cells (c : Z) (n : Node) : Node :=
  mkNode (n_name n) (progs n) (child_nodes n) c (address_cells n).
Definition set_address_cells (c : Z) (n : Node) : Node :=
  mkNode (n_name n) (progs n) (child_nodes n) (size_cells n) c.

(** The variables of the loop of [Node::parse] besides the input. *)
Record Body := mkBody {
  b_progs : list Property;
  b_children : list Node;
  b_size : Z;
  b_address : Z;
}.
Definition Body_new : Body := mkBody [] [] 1 2.

(** A node that was parsed is added with the cells read so far. *)
Definition add_child (child_node : Node) (b : Body) : Body :=
  mkBody (b_progs b) (b_children b ++ [set_address_cells (b_address b) (set_size_cells (b_size b) child_node)])
    (b_size b) (b_address b).

(** The cells are kept apart and passed on to the children, earlier ones too. *)
Definition add_property (name : str) (value : list Z) (b : Body) : res Body :=
  if bool_decide (name = lit "#size-cells") then
    c ← u32_at value 0;
    Ok (mkBody (b_progs b) (set_size_cells c <$> b_children b) c (b_address b))
  else if bool_decide (name = lit "#address-cells") then
    c ← u32_at value 0;
    Ok (mkBody (b_progs b) (set_address_cells c <$> b_children b) (b_size b) c)
  else Ok (mkBody (b_progs b ++ [mkProperty name value]) (b_children b) (b_size b) (b_address b)).

(** A property token: its name, its value and the bytes behind its padding. *)
Definition parse_property (bytes strings_buf : list Z) : res (str * list Z * list Z) :=
  len ← u32_at bytes 4;
  nameoff ← u32_at bytes 8;
  bytes ← slice_tail bytes 12;
  sb ← slice_tail strings_buf nameoff;
  '(_, name) ← parse_null_string sb;
  value ← slice bytes 0 len;
  let padding := (4 - len mod 4) mod 4 in
  bytes ← slice_tail bytes (len + padding);
  Ok (name, value, bytes).

(** [Node::parse] and its loop.  Every round of the loop and every call take at
    least four bytes of the input, so fuel for twice its length is enough. *)
Fixpoint Node_parse_fuel (fuel : nat) (strings_buf bytes : list Z) : res (list Z * Node) :=
  match fuel with
  | O => NoFuel
  | S fuel =>
    bytes ← slice_tail bytes 4;
    '(bytes, name) ← parse_null_string bytes;
    let padding := 4 - Z.of_nat (length name) mod 4 in
    bytes ← slice_tail bytes padding;
    '(bytes, b) ← node_loop fuel strings_buf bytes Body_new;
    Ok (bytes, mkNode name (b_progs b) (b_children b) (b_size b) (b_address b))
  end
with node_loop (fuel : nat) (strings_buf bytes : list Z) (b : Body) : res (list Z * Body) :=
  match fuel with
  | O => NoFuel
  | S fuel =>
    token ← u32_at bytes 0;
    if token =? FDT_END_NODE then Ok (bytes, b)
    else if token =? FDT_BEGIN_NODE then
      '(bytes, child_node) ← Node_parse_fuel fuel strings_buf bytes;
      token ← u32_at bytes 0;
      _ ← assert (token =? FDT_END_NODE);
      bytes ← slice_tail bytes 4;
      node_loop fuel strings_buf bytes (add_child child_node b)
    else if token =? FDT_NOP then
      bytes ← slice_tail bytes 4;
      node_loop fuel strings_buf bytes b
    else
      _ ← assert (token =? FDT_PROP);
      '(name, value, bytes) ← parse_property bytes strings_buf;
      b ← add_property name value b;
      node_loop fuel strings_buf bytes b
  end.

Definition Node_parse (bytes strings_buf : list Z) : res (list Z * Node) :=
  Node_parse_fuel (S (2 * length bytes)) strings_buf bytes.

Fixpoint find_property (ps : list Property) (name : str) : option (list Z) :=
  match ps with
  | [] => None
  | p :: ps => if bool_decide (pr_name p = name) then Some (pr_value p) else find_property ps name
  end.
Definition get_property (n : Node) (name : str) : option (list Z) := find_property (progs n) name.

Record DeviceTree := mkDeviceTree { dt_version : Z; dt_root : Node }.

(** [bytes.starts_with(&MAGIC)] is that of slices. *)
Definition DeviceTree_parse (bytes : list Z) : res (DeviceTree + ParseError) :=
  if negb (starts_with_str bytes MAGIC) then
    magic ← slice bytes 0 4;
    Ok (inr (InvalidHeader magic))
  else
    struct_off ← u32_at bytes 8;
    strings_off ← u32_at bytes 12;
    version ← u32_at bytes 20;
    strings_buf ← slice_tail bytes strings_off;
    struct_buf ← slice_tail bytes struct_off;
    '(struct_buf, root) ← Node_parse struct_buf strings_buf;
    token ← u32_at struct_buf 4;
    _ ← assert (token =? FDT_END);
    Ok (inl (mkDeviceTree version root)).

(** ** Helpers (utils.rs) *)

(** [str::find(c)]: the index of the first occurrence. *)
Fixpoint str_find (c : Z) (s : list Z) : option nat :=
  match s with
  | [] => None
  | b :: s => if b =? c then Some O else S <$> str_find c s
  end.

Definition AT_SIGN : Z := 64.

Definition node_name (node : str) : str :=
  match str_find AT_SIGN node with
  | Some idx => take idx node
  | None => node
  end.

Definition unit_address (node : str) : option str :=
  match str_find AT_SIGN node with
  | Some idx => Some (drop idx node)
  | None => None
  end.

Definition SLASH : Z := 47.

(** The loop of [node_by_alias]: without a child of the name it goes round with
    the same node and path. *)
Fixpoint alias_loop (fuel : nat) (root : Node) (path : list str) : res (option Node) :=
  match fuel with
  | O => NoFuel
  | S fuel =>
    match path with
    | [] => Ok None
    | p :: rest =>
      match find (λ node, bool_decide (n_name node = p)) (child_nodes root) with
      | Some node =>
        match rest with
        | [] => Ok (Some node)
        | _ :: _ => alias_loop fuel node rest
        end
      | None => alias_loop fuel root path
      end
    end
  end.

(** The path in a property ends in a NUL, which is cut off; the text before the
    first slash is not part of the path. *)
Definition node_by_alias (fuel : nat) (root : Node) (alias : list Z) : res (option Node) :=
  n ← Z.of_nat (length alias) -! 1;
  s ← slice alias 0 n;
  let path := drop 1 (split_at SLASH (from_utf8_lossy s)) in
  alias_loop fuel root path.

(** Every round drops a string and its NUL. *)
Fixpoint compatible_loop (fuel : nat) (value : list Z) (compatible : str) : res bool :=
  match fuel with
  | O => NoFuel
  | S fuel =>
    match str_find 0 value with
    | None => Ok false
    | Some null_idx =>
      if (null_idx =? length compatible)%nat && bool_decide (compatible = take null_idx value) then Ok true
      else compatible_loop fuel (drop (S null_idx) value) compatible
    end
  end.
Definition check_compatible (value : list Z) (compatible : str) : res bool :=
  compatible_loop (S (length value)) value compatible.

(** The body of the loop of [parse_reg]. *)
Definition parse_reg_entry (reg : list Z) (address_cells size_cells : Z) : res (Z * Z) :=
  reg_addr ← (if address_cells =? 2 then s ← slice reg 0 8; Ok (from_be_bytes s)
              else s ← slice reg 0 4; Ok (from_be_bytes s));
  reg_size ← (if size_cells =? 2 then s ← slice reg 8 16; Ok (from_be_bytes s)
              else s ← slice reg 4 8; Ok (from_be_bytes s));
  Ok (reg_addr, reg_size).

Fixpoint parse_reg_loop (n : nat) (reg : list Z) (address_cells size_cells : Z) : res (list (Z * Z)) :=
  match n with
  | O => Ok []
  | S n =>
    r ← parse_reg_entry reg address_cells size_cells;
    reg ← slice_tail reg (4 * size_cells + 4 * address_cells);
    regs ← parse_reg_loop n reg address_cells size_cells;
    Ok (r :: regs)
  end.

(** A division by zero panics; the cells are 32-bit values, so that the sum does
    not overflow. *)
Definition parse_reg (reg : list Z) (address_cells size_cells : Z) : res (list (Z * Z)) :=
  let entry := 4 * size_cells + 4 * address_cells in
  if entry =? 0 then Panic
  else parse_reg_loop (Z.to_nat (Z.of_nat (length reg) / entry)) reg address_cells size_cells.
