(* ===== verification/DtbSpec.v ===== *)
(** * The flattened format of device trees

    An encoder of trees into the structure block of the format, with no-operation
    tokens and properties and nodes in any order, the node such a tree stands
    for, and the lemmas that the parser inverts the encoder and that it always
    comes to an end. *)

From Stdlib Require Import String.
From S2P Require Import Prelude Bytes Text Dtb.

(** ** Trees and their encoding *)

Inductive FdtItem :=
| INop
| IProp (name : str) (value : list Z)
| INode (name : str) (items : list FdtItem).

(** Induction with a hypothesis for every item of a node. *)
Section item_ind.
Context (P : FdtItem → Prop).
Context (Hnop : P INop) (Hprop : ∀ n v, P (IProp n v)) (Hnode : ∀ n l, Forall P l → P (INode n l)).

Fixpoint FdtItem_forall (i : FdtItem) : P i :=
  match i with
  | INop => Hnop
  | IProp n v => Hprop n v
  | INode n l =>
    Hnode n l ((fix go (l : list FdtItem) : Forall P l :=
                  match l with
                  | [] => @List.Forall_nil _ P
                  | i :: l => @List.Forall_cons _ P i l (FdtItem_forall i) (go l)
                  end) l)
  end.
End item_ind.

Abbreviation be32 := (to_be_bytes 4).

Section encode.
Context (off : str → Z).

Fixpoint encode_item (i : FdtItem) : list Z :=
  match i with
  | INop => be32 FDT_NOP
  | IProp name value =>
    be32 FDT_PROP ++ be32 (Z.of_nat (length value)) ++ be32 (off name) ++
    value ++ replicate (Z.to_nat ((4 - Z.of_nat (length value) mod 4) mod 4)) 0
  | INode name items =>
    be32 FDT_BEGIN_NODE ++ name ++ replicate (Z.to_nat (4 - Z.of_nat (length name) mod 4)) 0 ++
    concat (encode_item <$> items) ++ be32 FDT_END_NODE
  end.
Definition encode_items (l : list FdtItem) : list Z := concat (encode_item <$> l).
End encode.

(** A file: the words of the header, the strings block at its offset and the
    structure block, a root node and the end token, at its offset. *)
Record fdt_file (bytes sb : list Z) (off : str → Z) (version : Z) (root : FdtItem) : Prop := {
  ff_header : ∃ size so sto rsv tail,
    bytes = MAGIC ++ be32 size ++ be32 so ++ be32 sto ++ be32 rsv ++ be32 version ++ tail ∧
    0 ≤ so < U32 ∧ 0 ≤ sto < U32 ∧
    (∃ pre, bytes = pre ++ sb ∧ sto = Z.of_nat (length pre)) ∧
    (∃ pre suf, bytes = pre ++ encode_item off root ++ be32 FDT_END ++ suf ∧ so = Z.of_nat (length pre));
  ff_version : 0 ≤ version < U32;
}.

(** ** What a tree stands for *)

Definition is_cells (n : str) : bool :=
  bool_decide (n = lit "#size-cells") || bool_decide (n = lit "#address-cells").

(** The value of the last property [key], or [d]. *)
Fixpoint last_cells (key : str) (d : Z) (l : list FdtItem) : Z :=
  match l with
  | [] => d
  | IProp n v :: l => last_cells key (if bool_decide (n = key) then from_be_bytes (take 4 v) else d) l
  | _ :: l => last_cells key d l
  end.

Definition plain_property (i : FdtItem) : option Property :=
  match i with
  | IProp n v => if is_cells n then None else Some (mkProperty n v)
  | _ => None
  end.

Definition with_cells (s a : Z) (n : Node) : Node := set_address_cells a (set_size_cells s n).

(** The children have the cells their parent declares; those of the root are its
    own. *)
Fixpoint item_node (i : FdtItem) : option Node :=
  match i with
  | INode name items =>
    let s := last_cells (lit "#size-cells") 1 items in
    let a := last_cells (lit "#address-cells") 2 items in
    Some (mkNode name (omap plain_property items) (with_cells s a <$> omap item_node items) s a)
  | _ => None
  end.

(** ** Well-formed trees *)

Definition name_ok (n : str) : Prop := Forall (λ b, 1 ≤ b < 128) n.
#[global] Instance name_ok_dec n : Decision (name_ok n).
Proof. unfold name_ok. apply _. Defined.

(** The strings block has the name, with its NUL, at its offset. *)
Definition string_at (sb : list Z) (o : Z) (n : str) : Prop :=
  ∃ pre suf, sb = pre ++ n ++ 0 :: suf ∧ o = Z.of_nat (length pre) ∧ o < U32.

Inductive item_ok (sb : list Z) (off : str → Z) : FdtItem → Prop :=
| ok_nop : item_ok sb off INop
| ok_prop n v :
    name_ok n → string_at sb (off n) n → Z.of_nat (length v) < U32 →
    (is_cells n = true → (4 ≤ length v)%nat) → item_ok sb off (IProp n v)
| ok_node n l : name_ok n → Forall (item_ok sb off) l → item_ok sb off (INode n l).

(** Goes past a step that has returned, and past comparisons of token values. *)
Ltac dtb_run :=
  cbn [mbind res_bind assert Z.eqb Pos.eqb FDT_PROP FDT_END_NODE FDT_BEGIN_NODE FDT_NOP FDT_END].

(** ** Reading single tokens *)

Lemma u32_at_be pre w suf o :
  0 ≤ w < U32 → o = Z.of_nat (length pre) → u32_at (pre ++ be32 w ++ suf) o = Ok w.
Proof.
  intros Hw ->. unfold u32_at. rewrite (slice_app pre (be32 w) suf); [|done|by rewrite length_to_be_bytes].
  simpl. by rewrite from_to_be_bytes.
Qed.

Lemma u32_at_head w suf : 0 ≤ w < U32 → u32_at (be32 w ++ suf) 0 = Ok w.
Proof. intros Hw. by apply (u32_at_be [] w suf). Qed.

Lemma slice_tail_4 w suf : slice_tail (be32 w ++ suf) 4 = Ok suf.
Proof. apply slice_tail_app. by rewrite length_to_be_bytes. Qed.

Lemma parse_null_string_ok n suf : name_ok n → parse_null_string (n ++ 0 :: suf) = Ok (0 :: suf, n).
Proof.
  induction 1 as [|b n Hb Hn IH]; simpl; [done|].
  rewrite (proj2 (Z.eqb_neq _ _)) by lia. rewrite IH. simpl. unfold push_char.
  by rewrite (proj2 (Z.ltb_lt _ _)) by lia.
Qed.

Lemma zeros_cons k : 0 < k → replicate (Z.to_nat k) 0 = 0 :: replicate (Z.to_nat (k - 1)) 0.
Proof.
  intros Hk. replace (Z.to_nat k) with (S (Z.to_nat (k - 1))) by lia. done.
Qed.

(** The name of a node is read up to its padding. *)
Lemma parse_name n suf :
  name_ok n →
  let k := 4 - Z.of_nat (length n) mod 4 in
  parse_null_string (n ++ replicate (Z.to_nat k) 0 ++ suf) = Ok (replicate (Z.to_nat k) 0 ++ suf, n) ∧
  slice_tail (replicate (Z.to_nat k) 0 ++ suf) k = Ok suf.
Proof.
  intros Hn k. pose proof (Z.mod_pos_bound (Z.of_nat (length n)) 4 ltac:(done)) as Hm.
  split.
  - rewrite zeros_cons by lia. simpl. by rewrite parse_null_string_ok.
  - apply slice_tail_app. rewrite length_replicate. lia.
Qed.

Lemma parse_property_ok sb off n v suf :
  name_ok n → string_at sb (off n) n → Z.of_nat (length v) < U32 →
  parse_property (encode_item off (IProp n v) ++ suf) sb = Ok (n, v, suf).
Proof.
  intros Hn (pre & ssuf & -> & Ho & Hou) Hv. cbn [encode_item]. set (k := Z.to_nat _).
  rewrite <- !(assoc_L (++)). unfold parse_property.
  rewrite (u32_at_be (be32 FDT_PROP) (Z.of_nat (length v)) _ 4); [|lia|by rewrite length_to_be_bytes]. cbn [mbind res_bind].
  rewrite (assoc_L (++) (be32 FDT_PROP)), (u32_at_be (be32 FDT_PROP ++ be32 (Z.of_nat (length v))));
    [|lia|by rewrite length_app, !length_to_be_bytes].
  cbn [mbind res_bind]. rewrite (assoc_L (++) (_ ++ _) (be32 (off n))).
  rewrite (slice_tail_app _ _ 12) by (by rewrite !length_app, !length_to_be_bytes). cbn [mbind res_bind].
  rewrite (slice_tail_app pre) by done. cbn [mbind res_bind].
  rewrite parse_null_string_ok by done. cbn [mbind res_bind].
  rewrite (slice_head v) by done. cbn [mbind res_bind].
  rewrite (assoc_L (++) v), slice_tail_app; [done|].
  rewrite length_app, length_replicate. unfold k.
  pose proof (Z.mod_pos_bound (4 - Z.of_nat (length v) mod 4) 4 ltac:(done)). lia.
Qed.

(** ** The parser inverts the encoder *)

(** The loop's variables after an item. *)
Definition apply_item (b : Body) (i : FdtItem) : Body :=
  match i with
  | INop => b
  | IProp n v =>
    if bool_decide (n = lit "#size-cells") then
      let c := from_be_bytes (take 4 v) in
      mkBody (b_progs b) (set_size_cells c <$> b_children b) c (b_address b)
    else if bool_decide (n = lit "#address-cells") then
      let c := from_be_bytes (take 4 v) in
      mkBody (b_progs b) (set_address_cells c <$> b_children b) (b_size b) c
    else mkBody (b_progs b ++ [mkProperty n v]) (b_children b) (b_size b) (b_address b)
  | INode _ _ => default b ((λ n, add_child n b) <$> item_node i)
  end.

Lemma add_property_ok n v b :
  (is_cells n = true → (4 ≤ length v)%nat) → add_property n v b = Ok (apply_item b (IProp n v)).
Proof.
  intros Hc. unfold add_property, apply_item, is_cells in *.
  assert ((4 ≤ length v)%nat → u32_at v 0 = Ok (from_be_bytes (take 4 v))) as Hr.
  { intros Hl. unfold u32_at. rewrite <- (take_drop 4 v) at 1.
    rewrite slice_head by (rewrite length_take; lia). done. }
  repeat case_bool_decide; simpl in *; rewrite ?Hr by auto; done.
Qed.

(** The shape of the variables: every child has the cells read so far. *)
Definition body_of (ps : list Property) (raw : list Node) (s a : Z) : Body :=
  mkBody ps (with_cells s a <$> raw) s a.

Lemma apply_items_body l : ∀ ps raw s a,
  foldl apply_item (body_of ps raw s a) l =
  body_of (ps ++ omap plain_property l) (raw ++ omap item_node l)
    (last_cells (lit "#size-cells") s l) (last_cells (lit "#address-cells") a l).
Proof.
  induction l as [|i l IH]; intros ps raw s a; cbn [foldl]; [by rewrite !app_nil_r|].
  destruct i as [|n v|n items]; cbn [omap list_omap plain_property last_cells].
  - apply IH.
  - unfold apply_item, is_cells. cbn [body_of b_progs b_children b_size b_address].
    destruct (bool_decide_reflect (n = lit "#size-cells")) as [->|Hs]; [|destruct (bool_decide_reflect (n = lit "#address-cells")) as [->|Ha]].
    + cbn. rewrite <- list_fmap_compose. apply (IH ps raw _ a).
    + cbn. rewrite <- list_fmap_compose. apply (IH ps raw s).
    + etrans; [apply (IH (ps ++ [mkProperty n v]) raw s a)|]. by rewrite <- (assoc_L (++)).
  - cbn [item_node apply_item default fmap option_fmap option_map].
    set (nd := mkNode _ _ _ _ _). unfold add_child. cbn [body_of b_progs b_children b_size b_address].
    change [set_address_cells a (set_size_cells s nd)] with (with_cells s a <$> [nd]).
    rewrite <- fmap_app. etrans; [apply (IH ps (raw ++ [nd]) s a)|]. by rewrite <- (assoc_L (++)).
Qed.

Section parse_encode.
Context (sb : list Z) (off : str → Z).

Abbreviation enc := (encode_item off).
Abbreviation fin := (be32 FDT_END_NODE).

(** What the parser does on the encoding of a node. *)
Definition parses (i : FdtItem) : Prop :=
  ∀ nd fuel rest, item_node i = Some nd → item_ok sb off i →
    (2 * length (enc i ++ rest) < fuel)%nat →
    Node_parse_fuel fuel sb (enc i ++ rest) = Ok (fin ++ rest, nd).

Lemma node_loop_step i b fuel rest :
  parses i → item_ok sb off i → (2 * length (enc i ++ rest) + 1 < S fuel)%nat →
  node_loop (S fuel) sb (enc i ++ rest) b = node_loop fuel sb rest (apply_item b i).
Proof.
  intros IH Hok Hf. destruct Hok as [|n v Hn Hs Hv Hc|n l Hn Hl].
  - cbn [encode_item node_loop]. rewrite u32_at_head by done. dtb_run.
    by rewrite slice_tail_4.
  - cbn [node_loop]. assert (u32_at (enc (IProp n v) ++ rest) 0 = Ok FDT_PROP) as ->.
    { cbn [encode_item]. rewrite <- !(assoc_L (++)). by apply u32_at_head. }
    dtb_run.
    rewrite parse_property_ok by done. dtb_run. by rewrite add_property_ok.
  - cbn [node_loop]. assert (u32_at (enc (INode n l) ++ rest) 0 = Ok FDT_BEGIN_NODE) as ->.
    { cbn [encode_item]. rewrite <- !(assoc_L (++)). by apply u32_at_head. }
    dtb_run.
    erewrite IH; [|done|by constructor|lia]. dtb_run.
    rewrite u32_at_head by done. dtb_run.
    by rewrite slice_tail_4.
Qed.

Lemma length_fin : length fin = 4%nat.
Proof. by rewrite length_to_be_bytes. Qed.

Lemma length_enc_pos i : (0 < length (enc i))%nat.
Proof. destruct i; cbn [encode_item]; rewrite ?length_app, length_to_be_bytes; lia. Qed.

Lemma node_loop_items l : Forall parses l → ∀ b fuel rest,
  Forall (item_ok sb off) l → (2 * length (encode_items off l ++ fin ++ rest) + 1 < fuel)%nat →
  node_loop fuel sb (encode_items off l ++ fin ++ rest) b = Ok (fin ++ rest, foldl apply_item b l).
Proof.
  induction 1 as [|i l Hi Hl IH]; intros b fuel rest Hok Hf; (destruct fuel as [|fuel]; [lia|]).
  - cbn [encode_items fmap list_fmap concat app node_loop]. by rewrite u32_at_head.
  - apply list.Forall_cons in Hok as [Hoi Hol].
    replace (encode_items off (i :: l)) with (enc i ++ encode_items off l) in * by done.
    rewrite <- (assoc_L (++)) in *. rewrite node_loop_step by done. apply IH; [done|].
    rewrite length_app in Hf. pose proof (length_enc_pos i). lia.
Qed.

Lemma node_parses i : parses i.
Proof.
  induction i as [|n v|n l IH] using FdtItem_forall; intros nd fuel rest Hnd Hok Hf; [done..|].
  injection Hnd as <-. inversion Hok as [| |? ? Hn Hl]; subst.
  destruct fuel as [|fuel]; [lia|]. cbn [Node_parse_fuel].
  assert (enc (INode n l) ++ rest = be32 FDT_BEGIN_NODE ++ n ++
    replicate (Z.to_nat (4 - Z.of_nat (length n) mod 4)) 0 ++ encode_items off l ++ fin ++ rest) as He.
  { cbn [encode_item]. by rewrite <- !(assoc_L (++)). }
  rewrite He in Hf. rewrite He, slice_tail_4. dtb_run.
  destruct (parse_name n (encode_items off l ++ fin ++ rest) Hn) as [-> Htl].
  dtb_run. rewrite Htl. dtb_run.
  rewrite node_loop_items; [|done|done|rewrite ?length_app, ?length_to_be_bytes in *; lia].
  dtb_run. f_equal. f_equal.
  change Body_new with (body_of [] [] 1 2). by rewrite apply_items_body.
Qed.
End parse_encode.

(** ** The parser always comes to an end *)

(** A parser's result is a panic, or the rest of the input is at least [k] bytes
    shorter than [len]. *)
Definition shrinks {A} (k len : nat) (r : res (list Z * A)) : Prop :=
  match r with
  | Ok (rest, _) => (length rest + k ≤ len)%nat
  | Panic => True
  | Undef | NoFuel => False
  end.

Lemma shrinks_weaken {A} k len k' len' (r : res (list Z * A)) :
  shrinks k' len' r → (len' + k ≤ len + k')%nat → shrinks k len r.
Proof. destruct r as [[rest a]| | |]; simpl; [lia|done..]. Qed.

Lemma slice_tail_cases l n :
  slice_tail l n = Panic ∨
  ∃ s, slice_tail l n = Ok s ∧ (length s ≤ length l)%nat ∧
       (0 ≤ n → Z.of_nat (length s) + n = Z.of_nat (length l)).
Proof.
  destruct (slice_total l n (Z.of_nat (length l))) as [[s Hs]|Hs]; [right|by left].
  exists s. split; [done|]. apply slice_Ok_inv in Hs as [Hb ->].
  rewrite length_take, length_drop. lia.
Qed.

Lemma u32_at_cases l o :
  u32_at l o = Panic ∨ ∃ w, u32_at l o = Ok w ∧ o + 4 ≤ Z.of_nat (length l).
Proof.
  unfold u32_at. destruct (slice_total l o (o + 4)) as [[s Hs]| ->]; [|by left].
  rewrite Hs. apply slice_Ok_inv in Hs as [Hb ->]. right. eexists. split; [done|lia].
Qed.

Lemma parse_null_string_cases l :
  parse_null_string l = Panic ∨
  ∃ rest s, parse_null_string l = Ok (rest, s) ∧ (length rest ≤ length l)%nat.
Proof.
  induction l as [|b l IH]; simpl; [by left|]. destruct (b =? 0).
  - right. by eexists _, _.
  - destruct IH as [->|(rest & s & -> & Hl)]; [by left|]. right. eexists _, _. split; [done|]. lia.
Qed.

Lemma parse_property_cases l sb :
  parse_property l sb = Panic ∨
  ∃ name value rest, parse_property l sb = Ok (name, value, rest) ∧ (length rest + 12 ≤ length l)%nat.
Proof.
  unfold parse_property.
  destruct (u32_at_cases l 4) as [->|(len & -> & _)]; [by left|]. simpl.
  destruct (u32_at_cases l 8) as [->|(no & -> & _)]; [by left|]. simpl.
  destruct (slice_tail_cases l 12) as [->|(l' & -> & _ & Hl')]; [by left|]. simpl.
  destruct (slice_tail_cases sb no) as [->|(s' & -> & _)]; [by left|]. simpl.
  destruct (parse_null_string_cases s') as [->|(r & n & -> & _)]; [by left|]. simpl.
  destruct (slice_total l' 0 len) as [[v ->]| ->]; [|by left]. simpl.
  destruct (slice_tail_cases l' (len + (4 - len mod 4) mod 4)) as [->|(l2 & -> & Hl2 & _)]; [by left|].
  right. eexists _, _, _. split; [done|]. lia.
Qed.

Lemma add_property_cases n v b : add_property n v b = Panic ∨ ∃ b', add_property n v b = Ok b'.
Proof.
  unfold add_property. destruct (u32_at_cases v 0) as [->|(w & -> & _)];
    repeat case_bool_decide; simpl; eauto.
Qed.

Lemma node_parse_shrinks sb fuel :
  (∀ l, (2 * length l < fuel)%nat → shrinks 4 (length l) (Node_parse_fuel fuel sb l)) ∧
  (∀ l b, (2 * length l + 1 < fuel)%nat → shrinks 0 (length l) (node_loop fuel sb l b)).
Proof.
  induction fuel as [|fuel [IHn IHl]]; (split; [intros l Hf|intros l b Hf]); [lia..| |];
    cbn [Node_parse_fuel node_loop].
  - destruct (slice_tail_cases l 4) as [->|(l1 & -> & _ & Hl1)]; [done|]. dtb_run.
    destruct (parse_null_string_cases l1) as [->|(l2 & n & -> & Hl2)]; [done|]. dtb_run.
    destruct (slice_tail_cases l2 (4 - Z.of_nat (length n) mod 4)) as [->|(l3 & -> & Hl3 & _)]; [done|]. dtb_run.
    specialize (IHl l3 Body_new ltac:(lia)).
    destruct (node_loop _ _ _ _) as [[l4 b]| | |]; [|done..]. cbn in *. lia.
  - destruct (u32_at_cases l 0) as [->|(tk & -> & Htk)]; [done|]. dtb_run.
    destruct (tk =? FDT_END_NODE); [cbn; lia|]. destruct (tk =? FDT_BEGIN_NODE); [|destruct (tk =? FDT_NOP)].
    + specialize (IHn l ltac:(lia)). destruct (Node_parse_fuel _ _ _) as [[l1 nd]| | |]; [|done..].
      cbn in IHn. dtb_run. destruct (u32_at_cases l1 0) as [->|(tk' & -> & _)]; [done|]. dtb_run.
      destruct (tk' =? _); [|done]. dtb_run.
      destruct (slice_tail_cases l1 4) as [->|(l2 & -> & Hl2 & _)]; [done|]. dtb_run.
      eapply shrinks_weaken; [apply IHl; lia|lia].
    + destruct (slice_tail_cases l 4) as [->|(l2 & -> & _ & Hl2)]; [done|]. dtb_run.
      eapply shrinks_weaken; [apply IHl; lia|lia].
    + dtb_run. destruct (tk =? _); [|done]. dtb_run.
      destruct (parse_property_cases l sb) as [->|(n & v & l2 & -> & Hl2)]; [done|]. dtb_run.
      destruct (add_property_cases n v b) as [->|[b1 ->]]; [done|]. dtb_run.
      eapply shrinks_weaken; [apply IHl; lia|lia].
Qed.
