(* ===== verification/DtbTheorems.v ===== *)
(** * What the device tree parser and its helpers do *)

From Stdlib Require Import String.
From S2P Require Import Prelude Bytes Text Dtb DtbSpec.

(** C28: parsing a flattened device tree, with its properties, nodes and
    no-operation tokens in any order and its blocks anywhere in the file, gives
    back the version and the tree: the names, the properties other than the two
    cell counts, and the children in order, each with the cell counts its parent
    declares last (or the defaults). *)
Theorem dtb_parse_encode bytes sb off version root nd :
  fdt_file bytes sb off version root → item_ok sb off root → item_node root = Some nd →
  DeviceTree_parse bytes = Ok (inl (mkDeviceTree version nd)).
Proof.
  intros [(size & so & sto & rsv & tl & Hb & Hso & Hsto & (pre1 & H1 & Hp1) & pre2 & suf & H2 & Hp2) Hv] Hok Hnd.
  unfold DeviceTree_parse.
  assert (∀ ws w rest o, bytes = MAGIC ++ ws ++ be32 w ++ rest → 0 ≤ w < U32 →
    o = 4 + Z.of_nat (length ws) → u32_at bytes o = Ok w) as Hword.
  { intros ws w rest o -> Hw ->. rewrite (assoc_L (++)). apply u32_at_be; [done|].
    rewrite length_app. simpl. lia. }
  rewrite (proj2 (starts_with_str_spec bytes MAGIC)) by (rewrite Hb; by eexists). cbn [negb].
  rewrite (Hword (be32 size) so _ 8 Hb Hso) by done. dtb_run.
  rewrite (Hword (be32 size ++ be32 so) sto (be32 rsv ++ be32 version ++ tl) 12) by (rewrite ?Hb, <- ?(assoc_L (++)); done).
  dtb_run.
  rewrite (Hword (be32 size ++ be32 so ++ be32 sto ++ be32 rsv) version tl 20) by (rewrite ?Hb, <- ?(assoc_L (++)); done).
  dtb_run. rewrite H1 at 1. rewrite slice_tail_app by done. dtb_run.
  rewrite H2 at 1. rewrite slice_tail_app by done. dtb_run. unfold Node_parse.
  rewrite (node_parses sb off root nd); [|done|done|lia]. dtb_run.
  rewrite (u32_at_be (be32 FDT_END_NODE) FDT_END suf) by (done || by rewrite length_to_be_bytes).
  done.
Qed.

(** C29: the parser comes to an end on every input, whatever its bytes: it
    returns, with a tree or the error that names the wrong magic number, or it
    panics. *)
Theorem dtb_parse_total bytes :
  DeviceTree_parse bytes = Panic ∨
  (∃ dt, DeviceTree_parse bytes = Ok (inl dt) ∧ starts_with_str bytes MAGIC = true) ∨
  (DeviceTree_parse bytes = Ok (inr (InvalidHeader (take 4 bytes))) ∧ starts_with_str bytes MAGIC = false).
Proof.
  unfold DeviceTree_parse. destruct (starts_with_str bytes MAGIC); cbn [negb].
  - destruct (u32_at_cases bytes 8) as [->|(so & -> & _)]; [by left|]. dtb_run.
    destruct (u32_at_cases bytes 12) as [->|(sto & -> & _)]; [by left|]. dtb_run.
    destruct (u32_at_cases bytes 20) as [->|(v & -> & _)]; [by left|]. dtb_run.
    destruct (slice_tail_cases bytes sto) as [->|(sb & -> & _)]; [by left|]. dtb_run.
    destruct (slice_tail_cases bytes so) as [->|(st & -> & _)]; [by left|]. dtb_run.
    pose proof (proj1 (node_parse_shrinks sb (S (2 * length st))) st ltac:(lia)) as Hn. unfold Node_parse.
    destruct (Node_parse_fuel _ _ _) as [[rest nd]| | |]; [dtb_run|by left|done..].
    destruct (u32_at_cases rest 4) as [->|(tk & -> & _)]; [by left|]. dtb_run.
    destruct (tk =? _); [|by left]. right. left. by eexists.
  - destruct (slice_total bytes 0 4) as [[s Hs]| ->]; [|by left]. rewrite Hs. right. right.
    apply slice_Ok_inv in Hs as [_ ->]. by rewrite drop_0.
Qed.

(** ** Lists of strings *)

Lemma str_find_split c s :
  match str_find c s with
  | None => split_at c s = [s]
  | Some i => split_at c s = take i s :: split_at c (drop (S i) s) ∧ (i < length s)%nat
  end.
Proof.
  induction s as [|b s IH]; simpl; [done|]. destruct (b =? c); simpl; [split; [done|lia]|].
  destruct (str_find c s) as [i|]; simpl in *.
  - destruct IH as [-> Hi]. split; [done|lia].
  - by rewrite IH.
Qed.

Lemma removelast_cons {A} (x : A) l : l ≠ [] → removelast (x :: l) = x :: removelast l.
Proof. by destruct l. Qed.

Lemma compatible_loop_spec c fuel : ∀ value, (length value < fuel)%nat →
  compatible_loop fuel value c = Ok (bool_decide (c ∈ removelast (split_at 0 value))).
Proof.
  induction fuel as [|fuel IH]; intros value Hf; [lia|]. cbn [compatible_loop].
  pose proof (str_find_split 0 value) as Hs. destruct (str_find 0 value) as [i|].
  - destruct Hs as [-> Hi]. rewrite removelast_cons.
    2:{ destruct (split_at_nonempty 0 (drop (S i) value)) as (p & ps & ->). done. }
    destruct (Nat.eqb_spec i (length c)) as [Hl|Hl]; [case_bool_decide as Hc|]; simpl.
    + by rewrite bool_decide_eq_true_2 by (rewrite Hc at 1; left).
    + rewrite IH by (rewrite length_drop; lia). f_equal. apply bool_decide_ext.
      rewrite elem_of_cons. naive_solver.
    + rewrite IH by (rewrite length_drop; lia). f_equal. apply bool_decide_ext.
      rewrite elem_of_cons. split; [by right|]. intros [->|]; [|done]. exfalso. apply Hl.
      rewrite length_take. lia.
  - rewrite Hs. cbn [removelast]. rewrite bool_decide_eq_false_2; [done|apply not_elem_of_nil].
Qed.

(** [check_compatible] decides whether the text is one of the strings of the
    property, each of which ends in a NUL; bytes after the last NUL do not
    count. *)
Theorem check_compatible_correct value compatible :
  check_compatible value compatible = Ok (bool_decide (compatible ∈ removelast (split_at 0 value))).
Proof. apply compatible_loop_spec. lia. Qed.

(** ** Address and size pairs *)

Definition encode_reg (address_cells size_cells : Z) (r : Z * Z) : list Z :=
  to_be_bytes (Z.to_nat (4 * address_cells)) r.1 ++ to_be_bytes (Z.to_nat (4 * size_cells)) r.2.

Definition reg_ok (address_cells size_cells : Z) (r : Z * Z) : Prop :=
  0 ≤ r.1 < 256 ^ (4 * address_cells) ∧ 0 ≤ r.2 < 256 ^ (4 * size_cells).

Section regs.
Context (ac sc : Z) (f : Z * Z → Z * Z).
Context (Hac : 0 ≤ ac) (Hsc : 0 ≤ sc).

Lemma length_encode_reg r : Z.of_nat (length (encode_reg ac sc r)) = 4 * sc + 4 * ac.
Proof using Hac Hsc. unfold encode_reg. rewrite length_app, !length_to_be_bytes. lia. Qed.

Lemma length_encode_regs regs :
  Z.of_nat (length (concat (encode_reg ac sc <$> regs))) = (4 * sc + 4 * ac) * Z.of_nat (length regs).
Proof using Hac Hsc.
  induction regs as [|r regs IH]; simpl; [lia|].
  rewrite length_app, Nat2Z.inj_add, length_encode_reg. setoid_rewrite IH. lia.
Qed.

Lemma parse_reg_list regs tail :
  0 < 4 * sc + 4 * ac →
  (∀ r rest, r ∈ regs → parse_reg_entry (encode_reg ac sc r ++ rest) ac sc = Ok (f r)) →
  Z.of_nat (length tail) < 4 * sc + 4 * ac →
  parse_reg (concat (encode_reg ac sc <$> regs) ++ tail) ac sc = Ok (f <$> regs).
Proof using Hac Hsc.
  intros Hpos He Ht. unfold parse_reg. rewrite (proj2 (Z.eqb_neq _ _)) by lia.
  rewrite length_app, Nat2Z.inj_add, length_encode_regs.
  rewrite (Z.mul_comm (4 * sc + 4 * ac)), Z.div_add_l, Z.div_small, Z.add_0_r, Nat2Z.id by lia.
  induction regs as [|r regs IH]; [done|]. cbn [length parse_reg_loop fmap list_fmap concat].
  rewrite <- (assoc_L (++)), He by left. dtb_run.
  rewrite slice_tail_app by (by rewrite length_encode_reg). dtb_run.
  rewrite IH; [done|]. intros r' rest' Hr. apply He. by right.
Qed.
End regs.

Lemma slice_encode_reg_addr ac sc r rest :
  reg_ok ac sc r → 0 ≤ ac →
  (s ← slice (encode_reg ac sc r ++ rest) 0 (4 * ac); Ok (from_be_bytes s)) = Ok r.1.
Proof.
  intros [Hr _] Ha. unfold encode_reg. rewrite <- (assoc_L (++)).
  rewrite slice_head by (rewrite length_to_be_bytes; lia). dtb_run.
  rewrite from_to_be_bytes; [done|]. by rewrite Z2Nat.id by lia.
Qed.

Lemma slice_encode_reg_size ac sc r rest :
  reg_ok ac sc r → 0 ≤ ac → 0 ≤ sc →
  (s ← slice (encode_reg ac sc r ++ rest) (4 * ac) (4 * ac + 4 * sc); Ok (from_be_bytes s)) = Ok r.2.
Proof.
  intros [_ Hr] Ha Hs. unfold encode_reg. rewrite <- (assoc_L (++)).
  rewrite (slice_app _ _ rest) by (rewrite length_to_be_bytes; lia). dtb_run.
  rewrite from_to_be_bytes; [done|]. by rewrite Z2Nat.id by lia.
Qed.

(** With equal cell counts of one or two, [parse_reg] reads back the pairs of
    address and size of a property, and ignores an incomplete pair at its end. *)
Theorem parse_reg_roundtrip c regs tail :
  c = 1 ∨ c = 2 → Forall (reg_ok c c) regs → Z.of_nat (length tail) < 8 * c →
  parse_reg (concat (encode_reg c c <$> regs) ++ tail) c c = Ok regs.
Proof.
  intros Hc Hregs Ht. rewrite <- (list_fmap_id regs) at 2.
  rewrite <- (parse_reg_list c c id) with (tail := tail); [done|lia..| |lia].
  intros r rest Hr. pose proof (proj1 (list.Forall_forall _ _) Hregs r Hr) as Hok.
  pose proof (slice_encode_reg_addr c c r rest Hok ltac:(lia)) as H1.
  pose proof (slice_encode_reg_size c c r rest Hok ltac:(lia) ltac:(lia)) as H2.
  unfold parse_reg_entry.
  destruct Hc as [-> | ->]; dtb_run.
  - change (4 * 1) with 4 in H1, H2. change (4 + 4) with 8 in H2.
    rewrite H1. dtb_run. rewrite H2. by destruct r.
  - change (4 * 2) with 8 in H1, H2. change (8 + 8) with 16 in H2.
    rewrite H1. dtb_run. rewrite H2. by destruct r.
Qed.

(** With two address cells and one size cell, which are the defaults, every
    pair is read with the low half of its address as its size. *)
Theorem parse_reg_default_cells regs :
  Forall (reg_ok 2 1) regs →
  parse_reg (concat (encode_reg 2 1 <$> regs)) 2 1 = Ok ((λ r, (r.1, r.1 mod U32)) <$> regs).
Proof.
  intros Hregs. rewrite <- (app_nil_r (concat _)).
  apply parse_reg_list; [lia..| |done].
  intros r rest Hr. pose proof (proj1 (list.Forall_forall _ _) Hregs r Hr) as Hok.
  pose proof (slice_encode_reg_addr 2 1 r rest Hok ltac:(lia)) as H1.
  change (4 * 2) with 8 in H1. unfold parse_reg_entry. dtb_run. rewrite H1. dtb_run.
  unfold encode_reg. change (Z.to_nat (4 * 2)) with (4 + 4)%nat.
  rewrite to_be_bytes_add, <- !(assoc_L (++)), (slice_app _ _ _ 4 8) by (by rewrite length_to_be_bytes).
  dtb_run. by rewrite from_to_be_bytes_mod.
Qed.

(** ** Nodes by path *)

(** The node at a path: the first child of the name at every step. *)
Fixpoint node_at (root : Node) (path : list str) : option Node :=
  match path with
  | [] => Some root
  | p :: rest =>
    match find (λ node, bool_decide (n_name node = p)) (child_nodes root) with
    | Some node => node_at node rest
    | None => None
    end
  end.

Lemma alias_loop_spec path : ∀ root fuel, path ≠ [] →
  match node_at root path with
  | Some nd => (length path ≤ fuel)%nat → alias_loop fuel root path = Ok (Some nd)
  | None => alias_loop fuel root path = NoFuel
  end.
Proof.
  induction path as [|p rest IH]; intros root fuel Hne; [done|]. cbn [node_at].
  destruct (find _ _) as [node|] eqn:Hfind.
  - destruct rest as [|q rest].
    + intros Hf. cbn [length] in Hf. destruct fuel as [|fuel]; [lia|]. cbn [alias_loop]. by rewrite Hfind.
    + destruct fuel as [|fuel].
      * destruct (node_at node _); [cbn; lia|done].
      * specialize (IH node fuel ltac:(done)). cbn [alias_loop]. rewrite Hfind.
        destruct (node_at node _); [|done]. intros Hf. apply IH. cbn in *. lia.
  - clear IH. induction fuel as [|fuel IHf]; [done|]. cbn [alias_loop]. by rewrite Hfind.
Qed.

(** A path as a property holds it: every component after a slash, and a NUL. *)
Definition alias_value (path : list str) : list Z := mjoin ((λ p, SLASH :: p) <$> path) ++ [0].

Lemma split_path path :
  Forall (λ p, SLASH ∉ p) path →
  split_at SLASH (mjoin ((λ p, SLASH :: p) <$> path)) = [] :: path.
Proof.
  enough (∀ q, SLASH ∉ q → Forall (λ p, SLASH ∉ p) path →
    split_at SLASH (q ++ mjoin ((λ p, SLASH :: p) <$> path)) = q :: path) as H
    by (intros; by apply (H []); [apply not_elem_of_nil|]).
  induction path as [|p path IH]; intros q Hq Hp; cbn [fmap list_fmap mjoin list_join].
  - rewrite app_nil_r. by apply split_single.
  - apply list.Forall_cons in Hp as [Hp1 Hp2]. cbn [app]. rewrite split_app by done. by rewrite IH.
Qed.

Lemma node_by_alias_path root path fuel :
  path ≠ [] → Forall (λ p, SLASH ∉ p ∧ Forall (λ b, 0 ≤ b < 128) p) path →
  (length path ≤ fuel)%nat →
  match node_at root path with
  | Some nd => node_by_alias fuel root (alias_value path) = Ok (Some nd)
  | None => ∀ fuel', node_by_alias fuel' root (alias_value path) = NoFuel
  end.
Proof.
  intros Hne Hp Hf.
  assert (∀ fuel, node_by_alias fuel root (alias_value path) = alias_loop fuel root path) as Heq.
  { intros g. unfold node_by_alias, alias_value. set (t := mjoin _).
    rewrite length_app, Nat2Z.inj_add, usub_Ok by (cbn; lia). dtb_run.
    rewrite slice_head by (cbn; lia). dtb_run.
    rewrite from_utf8_lossy_ascii.
    - unfold t. rewrite split_path; [done|]. eapply list.Forall_impl; [exact Hp|]. by intros p [? _].
    - unfold t. clear -Hp. induction Hp as [|p l [_ Hp] Hl IH]; cbn; [constructor|].
      constructor; [unfold SLASH; lia|]. by apply Forall_app. }
  pose proof (λ g, alias_loop_spec path root g Hne) as Hspec.
  destruct (node_at root path); [rewrite Heq; by apply Hspec|]. intros g. rewrite Heq. apply Hspec.
Qed.

(** [node_by_alias] follows a path of ASCII names from the root to the node
    it names, and never returns when there is no such node. *)
Theorem node_by_alias_result root path fuel :
  path ≠ [] → Forall (λ p, SLASH ∉ p ∧ Forall (λ b, 0 ≤ b < 128) p) path →
  (length path ≤ fuel)%nat →
  match node_at root path with
  | Some nd => node_by_alias fuel root (alias_value path) = Ok (Some nd)
  | None => ∀ fuel', node_by_alias fuel' root (alias_value path) = NoFuel
  end.
Proof. apply node_by_alias_path. Qed.

(** ** Witnesses *)

(** A file with the given names in its strings block. *)
Definition dtb_strings (names : list str) : list Z := concat ((λ n, n ++ [0]) <$> names).
Fixpoint dtb_off (names : list str) (n : str) : Z :=
  match names with
  | [] => 0
  | n' :: names => if bool_decide (n' = n) then 0 else Z.of_nat (S (length n')) + dtb_off names n
  end.
Definition dtb_file (names : list str) (version : Z) (root : FdtItem) : list Z :=
  let st := encode_item (dtb_off names) root ++ be32 FDT_END in
  let sb := dtb_strings names in
  let so := 56 in
  let sto := so + Z.of_nat (length st) in
  MAGIC ++ be32 (sto + Z.of_nat (length sb)) ++ be32 so ++ be32 sto ++ be32 40 ++ be32 version ++
  be32 16 ++ be32 0 ++ be32 (Z.of_nat (length sb)) ++ be32 (Z.of_nat (length st)) ++ replicate 16 0 ++
  st ++ sb.

Definition dtb_names : list str :=
  [lit "#address-cells"; lit "#size-cells"; lit "compatible"; lit "reg"; lit "serial0"].

(** A machine with one UART and an alias for it. *)
Definition dtb_uart : FdtItem :=
  INode (lit "serial@10000000")
    [IProp (lit "compatible") (lit "ns16550a" ++ [0]);
     IProp (lit "reg") (encode_reg 2 2 (0x10000000, 0x100))].
Definition dtb_root : FdtItem :=
  INode []
    [INop; IProp (lit "#address-cells") (be32 2); dtb_uart; IProp (lit "#size-cells") (be32 2);
     INode (lit "aliases") [IProp (lit "serial0") (alias_value [lit "serial@10000000"])]].

Definition demo_dtb : list Z := dtb_file dtb_names 17 dtb_root.
Definition dtb_tree : Node := default (mkNode [] [] [] 0 0) (item_node dtb_root).

Ltac by_compute := apply (bool_decide_unpack _); vm_compute; exact I.

Lemma dtb_string_at names n :
  n ∈ names → dtb_off names n < U32 → string_at (dtb_strings names) (dtb_off names n) n.
Proof.
  induction names as [|n' names IH]; [by intros ?%not_elem_of_nil|].
  intros Hn. cbn [dtb_off]. case_bool_decide as Heq; intros Ho.
  - subst. exists [], (dtb_strings names). split; [|done].
    unfold dtb_strings. cbn. by rewrite <- (assoc_L (++)).
  - apply elem_of_cons in Hn as [->|Hn]; [done|].
    destruct (IH Hn ltac:(lia)) as (pre & suf & Hsb & Hoff & _).
    exists (n' ++ 0 :: pre), suf. split; [|split; [rewrite length_app; cbn; lia|done]].
    unfold dtb_strings in *. cbn. rewrite Hsb, <- !(assoc_L (++)). done.
Qed.

Lemma dtb_root_ok : item_ok (dtb_strings dtb_names) (dtb_off dtb_names) dtb_root.
Proof.
  repeat (constructor || (apply dtb_string_at; [by_compute|vm_compute; done])); by_compute || (vm_compute; done).
Qed.

Lemma demo_dtb_file :
  fdt_file demo_dtb (dtb_strings dtb_names) (dtb_off dtb_names) 17 dtb_root.
Proof.
  split; [|done]. set (st := encode_item (dtb_off dtb_names) dtb_root ++ be32 FDT_END).
  exists (56 + Z.of_nat (length st) + Z.of_nat (length (dtb_strings dtb_names))), 56,
    (56 + Z.of_nat (length st)), 40, (drop 24 demo_dtb).
  split; [by vm_compute|]. split; [done|]. split; [by vm_compute|]. split.
  - exists (take (56 + length st) demo_dtb). split; by vm_compute.
  - exists (take 56 demo_dtb), (dtb_strings dtb_names). split; by vm_compute.
Qed.

Lemma dtb_parse_encode_witness :
  fdt_file demo_dtb (dtb_strings dtb_names) (dtb_off dtb_names) 17 dtb_root ∧
  DeviceTree_parse demo_dtb = Ok (inl (mkDeviceTree 17 dtb_tree)).
Proof.
  split; [apply demo_dtb_file|].
  apply (dtb_parse_encode _ _ _ _ _ _ demo_dtb_file dtb_root_ok). reflexivity.
Defined.

Lemma parse_reg_roundtrip_witness :
  parse_reg (concat (encode_reg 2 2 <$> [(0x8000000, 0x10000); (0x8010000, 0x10000)]) ++ [7]) 2 2
  = Ok [(0x8000000, 0x10000); (0x8010000, 0x10000)].
Proof. apply (parse_reg_roundtrip 2); [by right|by_compute|done]. Defined.

Lemma parse_reg_default_cells_witness :
  parse_reg (concat (encode_reg 2 1 <$> [(0x140000000, 0x1000)])) 2 1 = Ok [(0x140000000, 0x40000000)].
Proof. rewrite (parse_reg_default_cells [(0x140000000, 0x1000)]); [reflexivity|by_compute]. Defined.

Lemma node_by_alias_result_witness :
  node_by_alias 1 dtb_tree (alias_value [lit "aliases"]) = Ok (node_at dtb_tree [lit "aliases"]) ∧
  (∀ fuel, node_by_alias fuel dtb_tree (alias_value [lit "uart0"]) = NoFuel).
Proof.
  split.
  - apply (node_by_alias_result dtb_tree [lit "aliases"] 1); [done|by_compute|done].
  - apply (node_by_alias_result dtb_tree [lit "uart0"] 1); [done|by_compute|done].
Defined.
