(* ===== verification/RiscvCpu.v ===== *)
(** * Start-up of a RISC-V hart (src/src/arch/riscv64/cpu.rs, src/src/arch/riscv64.rs,
    src/src/trap.rs)

    The control and status registers the kernel sets before it runs tasks.  The
    feature [riscv_m_mode] is an argument: the kernel is then started in machine
    mode. *)

From S2P Require Import Prelude Page Address Mapping Sv39.

Record Csrs := mkCsrs {
  r_sstatus : Z;
  r_sie : Z;
  r_stimecmp : Z;
  r_sscratch : Z;
  r_satp : Z;
  r_mie : Z;
  r_mideleg : Z;
  r_medeleg : Z;
  r_menvcfg : Z;
  r_mcounteren : Z;
  r_mtvec : Z;
  r_mepc : Z;
  r_sepc : Z;
}.

Abbreviation R := (ST Csrs).

(** ** Single registers *)

Definition sstatus_r : R Z := λ c, Ok (r_sstatus c, c).
Definition sstatus_w (v : Z) : R unit := modify (λ c,
  mkCsrs v (r_sie c) (r_stimecmp c) (r_sscratch c) (r_satp c) (r_mie c) (r_mideleg c) (r_medeleg c)
    (r_menvcfg c) (r_mcounteren c) (r_mtvec c) (r_mepc c) (r_sepc c)).
Definition sie_r : R Z := λ c, Ok (r_sie c, c).
Definition sie_w (v : Z) : R unit := modify (λ c,
  mkCsrs (r_sstatus c) v (r_stimecmp c) (r_sscratch c) (r_satp c) (r_mie c) (r_mideleg c) (r_medeleg c)
    (r_menvcfg c) (r_mcounteren c) (r_mtvec c) (r_mepc c) (r_sepc c)).
Definition stimecmp_w (v : Z) : R unit := modify (λ c,
  mkCsrs (r_sstatus c) (r_sie c) v (r_sscratch c) (r_satp c) (r_mie c) (r_mideleg c) (r_medeleg c)
    (r_menvcfg c) (r_mcounteren c) (r_mtvec c) (r_mepc c) (r_sepc c)).
Definition sscratch_w (v : Z) : R unit := modify (λ c,
  mkCsrs (r_sstatus c) (r_sie c) (r_stimecmp c) v (r_satp c) (r_mie c) (r_mideleg c) (r_medeleg c)
    (r_menvcfg c) (r_mcounteren c) (r_mtvec c) (r_mepc c) (r_sepc c)).
Definition satp_w (v : Z) : R unit := modify (λ c,
  mkCsrs (r_sstatus c) (r_sie c) (r_stimecmp c) (r_sscratch c) v (r_mie c) (r_mideleg c) (r_medeleg c)
    (r_menvcfg c) (r_mcounteren c) (r_mtvec c) (r_mepc c) (r_sepc c)).
Definition mie_r : R Z := λ c, Ok (r_mie c, c).
Definition mie_w (v : Z) : R unit := modify (λ c,
  mkCsrs (r_sstatus c) (r_sie c) (r_stimecmp c) (r_sscratch c) (r_satp c) v (r_mideleg c) (r_medeleg c)
    (r_menvcfg c) (r_mcounteren c) (r_mtvec c) (r_mepc c) (r_sepc c)).
Definition mideleg_w (v : Z) : R unit := modify (λ c,
  mkCsrs (r_sstatus c) (r_sie c) (r_stimecmp c) (r_sscratch c) (r_satp c) (r_mie c) v (r_medeleg c)
    (r_menvcfg c) (r_mcounteren c) (r_mtvec c) (r_mepc c) (r_sepc c)).
Definition medeleg_w (v : Z) : R unit := modify (λ c,
  mkCsrs (r_sstatus c) (r_sie c) (r_stimecmp c) (r_sscratch c) (r_satp c) (r_mie c) (r_mideleg c) v
    (r_menvcfg c) (r_mcounteren c) (r_mtvec c) (r_mepc c) (r_sepc c)).
Definition menvcfg_r : R Z := λ c, Ok (r_menvcfg c, c).
Definition menvcfg_w (v : Z) : R unit := modify (λ c,
  mkCsrs (r_sstatus c) (r_sie c) (r_stimecmp c) (r_sscratch c) (r_satp c) (r_mie c) (r_mideleg c) (r_medeleg c)
    v (r_mcounteren c) (r_mtvec c) (r_mepc c) (r_sepc c)).
Definition mcounteren_r : R Z := λ c, Ok (r_mcounteren c, c).
Definition mcounteren_w (v : Z) : R unit := modify (λ c,
  mkCsrs (r_sstatus c) (r_sie c) (r_stimecmp c) (r_sscratch c) (r_satp c) (r_mie c) (r_mideleg c) (r_medeleg c)
    (r_menvcfg c) v (r_mtvec c) (r_mepc c) (r_sepc c)).
Definition mtvec_r : R Z := λ c, Ok (r_mtvec c, c).
Definition mtvec_w (v : Z) : R unit := modify (λ c,
  mkCsrs (r_sstatus c) (r_sie c) (r_stimecmp c) (r_sscratch c) (r_satp c) (r_mie c) (r_mideleg c) (r_medeleg c)
    (r_menvcfg c) (r_mcounteren c) v (r_mepc c) (r_sepc c)).

Definition mepc_r : R Z := λ c, Ok (r_mepc c, c).
Definition mepc_w (v : Z) : R unit := modify (λ c,
  mkCsrs (r_sstatus c) (r_sie c) (r_stimecmp c) (r_sscratch c) (r_satp c) (r_mie c) (r_mideleg c) (r_medeleg c)
    (r_menvcfg c) (r_mcounteren c) (r_mtvec c) v (r_sepc c)).
Definition sepc_r : R Z := λ c, Ok (r_sepc c, c).
Definition sepc_w (v : Z) : R unit := modify (λ c,
  mkCsrs (r_sstatus c) (r_sie c) (r_stimecmp c) (r_sscratch c) (r_satp c) (r_mie c) (r_mideleg c) (r_medeleg c)
    (r_menvcfg c) (r_mcounteren c) (r_mtvec c) (r_mepc c) v).

(** ** Initialisation *)

Definition TIMER_INTERVAL : Z := 1000.

Definition MEDELEG_ILLEGAL_INS : Z := Z.shiftl 1 2.
Definition MEDELEG_ECALL_U : Z := Z.shiftl 1 8.

(** [cpu_init]: traps of user code go to supervisor mode. *)
Definition rv_cpu_init (m_mode : bool) : R unit :=
  if m_mode then
    _ ← mideleg_w 0xffff;
    let medeleg := Z.lor MEDELEG_ILLEGAL_INS MEDELEG_ECALL_U in
    medeleg_w medeleg
  else mret tt.

(** [set_timer]; [time] is the value of the time register. *)
Definition set_timer_at (time interval : Z) : R unit :=
  v ← lift (time +! interval);
  stimecmp_w v.

Definition enable_timer (m_mode : bool) (time : Z) : R unit :=
  _ ← set_timer_at time TIMER_INTERVAL;
  sie ← sie_r;
  _ ← sie_w (Z.lor sie (Z.shiftl 1 5));
  if m_mode then
    mie ← mie_r;
    _ ← mie_w (Z.lor mie (Z.shiftl 1 5));
    menvcfg ← menvcfg_r;
    _ ← menvcfg_w (Z.lor menvcfg (Z.shiftl 1 63));
    mcounteren ← mcounteren_r;
    mcounteren_w (Z.lor mcounteren 2)
  else mret tt.

(** The SIE bit of [sstatus]. *)
Definition rv_enable_interrupts : R unit := v ← sstatus_r; sstatus_w (Z.lor v 2).
Definition rv_disable_interrupts : R unit := v ← sstatus_r; sstatus_w (Z.ldiff v 2).

(** [trap_stack_init]: [sscratch] holds the top of the trap stack. *)
Definition rv_trap_stack_init (trap_stack : VirtPage) : R unit :=
  top ← lift (vp_0 trap_stack +! 16);
  sscratch_w (ushl top PAGE_BITS).

(** [switch_to] of the mapper. *)
Definition rv_switch_to (page : PageMapper) : R unit :=
  v ← lift (sv39_switch_to page);
  satp_w v.
