(* ===== verification/Arch.v ===== *)
(** * The architecture (src/src/arch.rs, the [Context] of src/src/arch/riscv64/cpu.rs
    and src/src/arch/arm64/cpu.rs, src/src/time.rs)

    What the code under [#[cfg(target_arch)]] selects for tasks and system calls:
    the register context, the page table format, the clock and the name of the
    machine.  The rest of the kernel is written against this interface. *)

From Stdlib Require Import String.
From S2P Require Import Prelude Page Address Bytes Text Mapping Sv39 Arm64Page.

Class Arch := {
  Context : Type;
  Context_default : Context;
  (* the context of a new user task: entry point and stack pointer *)
  user_context : Z → Z → res Context;
  arch_entry : Entry;
  arch_mapper : Mapper;
  (* nanoseconds from the value of the hardware counter *)
  sys_nanos : Z → res Z;
  uname_machine : str;
}.

(** ** RISC-V *)

Module Riscv64.

Record Context := mkContext { x : list Z; epc : Z }.
Definition Context_default : Context := mkContext (replicate 31 0) 0.

(** [context.epc = entry; context.x[2] = sp]. *)
Definition user_context (entry sp : Z) : res Context :=
  xs ← update (x Context_default) 2 sp;
  Ok (mkContext xs entry).

(** For a counter of 10 MHz. *)
Definition sys_nanos (time : Z) : res Z := time *! 100.

End Riscv64.

Definition Riscv64_Arch : Arch := {|
  Context := Riscv64.Context;
  Context_default := Riscv64.Context_default;
  user_context := Riscv64.user_context;
  arch_entry := Sv39_Entry;
  arch_mapper := Sv39_Mapper;
  sys_nanos := Riscv64.sys_nanos;
  uname_machine := lit "riscv64";
|}.

(** ** Arm *)

Module Arm64.

Record Context := mkContext { x : list Z; sp : Z; elr_el1 : Z; pstate : Z }.
Definition Context_default : Context := mkContext (replicate 31 0) 0 0 0.

Definition user_context (entry stack : Z) : res Context :=
  Ok (mkContext (x Context_default) stack entry (pstate Context_default)).

(** [get_sys_time] with the frequency in CNTFRQ_EL0. *)
Definition sys_nanos (freq ticks : Z) : res Z :=
  n ← ticks *! 1000000000;
  if freq =? 0 then Panic else Ok (n / freq).

End Arm64.

(** [freq] is the value of CNTFRQ_EL0. *)
Definition Arm64_Arch (freq : Z) : Arch := {|
  Context := Arm64.Context;
  Context_default := Arm64.Context_default;
  user_context := Arm64.user_context;
  arch_entry := Arm64_Entry;
  arch_mapper := Arm64_Mapper;
  sys_nanos := Arm64.sys_nanos freq;
  uname_machine := lit "arm64";
|}.
