(* ===== verification/Mcache.v ===== *)
(** * The small-object allocator (src/src/mcache.rs)

    Objects live in cells of one size class inside runs of pages, each of which
    starts with a [CachePage]; a [CacheManager] has slots for such runs.  All of
    it is in one memory of 64-bit words: [owned] are the pages that may be
    accessed, [words] the words that have been written, by address.  A struct is
    the sequence of its fields, a null pointer is 0. *)

From S2P Require Import Prelude Page Buddy.

Record Heap (A : Type) := mkHeap {
  owned : gset Z;
  words : gmap Z Z;
  pages_of : A;
}.
Arguments mkHeap {A}.
Arguments owned {A}.
Arguments words {A}.
Arguments pages_of {A}.

(** [Layout] of the standard library. *)
Record AllocLayout := mkLayout { l_size : Z; l_align : Z }.

(** ** Sizes and offsets *)

Definition SLOT_NUM : nat := 1024.
Definition SIZE_CLASS_COUNT : nat := 14.
Definition PTR_SIZE : Z := 8.

Definition KB : Z := 1024.
Definition CACHE_SIZE : list (Z * Z) :=
  [(64, 1024); (128, 512); (256, 256); (512, 128); (KB, 64); (2 * KB, 32); (4 * KB, 16);
   (8 * KB, 8); (16 * KB, 8); (32 * KB, 8); (64 * KB, 8); (128 * KB, 8); (256 * KB, 4); (512 * KB, 2)].

Definition size_to_class (size : Z) : option ((Z * Z) * nat) :=
  '(idx, c) ← list_find (λ c : Z * Z, size ≤ c.1) CACHE_SIZE;
  Some (c, idx).

Definition calc_header_padding (align : Z) : Z :=
  (align - PTR_SIZE mod align) mod align.

(** The fields of [CachePage]. *)
Record CachePage := mkCachePage {
  page_start : Z;
  page_count : Z;
  cell_size : Z;
  free_count : Z;
  used_count : Z;
  free_list_head : Z;
}.
Definition CACHE_PAGE_SIZE : Z := 48.
Definition CachePage_words (c : CachePage) : list Z :=
  [page_start c; page_count c; cell_size c; free_count c; used_count c; free_list_head c].
Definition f_page_start (c : Z) : Z := c.
Definition f_page_count (c : Z) : Z := c + 8.
Definition f_cell_size (c : Z) : Z := c + 16.
Definition f_free_count (c : Z) : Z := c + 24.
Definition f_used_count (c : Z) : Z := c + 32.
Definition f_free_list_head (c : Z) : Z := c + 40.

(** The fields of [CacheManager]. *)
Definition f_cache (mgr : Z) (i : nat) : Z := mgr + 8 * Z.of_nat i.
Definition f_next (mgr : Z) : Z := mgr + 8 * 1024.
Definition f_prev (mgr : Z) : Z := mgr + 8 * 1025.
Definition f_next_partial_free (mgr : Z) (i : nat) : Z := mgr + 8 * (1026 + Z.of_nat i).
Definition f_partial_count (mgr : Z) (i : nat) : Z := mgr + 8 * (1040 + Z.of_nat i).
Definition f_next_free (mgr : Z) : Z := mgr + 8 * 1054.
Definition f_used_slots (mgr : Z) : Z := mgr + 8 * 1055.
Definition CACHE_MANAGER_SIZE : Z := 8 * 1056.

(** [CacheManager { prev, next_free, ..Default::default() }]. *)
Definition CacheManager_words (prev next_free : Z) : list Z :=
  replicate SLOT_NUM 0 ++ [0; prev] ++ replicate SIZE_CLASS_COUNT 0 ++ replicate SIZE_CLASS_COUNT 0 ++
  [next_free; 0].

Section mcache.
Context {A : Type} `{!PageAllocator A}.
Abbreviation H := (ST (Heap A)).

(** ** Memory *)

Definition page_of (a : Z) : Z := a / PAGE_SIZE.

Definition rd (a : Z) : H Z := λ h, v ← deref (words h !! a); Ok (v, h).
Definition wr (a v : Z) : H unit := λ h,
  if bool_decide (page_of a ∈ owned h)
  then Ok (tt, mkHeap (owned h) (<[a:=v]> (words h)) (pages_of h)) else Undef.

Fixpoint wr_list (a : Z) (vs : list Z) : H unit :=
  match vs with
  | [] => mret tt
  | v :: vs => _ ← wr a v; wr_list (a + 8) vs
  end.

(** [*place += d] and [*place -= d] on a [usize] in memory. *)
Definition incr (a : Z) : H unit := v ← rd a; v ← lift (v +! 1); wr a v.
Definition decr (a : Z) : H unit := v ← rd a; v ← lift (v -! 1); wr a v.

(** The global [alloc_pages] and [free_pages]: pages that are handed out hold no
    words yet, pages that are given back are no longer accessible. *)
Definition page_run (p n : Z) : gset Z := list_to_set (seqZ p n).
Definition galloc (n : Z) : H Z := λ h,
  '(r, a) ← pa_alloc_pages n (pages_of h);
  match r with
  | inl p => Ok (p, mkHeap (owned h ∪ page_run p n) (words h) a)
  | inr _ => Panic
  end.
Definition gfree (p n : Z) : H unit := λ h,
  '(_, a) ← pa_free_pages p n (pages_of h);
  Ok (tt, mkHeap (owned h ∖ page_run p n)
            (filter (λ e : Z * Z, page_of e.1 ∉ page_run p n) (words h)) a).

(** ** Cells *)

Definition object_ptr (ptr padding : Z) : Z := ptr + (padding + PTR_SIZE).
Definition write_head (ptr mgr : Z) : H unit := wr ptr mgr.
Definition read_next (ptr : Z) : H Z := rd ptr.
Definition write_next (ptr next : Z) : H unit := wr ptr next.

(** ** Runs of cells *)

(** The loop of [init]: [n] rounds from [i] on. *)
Fixpoint init_loop (self : CachePage) (offset : Z) (i : Z) (n : nat) : H unit :=
  match n with
  | O => mret tt
  | S n =>
    d ← lift ((offset + i) *! cell_size self);
    d' ← lift ((offset + i + 1) *! cell_size self);
    _ ← write_next (page_start self + d) (page_start self + d');
    init_loop self offset (i + 1) n
  end.

Definition CachePage_init (self : CachePage) (offset : Z) : H unit :=
  n ← lift (free_count self -! 1);
  _ ← init_loop self offset 0 (Z.to_nat n);
  d ← lift (page_count self *! PAGE_SIZE);
  d ← lift (d -! cell_size self);
  write_next (page_start self + d) 0.

Definition CachePage_allocate (cell_size cell_count : Z) : H Z :=
  n ← lift (cell_count *! cell_size);
  page_count ← lift (ceil_to_power_2 (n / PAGE_SIZE));
  let offset := div_ceil CACHE_PAGE_SIZE cell_size in
  p ← galloc page_count;
  cache_addr ← lift (PAGE_SIZE *! p);
  bytes ← lift (page_count *! PAGE_SIZE);
  free_count ← lift (bytes / cell_size -! offset);
  let cache := mkCachePage cache_addr page_count cell_size free_count 0 (cache_addr + offset * cell_size) in
  _ ← CachePage_init cache offset;
  _ ← wr_list cache_addr (CachePage_words cache);
  mret cache_addr.

Definition CachePage_deallocate (c : Z) : H unit :=
  page_start ← rd (f_page_start c);
  page_count ← rd (f_page_count c);
  gfree (Z.shiftr page_start PAGE_BITS) page_count.

Definition alloc_obj (c : Z) : H (option Z) :=
  n ← rd (f_free_count c);
  if n =? 0 then mret None
  else
    _ ← decr (f_free_count c);
    _ ← incr (f_used_count c);
    alloc_addr ← rd (f_free_list_head c);
    next_ptr ← read_next alloc_addr;
    _ ← wr (f_free_list_head c) next_ptr;
    mret (Some alloc_addr).

Definition free_obj (c ptr : Z) : H unit :=
  _ ← decr (f_used_count c);
  _ ← incr (f_free_count c);
  head ← rd (f_free_list_head c);
  _ ← write_next ptr head;
  wr (f_free_list_head c) ptr.

Definition in_range (c ptr : Z) : H bool :=
  page_start ← rd (f_page_start c);
  page_count ← rd (f_page_count c);
  n ← lift (page_count *! PAGE_SIZE);
  mret ((page_start <=? ptr) && (ptr <? page_start + n)).

(** ** Managers *)

(** [first_mgr] and [first_mgr_mut]. *)
Fixpoint first_mgr (fuel : nat) (mgr : Z) : H Z :=
  match fuel with
  | O => lift NoFuel
  | S fuel =>
    prev ← rd (f_prev mgr);
    if prev =? 0 then mret mgr else first_mgr fuel prev
  end.

(** The loop of [add_cache] over the slots from [i] on. *)
Fixpoint add_cache_from (mgr cache_ptr : Z) (i n : nat) : H unit :=
  match n with
  | O => mret tt
  | S n =>
    c ← rd (f_cache mgr i);
    if c =? 0 then
      _ ← wr (f_cache mgr i) cache_ptr;
      incr (f_used_slots mgr)
    else add_cache_from mgr cache_ptr (S i) n
  end.
Definition add_cache (mgr cache_ptr : Z) : H unit := add_cache_from mgr cache_ptr 0 SLOT_NUM.

Definition is_slots_full (mgr : Z) : H bool :=
  n ← rd (f_used_slots mgr);
  mret (n =? Z.of_nat SLOT_NUM).
Definition is_global_allocator (mgr : Z) : H bool :=
  p ← rd (f_prev mgr);
  mret (p =? 0).

(** [fuel] bounds the walks to the first manager. *)
Variable fuel : nat.

(** The loop of [cache_alloc] over the slots from [i] on. *)
Fixpoint cache_alloc_from (mgr cell_size : Z) (idx : nat) (padding : Z) (i n : nat) : H (option Z) :=
  match n with
  | O => mret None
  | S n =>
    c ← rd (f_cache mgr i);
    if c =? 0 then cache_alloc_from mgr cell_size idx padding (S i) n
    else
      cs ← rd (f_cell_size c);
      r ← (if cs =? cell_size then alloc_obj c else mret None);
      match r with
      | None => cache_alloc_from mgr cell_size idx padding (S i) n
      | Some ptr =>
        left ← rd (f_free_count c);
        _ ← (if left =? 0 then
               _ ← decr (f_partial_count mgr idx);
               k ← rd (f_partial_count mgr idx);
               if k =? 0 then
                 first ← first_mgr fuel mgr;
                 nx ← rd (f_next_partial_free mgr idx);
                 wr (f_next_partial_free first idx) nx
               else mret tt
             else mret tt);
        _ ← write_head ptr mgr;
        mret (Some (object_ptr ptr padding))
      end
  end.

Definition cache_alloc (mgr cell_size : Z) (idx : nat) (padding : Z) : H (option Z) :=
  k ← rd (f_partial_count mgr idx);
  if k =? 0 then mret None
  else cache_alloc_from mgr cell_size idx padding 0 SLOT_NUM.

(** [alloc] is the recursive call. *)
Definition try_init_next (alloc : Z → AllocLayout → H Z) (mgr : Z) : H unit :=
  nx ← rd (f_next mgr);
  if nx =? 0 then
    _ ← wr (f_next mgr) 8;
    next ← alloc mgr (mkLayout CACHE_MANAGER_SIZE 8);
    _ ← wr (f_next mgr) next;
    first ← first_mgr fuel mgr;
    nf ← rd (f_next_free first);
    _ ← wr_list next (CacheManager_words mgr nf);
    first ← first_mgr fuel mgr;
    wr (f_next_free first) next
  else mret tt.

Definition new_cache_alloc (alloc : Z → AllocLayout → H Z) (mgr cell_size cell_count : Z) (idx : nat)
    (padding : Z) : H Z :=
  _ ← try_init_next alloc mgr;
  c ← CachePage_allocate cell_size cell_count;
  r ← alloc_obj c;
  ptr ← lift (unwrap r);
  global ← is_global_allocator mgr;
  k ← rd (f_partial_count mgr idx);
  _ ← (if negb global && (k =? 0) then
         first ← first_mgr fuel mgr;
         nx ← rd (f_next_partial_free first idx);
         _ ← wr (f_next_partial_free mgr idx) nx;
         first ← first_mgr fuel mgr;
         wr (f_next_partial_free first idx) mgr
       else mret tt);
  _ ← add_cache mgr c;
  _ ← (_ ← incr (f_partial_count mgr idx);
       full ← is_slots_full mgr;
       if full : bool then
         first ← first_mgr fuel mgr;
         nx ← rd (f_next_free mgr);
         wr (f_next_free first) nx
       else mret tt);
  _ ← write_head ptr mgr;
  mret (object_ptr ptr padding).

(** [depth] bounds the nesting of [alloc] in itself, which is one: the call that
    [try_init_next] makes finds [next] set. *)
Fixpoint mgr_alloc (depth : nat) (mgr : Z) (layout : AllocLayout) : H Z :=
  match depth with
  | O => lift NoFuel
  | S depth =>
    let padding := calc_header_padding (l_align layout) in
    alloc_size ← lift (l_size layout +! padding);
    alloc_size ← lift (alloc_size +! PTR_SIZE);
    match size_to_class alloc_size with
    | Some ((cell_size, cell_count), idx) =>
      r ← cache_alloc mgr cell_size idx padding;
      match r with
      | Some ptr => mret ptr
      | None =>
        full ← is_slots_full mgr;
        if negb full then new_cache_alloc (mgr_alloc depth) mgr cell_size cell_count idx padding
        else
          next ← rd (f_next_partial_free mgr idx);
          if negb (next =? 0) then
            r ← cache_alloc next cell_size idx padding;
            lift (unwrap r)
          else
            nf ← rd (f_next_free mgr);
            nf ← lift (if nf =? 0 then Panic else Ok nf);
            new_cache_alloc (mgr_alloc depth) nf cell_size cell_count idx padding
      end
    | None =>
      p ← galloc (div_ceil (l_size layout) PAGE_SIZE);
      lift (PAGE_SIZE *! p)
    end
  end.

(** The search for the manager before [mgr] in the free list. *)
Fixpoint prev_free_loop (n : nat) (prev_free mgr : Z) : H Z :=
  match n with
  | O => lift NoFuel
  | S n =>
    next ← rd (f_next_free prev_free);
    if negb (next =? 0) && negb (next =? mgr) then prev_free_loop n next mgr else mret prev_free
  end.

(** The cache [c] in slot [i] of [mgr] has no cell in use: its pages are given
    back, and [mgr] too when it was its last cache; [dealloc] is the recursive call
    on [self]. *)
Definition release_cache (dealloc : Z → AllocLayout → H unit) (first mgr c : Z) (i idx : nat)
    (is_global : bool) : H unit :=
  _ ← (_ ← CachePage_deallocate c;
       _ ← wr (f_cache mgr i) 0;
       full ← is_slots_full mgr;
       _ ← (if negb is_global && full then
              nx ← rd (f_next_free first);
              _ ← wr (f_next_free mgr) nx;
              wr (f_next_free first) mgr
            else mret tt);
       _ ← decr (f_used_slots mgr);
       decr (f_partial_count mgr idx));
  slots ← rd (f_used_slots mgr);
  prev ← rd (f_prev mgr);
  if (slots =? 0) && negb (prev =? 0) then
    nx ← rd (f_next mgr);
    _ ← wr (f_next prev) nx;
    pf ← rd (f_next_free first);
    pf ← lift (if pf =? 0 then Panic else Ok pf);
    pf ← prev_free_loop fuel pf mgr;
    nx ← rd (f_next_free mgr);
    _ ← wr (f_next_free pf) nx;
    dealloc mgr (mkLayout CACHE_MANAGER_SIZE 8)
  else mret tt.

(** The body of [dealloc] for the cache [c] in slot [i] of [mgr] that holds the
    object. *)
Definition dealloc_from_cache (dealloc : Z → AllocLayout → H unit) (first mgr c : Z) (i idx : nat)
    (ptr padding : Z) : H unit :=
  is_global ← is_global_allocator mgr;
  left ← rd (f_free_count c);
  _ ← (if left =? 0 then
         k ← rd (f_partial_count mgr idx);
         _ ← (if negb is_global && (k =? 0) then
                nx ← rd (f_next_partial_free first idx);
                _ ← wr (f_next_partial_free mgr idx) nx;
                wr (f_next_partial_free first idx) mgr
              else mret tt);
         incr (f_partial_count mgr idx)
       else mret tt);
  _ ← free_obj c (ptr - (padding + PTR_SIZE));
  used ← rd (f_used_count c);
  if used =? 0 then release_cache dealloc first mgr c i idx is_global else mret tt.

(** The loop of [dealloc] over the slots of [mgr] from [i] on. *)
Fixpoint dealloc_from (dealloc : Z → AllocLayout → H unit) (first mgr : Z) (idx : nat) (ptr padding : Z)
    (i n : nat) : H unit :=
  match n with
  | O => mret tt
  | S n =>
    c ← rd (f_cache mgr i);
    here ← (if c =? 0 then mret false else in_range c ptr);
    if here : bool then dealloc_from_cache dealloc first mgr c i idx ptr padding
    else dealloc_from dealloc first mgr idx ptr padding (S i) n
  end.

Fixpoint mgr_dealloc (depth : nat) (self ptr : Z) (layout : AllocLayout) : H unit :=
  match depth with
  | O => lift NoFuel
  | S depth =>
    let padding := calc_header_padding (l_align layout) in
    alloc_size ← lift (l_size layout +! padding);
    alloc_size ← lift (alloc_size +! PTR_SIZE);
    first ← first_mgr fuel self;
    match size_to_class alloc_size with
    | Some (_, idx) =>
      mgr ← rd (ptr - (padding + PTR_SIZE));
      dealloc_from (mgr_dealloc depth self) first mgr idx ptr padding 0 SLOT_NUM
    | None => gfree (Z.shiftr ptr PAGE_BITS) (div_ceil (l_size layout) PAGE_SIZE)
    end
  end.

(** [GlobalAlloc for GlobalAllocator]: the first manager, which is static and
    zeroed, under its lock. *)
Definition GLOBAL_ALLOCATOR_words : list Z := CacheManager_words 0 0.
Definition GlobalAllocator_alloc (depth : nat) (inner : Z) (layout : AllocLayout) : H Z :=
  mgr_alloc depth inner layout.
Definition GlobalAllocator_dealloc (depth : nat) (inner ptr : Z) (layout : AllocLayout) : H unit :=
  mgr_dealloc depth inner ptr layout.
End mcache.
