(* ===== verification/McacheSpec.v ===== *)
(** * Runs of cells and the slots of a manager

    What the memory of the small-object allocator holds: a run of pages with its
    header, its free list and its cells in use; the slots of the first manager.
    The operations on a run. *)

From S2P Require Import Prelude Page Buddy Mcache.

(** ** Size classes *)

Definition class_size (k : nat) : Z := (CACHE_SIZE !!! k).1.
Definition class_count (k : nat) : Z := (CACHE_SIZE !!! k).2.
Definition class_pages (k : nat) : Z := class_count k * class_size k / PAGE_SIZE.
(** The header takes the place of [class_off k] cells. *)
Definition class_off (k : nat) : Z := div_ceil CACHE_PAGE_SIZE (class_size k).
Definition class_cells (k : nat) : Z := class_pages k * PAGE_SIZE / class_size k - class_off k.

Record class_facts (k : nat) : Prop := {
  cf_size : 64 ≤ class_size k ≤ 2 ^ 19;
  cf_pages : 1 ≤ class_pages k ≤ 256;
  cf_off : 1 ≤ class_off k;
  cf_header : CACHE_PAGE_SIZE ≤ class_off k * class_size k;
  cf_cells : 1 ≤ class_cells k ≤ 1024;
  cf_total : (class_off k + class_cells k) * class_size k = class_pages k * PAGE_SIZE;
  cf_two : k ≠ 13%nat → 2 ≤ class_cells k;
  cf_pow : ceil_to_power_2 (class_pages k) = Ok (class_pages k);
  cf_mul : class_count k *! class_size k = Ok (class_count k * class_size k);
}.

Lemma class_facts_all k : (k < SIZE_CLASS_COUNT)%nat → class_facts k.
Proof.
  unfold SIZE_CLASS_COUNT. intros Hk. do 14 (destruct k as [|k]; [constructor; by vm_compute|]). lia.
Qed.

Lemma class_size_pow k : (k < SIZE_CLASS_COUNT)%nat → class_size k = 2 ^ (6 + Z.of_nat k).
Proof. unfold SIZE_CLASS_COUNT. intros Hk. do 14 (destruct k as [|k]; [reflexivity|]). lia. Qed.

Lemma size_to_class_spec size cs cc k :
  size_to_class size = Some ((cs, cc), k) →
  (k < SIZE_CLASS_COUNT)%nat ∧ cs = class_size k ∧ cc = class_count k ∧ size ≤ cs.
Proof.
  unfold size_to_class. destruct (list_find _ CACHE_SIZE) as [[k' c]|] eqn:Hf; [|done].
  intros [= -> ->]. apply list_find_Some in Hf as (Hl & Hs & _). simpl in Hs.
  unfold class_size, class_count. rewrite (list_lookup_total_correct _ _ _ Hl).
  by apply lookup_lt_Some in Hl.
Qed.

(** ** Runs *)

Record run := mkRun { r_page : Z; r_class : nat; r_free : list Z; r_used : list Z }.

Definition r_addr (r : run) : Z := PAGE_SIZE * r_page r.
Definition r_pages (r : run) : gset Z := page_run (r_page r) (class_pages (r_class r)).
Definition cells_at (a : Z) (k : nat) : list Z :=
  (λ i, a + i * class_size k) <$> seqZ (class_off k) (class_cells k).

(** The cells of the free list are linked from the first one, the last holds 0. *)
Fixpoint chain (w : gmap Z Z) (l : list Z) : Prop :=
  match l with
  | [] => True
  | c :: l => w !! c = Some (default 0 (head l)) ∧ chain w l
  end.

Record run_ok {A} (g : Z) (h : Heap A) (r : run) : Prop := {
  ro_class : (r_class r < SIZE_CLASS_COUNT)%nat;
  ro_page : 0 < r_page r ∧ (r_page r + class_pages (r_class r)) * PAGE_SIZE < U64;
  ro_owned : r_pages r ⊆ owned h;
  ro_start : words h !! f_page_start (r_addr r) = Some (r_addr r);
  ro_count : words h !! f_page_count (r_addr r) = Some (class_pages (r_class r));
  ro_size : words h !! f_cell_size (r_addr r) = Some (class_size (r_class r));
  ro_nfree : words h !! f_free_count (r_addr r) = Some (Z.of_nat (length (r_free r)));
  ro_nused : words h !! f_used_count (r_addr r) = Some (Z.of_nat (length (r_used r)));
  ro_head : words h !! f_free_list_head (r_addr r) = Some (default 0 (head (r_free r)));
  ro_chain : chain (words h) (r_free r);
  ro_heads : ∀ c, c ∈ r_used r → words h !! c = Some g;
  ro_cells : r_free r ++ r_used r ≡ₚ cells_at (r_addr r) (r_class r);
}.

(** ** Addresses of a run *)

Lemma PAGE_SIZE_val : PAGE_SIZE = 4096.
Proof. reflexivity. Qed.

Lemma page_of_run p n a : 0 ≤ n → PAGE_SIZE * p ≤ a < PAGE_SIZE * (p + n) → page_of a ∈ page_run p n.
Proof.
  intros Hn Ha. unfold page_run, page_of. rewrite elem_of_list_to_set, elem_of_seqZ.
  rewrite PAGE_SIZE_val in *. split; [apply Z.div_le_lower_bound; lia|].
  apply Z.div_lt_upper_bound; lia.
Qed.

Lemma page_run_bounds p n a : page_of a ∈ page_run p n → PAGE_SIZE * p ≤ a < PAGE_SIZE * (p + n).
Proof.
  unfold page_run, page_of. rewrite elem_of_list_to_set, elem_of_seqZ. rewrite PAGE_SIZE_val.
  intros [H1 H2]. pose proof (Z.div_mod a 4096 ltac:(lia)). pose proof (Z.mod_pos_bound a 4096 ltac:(lia)). lia.
Qed.

Lemma elem_of_cells a k c :
  c ∈ cells_at a k ↔ ∃ i, c = a + i * class_size k ∧ class_off k ≤ i < class_off k + class_cells k.
Proof.
  unfold cells_at. rewrite list_elem_of_fmap. split.
  - intros (i & -> & Hi%elem_of_seqZ). by exists i.
  - intros (i & -> & Hi). exists i. split; [done|]. by apply elem_of_seqZ.
Qed.

Lemma cells_NoDup a k : (k < SIZE_CLASS_COUNT)%nat → NoDup (cells_at a k).
Proof.
  intros Hk%class_facts_all. pose proof (cf_size k Hk). apply NoDup_fmap_2_strong; [|apply NoDup_seqZ].
  intros i j _ _ Heq. nia.
Qed.

(** A cell lies behind the header and inside the pages. *)
Lemma cell_bounds r c :
  (r_class r < SIZE_CLASS_COUNT)%nat → c ∈ cells_at (r_addr r) (r_class r) →
  r_addr r + CACHE_PAGE_SIZE ≤ c ∧
  c + class_size (r_class r) ≤ PAGE_SIZE * (r_page r + class_pages (r_class r)).
Proof.
  intros Hk%class_facts_all (i & -> & Hi)%elem_of_cells. unfold r_addr.
  pose proof (cf_size _ Hk). pose proof (cf_header _ Hk). pose proof (cf_total _ Hk).
  rewrite PAGE_SIZE_val in *. split; nia.
Qed.

Lemma cell_page r c :
  (r_class r < SIZE_CLASS_COUNT)%nat → c ∈ cells_at (r_addr r) (r_class r) → page_of c ∈ r_pages r.
Proof.
  intros Hk Hc. pose proof (cell_bounds r c Hk Hc) as [H1 H2]. apply class_facts_all in Hk.
  pose proof (cf_size _ Hk). pose proof (cf_pages _ Hk). unfold r_addr, CACHE_PAGE_SIZE in *.
  apply page_of_run; lia.
Qed.

Lemma header_page r d :
  (r_class r < SIZE_CLASS_COUNT)%nat → 0 ≤ d < CACHE_PAGE_SIZE → page_of (r_addr r + d) ∈ r_pages r.
Proof.
  intros Hk%class_facts_all Hd. pose proof (cf_pages _ Hk). unfold r_addr, CACHE_PAGE_SIZE in *.
  apply page_of_run; rewrite ?PAGE_SIZE_val; lia.
Qed.

(** Two cells of a run do not overlap. *)
Lemma cells_apart a k c c' :
  (k < SIZE_CLASS_COUNT)%nat → c ∈ cells_at a k → c' ∈ cells_at a k → c ≠ c' →
  c + class_size k ≤ c' ∨ c' + class_size k ≤ c.
Proof.
  intros Hk%class_facts_all (i & -> & Hi)%elem_of_cells (j & -> & Hj)%elem_of_cells Hne.
  pose proof (cf_size _ Hk). destruct (Z.lt_trichotomy i j) as [?|[->|?]]; [left; nia|done|right; nia].
Qed.

(** ** Frames *)

Lemma links_frame w w' l : (∀ c, c ∈ l → w' !! c = w !! c) → chain w l → chain w' l.
Proof.
  induction l as [|c l IH]; intros Hf; [done|]. cbn [chain]. intros [Hc Hl]. split.
  - rewrite Hf by (by left). done.
  - apply IH; [|done]. intros c' Hc'. apply Hf. by right.
Qed.

(** Only the words of the header and the first words of the cells matter. *)
Lemma run_ok_words {A} g (h h' : Heap A) r :
  (∀ d, 0 ≤ d < CACHE_PAGE_SIZE → words h' !! (r_addr r + d) = words h !! (r_addr r + d)) →
  (∀ c, c ∈ cells_at (r_addr r) (r_class r) → words h' !! c = words h !! c) → r_pages r ⊆ owned h' →
  run_ok g h r → run_ok g h' r.
Proof.
  intros Hhdr Hcell Ho [Hk Hp _ H1 H2 H3 H4 H5 H6 Hch Hhd Hperm].
  assert (∀ c, c ∈ r_free r ++ r_used r → words h' !! c = words h !! c) as Hcell'
    by (intros c Hc; apply Hcell; by rewrite <- Hperm).
  constructor; try done.
  - unfold f_page_start in *. specialize (Hhdr 0 ltac:(done)). rewrite Z.add_0_r in Hhdr. by rewrite Hhdr.
  - by rewrite <- H2; apply Hhdr.
  - by rewrite <- H3; apply Hhdr.
  - by rewrite <- H4; apply Hhdr.
  - by rewrite <- H5; apply Hhdr.
  - by rewrite <- H6; apply Hhdr.
  - eapply links_frame; [|done]. intros c Hc. apply Hcell'. apply elem_of_app. by left.
  - intros c Hc. rewrite Hcell' by (apply elem_of_app; by right). by apply Hhd.
Qed.

Lemma run_ok_frame {A} g (h h' : Heap A) r :
  (∀ a, page_of a ∈ r_pages r → words h' !! a = words h !! a) → r_pages r ⊆ owned h' →
  run_ok g h r → run_ok g h' r.
Proof.
  intros Hw Ho Hr. pose proof (ro_class _ _ _ Hr) as Hk. apply (run_ok_words g h); [| |done|done].
  - intros d Hd. apply Hw. by apply header_page.
  - intros c Hc. apply Hw. by apply cell_page.
Qed.

(** ** Reading and writing *)

Section ops.
Context {A : Type} `{!PageAllocator A}.
Implicit Types h : Heap A.

Definition set_word h (a v : Z) : Heap A := mkHeap (owned h) (<[a:=v]> (words h)) (pages_of h).

(** Only words at addresses in [P] differ. *)
Definition changes (P : Z → Prop) h h' : Prop :=
  owned h' = owned h ∧ pages_of h' = pages_of h ∧ ∀ a, ¬ P a → words h' !! a = words h !! a.

Lemma changes_refl P h : changes P h h.
Proof. done. Qed.
Lemma changes_trans P h1 h2 h3 : changes P h1 h2 → changes P h2 h3 → changes P h1 h3.
Proof.
  intros (Ho & Ha & Hw) (Ho' & Ha' & Hw'). split_and!; [congruence..|].
  intros a Hn. by rewrite Hw', Hw.
Qed.
Lemma changes_weaken (P Q : Z → Prop) h h' : (∀ a, P a → Q a) → changes P h h' → changes Q h h'.
Proof. intros HPQ (Ho & Ha & Hw). split_and!; [done..|]. intros a Hn. apply Hw. auto. Qed.
Lemma changes_set (P : Z → Prop) h a v : P a → changes P h (set_word h a v).
Proof.
  intros HP. split_and!; [done..|]. intros b Hb. cbn [set_word words].
  rewrite lookup_insert_ne; [done|]. by intros ->.
Qed.

Lemma rd_run h a v : words h !! a = Some v → rd a h = Ok (v, h).
Proof. unfold rd. by intros ->. Qed.
Lemma wr_run h a v : page_of a ∈ owned h → wr a v h = Ok (tt, set_word h a v).
Proof. unfold wr. intros Ha. by rewrite bool_decide_eq_true_2. Qed.
Lemma incr_run h a v :
  words h !! a = Some v → v + 1 < U64 → page_of a ∈ owned h → incr a h = Ok (tt, set_word h a (v + 1)).
Proof.
  intros Hv Hlt Ha. unfold incr. rewrite (st_run _ _ _ _ _ (rd_run h a v Hv)).
  rewrite (st_run_lift _ _ _ (v + 1)) by (by apply uadd_Ok). by apply wr_run.
Qed.
Lemma decr_run h a v :
  words h !! a = Some v → 1 ≤ v → page_of a ∈ owned h → decr a h = Ok (tt, set_word h a (v - 1)).
Proof.
  intros Hv Hlt Ha. unfold decr. rewrite (st_run _ _ _ _ _ (rd_run h a v Hv)).
  rewrite (st_run_lift _ _ _ (v - 1)) by (by apply usub_Ok). by apply wr_run.
Qed.

(** ** Taking and giving back a cell *)

(** The words of a header. *)
Definition in_header (r : run) (a : Z) : Prop := r_addr r ≤ a < r_addr r + CACHE_PAGE_SIZE.

Definition counted h (r : run) (nfree nused hd : Z) : Heap A :=
  set_word (set_word (set_word h (f_free_count (r_addr r)) nfree) (f_used_count (r_addr r)) nused)
    (f_free_list_head (r_addr r)) hd.

Lemma counted_changes h r x y z : changes (in_header r) h (counted h r x y z).
Proof.
  unfold counted. eapply changes_trans; [|eapply changes_trans]; apply changes_set;
    unfold in_header, f_free_count, f_used_count, f_free_list_head, CACHE_PAGE_SIZE; lia.
Qed.

Lemma run_lengths g h r : run_ok g h r →
  Z.of_nat (length (r_free r)) + Z.of_nat (length (r_used r)) = class_cells (r_class r).
Proof.
  intros Hok. pose proof (cf_cells _ (class_facts_all _ (ro_class _ _ _ Hok))) as Hc.
  pose proof (Permutation_length (ro_cells _ _ _ Hok)) as Hlen. unfold cells_at in Hlen.
  rewrite length_app, length_fmap, length_seqZ in Hlen. lia.
Qed.

Lemma run_cell_not_header r c : (r_class r < SIZE_CLASS_COUNT)%nat →
  c ∈ cells_at (r_addr r) (r_class r) → ¬ in_header r c.
Proof. intros Hk Hc. pose proof (cell_bounds r c Hk Hc). unfold in_header. lia. Qed.

(** A word of a header whose counters and list head have been written. *)
Ltac header_word :=
  subst; unfold counted; cbn [set_word words]; unfold f_free_count, f_used_count, f_free_list_head;
  repeat (rewrite lookup_insert_ne by lia); rewrite ?lookup_insert_eq; done.

(** A run after its counters and list have changed, and the word of one cell. *)
Lemma run_recount g h r c v free used :
  run_ok g h r → c ∈ cells_at (r_addr r) (r_class r) →
  free ++ used ≡ₚ cells_at (r_addr r) (r_class r) →
  chain (<[c:=v]> (words h)) free → (∀ c', c' ∈ used → <[c:=v]> (words h) !! c' = Some g) →
  run_ok g (set_word (counted h r (Z.of_nat (length free)) (Z.of_nat (length used)) (default 0 (head free))) c v)
    (mkRun (r_page r) (r_class r) free used).
Proof.
  intros Hok Hc Hperm Hch Hus. pose proof (ro_class _ _ _ Hok) as Hk.
  pose proof (run_cell_not_header r c Hk Hc) as Hnh.
  destruct (counted_changes h r (Z.of_nat (length free)) (Z.of_nat (length used)) (default 0 (head free)))
    as (_ & _ & Hw).
  remember (counted h r (Z.of_nat (length free)) (Z.of_nat (length used)) (default 0 (head free))) as h1 eqn:Hh1.
  assert (∀ c', c' ∈ free ++ used → words (set_word h1 c v) !! c' = <[c:=v]> (words h) !! c') as Hcell.
  { intros c' Hc'. rewrite Hperm in Hc'. cbn [set_word words]. destruct (decide (c' = c)) as [->|Hne].
    - by rewrite !lookup_insert_eq.
    - rewrite !lookup_insert_ne by done. by apply Hw, run_cell_not_header. }
  assert (∀ d, 0 ≤ d < 48 → words (set_word h1 c v) !! (r_addr r + d) = words h1 !! (r_addr r + d)) as Hhdr.
  { intros d Hd. cbn [set_word words]. rewrite lookup_insert_ne; [done|]. intros ->. apply Hnh.
    unfold in_header, CACHE_PAGE_SIZE. lia. }
  destruct Hok as [_ Hp Ho H1 H2 H3 _ _ _ _ _ _].
  unfold f_page_start, f_page_count, f_cell_size, f_free_count, f_used_count, f_free_list_head in *.
  constructor; cbn [r_page r_class r_free r_used]; try done;
    change (r_addr (mkRun (r_page r) (r_class r) free used)) with (r_addr r); try done.
  - by subst.
  - pose proof (Hhdr 0 ltac:(lia)) as H0. rewrite Z.add_0_r in H0. unfold f_page_start. rewrite H0. header_word.
  - unfold f_page_count. rewrite Hhdr by lia. header_word.
  - unfold f_cell_size. rewrite Hhdr by lia. header_word.
  - unfold f_free_count at 1. rewrite Hhdr by lia. header_word.
  - unfold f_used_count at 1. rewrite Hhdr by lia. header_word.
  - unfold f_free_list_head at 1. rewrite Hhdr by lia. header_word.
  - eapply links_frame; [|exact Hch]. intros c' Hc'. apply Hcell. apply elem_of_app. by left.
  - intros c' Hc'. rewrite Hcell by (apply elem_of_app; by right). by apply Hus.
Qed.

Lemma alloc_obj_full g h r : run_ok g h r → r_free r = [] → alloc_obj (r_addr r) h = Ok (None, h).
Proof.
  intros Hok Hf. unfold alloc_obj. rewrite (st_run _ _ _ _ _ (rd_run _ _ _ (ro_nfree _ _ _ Hok))).
  by rewrite Hf.
Qed.

Lemma run_header_owned g h r d : run_ok g h r → 0 ≤ d < CACHE_PAGE_SIZE → page_of (r_addr r + d) ∈ owned h.
Proof. intros Hok Hd. apply (ro_owned _ _ _ Hok), header_page; [apply Hok|done]. Qed.
Lemma run_cell_owned g h r c :
  run_ok g h r → c ∈ cells_at (r_addr r) (r_class r) → page_of c ∈ owned h.
Proof. intros Hok Hc. apply (ro_owned _ _ _ Hok), cell_page; [apply Hok|done]. Qed.

Lemma alloc_obj_run g h r c fs :
  run_ok g h r → r_free r = c :: fs →
  let h1 := counted h r (Z.of_nat (length fs)) (Z.of_nat (length (c :: r_used r))) (default 0 (head fs)) in
  alloc_obj (r_addr r) h = Ok (Some c, h1) ∧ c ∈ cells_at (r_addr r) (r_class r) ∧
  run_ok g (set_word h1 c g) (mkRun (r_page r) (r_class r) fs (c :: r_used r)).
Proof.
  intros Hok Hf h1. pose proof (ro_cells _ _ _ Hok) as Hperm. rewrite Hf in Hperm.
  assert (c ∈ cells_at (r_addr r) (r_class r)) as Hc by (rewrite <- Hperm; by left).
  pose proof (cells_NoDup (r_addr r) _ (ro_class _ _ _ Hok)) as Hnd. rewrite <- Hperm in Hnd.
  apply list.NoDup_cons in Hnd as [Hcn _].
  pose proof (run_lengths g h r Hok) as Hlen. rewrite Hf in Hlen. cbn [length] in Hlen.
  pose proof (cf_cells _ (class_facts_all _ (ro_class _ _ _ Hok))) as Hbound.
  pose proof (run_cell_not_header r c (ro_class _ _ _ Hok) Hc) as Hnh. unfold in_header, CACHE_PAGE_SIZE in Hnh.
  split_and!; [|done|].
  - pose proof (ro_nfree _ _ _ Hok) as Hn. pose proof (ro_nused _ _ _ Hok) as Hu.
    pose proof (ro_head _ _ _ Hok) as Hh. pose proof (ro_chain _ _ _ Hok) as Hch.
    rewrite Hf in Hn, Hh, Hch. destruct Hch as [Hnext _].
    change (Some (default 0 (head (c :: fs)))) with (Some c) in Hh.
    assert (∀ d, 0 ≤ d < 48 → page_of (r_addr r + d) ∈ owned h) as Hown
      by (intros d Hd; by apply (run_header_owned g)).
    unfold alloc_obj. rewrite (st_run _ _ _ _ _ (rd_run _ _ _ Hn)).
    cbn [length]. rewrite (proj2 (Z.eqb_neq _ _)) by lia.
    rewrite (st_run _ _ _ _ _ (decr_run _ _ _ Hn ltac:(simpl; lia) (Hown 24 ltac:(lia)))).
    assert (f_used_count (r_addr r) ≠ f_free_count (r_addr r)) as Hne1 by (unfold f_used_count, f_free_count; lia).
    rewrite (st_run _ _ _ tt _ (incr_run (set_word h (f_free_count (r_addr r)) _) _ (Z.of_nat (length (r_used r)))
      ltac:(cbn [set_word words]; by rewrite lookup_insert_ne by done) ltac:(unfold U64; lia) (Hown 32 ltac:(lia)))).
    assert (∀ x y a, ¬ (r_addr r ≤ a < r_addr r + 40) →
      words (set_word (set_word h (f_free_count (r_addr r)) x) (f_used_count (r_addr r)) y) !! a = words h !! a) as Hsame.
    { intros x y a Ha. cbn [set_word words]. unfold f_used_count, f_free_count in *.
      by rewrite !lookup_insert_ne by lia. }
    erewrite st_run; [|apply rd_run; rewrite Hsame by (unfold f_free_list_head; lia); exact Hh].
    erewrite st_run; [|apply rd_run; rewrite Hsame by lia; exact Hnext].
    erewrite st_run; [|apply wr_run, (Hown 40); lia]. cbv beta.
    unfold mret, st_ret, h1, counted. do 2 f_equal. cbn [length]. f_equal. repeat f_equal; lia.
  - apply (run_recount g h r c g fs (c :: r_used r)); [done|done| | |].
    + rewrite <- Hperm. apply Permutation_sym, Permutation_middle.
    + pose proof (ro_chain _ _ _ Hok) as Hch. rewrite Hf in Hch. destruct Hch as [_ Hch].
      eapply links_frame; [|exact Hch]. intros c' Hc'. rewrite lookup_insert_ne; [done|]. intros ->.
      apply Hcn, elem_of_app. by left.
    + intros c' [->|Hc']%elem_of_cons; [by rewrite lookup_insert_eq|].
      destruct (decide (c' = c)) as [->|Hne]; [by rewrite lookup_insert_eq|].
      rewrite lookup_insert_ne by done. by apply (ro_heads _ _ _ Hok).
Qed.

Lemma set_word_comm h a b x y : a ≠ b → set_word (set_word h a x) b y = set_word (set_word h b y) a x.
Proof. intros Hne. unfold set_word. cbn [owned words pages_of]. f_equal. by apply insert_insert_ne. Qed.

Lemma free_obj_run g h r c us :
  run_ok g h r → r_used r ≡ₚ c :: us →
  let h' := set_word (counted h r (Z.of_nat (length (c :: r_free r))) (Z.of_nat (length us)) c) c
              (default 0 (head (r_free r))) in
  free_obj (r_addr r) c h = Ok (tt, h') ∧
  run_ok g h' (mkRun (r_page r) (r_class r) (c :: r_free r) us).
Proof.
  intros Hok Hus h'. pose proof (ro_cells _ _ _ Hok) as Hperm.
  assert (r_free r ++ r_used r ≡ₚ (c :: r_free r) ++ us) as Hperm'
    by (rewrite Hus; symmetry; apply Permutation_middle).
  rewrite Hperm' in Hperm.
  assert (c ∈ cells_at (r_addr r) (r_class r)) as Hc by (rewrite <- Hperm; by left).
  pose proof (cells_NoDup (r_addr r) _ (ro_class _ _ _ Hok)) as Hnd. rewrite <- Hperm in Hnd.
  apply list.NoDup_cons in Hnd as [Hcn _].
  pose proof (run_lengths g h r Hok) as Hlen. pose proof (Permutation_length Hus) as Hulen. cbn [length] in Hulen.
  pose proof (cf_cells _ (class_facts_all _ (ro_class _ _ _ Hok))) as Hbound.
  pose proof (run_cell_not_header r c (ro_class _ _ _ Hok) Hc) as Hnh. unfold in_header, CACHE_PAGE_SIZE in Hnh.
  split.
  - pose proof (ro_nfree _ _ _ Hok) as Hn. pose proof (ro_nused _ _ _ Hok) as Hu.
    pose proof (ro_head _ _ _ Hok) as Hh.
    assert (∀ d, 0 ≤ d < 48 → page_of (r_addr r + d) ∈ owned h) as Hown
      by (intros d Hd; by apply (run_header_owned g)).
    assert (f_free_count (r_addr r) ≠ f_used_count (r_addr r)) as Hne1 by (unfold f_used_count, f_free_count; lia).
    assert (c ≠ f_free_list_head (r_addr r)) as Hne2 by (unfold f_free_list_head; lia).
    unfold free_obj. rewrite (st_run _ _ _ _ _ (decr_run _ _ _ Hu ltac:(lia) (Hown 32 ltac:(lia)))).
    rewrite (st_run _ _ _ tt _ (incr_run (set_word h (f_used_count (r_addr r)) _) _ (Z.of_nat (length (r_free r)))
      ltac:(cbn [set_word words]; by rewrite lookup_insert_ne by done) ltac:(unfold U64; lia) (Hown 24 ltac:(lia)))).
    erewrite st_run.
    2: { apply rd_run. cbn [set_word words]. rewrite !lookup_insert_ne; [exact Hh|..];
           unfold f_free_list_head, f_used_count, f_free_count; lia. }
    erewrite st_run; [|apply wr_run; by apply (run_cell_owned g h r)].
    rewrite (wr_run _ (f_free_list_head (r_addr r))) by (apply (Hown 40); lia).
    do 2 f_equal. unfold h', counted. rewrite (set_word_comm _ _ (f_free_count (r_addr r))) by done.
    rewrite (set_word_comm _ c) by done. cbn [length]. repeat f_equal; lia.
  - apply (run_recount g h r c _ (c :: r_free r) us); [done..| |].
    + cbn [chain]. split; [by rewrite lookup_insert_eq|]. eapply links_frame; [|apply Hok].
      intros c' Hc'. rewrite lookup_insert_ne; [done|]. intros ->. apply Hcn, elem_of_app. by left.
    + intros c' Hc'. rewrite lookup_insert_ne.
      * apply (ro_heads _ _ _ Hok). rewrite Hus. by right.
      * intros ->. apply Hcn, elem_of_app. by right.
Qed.

(** ** A new run *)

Lemma init_loop_run self offset n : ∀ i h,
  0 ≤ i → 0 ≤ offset → 0 < cell_size self → (offset + i + Z.of_nat n) * cell_size self < U64 →
  (∀ j, i ≤ j < i + Z.of_nat n → page_of (page_start self + (offset + j) * cell_size self) ∈ owned h) →
  ∃ h', init_loop self offset i n h = Ok (tt, h') ∧
    changes (λ a, ∃ j, i ≤ j < i + Z.of_nat n ∧ a = page_start self + (offset + j) * cell_size self) h h' ∧
    ∀ j, i ≤ j < i + Z.of_nat n →
      words h' !! (page_start self + (offset + j) * cell_size self)
      = Some (page_start self + (offset + j + 1) * cell_size self).
Proof.
  induction n as [|n IH]; intros i h Hi Ho Hcs Hlt Hown.
  { exists h. split_and!; [done|apply changes_refl|lia]. }
  cbn [init_loop]. rewrite (st_run_lift _ _ _ ((offset + i) * cell_size self)) by (apply umul_Ok; nia).
  rewrite (st_run_lift _ _ _ ((offset + i + 1) * cell_size self)) by (apply umul_Ok; nia).
  unfold write_next. rewrite (st_run _ _ _ _ _ (wr_run _ _ _ (Hown i ltac:(lia)))).
  destruct (IH (i + 1) (set_word h (page_start self + (offset + i) * cell_size self)
    (page_start self + (offset + i + 1) * cell_size self))) as (h' & Hrun & Hch & Hw); [lia|lia|lia|nia| |].
  { intros j Hj. apply Hown. lia. }
  exists h'. split_and!; [done| |].
  - eapply changes_trans; [apply changes_set|eapply changes_weaken; [|exact Hch]].
    + exists i. split; [lia|done].
    + intros a (j & Hj & ->). exists j. split; [lia|done].
  - intros j Hj. destruct (decide (j = i)) as [->|Hne]; [|apply Hw; lia].
    destruct Hch as (_ & _ & Hsame). rewrite Hsame; [cbn [set_word words]; by rewrite lookup_insert_eq|].
    intros (j' & Hj' & Heq). nia.
Qed.

Lemma chain_seq w (f : Z → Z) : ∀ n s,
  (∀ j, s ≤ j < s + Z.of_nat n → w !! f j = Some (f (j + 1))) → w !! f (s + Z.of_nat n) = Some 0 →
  chain w (f <$> seqZ s (Z.of_nat (S n))).
Proof.
  induction n as [|n IH]; intros s Hw Hlast.
  - rewrite seqZ_cons by lia. replace (Z.pred (Z.of_nat 1)) with 0 by lia. rewrite seqZ_nil by lia.
    cbn. split; [|done]. by rewrite Z.add_0_r in Hlast.
  - rewrite seqZ_cons by lia. replace (Z.pred (Z.of_nat (S (S n)))) with (Z.of_nat (S n)) by lia.
    rewrite fmap_cons. cbn [chain]. split.
    + rewrite seqZ_cons by lia. cbn. by rewrite Hw by lia.
    + apply IH; [intros j Hj; apply Hw; lia|]. rewrite <- Hlast. do 2 f_equal. lia.
Qed.

(** The links of all the cells of a run, without its header. *)
Lemma CachePage_init_run h k p self :
  (k < SIZE_CLASS_COUNT)%nat → 0 < p → (p + class_pages k) * PAGE_SIZE < U64 →
  page_run p (class_pages k) ⊆ owned h →
  page_start self = PAGE_SIZE * p → page_count self = class_pages k →
  cell_size self = class_size k → free_count self = class_cells k →
  ∃ h', CachePage_init self (class_off k) h = Ok (tt, h') ∧
    changes (λ a, a ∈ cells_at (PAGE_SIZE * p) k) h h' ∧ chain (words h') (cells_at (PAGE_SIZE * p) k).
Proof.
  intros Hk Hp Hlt Hown Hps Hpc Hcs Hfc. pose proof (class_facts_all k Hk) as Hf.
  pose proof (cf_size _ Hf). pose proof (cf_cells _ Hf). pose proof (cf_total _ Hf) as Htot.
  pose proof (cf_off _ Hf). pose proof (cf_pages _ Hf).
  set (n := Z.to_nat (class_cells k - 1)).
  assert (∀ c, c ∈ cells_at (PAGE_SIZE * p) k → page_of c ∈ owned h) as Hcell.
  { intros c Hc. apply Hown. by apply (cell_page (mkRun p k [] [])). }
  unfold CachePage_init. rewrite Hfc, (st_run_lift _ _ _ (class_cells k - 1)) by (apply usub_Ok; lia).
  destruct (init_loop_run self (class_off k) n 0 h) as (h1 & Hrun & Hch & Hw); [lia|lia|lia| | |].
  { rewrite Hcs. unfold U64 in *. rewrite PAGE_SIZE_val in *. nia. }
  { intros j Hj. rewrite Hps, Hcs. apply Hcell, elem_of_cells. exists (class_off k + j). split; [done|lia]. }
  rewrite Hps, Hcs in Hch, Hw. rewrite (st_run _ _ _ _ _ Hrun). rewrite Hpc, Hcs, Hps.
  rewrite (st_run_lift _ _ _ (class_pages k * PAGE_SIZE)) by (apply umul_Ok; rewrite PAGE_SIZE_val in *; lia).
  rewrite (st_run_lift _ _ _ (class_pages k * PAGE_SIZE - class_size k))
    by (apply usub_Ok; rewrite PAGE_SIZE_val in *; nia).
  set (last := PAGE_SIZE * p + (class_pages k * PAGE_SIZE - class_size k)).
  assert (last = PAGE_SIZE * p + (class_off k + Z.of_nat n) * class_size k) as Hlast by (unfold last; nia).
  assert (last ∈ cells_at (PAGE_SIZE * p) k) as Hlc.
  { rewrite Hlast. apply elem_of_cells. exists (class_off k + Z.of_nat n). split; [done|lia]. }
  exists (set_word h1 last 0). destruct Hch as (Ho1 & Ha1 & Hsame). split_and!.
  - unfold write_next. apply wr_run. rewrite Ho1. by apply Hcell.
  - eapply changes_trans; [|by apply changes_set]. split_and!; [done..|].
    intros a Ha. apply Hsame. intros (j & Hj & ->). apply Ha, elem_of_cells.
    exists (class_off k + j). split; [done|lia].
  - unfold cells_at. replace (class_cells k) with (Z.of_nat (S n)) by lia. apply chain_seq.
    + intros j Hj. cbn [set_word words]. rewrite lookup_insert_ne by (rewrite Hlast; nia).
      pose proof (Hw (j - class_off k) ltac:(lia)) as Hwj.
      replace (class_off k + (j - class_off k)) with j in Hwj by lia. exact Hwj.
    + rewrite <- Hlast. cbn [set_word words]. by rewrite lookup_insert_eq.
Qed.

(** One of the words that have just been written. *)
Ltac written_word :=
  subst; unfold f_page_start, f_page_count, f_cell_size, f_free_count, f_used_count, f_free_list_head;
  cbn [set_word words]; rewrite <- ?Z.add_assoc;
  repeat (rewrite lookup_insert_ne by lia); rewrite lookup_insert_eq; done.

Lemma write_header_run g h k p :
  (k < SIZE_CLASS_COUNT)%nat → 0 < p → (p + class_pages k) * PAGE_SIZE < U64 →
  page_run p (class_pages k) ⊆ owned h → chain (words h) (cells_at (PAGE_SIZE * p) k) →
  ∃ h', wr_list (PAGE_SIZE * p) [PAGE_SIZE * p; class_pages k; class_size k; class_cells k; 0;
      PAGE_SIZE * p + class_off k * class_size k] h = Ok (tt, h') ∧
    changes (λ a, PAGE_SIZE * p ≤ a < PAGE_SIZE * p + CACHE_PAGE_SIZE) h h' ∧
    run_ok g h' (mkRun p k (cells_at (PAGE_SIZE * p) k) []).
Proof.
  intros Hk Hp Hlt Hown Hch. pose proof (class_facts_all k Hk) as Hf.
  pose proof (cf_cells _ Hf). pose proof (cf_off _ Hf). set (b := PAGE_SIZE * p).
  assert (∀ d, 0 ≤ d < CACHE_PAGE_SIZE → page_of (b + d) ∈ owned h) as Hh.
  { intros d Hd. apply Hown. by apply (header_page (mkRun p k [] [])). }
  unfold CACHE_PAGE_SIZE in Hh. pose proof (Hh 0 ltac:(lia)) as Hh0. rewrite Z.add_0_r in Hh0.
  cbn [wr_list]. eexists. split.
  { rewrite (st_run _ _ _ _ _ (wr_run h b _ Hh0)).
    rewrite (st_run _ _ _ _ _ (wr_run (set_word h b _) (b + 8) _ (Hh 8 ltac:(lia)))).
    do 4 (erewrite st_run; [|apply wr_run; cbn [set_word owned]; rewrite <- !Z.add_assoc; apply Hh; simpl; lia]).
    reflexivity. }
  match goal with |- changes _ _ ?x ∧ _ => remember x as h' eqn:Hh' end.
  assert (changes (λ a, b ≤ a < b + CACHE_PAGE_SIZE) h h') as Hc.
  { subst h'. repeat (eapply changes_trans; [|apply changes_set; unfold CACHE_PAGE_SIZE; lia]). apply changes_refl. }
  split; [done|]. destruct Hc as (Ho & _ & Hsame).
  assert (head (cells_at b k) = Some (b + class_off k * class_size k)) as Hhead.
  { unfold cells_at. rewrite seqZ_cons by lia. done. }
  constructor; unfold r_addr; cbn [r_page r_class r_free r_used]; fold b; try done.
  - by rewrite Ho.
  - written_word.
  - written_word.
  - written_word.
  - unfold cells_at. rewrite length_fmap, length_seqZ, Z2Nat.id by lia. written_word.
  - written_word.
  - rewrite Hhead. written_word.
  - eapply links_frame; [|exact Hch]. intros c Hc%(cell_bounds (mkRun p k [] [])); [|done].
    apply Hsame. unfold r_addr in Hc. cbn [r_page] in Hc. fold b in Hc. lia.
  - by intros c Hc%elem_of_nil.
  - by rewrite app_nil_r.
Qed.

Lemma allocate_run g h k p a' :
  (k < SIZE_CLASS_COUNT)%nat → pa_alloc_pages (class_pages k) (pages_of h) = Ok (inl p, a') →
  0 < p → (p + class_pages k) * PAGE_SIZE < U64 →
  ∃ h', CachePage_allocate (class_size k) (class_count k) h = Ok (PAGE_SIZE * p, h') ∧
    run_ok g h' (mkRun p k (cells_at (PAGE_SIZE * p) k) []) ∧
    owned h' = owned h ∪ page_run p (class_pages k) ∧ pages_of h' = a' ∧
    ∀ a, page_of a ∉ page_run p (class_pages k) → words h' !! a = words h !! a.
Proof.
  intros Hk Hpa Hp Hlt. pose proof (class_facts_all k Hk) as Hf.
  pose proof (cf_cells _ Hf) as Hcells. pose proof (cf_pages _ Hf). unfold class_cells in Hcells.
  set (h0 := mkHeap (owned h ∪ page_run p (class_pages k)) (words h) a').
  set (self := mkCachePage (PAGE_SIZE * p) (class_pages k) (class_size k) (class_cells k) 0
                 (PAGE_SIZE * p + class_off k * class_size k)).
  destruct (CachePage_init_run h0 k p self) as (h1 & Hinit & (Ho1 & Ha1 & Hw1) & Hch); try done.
  { cbn [h0 owned]. set_solver. }
  destruct (write_header_run g h1 k p) as (h' & Hwr & (Ho & Ha & Hw) & Hok); try done.
  { rewrite Ho1. cbn [h0 owned]. set_solver. }
  exists h'. split_and!; [|done|by rewrite Ho, Ho1|by rewrite Ha, Ha1|].
  - unfold CachePage_allocate. rewrite (st_run_lift _ _ _ _ (cf_mul _ Hf)).
    rewrite (st_run_lift _ _ _ _ (cf_pow _ Hf)).
    rewrite (st_run _ _ _ p h0) by (unfold galloc; by rewrite Hpa).
    rewrite (st_run_lift _ _ _ (PAGE_SIZE * p)) by (apply umul_Ok; rewrite PAGE_SIZE_val in *; lia).
    rewrite (st_run_lift _ _ _ (class_pages k * PAGE_SIZE)) by (apply umul_Ok; rewrite PAGE_SIZE_val in *; lia).
    rewrite (st_run_lift _ _ _ (class_cells k)) by (unfold class_cells; apply usub_Ok; unfold class_off in *; lia).
    rewrite (st_run _ _ _ _ _ Hinit). by rewrite (st_run _ _ _ _ _ Hwr).
  - intros a Hna. rewrite Hw, Hw1; [done| |].
    + intros Hc. apply Hna. by apply (cell_page (mkRun p k [] [])) in Hc.
    + intros Hc. apply Hna. apply page_of_run; [lia|]. unfold CACHE_PAGE_SIZE in Hc. rewrite PAGE_SIZE_val in *. lia.
Qed.
End ops.
