(* ===== verification/McacheManager.v ===== *)
(** * The slots of the first manager

    The invariant of the small-object allocator: the words of the first manager,
    the runs in its slots and their separation; how an operation on one slot
    keeps it. *)

From S2P Require Import Prelude Page Buddy Mcache McacheSpec.

(** ** Counting over slots *)

Definition slot_addr (o : option run) : Z := match o with Some r => r_addr r | None => 0 end.
Definition slot_used (o : option run) : list Z := match o with Some r => r_used r | None => [] end.
Definition slot_taken (o : option run) : nat := match o with Some _ => 1 | None => 0 end.
(** Whether the slot has a run of class [k] with a free cell. *)
Definition slot_partial (k : nat) (o : option run) : nat :=
  match o with Some r => if decide (r_class r = k ∧ r_free r ≠ []) then 1 else 0 | None => 0 end.

Definition taken (slots : list (option run)) : nat := sum_list_with slot_taken slots.
Definition partial (k : nat) (slots : list (option run)) : nat := sum_list_with (slot_partial k) slots.
(** The cells in use. *)
Definition live (slots : list (option run)) : list Z := slots ≫= slot_used.

Lemma sum_list_with_insert {X} (f : X → nat) (l : list X) i x y :
  l !! i = Some x → (sum_list_with f (<[i:=y]> l) + f x = sum_list_with f l + f y)%nat.
Proof.
  revert i. induction l as [|z l IH]; intros [|i]; simpl; try done.
  - intros [= ->]. lia.
  - intros Hi. specialize (IH i Hi). lia.
Qed.

Lemma sum_list_with_le {X} (f : X → nat) (l : list X) :
  (∀ x, x ∈ l → (f x ≤ 1)%nat) → (sum_list_with f l ≤ length l)%nat.
Proof.
  induction l as [|x l IH]; simpl; intros Hf; [done|].
  pose proof (Hf x ltac:(by left)). specialize (IH ltac:(intros y Hy; apply Hf; by right)). lia.
Qed.

Lemma sum_list_with_zero {X} (f : X → nat) (l : list X) x :
  sum_list_with f l = 0%nat → x ∈ l → f x = 0%nat.
Proof.
  induction l as [|y l IH]; simpl; [by intros _ ?%elem_of_nil|].
  intros H [->|Hin]%elem_of_cons; [lia|]. apply IH; [lia|done].
Qed.

Lemma live_insert slots i o o' used :
  slots !! i = Some o → slot_used o' ≡ₚ used ++ slot_used o → live (<[i:=o']> slots) ≡ₚ used ++ live slots.
Proof.
  unfold live. revert i. induction slots as [|x l IH]; intros [|i] Hi Hu; cbn in *; try done.
  - injection Hi as ->. by rewrite Hu, app_assoc.
  - rewrite (IH i Hi Hu). rewrite !app_assoc. by rewrite (Permutation_app_comm (slot_used x)).
Qed.

Lemma elem_of_live slots c : c ∈ live slots ↔ ∃ i r, slots !! i = Some (Some r) ∧ c ∈ r_used r.
Proof.
  unfold live. rewrite list_elem_of_bind. split.
  - intros (o & Hc & [i Hi]%list_elem_of_lookup_1). destruct o as [r|]; [|by apply elem_of_nil in Hc].
    by exists i, r.
  - intros (i & r & Hi & Hc). exists (Some r). split; [done|]. by eapply list_elem_of_lookup_2.
Qed.

Lemma taken_le slots : (taken slots ≤ length slots)%nat.
Proof. apply sum_list_with_le. intros [?|] _; simpl; lia. Qed.
Lemma partial_le k slots : (partial k slots ≤ length slots)%nat.
Proof. apply sum_list_with_le. intros [?|] _; simpl; [case_decide|]; lia. Qed.

(** ** The manager *)

Record mgr_ok (w : gmap Z Z) (g : Z) (slots : list (option run)) : Prop := {
  mo_slot : ∀ i o, slots !! i = Some o → w !! f_cache g i = Some (slot_addr o);
  mo_next : ∃ n, w !! f_next g = Some n ∧ n ≠ 0;
  mo_prev : w !! f_prev g = Some 0;
  mo_used : w !! f_used_slots g = Some (Z.of_nat (taken slots));
  mo_partial : ∀ k, (k < SIZE_CLASS_COUNT)%nat → k ≠ 13%nat →
    w !! f_partial_count g k = Some (Z.of_nat (partial k slots));
  mo_npf : ∀ k, (k < SIZE_CLASS_COUNT)%nat → is_Some (w !! f_next_partial_free g k);
  mo_nfree : is_Some (w !! f_next_free g);
}.

Definition in_mgr (g a : Z) : Prop := g ≤ a < g + CACHE_MANAGER_SIZE.

(** The addresses of the fields are in the manager. *)
Ltac in_fields :=
  unfold in_mgr, CACHE_MANAGER_SIZE, f_cache, f_next, f_prev, f_next_partial_free, f_partial_count,
    f_next_free, f_used_slots, SLOT_NUM, SIZE_CLASS_COUNT in *; lia.

(** What the operations rely on, with or without cells in use. *)
Record heap_pre {A} (h : Heap A) (g : Z) (slots : list (option run)) : Prop := {
  hk_len : length slots = SLOT_NUM;
  hk_mgr : mgr_ok (words h) g slots;
  hk_run : ∀ i r, slots !! i = Some (Some r) → run_ok g h r;
  hk_apart : ∀ i j r r', i ≠ j → slots !! i = Some (Some r) → slots !! j = Some (Some r') →
    r_pages r ## r_pages r';
  hk_own : ∀ a, in_mgr g a → page_of a ∈ owned h;
  hk_sep : ∀ i r a, slots !! i = Some (Some r) → in_mgr g a → page_of a ∉ r_pages r;
}.

(** The invariant between requests: moreover no run is kept without a cell in use. *)
Record heap_ok {A} (h : Heap A) (g : Z) (slots : list (option run)) : Prop := {
  ho_pre : heap_pre h g slots;
  ho_used : ∀ i r, slots !! i = Some (Some r) → r_used r ≠ [];
}.

(** An address in a live cell. *)
Definition in_live (slots : list (option run)) (a : Z) : Prop :=
  ∃ i r c, slots !! i = Some (Some r) ∧ c ∈ r_used r ∧ c ≤ a < c + class_size (r_class r).

Section manager.
Context {A : Type} `{!PageAllocator A}.
Implicit Types h : Heap A.

Lemma used_cell g h r c : run_ok g h r → c ∈ r_used r → c ∈ cells_at (r_addr r) (r_class r).
Proof. intros Hok Hc. rewrite <- (ro_cells _ _ _ Hok). apply elem_of_app. by right. Qed.
Lemma free_cell g h r c : run_ok g h r → c ∈ r_free r → c ∈ cells_at (r_addr r) (r_class r).
Proof. intros Hok Hc. rewrite <- (ro_cells _ _ _ Hok). apply elem_of_app. by left. Qed.

(** The whole of a cell is in the pages of its run. *)
Lemma cell_span_page r c a :
  (r_class r < SIZE_CLASS_COUNT)%nat → c ∈ cells_at (r_addr r) (r_class r) →
  c ≤ a < c + class_size (r_class r) → page_of a ∈ r_pages r.
Proof.
  intros Hk Hc Ha. pose proof (cell_bounds r c Hk Hc). apply class_facts_all in Hk.
  pose proof (cf_pages _ Hk). unfold r_addr, CACHE_PAGE_SIZE in *. apply page_of_run; lia.
Qed.

(** Different cells, of the same run or not, do not overlap. *)
Lemma cells_disjoint h g slots i j r r' c c' :
  heap_pre h g slots → slots !! i = Some (Some r) → slots !! j = Some (Some r') →
  c ∈ cells_at (r_addr r) (r_class r) → c' ∈ cells_at (r_addr r') (r_class r') → c ≠ c' →
  c + class_size (r_class r) ≤ c' ∨ c' + class_size (r_class r') ≤ c.
Proof.
  intros Hok Hi Hj Hc Hc' Hne.
  pose proof (ro_class _ _ _ (hk_run _ _ _ Hok i r Hi)) as Hk.
  pose proof (ro_class _ _ _ (hk_run _ _ _ Hok j r' Hj)) as Hk'.
  destruct (decide (i = j)) as [->|Hij].
  - rewrite Hi in Hj. injection Hj as <-. by apply (cells_apart (r_addr r)).
  - pose proof (hk_apart _ _ _ Hok i j r r' Hij Hi Hj) as Hd.
    destruct (decide (c + class_size (r_class r) ≤ c')); [by left|right].
    destruct (decide (c' + class_size (r_class r') ≤ c)); [done|exfalso].
    pose proof (cf_size _ (class_facts_all _ Hk)). pose proof (cf_size _ (class_facts_all _ Hk')).
    set (a := Z.max c c'). apply (Hd (page_of a)).
    + apply (cell_span_page r c); [done..|lia].
    + apply (cell_span_page r' c'); [done..|lia].
Qed.

(** An operation on slot [j] that leaves the run [r'] in it: what remains to be
    shown of the manager. *)
Lemma heap_set h h' g slots j o r' :
  heap_pre h g slots → slots !! j = Some o →
  run_ok g h' r' →
  (∀ i r, i ≠ j → slots !! i = Some (Some r) → r_pages r ## r_pages r') →
  (∀ a, in_mgr g a → page_of a ∉ r_pages r') →
  owned h ⊆ owned h' →
  (∀ a, page_of a ∉ r_pages r' → ¬ in_mgr g a → words h' !! a = words h !! a) →
  mgr_ok (words h') g (<[j:=Some r']> slots) →
  heap_pre h' g (<[j:=Some r']> slots).
Proof.
  intros Hok Hj Hr' Hap Hsep Hown Hw Hm. pose proof (lookup_lt_Some _ _ _ Hj) as Hlt.
  assert (∀ i r, <[j:=Some r']> slots !! i = Some (Some r) →
    (i = j ∧ r = r') ∨ (i ≠ j ∧ slots !! i = Some (Some r))) as Hcase.
  { intros i r. rewrite list_lookup_insert_Some. naive_solver. }
  constructor.
  - rewrite length_insert. apply Hok.
  - done.
  - intros i r [[-> ->]|[Hne Hi]]%Hcase; [done|]. pose proof (hk_run _ _ _ Hok i r Hi) as Hro.
    eapply run_ok_frame; [| |exact Hro]; [|etrans; [apply Hro|done]].
    intros a Ha. apply Hw; [|intros Hg; by eapply (hk_sep _ _ _ Hok)].
    intros Ha'. by apply (Hap i r Hne Hi (page_of a)).
  - intros i i' r1 r2 Hne [[-> ->]|[Hi1 Hi]]%Hcase [[-> ->]|[Hi2 Hi']]%Hcase; [done| | |].
    + apply disjoint_sym. by eapply Hap.
    + by eapply Hap.
    + by eapply (hk_apart _ _ _ Hok i i').
  - intros a Ha. by apply Hown, (hk_own _ _ _ Hok).
  - intros i r a [[-> ->]|[Hne Hi]]%Hcase Ha; [by apply Hsep|by eapply (hk_sep _ _ _ Hok)].
Qed.

(** ** The words of the manager *)

(** One slot has changed, and the counters with it; [k] is the class of the run
    in it. *)
Lemma mgr_ok_update (w w' : gmap Z Z) g slots j o o' k :
  mgr_ok w g slots → length slots = SLOT_NUM → slots !! j = Some o → (k < SIZE_CLASS_COUNT)%nat →
  w' !! f_cache g j = Some (slot_addr o') →
  w' !! f_used_slots g = Some (Z.of_nat (taken (<[j:=o']> slots))) →
  (k ≠ 13%nat → w' !! f_partial_count g k = Some (Z.of_nat (partial k (<[j:=o']> slots)))) →
  (∀ k', k' ≠ k → slot_partial k' o = slot_partial k' o') →
  is_Some (w' !! f_next_partial_free g k) → is_Some (w' !! f_next_free g) →
  (∀ a, in_mgr g a → a ≠ f_cache g j → a ≠ f_used_slots g → a ≠ f_partial_count g k →
     a ≠ f_next_partial_free g k → a ≠ f_next_free g → w' !! a = w !! a) →
  mgr_ok w' g (<[j:=o']> slots).
Proof.
  intros [Hs [n Hn] Hp Hu Hpc Hnpf Hnf] Hlen Hj Hk Hj' Hu' Hpc' Hother Hnpf' Hnf' Hw.
  pose proof (lookup_lt_Some _ _ _ Hj) as Hlt. rewrite Hlen in Hlt. constructor; [|..|done].
  - intros i o2. rewrite list_lookup_insert_Some. intros [(<- & <- & _)|[Hne Hi]]; [done|].
    pose proof (lookup_lt_Some _ _ _ Hi) as Hlti. rewrite Hlen in Hlti.
    rewrite Hw; [by apply Hs|in_fields..].
  - exists n. rewrite Hw; [done|in_fields..].
  - rewrite Hw; [done|in_fields..].
  - done.
  - intros k' Hk' Hk13. destruct (decide (k' = k)) as [->|Hne]; [by apply Hpc'|].
    rewrite Hw; [|in_fields..]. rewrite Hpc by done. do 2 f_equal.
    pose proof (sum_list_with_insert (slot_partial k') slots j o o' Hj) as Hsum.
    unfold partial. rewrite (Hother k' Hne) in Hsum. lia.
  - intros k' Hk'. destruct (decide (k' = k)) as [->|Hne]; [done|]. rewrite Hw; [by apply Hnpf|in_fields..].
Qed.

Lemma first_mgr_run h g fuel : words h !! f_prev g = Some 0 → first_mgr (S fuel) g h = Ok (g, h).
Proof. intros Hp. cbn [first_mgr]. by rewrite (st_run _ _ _ _ _ (rd_run _ _ _ Hp)). Qed.

(** A run of the manager has given its last free cell. *)
Lemma drop_partial_run h g k n fuel (left : Z) :
  words h !! f_prev g = Some 0 → words h !! f_partial_count g k = Some n → 1 ≤ n →
  is_Some (words h !! f_next_partial_free g k) → (k < SIZE_CLASS_COUNT)%nat →
  (∀ a, in_mgr g a → page_of a ∈ owned h) →
  ∃ h', (if left =? 0 then
           _ ← decr (f_partial_count g k);
           k' ← rd (f_partial_count g k);
           if k' =? 0 then
             first ← first_mgr (S fuel) g;
             nx ← rd (f_next_partial_free g k);
             wr (f_next_partial_free first k) nx
           else mret tt
         else mret tt : ST (Heap A) unit) h = Ok (tt, h') ∧
    changes (λ a, a = f_partial_count g k ∨ a = f_next_partial_free g k) h h' ∧
    words h' !! f_partial_count g k = Some (if left =? 0 then n - 1 else n) ∧
    is_Some (words h' !! f_next_partial_free g k).
Proof.
  intros Hp Hn Hn1 [v Hv] Hk Hown. destruct (left =? 0); [|exists h; by split_and!].
  assert (f_partial_count g k ≠ f_next_partial_free g k) as Hne1 by in_fields.
  assert (f_partial_count g k ≠ f_prev g) as Hne2 by in_fields.
  assert (page_of (f_partial_count g k) ∈ owned h) as Ho1 by (apply Hown; in_fields).
  rewrite (st_run _ _ _ _ _ (decr_run _ _ _ Hn Hn1 Ho1)).
  set (h1 := set_word h (f_partial_count g k) (n - 1)).
  assert (changes (λ a, a = f_partial_count g k ∨ a = f_next_partial_free g k) h h1) as Hc1
    by (apply changes_set; by left).
  assert (words h1 !! f_partial_count g k = Some (n - 1)) as Hn' by (cbn; by rewrite lookup_insert_eq).
  assert (words h1 !! f_next_partial_free g k = Some v) as Hv' by (cbn; by rewrite lookup_insert_ne).
  rewrite (st_run _ _ _ _ _ (rd_run _ _ _ Hn')).
  destruct (n - 1 =? 0); [|exists h1; by split_and!].
  rewrite (st_run _ _ _ g h1) by (apply first_mgr_run; cbn; by rewrite lookup_insert_ne).
  rewrite (st_run _ _ _ _ _ (rd_run _ _ _ Hv')).
  exists (set_word h1 (f_next_partial_free g k) v). split_and!.
  - apply wr_run. apply Hown. in_fields.
  - eapply changes_trans; [exact Hc1|]. apply changes_set. by right.
  - cbn [set_word words]. by rewrite lookup_insert_ne.
  - cbn [set_word words]. by rewrite lookup_insert_eq.
Qed.

(** ** Taking a cell from a slot *)

Lemma class_size_inj k k' :
  (k < SIZE_CLASS_COUNT)%nat → (k' < SIZE_CLASS_COUNT)%nat → class_size k = class_size k' → k = k'.
Proof.
  intros Hk Hk' Heq. rewrite !class_size_pow in Heq by done. apply Z.pow_inj_r in Heq; lia.
Qed.

Lemma run_addr_pos g h r : run_ok g h r → 0 < r_addr r.
Proof. intros [_ [Hp _] _ _ _ _ _ _ _ _ _ _]. unfold r_addr. rewrite PAGE_SIZE_val. lia. Qed.

Lemma header_not_mgr h g slots j r a :
  heap_pre h g slots → slots !! j = Some (Some r) → in_mgr g a → ¬ in_header r a.
Proof.
  intros Hok Hj Ha Hh. apply (hk_sep _ _ _ Hok j r a Hj Ha).
  replace a with (r_addr r + (a - r_addr r)) by lia. unfold in_header in Hh.
  apply header_page; [apply (hk_run _ _ _ Hok j r Hj)|lia].
Qed.
Lemma cell_not_mgr h g slots j r c :
  heap_pre h g slots → slots !! j = Some (Some r) → c ∈ cells_at (r_addr r) (r_class r) → ¬ in_mgr g c.
Proof.
  intros Hok Hj Hc Ha. apply (hk_sep _ _ _ Hok j r c Hj Ha).
  apply cell_page; [apply (hk_run _ _ _ Hok j r Hj)|done].
Qed.
Lemma header_in_pages r a : (r_class r < SIZE_CLASS_COUNT)%nat → in_header r a → page_of a ∈ r_pages r.
Proof.
  intros Hk Ha. unfold in_header in Ha. replace a with (r_addr r + (a - r_addr r)) by lia.
  apply header_page; [done|lia].
Qed.

(** The free cell [c] of slot [j] has been taken: the run, the words of the
    manager that count it, and the word of [c] have changed. *)
Lemma heap_take h h1 h2 g slots j r c fs k :
  heap_pre h g slots → slots !! j = Some (Some r) → r_class r = k → r_free r = c :: fs →
  h1 = counted h r (Z.of_nat (length fs)) (Z.of_nat (length (c :: r_used r))) (default 0 (head fs)) →
  changes (λ a, a = f_partial_count g k ∨ a = f_next_partial_free g k) h1 h2 →
  (k ≠ 13%nat → words h2 !! f_partial_count g k =
     Some (if Z.of_nat (length fs) =? 0 then Z.of_nat (partial k slots) - 1 else Z.of_nat (partial k slots))) →
  is_Some (words h2 !! f_next_partial_free g k) →
  heap_pre (set_word h2 c g) g (<[j:=Some (mkRun (r_page r) (r_class r) fs (c :: r_used r))]> slots) ∧
  changes (λ a, in_header r a ∨ in_mgr g a ∨ a = c) h (set_word h2 c g).
Proof.
  intros Hok Hj Hk Hf Hh1 (Ho2 & Ha2 & Hw2) Hpc Hnpf. pose proof (hk_run _ _ _ Hok j r Hj) as Hr.
  pose proof (ro_class _ _ _ Hr) as Hcl. pose proof (hk_mgr _ _ _ Hok) as Hm.
  destruct (alloc_obj_run g h r c fs Hr Hf) as (_ & Hc & Hr').
  destruct (counted_changes h r (Z.of_nat (length fs)) (Z.of_nat (length (c :: r_used r))) (default 0 (head fs)))
    as (Ho1 & Ha1 & Hw1). rewrite <- Hh1 in Hr', Ho1, Ha1, Hw1.
  set (r' := mkRun (r_page r) (r_class r) fs (c :: r_used r)) in *.
  assert (∀ a, in_mgr g a → a ≠ c) as Hcg by (intros a Ha ->; by eapply cell_not_mgr).
  assert (in_mgr g (f_partial_count g k) ∧ in_mgr g (f_next_partial_free g k)) as [Hin1 Hin2] by (subst k; in_fields).
  assert (∀ a, in_mgr g a → a ≠ f_partial_count g k → a ≠ f_next_partial_free g k →
    words (set_word h2 c g) !! a = words h !! a) as Hmw.
  { intros a Ha Hn1 Hn2. cbn [set_word words]. rewrite lookup_insert_ne by (apply not_eq_sym; by apply Hcg).
    rewrite Hw2 by tauto. apply Hw1. by eapply header_not_mgr. }
  assert (∀ a, in_mgr g a → words (set_word h2 c g) !! a = words h2 !! a) as Hmw2.
  { intros a Ha. cbn [set_word words]. rewrite lookup_insert_ne; [done|]. apply not_eq_sym. by apply Hcg. }
  split.
  - apply (heap_set h _ g slots j (Some r) r'); try done.
    + eapply run_ok_frame; [| |exact Hr'].
      * intros a Ha. cbn [set_word words]. destruct (decide (a = c)) as [->|Hne]; [by rewrite !lookup_insert_eq|].
        rewrite !lookup_insert_ne by done. apply Hw2.
        intros [-> | ->]; [exact (hk_sep _ _ _ Hok j r _ Hj Hin1 Ha)|exact (hk_sep _ _ _ Hok j r _ Hj Hin2 Ha)].
      * cbn [set_word owned]. rewrite Ho2, Ho1. apply Hr.
    + intros i ri Hne Hi. exact (hk_apart _ _ _ Hok i j ri r Hne Hi Hj).
    + intros a Ha. exact (hk_sep _ _ _ Hok j r a Hj Ha).
    + cbn [set_word owned]. by rewrite Ho2, Ho1.
    + intros a Ha Hna. cbn [set_word words].
      rewrite lookup_insert_ne by (intros ->; apply Ha; by apply (cell_page r)).
      rewrite Hw2 by (intros [-> | ->]; done). apply Hw1. intros Hh. apply Ha. by apply (header_in_pages r).
    + apply (mgr_ok_update (words h) _ g slots j (Some r) (Some r') k); try done.
      * apply Hok.
      * by subst k.
      * rewrite Hmw by (pose proof (lookup_lt_Some _ _ _ Hj) as Hlt; rewrite (hk_len _ _ _ Hok) in Hlt; in_fields).
        by rewrite (mo_slot _ _ _ Hm j (Some r) Hj).
      * rewrite Hmw by in_fields. rewrite (mo_used _ _ _ Hm). do 2 f_equal.
        pose proof (sum_list_with_insert slot_taken slots j _ (Some r') Hj) as Hs. unfold taken. simpl in Hs. lia.
      * intros H13. rewrite Hmw2, Hpc by done. f_equal.
        pose proof (sum_list_with_insert (slot_partial k) slots j _ (Some r') Hj) as Hs.
        fold (partial k slots) in Hs. fold (partial k (<[j:=Some r']> slots)) in Hs.
        cbn [slot_partial r' r_class r_free] in Hs. rewrite Hk, Hf in Hs.
        rewrite decide_True in Hs by done. destruct fs as [|c' fs']; simpl length.
        -- rewrite decide_False in Hs by (intros [_ ?]; done). simpl. lia.
        -- rewrite decide_True in Hs by done. rewrite (proj2 (Z.eqb_neq _ _)) by lia. lia.
      * intros k' Hne. cbn [slot_partial r' r_class]. rewrite !decide_False; [done|naive_solver..].
      * by rewrite Hmw2.
      * rewrite Hmw by in_fields. apply Hm.
      * intros a Ha _ _ H3 H4 _. by apply Hmw.
  - split_and!; [cbn [set_word owned]; congruence|cbn [set_word pages_of]; congruence|].
    intros a Ha. cbn [set_word words]. rewrite lookup_insert_ne by (intros ->; tauto).
    rewrite Hw2 by (intros [-> | ->]; tauto). apply Hw1. tauto.
Qed.

Definition is_partial (k : nat) (o : option run) : Prop :=
  match o with Some r => r_class r = k ∧ r_free r ≠ [] | None => False end.

Lemma cache_alloc_here h g slots j r c fs k pad n fuel :
  heap_pre h g slots → slots !! j = Some (Some r) → r_class r = k → r_free r = c :: fs → k ≠ 13%nat →
  ∃ h', cache_alloc_from (S fuel) g (class_size k) k pad j (S n) h = Ok (Some (object_ptr c pad), h') ∧
    heap_pre h' g (<[j:=Some (mkRun (r_page r) (r_class r) fs (c :: r_used r))]> slots) ∧
    changes (λ a, in_header r a ∨ in_mgr g a ∨ a = c) h h'.
Proof.
  intros Hok Hj Hk Hf H13. pose proof (hk_run _ _ _ Hok j r Hj) as Hr. pose proof (hk_mgr _ _ _ Hok) as Hm.
  pose proof (ro_class _ _ _ Hr) as Hcl. rewrite Hk in Hcl. pose proof (run_addr_pos _ _ _ Hr) as Hpos.
  destruct (alloc_obj_run g h r c fs Hr Hf) as (Hrun & Hc & Hr').
  set (h1 := counted _ _ _ _ _) in *.
  destruct (counted_changes h r (Z.of_nat (length fs)) (Z.of_nat (length (c :: r_used r))) (default 0 (head fs)))
    as (Ho1 & Ha1 & Hw1). fold h1 in Ho1, Ha1, Hw1.
  assert (∀ a, in_mgr g a → words h1 !! a = words h !! a) as Hmw
    by (intros a Ha; apply Hw1; by eapply header_not_mgr).
  assert (1 ≤ partial k slots)%nat as Hpos1.
  { pose proof (sum_list_with_insert (slot_partial k) slots j _ None Hj) as Hs. simpl in Hs.
    rewrite decide_True in Hs by (rewrite Hf; done). unfold partial. lia. }
  destruct (drop_partial_run h1 g k (Z.of_nat (partial k slots)) fuel (Z.of_nat (length fs)))
    as (h2 & Hdrop & Hch2 & Hpc & Hnpf); [rewrite Hmw by in_fields; apply Hm|
    rewrite Hmw by in_fields; by apply Hm|lia|rewrite Hmw by in_fields; by apply Hm|done|
    rewrite Ho1; apply Hok|].
  destruct (heap_take h h1 h2 g slots j r c fs k) as [Hok' Hch]; try done.
  exists (set_word h2 c g). split; [|done].
  cbn [cache_alloc_from]. rewrite (st_run _ _ _ _ _ (rd_run _ _ _ (mo_slot _ _ _ Hm j _ Hj))). cbn [slot_addr].
  rewrite (proj2 (Z.eqb_neq _ _)) by lia.
  rewrite (st_run _ _ _ _ _ (rd_run _ _ _ (ro_size _ _ _ Hr))). rewrite Hk, Z.eqb_refl.
  rewrite (st_run _ _ _ _ _ Hrun).
  rewrite (st_run _ _ _ (Z.of_nat (length fs)) h1).
  2: { apply rd_run. unfold h1, counted. cbn [set_word words]. unfold f_free_count, f_used_count, f_free_list_head.
       rewrite !lookup_insert_ne by lia. by rewrite lookup_insert_eq. }
  rewrite (st_run _ _ _ _ _ Hdrop).
  assert (page_of c ∈ owned h2) as Hcp.
  { destruct Hch2 as (-> & _ & _). rewrite Ho1. by apply (run_cell_owned g h r). }
  unfold write_head. by rewrite (st_run _ _ _ _ _ (wr_run _ _ _ Hcp)).
Qed.

(** A slot without a free cell of the class is passed over. *)
Lemma cache_alloc_skip h g slots j o k pad n fuel :
  heap_pre h g slots → slots !! j = Some o → (k < SIZE_CLASS_COUNT)%nat → ¬ is_partial k o →
  cache_alloc_from (S fuel) g (class_size k) k pad j (S n) h
  = cache_alloc_from (S fuel) g (class_size k) k pad (S j) n h.
Proof.
  intros Hok Hj Hk Hnp. pose proof (hk_mgr _ _ _ Hok) as Hm. cbn [cache_alloc_from].
  rewrite (st_run _ _ _ _ _ (rd_run _ _ _ (mo_slot _ _ _ Hm j _ Hj))).
  destruct o as [r|]; [|done]. cbn [slot_addr].
  pose proof (hk_run _ _ _ Hok j r Hj) as Hr. pose proof (run_addr_pos _ _ _ Hr) as Hpos.
  rewrite (proj2 (Z.eqb_neq _ _)) by lia. rewrite (st_run _ _ _ _ _ (rd_run _ _ _ (ro_size _ _ _ Hr))).
  destruct (Z.eqb_spec (class_size (r_class r)) (class_size k)) as [Heq|Hne]; [|done].
  apply class_size_inj in Heq; [|apply Hr|done].
  assert (r_free r = []) as Hnil.
  { destruct (r_free r) eqn:Hfr; [done|]. exfalso. apply Hnp. split; [done|]. by rewrite Hfr. }
  by rewrite (st_run _ _ _ _ _ (alloc_obj_full g h r Hr Hnil)).
Qed.

#[global] Instance is_partial_dec k o : Decision (is_partial k o).
Proof. unfold is_partial. destruct o; apply _. Defined.

Lemma cache_alloc_from_run h g slots k pad fuel :
  heap_pre h g slots → (k < SIZE_CLASS_COUNT)%nat → k ≠ 13%nat → ∀ n i,
  (i + n = SLOT_NUM)%nat → (∃ j o, (i ≤ j)%nat ∧ slots !! j = Some o ∧ is_partial k o) →
  ∃ j r c fs h', slots !! j = Some (Some r) ∧ r_class r = k ∧ r_free r = c :: fs ∧
    cache_alloc_from (S fuel) g (class_size k) k pad i n h = Ok (Some (object_ptr c pad), h') ∧
    heap_pre h' g (<[j:=Some (mkRun (r_page r) (r_class r) fs (c :: r_used r))]> slots) ∧
    changes (λ a, in_header r a ∨ in_mgr g a ∨ a = c) h h'.
Proof.
  intros Hok Hk H13. induction n as [|n IH]; intros i Hin (j & o & Hij & Hj & Hp).
  { apply lookup_lt_Some in Hj. rewrite (hk_len _ _ _ Hok) in Hj. lia. }
  destruct (lookup_lt_is_Some_2 slots i) as [oi Hi]; [rewrite (hk_len _ _ _ Hok); lia|].
  destruct (decide (is_partial k oi)) as [Hpi|Hnp].
  - destruct oi as [r|]; [|done]. destruct Hpi as [Hrk Hfr].
    destruct (r_free r) as [|c fs] eqn:Hf; [done|].
    destruct (cache_alloc_here h g slots i r c fs k pad n fuel) as (h' & Hrun & Hok' & Hch); try done.
    by exists i, r, c, fs, h'.
  - rewrite (cache_alloc_skip h g slots i oi) by done. apply IH; [lia|]. exists j, o. split_and!; try done.
    destruct (decide (i = j)) as [->|]; [|lia]. rewrite Hi in Hj. by injection Hj as ->.
Qed.

(** ** A new run *)

Lemma add_cache_from_run h g slots ca :
  (∀ i o, slots !! i = Some o → words h !! f_cache g i = Some (slot_addr o)) →
  (∀ i r, slots !! i = Some (Some r) → 0 < r_addr r) → (∀ a, in_mgr g a → page_of a ∈ owned h) →
  length slots = SLOT_NUM → ∀ n i, (i + n = SLOT_NUM)%nat → (∃ j, (i ≤ j)%nat ∧ slots !! j = Some None) →
  ∃ j, slots !! j = Some None ∧
    add_cache_from g ca i n h = incr (f_used_slots g) (set_word h (f_cache g j) ca).
Proof.
  intros Hs Hpos Hown Hlen. induction n as [|n IH]; intros i Hin (j & Hij & Hj).
  { apply lookup_lt_Some in Hj. rewrite Hlen in Hj. lia. }
  destruct (lookup_lt_is_Some_2 slots i) as [oi Hi]; [rewrite Hlen; lia|].
  cbn [add_cache_from]. rewrite (st_run _ _ _ _ _ (rd_run _ _ _ (Hs i oi Hi))).
  destruct oi as [r|].
  - cbn [slot_addr]. rewrite (proj2 (Z.eqb_neq _ _)) by (specialize (Hpos i r Hi); lia).
    apply IH; [lia|]. exists j. split; [|done].
    destruct (decide (i = j)) as [->|]; [rewrite Hi in Hj; done|lia].
  - exists i. split; [done|]. cbn [slot_addr]. rewrite Z.eqb_refl.
    assert (page_of (f_cache g i) ∈ owned h) as Ho by (apply Hown; in_fields).
    by rewrite (st_run _ _ _ _ _ (wr_run _ _ ca Ho)).
Qed.

Lemma free_slot slots : (taken slots < length slots)%nat → ∃ j, slots !! j = Some None.
Proof.
  unfold taken. induction slots as [|[r|] l IH]; simpl; intros Hlt; [lia| |by exists 0%nat].
  destruct IH as [j Hj]; [lia|]. by exists (S j).
Qed.

(** The words of the manager after a run of class [k] has been put into slot [j]. *)
Lemma mgr_ok_new (w w' : gmap Z Z) g slots j r k :
  mgr_ok w g slots → length slots = SLOT_NUM → slots !! j = Some None → (k < SIZE_CLASS_COUNT)%nat →
  r_class r = k → r_free r ≠ [] →
  w' !! f_cache g j = Some (r_addr r) →
  w' !! f_used_slots g = Some (Z.of_nat (taken slots) + 1) →
  w' !! f_partial_count g k = Some (Z.of_nat (partial k slots) + 1) →
  is_Some (w' !! f_next_free g) →
  (∀ a, in_mgr g a → a ≠ f_cache g j → a ≠ f_used_slots g → a ≠ f_partial_count g k → a ≠ f_next_free g →
     w' !! a = w !! a) →
  mgr_ok w' g (<[j:=Some r]> slots).
Proof.
  intros Hm Hlen Hj Hk Hrk Hrf Hw1 Hw2 Hw3 Hw4 Hw.
  pose proof (lookup_lt_Some _ _ _ Hj) as Hlt. rewrite Hlen in Hlt.
  apply (mgr_ok_update w w' g slots j None (Some r) k); try done.
  - rewrite Hw2. f_equal. pose proof (sum_list_with_insert slot_taken slots j _ (Some r) Hj) as Hs.
    unfold taken. simpl in Hs. lia.
  - intros _. rewrite Hw3. f_equal. pose proof (sum_list_with_insert (slot_partial k) slots j _ (Some r) Hj) as Hs.
    unfold partial. cbn [slot_partial] in Hs. rewrite decide_True in Hs by done. lia.
  - intros k' Hne. cbn [slot_partial]. rewrite decide_False; [done|]. intros [? _]. congruence.
  - rewrite Hw by in_fields. by apply Hm.
  - intros a Ha H1 H2 H3 _ H5. by apply Hw.
Qed.

(** The counters are raised; the last slot takes the manager out of the list of
    those with free slots. *)
Lemma count_new_run h g k n m v fuel :
  words h !! f_prev g = Some 0 → words h !! f_used_slots g = Some n → words h !! f_partial_count g k = Some m →
  words h !! f_next_free g = Some v → (k < SIZE_CLASS_COUNT)%nat → (∀ a, in_mgr g a → page_of a ∈ owned h) →
  m + 1 < U64 →
  ∃ h', (_ ← incr (f_partial_count g k);
         full ← is_slots_full g;
         if full : bool then
           first ← first_mgr (S fuel) g;
           nx ← rd (f_next_free g);
           wr (f_next_free first) nx
         else mret tt : ST (Heap A) unit) h = Ok (tt, h') ∧
    changes (λ a, a = f_partial_count g k ∨ a = f_next_free g) h h' ∧
    words h' !! f_partial_count g k = Some (m + 1) ∧ words h' !! f_next_free g = Some v.
Proof.
  intros Hp Hn Hm Hv Hk Hown Hlt.
  assert (page_of (f_partial_count g k) ∈ owned h) as Ho1 by (apply Hown; in_fields).
  assert (f_partial_count g k ≠ f_next_free g) as Hne1 by in_fields.
  assert (f_partial_count g k ≠ f_prev g) as Hne2 by in_fields.
  assert (f_partial_count g k ≠ f_used_slots g) as Hne3 by in_fields.
  rewrite (st_run _ _ _ _ _ (incr_run _ _ _ Hm Hlt Ho1)).
  set (h1 := set_word h (f_partial_count g k) (m + 1)).
  assert (changes (λ a, a = f_partial_count g k ∨ a = f_next_free g) h h1) as Hc1
    by (apply changes_set; by left).
  assert (words h1 !! f_partial_count g k = Some (m + 1)) as Hm' by (cbn; by rewrite lookup_insert_eq).
  assert (words h1 !! f_next_free g = Some v) as Hv' by (cbn; by rewrite lookup_insert_ne).
  assert (words h1 !! f_used_slots g = Some n) as Hn' by (cbn; by rewrite lookup_insert_ne).
  rewrite (st_run _ _ _ (n =? Z.of_nat SLOT_NUM) h1).
  2: { unfold is_slots_full. by rewrite (st_run _ _ _ _ _ (rd_run _ _ _ Hn')). }
  destruct (n =? _); [|exists h1; by split_and!].
  rewrite (st_run _ _ _ g h1) by (apply first_mgr_run; cbn; by rewrite lookup_insert_ne).
  rewrite (st_run _ _ _ _ _ (rd_run _ _ _ Hv')).
  exists (set_word h1 (f_next_free g) v). split_and!.
  - apply wr_run. apply Hown. in_fields.
  - eapply changes_trans; [exact Hc1|]. apply changes_set. by right.
  - cbn [set_word words]. by rewrite lookup_insert_ne.
  - cbn [set_word words]. by rewrite lookup_insert_eq.
Qed.

(** A new run and the first of its cells. *)
Lemma new_run_cell g h k p a' :
  (k < SIZE_CLASS_COUNT)%nat → k ≠ 13%nat → pa_alloc_pages (class_pages k) (pages_of h) = Ok (inl p, a') →
  0 < p → (p + class_pages k) * PAGE_SIZE < U64 →
  ∃ c fs h1 h2, cells_at (PAGE_SIZE * p) k = c :: fs ∧ fs ≠ [] ∧
    CachePage_allocate (class_size k) (class_count k) h = Ok (PAGE_SIZE * p, h1) ∧
    alloc_obj (PAGE_SIZE * p) h1 = Ok (Some c, h2) ∧
    run_ok g (set_word h2 c g) (mkRun p k fs [c]) ∧ page_of c ∈ page_run p (class_pages k) ∧
    owned h2 = owned h ∪ page_run p (class_pages k) ∧ pages_of h2 = a' ∧
    ∀ a, page_of a ∉ page_run p (class_pages k) → words h2 !! a = words h !! a.
Proof.
  intros Hk H13 Hpa Hp Hlt. destruct (allocate_run g h k p a') as (h1 & Hall & Hr & Ho1 & Ha1 & Hw1); try done.
  set (r := mkRun p k (cells_at (PAGE_SIZE * p) k) []) in *.
  pose proof (cf_two _ (class_facts_all k Hk) H13) as Htwo.
  assert (length (cells_at (PAGE_SIZE * p) k) = Z.to_nat (class_cells k)) as Hlen
    by (unfold cells_at; by rewrite length_fmap, length_seqZ).
  destruct (cells_at (PAGE_SIZE * p) k) as [|c fs] eqn:Hcells; [simpl in Hlen; lia|].
  destruct (alloc_obj_run g h1 r c fs Hr eq_refl) as (Hobj & Hc & Hr').
  destruct (counted_changes h1 r (Z.of_nat (length fs)) (Z.of_nat (length (c :: r_used r))) (default 0 (head fs)))
    as (Ho2 & Ha2 & Hw2).
  eexists c, fs, h1, _. split_and!; [done| |done|exact Hobj|exact Hr'|by apply (cell_page r)|congruence|congruence|].
  - intros ->. simpl in Hlen. lia.
  - intros a Ha. rewrite Hw2, Hw1; [done|done|]. intros Hh. apply Ha. by apply (header_in_pages r).
Qed.

(** A new run of class [k] on fresh pages is in slot [j]. *)
Lemma heap_new h h' g slots j p k c fs :
  heap_pre h g slots → slots !! j = Some None → (k < SIZE_CLASS_COUNT)%nat → fs ≠ [] →
  run_ok g h' (mkRun p k fs [c]) → page_run p (class_pages k) ## owned h →
  owned h' = owned h ∪ page_run p (class_pages k) →
  (∀ a, page_of a ∉ page_run p (class_pages k) → ¬ in_mgr g a → words h' !! a = words h !! a) →
  words h' !! f_cache g j = Some (PAGE_SIZE * p) →
  words h' !! f_used_slots g = Some (Z.of_nat (taken slots) + 1) →
  words h' !! f_partial_count g k = Some (Z.of_nat (partial k slots) + 1) →
  is_Some (words h' !! f_next_free g) →
  (∀ a, in_mgr g a → a ≠ f_cache g j → a ≠ f_used_slots g → a ≠ f_partial_count g k → a ≠ f_next_free g →
     words h' !! a = words h !! a) →
  heap_pre h' g (<[j:=Some (mkRun p k fs [c])]> slots).
Proof.
  intros Hok Hj Hk Hfs Hr Hfresh Ho Hw H1 H2 H3 H4 H5. apply (heap_set h _ g slots j None); try done.
  - intros i ri Hne Hi. change (r_pages (mkRun p k fs [c])) with (page_run p (class_pages k)).
    intros x Hx Hx'. apply (Hfresh x Hx'). by apply (ro_owned _ _ _ (hk_run _ _ _ Hok i ri Hi)).
  - intros a Ha Hin. by apply (Hfresh (page_of a)); [|apply Hok].
  - rewrite Ho. apply union_subseteq_l.
  - apply (mgr_ok_new (words h) _ g slots j _ k); try done; apply Hok.
Qed.

Lemma new_cache_alloc_run h g slots k pad p a' fuel alloc :
  heap_pre h g slots → (k < SIZE_CLASS_COUNT)%nat → k ≠ 13%nat → (taken slots < SLOT_NUM)%nat →
  pa_alloc_pages (class_pages k) (pages_of h) = Ok (inl p, a') →
  0 < p → (p + class_pages k) * PAGE_SIZE < U64 → page_run p (class_pages k) ## owned h →
  ∃ j c fs h', slots !! j = Some None ∧ cells_at (PAGE_SIZE * p) k = c :: fs ∧
    new_cache_alloc (S fuel) alloc g (class_size k) (class_count k) k pad h = Ok (object_ptr c pad, h') ∧
    heap_pre h' g (<[j:=Some (mkRun p k fs [c])]> slots) ∧
    (∀ a, page_of a ∉ page_run p (class_pages k) → ¬ in_mgr g a → words h' !! a = words h !! a) ∧
    owned h' = owned h ∪ page_run p (class_pages k) ∧ pages_of h' = a' ∧
    words h' !! f_next g = words h !! f_next g ∧ words h' !! f_next_free g = words h !! f_next_free g.
Proof.
  intros Hok Hk H13 Hfree Hpa Hp Hlt Hfresh. pose proof (hk_mgr _ _ _ Hok) as Hm. pose proof (hk_len _ _ _ Hok) as Hlen.
  destruct (mo_next _ _ _ Hm) as (nx & Hnx & Hnx0). destruct (mo_nfree _ _ _ Hm) as [nf Hnf].
  destruct (new_run_cell g h k p a') as (c & fs & h1 & h2 & Hcells & Hfs & Hall & Hobj & Hr & Hcp & Ho2 & Ha2 & Hw2);
    try done.
  assert (∀ a, in_mgr g a → page_of a ∉ page_run p (class_pages k)) as Hsep
    by (intros a Ha Hin; by apply (Hfresh (page_of a)); [|apply Hok]).
  assert (∀ a, in_mgr g a → words h2 !! a = words h !! a) as Hmw by (intros a Ha; by apply Hw2, Hsep).
  assert (∀ a, in_mgr g a → page_of a ∈ owned h2) as Hmo
    by (intros a Ha; rewrite Ho2; apply elem_of_union_l; by apply Hok).
  destruct (free_slot slots) as [j0 Hj0]; [by rewrite Hlen|].
  destruct (add_cache_from_run h2 g slots (PAGE_SIZE * p)) with (n := SLOT_NUM) (i := 0%nat)
    as (j & Hj & Hadd); [|intros i ri Hi; by eapply run_addr_pos, (hk_run _ _ _ Hok)|done|done|lia|
    exists j0; split; [lia|done]|].
  { intros i o Hi. pose proof (lookup_lt_Some _ _ _ Hi) as Hlti. rewrite Hlen in Hlti.
    rewrite Hmw by in_fields. by apply Hm. }
  pose proof (lookup_lt_Some _ _ _ Hj) as Hltj. rewrite Hlen in Hltj.
  pose proof (partial_le k slots) as Hpl. rewrite Hlen in Hpl.
  set (h3 := set_word h2 (f_cache g j) (PAGE_SIZE * p)) in *.
  set (h4 := set_word h3 (f_used_slots g) (Z.of_nat (taken slots) + 1)).
  assert (∀ a, a ≠ f_cache g j → a ≠ f_used_slots g → words h4 !! a = words h2 !! a) as Hw4.
  { intros a Hn1 Hn2. unfold h4, h3. cbn [set_word words]. by rewrite !lookup_insert_ne by done. }
  assert (incr (f_used_slots g) h3 = Ok (tt, h4)) as Hincr.
  { apply incr_run; [|unfold U64, SLOT_NUM in *; lia|apply Hmo; in_fields].
    unfold h3. cbn [set_word words]. rewrite lookup_insert_ne by in_fields. rewrite Hmw by in_fields. apply Hm. }
  destruct (count_new_run h4 g k (Z.of_nat (taken slots) + 1) (Z.of_nat (partial k slots)) nf fuel)
    as (h5 & Hcount & (Ho5 & Ha5 & Hw5) & Hpc5 & Hnf5);
    [rewrite Hw4, Hmw by in_fields; apply Hm|unfold h4; cbn [set_word words]; by rewrite lookup_insert_eq|
     rewrite Hw4, Hmw by in_fields; by apply Hm|by rewrite Hw4, Hmw by in_fields|done|done|
     unfold U64, SLOT_NUM in *; lia|].
  assert (∀ a, ¬ in_mgr g a → words h5 !! a = words h2 !! a) as Hout.
  { intros a Hna. rewrite Hw5 by (intros [-> | ->]; apply Hna; in_fields).
    apply Hw4; intros ->; apply Hna; in_fields. }
  assert (∀ a, in_mgr g a → words (set_word h5 c g) !! a = words h5 !! a) as Hmw6.
  { intros a Ha. cbn [set_word words]. rewrite lookup_insert_ne; [done|]. intros ->. by apply (Hsep a). }
  assert (∀ a, page_of a ∉ page_run p (class_pages k) → ¬ in_mgr g a →
    words (set_word h5 c g) !! a = words h !! a) as Hsame.
  { intros a Ha Hna. cbn [set_word words]. rewrite lookup_insert_ne by (intros ->; done).
    rewrite Hout by done. by apply Hw2. }
  assert (owned h5 = owned h ∪ page_run p (class_pages k)) as Hown5 by (rewrite Ho5; exact Ho2).
  exists j, c, fs, (set_word h5 c g). split_and!; [done|done| | |done|done|cbn [set_word pages_of]; by rewrite Ha5| |].
  - unfold new_cache_alloc. rewrite (st_run _ _ _ tt h).
    2: { unfold try_init_next. rewrite (st_run _ _ _ _ _ (rd_run _ _ _ Hnx)). by rewrite (proj2 (Z.eqb_neq _ _)). }
    rewrite (st_run _ _ _ _ _ Hall). rewrite (st_run _ _ _ _ _ Hobj). rewrite (st_run_lift _ _ _ c) by done.
    rewrite (st_run _ _ _ true h2).
    2: { unfold is_global_allocator. rewrite (st_run _ _ _ 0 h2); [done|]. apply rd_run.
         rewrite Hmw by in_fields. apply Hm. }
    rewrite (st_run _ _ _ (Z.of_nat (partial k slots)) h2)
      by (apply rd_run; rewrite Hmw by in_fields; by apply Hm).
    cbn [negb andb]. rewrite (st_run _ _ _ tt h2) by done.
    rewrite (st_run _ _ _ tt h4) by (unfold add_cache; rewrite Hadd; exact Hincr).
    rewrite (st_run _ _ _ _ _ Hcount).
    assert (page_of c ∈ owned h5) as Hco by (rewrite Hown5; by apply elem_of_union_r).
    unfold write_head. by rewrite (st_run _ _ _ _ _ (wr_run _ _ _ Hco)).
  - apply (heap_new h); try done.
    + eapply run_ok_frame; [| |exact Hr]; [|cbn [set_word owned]; rewrite Hown5; apply union_subseteq_r].
      intros a Ha. cbn [set_word words]. destruct (decide (a = c)) as [->|Hne]; [by rewrite !lookup_insert_eq|].
      rewrite !lookup_insert_ne by done. apply Hout. intros Hin. by apply (Hsep a).
    + rewrite Hmw6, Hw5 by in_fields. unfold h4, h3. cbn [set_word words].
      rewrite lookup_insert_ne by in_fields. by rewrite lookup_insert_eq.
    + rewrite Hmw6, Hw5 by in_fields. unfold h4. cbn [set_word words]. by rewrite lookup_insert_eq.
    + by rewrite Hmw6 by in_fields.
    + rewrite Hmw6 by in_fields. by exists nf.
    + intros a Ha H1 H2 H3 H4. rewrite Hmw6, Hw5, Hw4 by tauto. by apply Hmw.
  - rewrite Hmw6, Hw5, Hw4 by in_fields. apply Hmw. in_fields.
  - rewrite Hmw6 by in_fields. by rewrite Hnf5.
Qed.

(** ** Memory that is not the allocator's *)

(** Strictly inside a cell: where an object is. *)
Definition inside (k : nat) (c a : Z) : Prop := c < a < c + class_size k.

(** Whoever owns an object may write it. *)
Lemma heap_pre_write h h' g slots i r c :
  heap_pre h g slots → slots !! i = Some (Some r) → c ∈ cells_at (r_addr r) (r_class r) →
  changes (inside (r_class r) c) h h' → heap_pre h' g slots.
Proof.
  intros Hok Hi Hc (Ho & _ & Hw). pose proof (hk_run _ _ _ Hok i r Hi) as Hr.
  pose proof (ro_class _ _ _ Hr) as Hk. unfold inside in Hw.
  assert (∀ a, c < a < c + class_size (r_class r) → page_of a ∈ r_pages r) as Hin
    by (intros a Ha; apply (cell_span_page r c); [done..|lia]).
  constructor; [apply Hok| | |apply Hok|rewrite Ho; apply Hok|apply Hok].
  - pose proof (lookup_lt_Some _ _ _ Hi) as Hlt. pose proof (hk_len _ _ _ Hok) as Hlen.
    assert (∀ a, in_mgr g a → words h' !! a = words h !! a) as Hmw.
    { intros a Ha. apply Hw. intros Ha'. exact (hk_sep _ _ _ Hok i r a Hi Ha (Hin a Ha')). }
    destruct (hk_mgr _ _ _ Hok) as [Hs [n Hn] Hp Hu Hpc Hnpf Hnf]. constructor.
    + intros j o Hj. pose proof (lookup_lt_Some _ _ _ Hj) as Hltj. rewrite Hlen in Hltj.
      rewrite Hmw by in_fields. by apply Hs.
    + exists n. by rewrite Hmw by in_fields.
    + by rewrite Hmw by in_fields.
    + by rewrite Hmw by in_fields.
    + intros k Hk' H13. rewrite Hmw by in_fields. by apply Hpc.
    + intros k Hk'. rewrite Hmw by in_fields. by apply Hnpf.
    + by rewrite Hmw by in_fields.
  - intros j rj Hj. pose proof (hk_run _ _ _ Hok j rj Hj) as Hrj. pose proof (ro_class _ _ _ Hrj) as Hkj.
    apply (run_ok_words g h); [| |rewrite Ho; apply Hrj|done].
    + intros d Hd. apply Hw. intros Ha. destruct (decide (i = j)) as [->|Hne].
      * rewrite Hi in Hj. injection Hj as <-. pose proof (cell_bounds r c Hk Hc). lia.
      * exact (hk_apart _ _ _ Hok i j r rj Hne Hi Hj _ (Hin _ Ha) (header_page rj d Hkj Hd)).
    + intros c' Hc'. apply Hw. intros Ha.
      pose proof (cf_size _ (class_facts_all _ Hkj)) as Hcsj.
      destruct (cells_disjoint h g slots i j r rj c c' Hok Hi Hj Hc Hc'); lia.
Qed.

Lemma wr_list_run vs : ∀ h a,
  (∀ b, a ≤ b < a + 8 * Z.of_nat (length vs) → page_of b ∈ owned h) →
  ∃ h', wr_list a vs h = Ok (tt, h') ∧ changes (λ b, a ≤ b < a + 8 * Z.of_nat (length vs)) h h' ∧
    ∀ i v, vs !! i = Some v → words h' !! (a + 8 * Z.of_nat i) = Some v.
Proof.
  induction vs as [|v vs IH]; intros h a Hown; cbn [wr_list length] in *; [by exists h|].
  rewrite (st_run _ _ _ _ _ (wr_run h a v (Hown a ltac:(lia)))).
  destruct (IH (set_word h a v) (a + 8)) as (h' & Hrun & Hch & Hvs); [intros b Hb; apply Hown; lia|].
  exists h'. split_and!; [done| |].
  - eapply changes_trans; [apply (changes_set _ h a v); cbv beta; lia|].
    eapply changes_weaken; [|exact Hch]. cbv beta. intros b Hb. lia.
  - intros [|i] w Hi.
    + injection Hi as <-. destruct Hch as (_ & _ & Hw). rewrite Z.add_0_r, Hw by lia. apply lookup_insert_eq.
    + replace (a + 8 * Z.of_nat (S i)) with (a + 8 + 8 * Z.of_nat i) by lia. by apply Hvs.
Qed.

(** The links of the manager to others do not matter, as long as [next] is set. *)
Lemma heap_pre_links h h' g slots :
  heap_pre h g slots → changes (λ a, a = f_next g ∨ a = f_next_free g) h h' →
  (∃ n, words h' !! f_next g = Some n ∧ n ≠ 0) → is_Some (words h' !! f_next_free g) → heap_pre h' g slots.
Proof.
  intros Hok (Ho & _ & Hw) Hn' Hnf'. pose proof (hk_len _ _ _ Hok) as Hlen.
  assert (in_mgr g (f_next g) ∧ in_mgr g (f_next_free g)) as [Hi1 Hi2] by in_fields.
  constructor; [apply Hok| | |apply Hok|rewrite Ho; apply Hok|apply Hok].
  - destruct (hk_mgr _ _ _ Hok) as [Hs [n Hn] Hp Hu Hpc Hnpf Hnf]. constructor; [|done|..|done].
    + intros j o Hj. pose proof (lookup_lt_Some _ _ _ Hj) as Hltj. rewrite Hlen in Hltj.
      rewrite Hw by in_fields. by apply Hs.
    + by rewrite Hw by in_fields.
    + by rewrite Hw by in_fields.
    + intros k Hk' H13. rewrite Hw by in_fields. by apply Hpc.
    + intros k Hk'. rewrite Hw by in_fields. by apply Hnpf.
  - intros j rj Hj. pose proof (hk_run _ _ _ Hok j rj Hj) as Hrj.
    eapply run_ok_frame; [| |exact Hrj]; [|rewrite Ho; apply Hrj].
    intros a Ha. apply Hw. intros [-> | ->];
      [exact (hk_sep _ _ _ Hok j rj _ Hj Hi1 Ha)|exact (hk_sep _ _ _ Hok j rj _ Hj Hi2 Ha)].
Qed.
End manager.
