(* ===== verification/McacheFree.v ===== *)
(** * Giving a cell back

    The slots of the first manager after a cell has been freed, and the walk of
    [dealloc] to the run that holds it. *)

From S2P Require Import Prelude Page Buddy Mcache McacheSpec McacheManager.

Section free.
Context {A : Type} `{!PageAllocator A}.
Implicit Types h : Heap A.

(** The cell [c] of slot [j] is in the free list again: the run, and the count of
    runs with free cells. *)
Lemma heap_give h h1 g slots j r c us k :
  heap_pre h g slots → slots !! j = Some (Some r) → r_class r = k → k ≠ 13%nat → r_used r ≡ₚ c :: us →
  changes (λ a, a = f_partial_count g k) h h1 →
  words h1 !! f_partial_count g k =
    Some (if Z.of_nat (length (r_free r)) =? 0 then Z.of_nat (partial k slots) + 1
          else Z.of_nat (partial k slots)) →
  ∃ h', free_obj (r_addr r) c h1 = Ok (tt, h') ∧
    heap_pre h' g (<[j:=Some (mkRun (r_page r) (r_class r) (c :: r_free r) us)]> slots) ∧
    changes (λ a, in_header r a ∨ in_mgr g a ∨ a = c) h h'.
Proof.
  intros Hok Hj Hk H13 Hus (Ho1 & Ha1 & Hw1) Hpc. pose proof (hk_run _ _ _ Hok j r Hj) as Hr.
  pose proof (ro_class _ _ _ Hr) as Hcl. pose proof (hk_mgr _ _ _ Hok) as Hm.
  assert (in_mgr g (f_partial_count g k)) as Hin1 by (subst k; in_fields).
  assert (run_ok g h1 r) as Hr1.
  { eapply run_ok_frame; [| |exact Hr]; [|rewrite Ho1; apply Hr].
    intros a Ha. apply Hw1. intros ->. exact (hk_sep _ _ _ Hok j r _ Hj Hin1 Ha). }
  destruct (free_obj_run g h1 r c us Hr1 Hus) as (Hfree & Hr').
  assert (c ∈ cells_at (r_addr r) (r_class r)) as Hc by (eapply used_cell; [done|]; rewrite Hus; by left).
  set (r' := mkRun (r_page r) (r_class r) (c :: r_free r) us) in *.
  set (h' := set_word _ _ _) in *.
  assert (changes (λ a, in_header r a ∨ a = c) h1 h') as (Ho' & Ha' & Hw').
  { unfold h'. eapply changes_trans; [eapply changes_weaken; [|apply counted_changes]|apply changes_set]; tauto. }
  assert (∀ a, in_mgr g a → words h' !! a = words h1 !! a) as Hmw.
  { intros a Ha. apply Hw'. intros [Hh | ->]; [by eapply header_not_mgr|by eapply cell_not_mgr]. }
  exists h'. split_and!; [done| |].
  - apply (heap_set h _ g slots j (Some r) r'); try done.
    + intros i ri Hne Hi. exact (hk_apart _ _ _ Hok i j ri r Hne Hi Hj).
    + intros a Ha. exact (hk_sep _ _ _ Hok j r a Hj Ha).
    + by rewrite Ho', Ho1.
    + intros a Ha Hna. rewrite Hw', Hw1; [done|intros ->; done|].
      intros [Hh | ->]; apply Ha; [by apply (header_in_pages r)|by apply (cell_page r)].
    + apply (mgr_ok_update (words h) _ g slots j (Some r) (Some r') k); try done.
      * apply Hok.
      * by subst k.
      * pose proof (lookup_lt_Some _ _ _ Hj) as Hlt. rewrite (hk_len _ _ _ Hok) in Hlt.
        rewrite Hmw, Hw1 by in_fields. by rewrite (mo_slot _ _ _ Hm j (Some r) Hj).
      * rewrite Hmw, Hw1 by in_fields. rewrite (mo_used _ _ _ Hm). do 2 f_equal.
        pose proof (sum_list_with_insert slot_taken slots j _ (Some r') Hj) as Hs. unfold taken. simpl in Hs. lia.
      * intros _. rewrite Hmw, Hpc by done. f_equal.
        pose proof (sum_list_with_insert (slot_partial k) slots j _ (Some r') Hj) as Hs.
        fold (partial k slots) in Hs. fold (partial k (<[j:=Some r']> slots)) in Hs.
        cbn [slot_partial r' r_class r_free] in Hs. rewrite Hk in Hs. rewrite (decide_True (P := _ ∧ _ :: _ ≠ [])) in Hs by done.
        destruct (r_free r) as [|c' fs'] eqn:Hf; simpl length.
        -- rewrite decide_False in Hs by (intros [_ ?]; done). simpl. lia.
        -- rewrite decide_True in Hs by done. rewrite (proj2 (Z.eqb_neq _ _)) by lia. lia.
      * intros k' Hne. cbn [slot_partial r' r_class]. rewrite !decide_False; [done|naive_solver..].
      * subst k. rewrite Hmw, Hw1 by in_fields. by apply Hm.
      * rewrite Hmw, Hw1 by in_fields. apply Hm.
      * intros a Ha _ _ H3 _ _. by rewrite Hmw, Hw1.
  - split_and!; [congruence..|]. intros a Ha. rewrite Hw', Hw1; [done|intros ->; tauto|tauto].
Qed.

(** Slot [j] is empty: its pages have been given back. *)
Lemma heap_unset h h' g slots j r :
  heap_pre h g slots → slots !! j = Some (Some r) →
  owned h' = owned h ∖ r_pages r →
  (∀ a, page_of a ∉ r_pages r → ¬ in_mgr g a → words h' !! a = words h !! a) →
  mgr_ok (words h') g (<[j:=None]> slots) →
  heap_pre h' g (<[j:=None]> slots).
Proof.
  intros Hok Hj Hown Hw Hm.
  assert (∀ i r2, <[j:=None]> slots !! i = Some (Some r2) → i ≠ j ∧ slots !! i = Some (Some r2)) as Hcase.
  { intros i r2. rewrite list_lookup_insert_Some. naive_solver. }
  constructor.
  - rewrite length_insert. apply Hok.
  - done.
  - intros i r2 [Hne Hi]%Hcase. pose proof (hk_run _ _ _ Hok i r2 Hi) as Hro.
    pose proof (hk_apart _ _ _ Hok i j r2 r Hne Hi Hj) as Hd.
    eapply run_ok_frame; [| |exact Hro].
    + intros a Ha. apply Hw; [intros Ha'; by apply (Hd (page_of a))|]. intros Hg.
      exact (hk_sep _ _ _ Hok i r2 a Hi Hg Ha).
    + rewrite Hown. intros x Hx. apply elem_of_difference. split; [by apply (ro_owned _ _ _ Hro)|].
      intros Hx'. by apply (Hd x).
  - intros i i' r1 r2 Hne [_ Hi]%Hcase [_ Hi']%Hcase. by eapply (hk_apart _ _ _ Hok i i').
  - intros a Ha. rewrite Hown. apply elem_of_difference. split; [by apply (hk_own _ _ _ Hok)|].
    exact (hk_sep _ _ _ Hok j r a Hj Ha).
  - intros i r2 a [_ Hi]%Hcase Ha. exact (hk_sep _ _ _ Hok i r2 a Hi Ha).
Qed.

(** Only the run that holds the object is in range. *)
Lemma in_range_run h g slots i r ptr :
  heap_pre h g slots → slots !! i = Some (Some r) →
  ∃ b, in_range (r_addr r) ptr h = Ok (b, h) ∧ (b = true ↔ page_of ptr ∈ r_pages r).
Proof.
  intros Hok Hi. pose proof (hk_run _ _ _ Hok i r Hi) as Hr. destruct (ro_page _ _ _ Hr) as [Hp Hlt].
  pose proof (cf_pages _ (class_facts_all _ (ro_class _ _ _ Hr))) as Hcp.
  eexists. split.
  - unfold in_range. rewrite (st_run _ _ _ _ _ (rd_run _ _ _ (ro_start _ _ _ Hr))).
    rewrite (st_run _ _ _ _ _ (rd_run _ _ _ (ro_count _ _ _ Hr))).
    rewrite (st_run_lift _ _ _ (class_pages (r_class r) * PAGE_SIZE)); [reflexivity|].
    apply umul_Ok. rewrite PAGE_SIZE_val in *. lia.
  - rewrite andb_true_iff, Z.leb_le, Z.ltb_lt. unfold r_addr, r_pages. split.
    + intros [H1 H2]. apply page_of_run; lia.
    + intros Hin%page_run_bounds. lia.
Qed.

Lemma dealloc_from_run h g slots fuel dealloc first k j r ptr pad :
  heap_pre h g slots → slots !! j = Some (Some r) → page_of ptr ∈ r_pages r → ∀ n i,
  (i + n = SLOT_NUM)%nat → (i ≤ j)%nat →
  dealloc_from fuel dealloc first g k ptr pad i n h
  = dealloc_from_cache fuel dealloc first g (r_addr r) j k ptr pad h.
Proof.
  intros Hok Hj Hin. pose proof (hk_mgr _ _ _ Hok) as Hm. pose proof (lookup_lt_Some _ _ _ Hj) as Hlt.
  rewrite (hk_len _ _ _ Hok) in Hlt. induction n as [|n IH]; intros i Hi Hij; [lia|].
  destruct (lookup_lt_is_Some_2 slots i) as [oi Hoi]; [rewrite (hk_len _ _ _ Hok); lia|].
  cbn [dealloc_from]. rewrite (st_run _ _ _ _ _ (rd_run _ _ _ (mo_slot _ _ _ Hm i oi Hoi))).
  destruct oi as [ri|]; cbn [slot_addr].
  - pose proof (run_addr_pos _ _ _ (hk_run _ _ _ Hok i ri Hoi)) as Hpos.
    rewrite (proj2 (Z.eqb_neq _ _)) by lia.
    destruct (in_range_run h g slots i ri ptr Hok Hoi) as (b & Hrun & Hb). rewrite (st_run _ _ _ _ _ Hrun).
    destruct (decide (i = j)) as [->|Hne].
    + rewrite Hj in Hoi. injection Hoi as <-. by rewrite (proj2 Hb Hin).
    + destruct b; [|apply IH; lia]. exfalso.
      exact (hk_apart _ _ _ Hok i j ri r Hne Hoi Hj _ (proj1 Hb eq_refl) Hin).
  - rewrite Z.eqb_refl. rewrite (st_run _ _ _ false h) by done. apply IH; [lia|].
    destruct (decide (i = j)) as [->|]; [rewrite Hj in Hoi; done|lia].
Qed.

(** A full run of the first manager gets a free cell. *)
Lemma raise_partial_run h g k m (first left : Z) :
  words h !! f_partial_count g k = Some m → m + 1 < U64 → (k < SIZE_CLASS_COUNT)%nat →
  (∀ a, in_mgr g a → page_of a ∈ owned h) →
  ∃ h', (if left =? 0 then
           k' ← rd (f_partial_count g k);
           _ ← (if negb true && (k' =? 0) then
                  nx ← rd (f_next_partial_free first k);
                  _ ← wr (f_next_partial_free g k) nx;
                  wr (f_next_partial_free first k) g
                else mret tt);
           incr (f_partial_count g k)
         else mret tt : ST (Heap A) unit) h = Ok (tt, h') ∧
    changes (λ a, a = f_partial_count g k) h h' ∧
    words h' !! f_partial_count g k = Some (if left =? 0 then m + 1 else m).
Proof.
  intros Hm Hlt Hk Hown. destruct (left =? 0); [|exists h; split_and!; [done|apply changes_refl|done]].
  assert (page_of (f_partial_count g k) ∈ owned h) as Ho1 by (apply Hown; in_fields).
  exists (set_word h (f_partial_count g k) (m + 1)). split_and!.
  - rewrite (st_run _ _ _ _ _ (rd_run _ _ _ Hm)). cbn [negb andb]. rewrite (st_run _ _ _ tt h) by done.
    by apply incr_run.
  - by apply changes_set.
  - cbn [set_word words]. by rewrite lookup_insert_eq.
Qed.

Lemma filter_pages (w : gmap Z Z) (ps : gset Z) a :
  page_of a ∉ ps → filter (λ e : Z * Z, page_of e.1 ∉ ps) w !! a = w !! a.
Proof.
  intros Ha. rewrite map_lookup_filter. destruct (w !! a) as [x|]; [|done]. simpl. by rewrite option_guard_True.
Qed.

(** The last cell of a run has been freed: the pages are given back and the slot
    is emptied. *)
Lemma empty_slot_run h g slots j r k a' (first : Z) :
  heap_pre h g slots → slots !! j = Some (Some r) → r_class r = k → k ≠ 13%nat → r_free r ≠ [] →
  pa_free_pages (r_page r) (class_pages k) (pages_of h) = Ok (tt, a') →
  ∃ h', (_ ← CachePage_deallocate (r_addr r);
         _ ← wr (f_cache g j) 0;
         full ← is_slots_full g;
         _ ← (if negb true && full then
                nx ← rd (f_next_free first);
                _ ← wr (f_next_free g) nx;
                wr (f_next_free first) g
              else mret tt);
         _ ← decr (f_used_slots g);
         decr (f_partial_count g k) : ST (Heap A) unit) h = Ok (tt, h') ∧
    heap_pre h' g (<[j:=None]> slots) ∧ pages_of h' = a' ∧ owned h' = owned h ∖ r_pages r ∧
    ∀ a, page_of a ∉ r_pages r → ¬ in_mgr g a → words h' !! a = words h !! a.
Proof.
  intros Hok Hj Hk H13 Hf Hpa. pose proof (hk_run _ _ _ Hok j r Hj) as Hr. pose proof (hk_mgr _ _ _ Hok) as Hm.
  pose proof (ro_class _ _ _ Hr) as Hcl. pose proof (lookup_lt_Some _ _ _ Hj) as Hltj.
  rewrite (hk_len _ _ _ Hok) in Hltj.
  assert (Z.shiftr (r_addr r) PAGE_BITS = r_page r) as Hsh.
  { unfold r_addr. rewrite Z.shiftr_div_pow2 by done. rewrite PAGE_SIZE_val. change (2 ^ PAGE_BITS) with 4096.
    rewrite Z.mul_comm. apply Z.div_mul. done. }
  set (h1 := mkHeap (owned h ∖ r_pages r) (filter (λ e : Z * Z, page_of e.1 ∉ r_pages r) (words h)) a').
  assert (∀ a, in_mgr g a → words h1 !! a = words h !! a) as Hmw
    by (intros a Ha; apply filter_pages; exact (hk_sep _ _ _ Hok j r a Hj Ha)).
  assert (∀ a, in_mgr g a → page_of a ∈ owned h1) as Hmo.
  { intros a Ha. cbn [h1 owned]. apply elem_of_difference. split; [by apply Hok|exact (hk_sep _ _ _ Hok j r a Hj Ha)]. }
  pose proof (sum_list_with_insert slot_taken slots j _ None Hj) as Hst. cbn [slot_taken] in Hst.
  pose proof (sum_list_with_insert (slot_partial k) slots j _ None Hj) as Hsp. cbn [slot_partial] in Hsp.
  rewrite decide_True in Hsp by done.
  fold (taken slots) (taken (<[j:=None]> slots)) in Hst. fold (partial k slots) (partial k (<[j:=None]> slots)) in Hsp.
  set (h2 := set_word h1 (f_cache g j) 0).
  set (h3 := set_word h2 (f_used_slots g) (Z.of_nat (taken slots) - 1)).
  set (h4 := set_word h3 (f_partial_count g k) (Z.of_nat (partial k slots) - 1)).
  assert (in_mgr g (f_cache g j) ∧ in_mgr g (f_used_slots g) ∧ in_mgr g (f_partial_count g k)) as (Hi1 & Hi2 & Hi3)
    by (subst k; in_fields).
  exists h4. split_and!.
  - rewrite (st_run _ _ _ tt h1).
    2: { unfold CachePage_deallocate. rewrite (st_run _ _ _ _ _ (rd_run _ _ _ (ro_start _ _ _ Hr))).
         rewrite (st_run _ _ _ _ _ (rd_run _ _ _ (ro_count _ _ _ Hr))). rewrite Hsh, Hk.
         unfold gfree. rewrite Hpa. unfold h1, r_pages. by rewrite Hk. }
    rewrite (st_run _ _ _ tt h2) by (by apply wr_run, Hmo).
    assert (words h2 !! f_used_slots g = Some (Z.of_nat (taken slots))) as Hu2.
    { unfold h2. cbn [set_word words]. rewrite lookup_insert_ne by in_fields. rewrite Hmw by done. apply Hm. }
    rewrite (st_run _ _ _ (Z.of_nat (taken slots) =? Z.of_nat SLOT_NUM) h2).
    2: { unfold is_slots_full. by rewrite (st_run _ _ _ _ _ (rd_run _ _ _ Hu2)). }
    cbn [negb andb]. rewrite (st_run _ _ _ tt h2) by done.
    rewrite (st_run _ _ _ tt h3) by (apply decr_run; [done|lia|by apply Hmo]).
    apply decr_run; [|lia|by apply Hmo]. unfold h3, h2. cbn [set_word words].
    rewrite !lookup_insert_ne by (subst k; in_fields). rewrite Hmw by done. apply Hm; [by subst k|done].
  - apply (heap_unset h h4 g slots j r Hok Hj); [done| |].
    + intros a Ha Hna. unfold h4, h3, h2. cbn [set_word words].
      rewrite !lookup_insert_ne by (intros <-; done). by apply filter_pages.
    + apply (mgr_ok_update (words h) _ g slots j (Some r) None k); try done.
      * apply Hok.
      * by subst k.
      * unfold h4, h3. cbn [set_word words]. rewrite !lookup_insert_ne by (subst k; in_fields).
        unfold h2. cbn [set_word words]. by rewrite lookup_insert_eq.
      * unfold h4. cbn [set_word words]. rewrite lookup_insert_ne by (subst k; in_fields).
        unfold h3. cbn [set_word words]. rewrite lookup_insert_eq. f_equal. lia.
      * intros _. unfold h4. cbn [set_word words]. rewrite lookup_insert_eq. f_equal. lia.
      * intros k' Hne. cbn [slot_partial]. rewrite decide_False; [done|]. intros [? _]. congruence.
      * subst k. unfold h4, h3, h2. cbn [set_word words]. rewrite !lookup_insert_ne by in_fields.
        rewrite Hmw by in_fields. by apply Hm.
      * unfold h4, h3, h2. cbn [set_word words]. rewrite !lookup_insert_ne by (subst k; in_fields).
        rewrite Hmw by in_fields. apply Hm.
      * intros a Ha H1 H2 H3 _ _. unfold h4, h3, h2. cbn [set_word words]. rewrite !lookup_insert_ne by done.
        by apply Hmw.
  - done.
  - done.
  - intros a Ha Hna. unfold h4, h3, h2. cbn [set_word words].
    rewrite !lookup_insert_ne by (intros <-; done). by apply filter_pages.
Qed.
End free.
