(* ===== verification/McacheAlloc.v ===== *)
(** * Allocation and deallocation on the first manager

    What [alloc] and [dealloc] do to the slots: one cell more or less in use, all
    the others as they were. *)

From S2P Require Import Prelude Page Buddy Mcache McacheSpec McacheManager McacheFree.

Section mcache_alloc.
Context {A : Type} `{!PageAllocator A}.
Implicit Types h : Heap A.

(** A live cell of slot [i] and its class. *)
Definition live_cell (slots : list (option run)) (k : nat) (c : Z) : Prop :=
  ∃ i r, slots !! i = Some (Some r) ∧ r_class r = k ∧ c ∈ r_used r.

(** Pages for a run of class [k] that are not in use. *)
Definition fresh_run (own : gset Z) (a : A) (k : nat) (p : Z) (a' : A) : Prop :=
  pa_alloc_pages (class_pages k) a = Ok (inl p, a') ∧ 0 < p ∧ (p + class_pages k) * PAGE_SIZE < U64 ∧
  page_run p (class_pages k) ## own.

(** A cell for class [k] is at hand: a run has one, or there is a slot and the
    page allocator has pages for a new run. *)
Definition can_serve h (slots : list (option run)) (k : nat) : Prop :=
  (∃ j o, slots !! j = Some o ∧ is_partial k o) ∨
  ((taken slots < SLOT_NUM)%nat ∧ ∃ p a', fresh_run (owned h) (pages_of h) k p a').

(** ** Live cells are left alone *)

Lemma live_safe h g slots i j r0 r c0 c a :
  heap_pre h g slots → slots !! i = Some (Some r0) → c0 ∈ r_used r0 → c0 ≤ a < c0 + class_size (r_class r0) →
  slots !! j = Some (Some r) → c ∈ cells_at (r_addr r) (r_class r) → c0 ≠ c →
  ¬ (in_header r a ∨ in_mgr g a ∨ a = c).
Proof.
  intros Hok Hi Hc0 Ha Hj Hc Hne. pose proof (hk_run _ _ _ Hok i r0 Hi) as Hr0.
  pose proof (hk_run _ _ _ Hok j r Hj) as Hr. pose proof (used_cell _ _ _ _ Hr0 Hc0) as Hcell0.
  pose proof (cell_span_page r0 c0 a (ro_class _ _ _ Hr0) Hcell0 Ha) as Hpage.
  intros [Hh|[Hg| ->]].
  - destruct (decide (i = j)) as [->|Hij].
    + rewrite Hi in Hj. injection Hj as <-. pose proof (cell_bounds r0 c0 (ro_class _ _ _ Hr0) Hcell0).
      unfold in_header in Hh. lia.
    + apply (hk_apart _ _ _ Hok i j r0 r Hij Hi Hj (page_of a) Hpage).
      apply (header_in_pages r); [apply Hr|done].
  - exact (hk_sep _ _ _ Hok i r0 a Hi Hg Hpage).
  - pose proof (cf_size _ (class_facts_all _ (ro_class _ _ _ Hr))).
    destruct (cells_disjoint h g slots i j r0 r c0 c Hok Hi Hj Hcell0 Hc Hne); lia.
Qed.

Lemma free_not_used g h r c fs : run_ok g h r → r_free r = c :: fs → c ∉ r_used r.
Proof.
  intros Hr Hf Hin. pose proof (cells_NoDup (r_addr r) _ (ro_class _ _ _ Hr)) as Hnd.
  rewrite <- (ro_cells _ _ _ Hr), Hf in Hnd. apply list.NoDup_cons in Hnd as [Hn _].
  apply Hn, elem_of_app. by right.
Qed.

(** A cell that is free is none of the live ones. *)
Lemma free_not_live h g slots i j r0 r c0 c :
  heap_pre h g slots → slots !! i = Some (Some r0) → c0 ∈ r_used r0 →
  slots !! j = Some (Some r) → c ∈ cells_at (r_addr r) (r_class r) → c ∉ r_used r → c0 ≠ c.
Proof.
  intros Hok Hi Hc0 Hj Hc Hn ->. destruct (decide (i = j)) as [->|Hij].
  - rewrite Hi in Hj. by injection Hj as <-.
  - pose proof (hk_run _ _ _ Hok i r0 Hi) as Hr0. pose proof (hk_run _ _ _ Hok j r Hj) as Hr.
    apply (hk_apart _ _ _ Hok i j r0 r Hij Hi Hj (page_of c)).
    + apply cell_page; [apply Hr0|]. by eapply used_cell.
    + apply cell_page; [apply Hr|done].
Qed.

(** ** The object in its cell *)

Lemma pow_divide a b : 0 ≤ a ≤ b → (2 ^ a | 2 ^ b).
Proof. intros Hab. exists (2 ^ (b - a)). rewrite <- Z.pow_add_r by lia. f_equal. lia. Qed.

Lemma padding_spec e : 0 ≤ e → let pad := calc_header_padding (2 ^ e) in
  0 ≤ pad < 2 ^ e ∧ (2 ^ e | pad + PTR_SIZE) ∧ (pad = 0 ∨ 2 ^ e = pad + PTR_SIZE).
Proof.
  intros He. unfold calc_header_padding, PTR_SIZE. pose proof (Z.pow_pos_nonneg 2 e ltac:(lia) He) as Hpos.
  split; [apply Z.mod_pos_bound; lia|]. destruct (Z.le_gt_cases e 3) as [Hle|Hgt].
  - destruct (pow_divide e 3 ltac:(lia)) as [q Hq]. change (2 ^ 3) with 8 in Hq.
    assert (8 mod 2 ^ e = 0) as -> by (rewrite Hq; apply Z.mod_mul; lia).
    rewrite Z.sub_0_r, Z.mod_same by lia. split; [|by left]. exists q. lia.
  - assert (8 < 2 ^ e) by (change 8 with (2 ^ 3); apply Z.pow_lt_mono_r; lia).
    rewrite (Z.mod_small 8) by lia. rewrite Z.mod_small by lia. split; [exists 1; lia|right; lia].
Qed.

Lemma object_aligned r k c e : r_class r = k → (k < SIZE_CLASS_COUNT)%nat → 0 ≤ e ≤ 12 →
  c ∈ cells_at (r_addr r) k → calc_header_padding (2 ^ e) + PTR_SIZE ≤ class_size k →
  (2 ^ e | object_ptr c (calc_header_padding (2 ^ e))).
Proof.
  intros Hrk Hk He (i & -> & _)%elem_of_cells Hle.
  destruct (padding_spec e ltac:(lia)) as (_ & Hd & Hpad). unfold object_ptr, r_addr.
  apply Z.divide_add_r; [|done]. rewrite PAGE_SIZE_val, class_size_pow by done. change 4096 with (2 ^ 12).
  assert (e ≤ 6 + Z.of_nat k) as Hek.
  { rewrite class_size_pow in Hle by done. destruct Hpad as [Hp|Hp].
    - destruct (padding_spec e ltac:(lia)) as (_ & Hd' & _). rewrite Hp in Hd'. unfold PTR_SIZE in Hd'.
      destruct (Z.le_gt_cases e 3) as [?|Hgt]; [lia|]. exfalso.
      assert (2 ^ 4 ≤ 2 ^ e) by (apply Z.pow_le_mono_r; lia). apply Z.divide_pos_le in Hd'; lia.
    - rewrite <- Hp in Hle. apply Z.pow_le_mono_r_iff in Hle; lia. }
  apply Z.divide_add_r; [apply Z.divide_mul_l|apply Z.divide_mul_r]; apply pow_divide; lia.
Qed.

(** ** Allocation *)

Lemma cache_alloc_run h g slots k pad fuel :
  heap_pre h g slots → (k < SIZE_CLASS_COUNT)%nat → k ≠ 13%nat → (∃ j o, slots !! j = Some o ∧ is_partial k o) →
  ∃ j r c fs h', slots !! j = Some (Some r) ∧ r_class r = k ∧ r_free r = c :: fs ∧
    cache_alloc (S fuel) g (class_size k) k pad h = Ok (Some (object_ptr c pad), h') ∧
    heap_pre h' g (<[j:=Some (mkRun (r_page r) (r_class r) fs (c :: r_used r))]> slots) ∧
    changes (λ a, in_header r a ∨ in_mgr g a ∨ a = c) h h'.
Proof.
  intros Hok Hk H13 (j & o & Hj & Hp). pose proof (hk_mgr _ _ _ Hok) as Hm.
  destruct (cache_alloc_from_run h g slots k pad fuel Hok Hk H13 SLOT_NUM 0)
    as (j' & r & c & fs & h' & Hj' & Hrk & Hf & Hrun & Hrest); [lia|exists j, o; split; [lia|done]|].
  exists j', r, c, fs, h'. split_and!; [done..| |apply Hrest|apply Hrest].
  unfold cache_alloc. rewrite (st_run _ _ _ _ _ (rd_run _ _ _ (mo_partial _ _ _ Hm k Hk H13))).
  rewrite (proj2 (Z.eqb_neq _ _)); [exact Hrun|].
  destruct (partial k slots) eqn:Hz; [|lia].
  pose proof (sum_list_with_zero (slot_partial k) slots o Hz (list_elem_of_lookup_2 _ _ _ Hj)) as H0.
  destruct o as [ro|]; [|done]. cbn [slot_partial] in H0. by rewrite decide_True in H0 by done.
Qed.

Lemma cache_alloc_none h g slots k pad fuel :
  heap_pre h g slots → (k < SIZE_CLASS_COUNT)%nat → k ≠ 13%nat →
  ¬ (∃ j o, slots !! j = Some o ∧ is_partial k o) → cache_alloc (S fuel) g (class_size k) k pad h = Ok (None, h).
Proof.
  intros Hok Hk H13 Hno. unfold cache_alloc.
  rewrite (st_run _ _ _ _ _ (rd_run _ _ _ (mo_partial _ _ _ (hk_mgr _ _ _ Hok) k Hk H13))).
  assert (partial k slots = 0%nat) as ->; [|done].
  clear Hok. unfold partial. induction slots as [|o l IH]; [done|]. cbn [sum_list_with]. rewrite IH.
  - destruct o as [r|]; [|done]. cbn [slot_partial]. rewrite decide_False; [done|].
    intros Hp. apply Hno. by exists 0%nat, (Some r).
  - intros (j & o' & Hj & Hp). apply Hno. by exists (S j), o'.
Qed.

Lemma some_partial_dec k (slots : list (option run)) :
  Decision (∃ j o, slots !! j = Some o ∧ is_partial k o).
Proof.
  destruct (decide (Exists (is_partial k) slots)) as [He|Hn].
  - left. apply list.Exists_exists in He as (o & [j Hj]%list_elem_of_lookup_1 & Hp). by exists j, o.
  - right. intros (j & o & Hj & Hp). apply Hn, list.Exists_exists. exists o. split; [|done].
    by eapply list_elem_of_lookup_2.
Defined.

(** The cell comes from a run that is there: no page changes hands. *)
Definition from_run h h' (slots slots' : list (option run)) (k : nat) (c : Z) : Prop :=
  ∃ j r fs, slots !! j = Some (Some r) ∧ r_class r = k ∧ r_free r = c :: fs ∧
    slots' = <[j:=Some (mkRun (r_page r) k fs (c :: r_used r))]> slots ∧
    owned h' = owned h ∧ pages_of h' = pages_of h.

(** It is the first of a new run, on pages of the page allocator's. *)
Definition from_pages h h' (slots slots' : list (option run)) (k : nat) (c : Z) : Prop :=
  ∃ j p fs, slots !! j = Some None ∧ cells_at (PAGE_SIZE * p) k = c :: fs ∧
    pa_alloc_pages (class_pages k) (pages_of h) = Ok (inl p, pages_of h') ∧
    slots' = <[j:=Some (mkRun p k fs [c])]> slots ∧ owned h' = owned h ∪ page_run p (class_pages k).

(** The cell [c] of class [k] was free and is in use: what [alloc] does to the
    slots and to the memory. *)
Definition took h h' g (slots slots' : list (option run)) (k : nat) (c : Z) : Prop :=
  heap_pre h' g slots' ∧ live slots' ≡ₚ c :: live slots ∧ live_cell slots' k c ∧
  (∀ i r c', slots !! i = Some (Some r) → c' ∈ r_used r →
     c + class_size k ≤ c' ∨ c' + class_size (r_class r) ≤ c) ∧
  (∃ r, r_class r = k ∧ c ∈ cells_at (r_addr r) k) ∧
  (from_run h h' slots slots' k c ∨ from_pages h h' slots slots' k c) ∧
  ∀ a, in_live slots a → words h' !! a = words h !! a.

Lemma took_from_run h h' g slots j r c fs k :
  heap_pre h g slots → slots !! j = Some (Some r) → r_class r = k → r_free r = c :: fs →
  heap_pre h' g (<[j:=Some (mkRun (r_page r) (r_class r) fs (c :: r_used r))]> slots) →
  changes (λ a, in_header r a ∨ in_mgr g a ∨ a = c) h h' →
  took h h' g slots (<[j:=Some (mkRun (r_page r) (r_class r) fs (c :: r_used r))]> slots) k c.
Proof.
  intros Hok Hj Hrk Hf Hok' (Ho & Ha & Hw). pose proof (hk_run _ _ _ Hok j r Hj) as Hr.
  pose proof (free_not_used _ _ _ _ _ Hr Hf) as Hn.
  assert (c ∈ cells_at (r_addr r) (r_class r)) as Hc by (eapply free_cell; [done|]; rewrite Hf; by left).
  split_and!; [done| | | | | |].
  - by apply (live_insert slots j (Some r) _ [c] Hj).
  - exists j, (mkRun (r_page r) (r_class r) fs (c :: r_used r)). split_and!; [|done|by left].
    apply list_lookup_insert_eq. by eapply lookup_lt_Some.
  - intros i ri c' Hi Hc'. rewrite <- Hrk. pose proof (hk_run _ _ _ Hok i ri Hi) as Hri.
    apply (cells_disjoint h g slots j i r ri c c'); [done..|exact (used_cell _ _ _ _ Hri Hc')|].
    apply not_eq_sym. exact (free_not_live h g slots i j ri r c' c Hok Hi Hc' Hj Hc Hn).
  - exists r. by rewrite <- Hrk.
  - left. exists j, r, fs. rewrite <- Hrk. by split_and!.
  - intros a (i & ri & c' & Hi & Hc' & Hac). apply Hw.
    apply (live_safe h g slots i j ri r c' c a); try done.
    exact (free_not_live h g slots i j ri r c' c Hok Hi Hc' Hj Hc Hn).
Qed.

Lemma took_new_run h h' g slots j p c fs k :
  heap_pre h g slots → slots !! j = Some None → cells_at (PAGE_SIZE * p) k = c :: fs → (k < SIZE_CLASS_COUNT)%nat →
  page_run p (class_pages k) ## owned h →
  pa_alloc_pages (class_pages k) (pages_of h) = Ok (inl p, pages_of h') →
  owned h' = owned h ∪ page_run p (class_pages k) →
  heap_pre h' g (<[j:=Some (mkRun p k fs [c])]> slots) →
  (∀ a, page_of a ∉ page_run p (class_pages k) → ¬ in_mgr g a → words h' !! a = words h !! a) →
  took h h' g slots (<[j:=Some (mkRun p k fs [c])]> slots) k c.
Proof.
  intros Hok Hj Hcells Hk Hfresh Hpa Ho Hok' Hw. set (r := mkRun p k fs [c]).
  assert (<[j:=Some r]> slots !! j = Some (Some r)) as Hj'
    by (apply list_lookup_insert_eq; by eapply lookup_lt_Some).
  assert (c ∈ cells_at (PAGE_SIZE * p) k) as Hc by (rewrite Hcells; by left).
  assert (∀ i ri, slots !! i = Some (Some ri) → i ≠ j ∧ <[j:=Some r]> slots !! i = Some (Some ri)) as Hother.
  { intros i ri Hi. assert (i ≠ j) by (intros ->; congruence). split; [done|].
    by rewrite list_lookup_insert_ne by congruence. }
  split_and!; [done| | | | | |].
  - by apply (live_insert slots j None _ [c] Hj).
  - exists j, r. split_and!; [done..|by left].
  - intros i ri c' Hi Hc'. destruct (Hother i ri Hi) as [Hne Hi'].
    pose proof (hk_run _ _ _ Hok' i ri Hi') as Hri. pose proof (used_cell _ _ _ _ Hri Hc') as Hcell'.
    apply (cells_disjoint h' g (<[j:=Some r]> slots) j i r ri c c'); [done..|]. intros ->.
    apply (hk_apart _ _ _ Hok' i j ri r Hne Hi' Hj' (page_of c')); [by apply cell_page; [apply Hri|]|].
    by apply (cell_page r).
  - by exists r.
  - right. by exists j, p, fs.
  - intros a (i & ri & c' & Hi & Hc' & Ha). pose proof (hk_run _ _ _ Hok i ri Hi) as Hri.
    pose proof (cell_span_page ri c' a (ro_class _ _ _ Hri) (used_cell _ _ _ _ Hri Hc') Ha) as Hpage.
    apply Hw; [|intros Hg; exact (hk_sep _ _ _ Hok i ri a Hi Hg Hpage)].
    intros Hin. apply (Hfresh (page_of a) Hin). by apply (ro_owned _ _ _ Hri).
Qed.

(** Both cases of [alloc] for an object that fits a class: the search for a run
    and the new run. *)
Lemma mgr_alloc_run h g layout k cc fuel depth :
  let pad := calc_header_padding (l_align layout) in
  size_to_class (l_size layout + pad + PTR_SIZE) = Some ((class_size k, cc), k) →
  (∀ c h', cache_alloc (S fuel) g (class_size k) k pad h = Ok (Some c, h') →
     mgr_alloc (S fuel) (S depth) g layout h = Ok (c, h')) ∧
  (∀ n, cache_alloc (S fuel) g (class_size k) k pad h = Ok (None, h) →
     words h !! f_used_slots g = Some n → n ≠ Z.of_nat SLOT_NUM →
     mgr_alloc (S fuel) (S depth) g layout h
     = new_cache_alloc (S fuel) (mgr_alloc (S fuel) depth) g (class_size k) cc k pad h).
Proof.
  intros pad Hcls. destruct (size_to_class_spec _ _ _ _ Hcls) as (Hk & _ & -> & Hsz).
  pose proof (cf_size _ (class_facts_all _ Hk)) as Hcs. unfold PTR_SIZE in *. cbn [mgr_alloc].
  fold pad. rewrite (st_run_lift _ _ _ (l_size layout + pad)) by (apply uadd_Ok; unfold U64; lia).
  rewrite (st_run_lift _ _ _ (l_size layout + pad + 8)) by (apply uadd_Ok; unfold U64; lia).
  rewrite Hcls. split.
  - intros c h' Hrun. by rewrite (st_run _ _ _ _ _ Hrun).
  - intros n Hrun Hn Hfull. rewrite (st_run _ _ _ _ _ Hrun). rewrite (st_run _ _ _ false h); [done|].
    unfold is_slots_full. rewrite (st_run _ _ _ _ _ (rd_run _ _ _ Hn)).
    unfold mret, st_ret. do 2 f_equal. by apply Z.eqb_neq.
Qed.

Lemma mgr_alloc_took h g slots layout k cc fuel depth :
  let pad := calc_header_padding (l_align layout) in
  heap_pre h g slots → size_to_class (l_size layout + pad + PTR_SIZE) = Some ((class_size k, cc), k) →
  k ≠ 13%nat → can_serve h slots k →
  ∃ c h' slots', mgr_alloc (S fuel) (S depth) g layout h = Ok (object_ptr c pad, h') ∧
    took h h' g slots slots' k c.
Proof.
  intros pad Hok Hcls H13 Hserve. destruct (mgr_alloc_run h g layout k cc fuel depth Hcls) as [Hsome Hnone].
  destruct (size_to_class_spec _ _ _ _ Hcls) as (Hk & _ & -> & _).
  destruct (some_partial_dec k slots) as [Hp|Hnp].
  - destruct (cache_alloc_run h g slots k pad fuel Hok Hk H13 Hp)
      as (j & r & c & fs & h' & Hj & Hrk & Hf & Hrun & Hok' & Hch).
    eexists c, h', _. split; [by apply Hsome|by eapply took_from_run].
  - destruct Hserve as [Hp|(Hfree & p & a' & Hpa & Hp0 & Hlt & Hfresh)]; [done|].
    destruct (new_cache_alloc_run h g slots k pad p a' fuel (mgr_alloc (S fuel) depth))
      as (j & c & fs & h' & Hj & Hcells & Hrun & Hok' & Hw & Ho & Ha & _); [done..|]. rewrite <- Ha in Hpa.
    eexists c, h', _. split; [|by eapply took_new_run].
    rewrite (Hnone (Z.of_nat (taken slots))); [done|by apply (cache_alloc_none h g slots)|apply Hok|lia].
Qed.

Lemma took_ok h h' g slots slots' k c :
  heap_ok h g slots → took h h' g slots slots' k c → heap_ok h' g slots'.
Proof.
  intros [_ Hused] (Hpre & _ & _ & _ & _ & Hkind & _). constructor; [done|].
  destruct Hkind as [(j & r & fs & _ & _ & _ & -> & _)|(j & p & fs & _ & _ & _ & -> & _)]; intros i ri;
    rewrite list_lookup_insert_Some; intros [(_ & [= <-] & _)|[_ Hi]]; [done|by apply (Hused i)|done|by apply (Hused i)].
Qed.

(** ** Deallocation *)

(** The last cell of the run [r] in slot [j] is given back: the slot is empty, and the
    page allocator has the pages of the run back. *)
Definition run_released h h' (slots slots' : list (option run)) (j : nat) (r : run) : Prop :=
  slots' = <[j:=None]> slots ∧ owned h' = owned h ∖ r_pages r ∧
  pa_free_pages (r_page r) (class_pages (r_class r)) (pages_of h) = Ok (tt, pages_of h').

(** One of several cells of the run is given back: it heads the free list, and no page
    changes hands. *)
Definition cell_returned h h' (slots slots' : list (option run)) (j : nat) (r : run) (c : Z) (us : list Z) : Prop :=
  slots' = <[j:=Some (mkRun (r_page r) (r_class r) (c :: r_free r) us)]> slots ∧
  owned h' = owned h ∧ pages_of h' = pages_of h.

Definition gave h h' g (slots slots' : list (option run)) (j : nat) (r : run) (c : Z) (us : list Z) : Prop :=
  heap_pre h' g slots' ∧ live slots ≡ₚ c :: live slots' ∧
  (if decide (us = []) then run_released h h' slots slots' j r else cell_returned h h' slots slots' j r c us) ∧
  ∀ a, in_live slots' a → words h' !! a = words h !! a.

Lemma gave_ok h h' g slots slots' j r c us :
  heap_ok h g slots → gave h h' g slots slots' j r c us → heap_ok h' g slots'.
Proof.
  intros [_ Hused] (Hpre & _ & Hkind & _). constructor; [done|]. intros i ri.
  destruct (decide (us = [])); destruct Hkind as [-> _]; rewrite list_lookup_insert_Some;
    intros [(_ & [=] & _)|[_ Hi]]; try (by apply (Hused i)). by subst.
Qed.

Lemma live_remove slots j r o c :
  slots !! j = Some (Some r) → r_used r ≡ₚ c :: slot_used o → live slots ≡ₚ c :: live (<[j:=o]> slots).
Proof.
  intros Hj Hu. pose proof (lookup_lt_Some _ _ _ Hj) as Hlt.
  assert (<[j:=o]> slots !! j = Some o) as Hj' by (by apply list_lookup_insert_eq).
  pose proof (live_insert (<[j:=o]> slots) j o (Some r) [c] Hj' Hu) as Hl.
  by rewrite list_insert_insert_eq, list_insert_id in Hl.
Qed.

(** The cells that are live after [c] of slot [j] has been freed were live
    before, and none of them is [c]. *)
Lemma in_live_remove h g slots j r o c us a :
  heap_pre h g slots → slots !! j = Some (Some r) → r_used r ≡ₚ c :: us →
  match o with Some r' => r_class r' = r_class r ∧ r_used r' = us | None => us = [] end →
  in_live (<[j:=o]> slots) a →
  ∃ i r0 c0, slots !! i = Some (Some r0) ∧ c0 ∈ r_used r0 ∧ c0 ≤ a < c0 + class_size (r_class r0) ∧ c0 ≠ c ∧
    (o = None → i ≠ j).
Proof.
  intros Hok Hj Hus Ho (i & r0 & c0 & Hi & Hc0 & Ha). pose proof (hk_run _ _ _ Hok j r Hj) as Hr.
  assert (c ∈ r_used r) as Hcu by (rewrite Hus; by left).
  apply list_lookup_insert_Some in Hi as [(<- & -> & _)|[Hne Hi]].
  - destruct Ho as [Hcl Hu]. exists j, r. rewrite Hcl in Ha. destruct Ha as [Ha1 Ha2]. exists c0. split_and!; try done.
    + rewrite Hus, <- Hu. by right.
    + intros ->. pose proof (cells_NoDup (r_addr r) _ (ro_class _ _ _ Hr)) as Hnd.
      rewrite <- (ro_cells _ _ _ Hr), Hus, <- Hu in Hnd. apply list.NoDup_app in Hnd as (_ & _ & Hnd).
      apply list.NoDup_cons in Hnd as [Hn _]. done.
  - destruct Ha as [Ha1 Ha2]. exists i, r0, c0. split_and!; try done.
    intros ->. pose proof (hk_run _ _ _ Hok i r0 Hi) as Hr0.
    apply (hk_apart _ _ _ Hok i j r0 r (not_eq_sym Hne) Hi Hj (page_of c)).
    + apply cell_page; [apply Hr0|exact (used_cell _ _ _ _ Hr0 Hc0)].
    + apply cell_page; [apply Hr|exact (used_cell _ _ _ _ Hr Hcu)].
Qed.

Lemma dealloc_from_cache_run h g slots j r c us k pad fuel dealloc :
  heap_pre h g slots → slots !! j = Some (Some r) → r_class r = k → k ≠ 13%nat → r_used r ≡ₚ c :: us →
  (us = [] → ∃ a', pa_free_pages (r_page r) (class_pages k) (pages_of h) = Ok (tt, a')) →
  ∃ h' slots', dealloc_from_cache fuel dealloc g g (r_addr r) j k (object_ptr c pad) pad h = Ok (tt, h') ∧
    gave h h' g slots slots' j r c us.
Proof.
  intros Hok Hj Hrk H13 Hus Hfree. pose proof (hk_run _ _ _ Hok j r Hj) as Hr. pose proof (hk_mgr _ _ _ Hok) as Hm.
  assert (k < SIZE_CLASS_COUNT)%nat as Hk by (subst k; apply Hr).
  assert (c ∈ cells_at (r_addr r) (r_class r)) as Hc by (apply (used_cell g h); [done|]; rewrite Hus; by left).
  pose proof (partial_le k slots) as Hpl. rewrite (hk_len _ _ _ Hok) in Hpl.
  destruct (raise_partial_run h g k (Z.of_nat (partial k slots)) g (Z.of_nat (length (r_free r))))
    as (h1 & Hraise & Hch1 & Hpc1); [by apply Hm|unfold U64, SLOT_NUM in *; lia|done|apply Hok|].
  destruct (heap_give h h1 g slots j r c us k) as (h2 & Hgive & Hok2 & Ho2 & Ha2 & Hw2); [done..|].
  set (r2 := mkRun (r_page r) (r_class r) (c :: r_free r) us) in *.
  assert (<[j:=Some r2]> slots !! j = Some (Some r2)) as Hj2
    by (apply list_lookup_insert_eq; by eapply lookup_lt_Some).
  assert (dealloc_from_cache fuel dealloc g g (r_addr r) j k (object_ptr c pad) pad h =
    (used ← rd (f_used_count (r_addr r));
     if used =? 0 then release_cache fuel dealloc g g (r_addr r) j k true else mret tt) h2) as Hrun.
  { unfold dealloc_from_cache. rewrite (st_run _ _ _ true h).
    2: { unfold is_global_allocator. by rewrite (st_run _ _ _ _ _ (rd_run _ _ _ (mo_prev _ _ _ Hm))). }
    rewrite (st_run _ _ _ _ _ (rd_run _ _ _ (ro_nfree _ _ _ Hr))).
    rewrite (st_run _ _ _ _ _ Hraise).
    replace (object_ptr c pad - (pad + PTR_SIZE)) with c by (unfold object_ptr; lia).
    by rewrite (st_run _ _ _ _ _ Hgive). }
  rewrite Hrun. clear Hrun.
  pose proof (hk_run _ _ _ Hok2 j r2 Hj2) as Hr2.
  rewrite (st_run _ _ _ _ _ (rd_run _ _ _ (ro_nused _ _ _ Hr2))). cbn [r2 r_used].
  destruct us as [|u us].
  - destruct (Hfree eq_refl) as [a' Hpa].
    destruct (empty_slot_run h2 g (<[j:=Some r2]> slots) j r2 k a' g) as (h3 & Hempty & Hok3 & Ha3 & Ho3 & Hw3); try done.
    { cbn [r2 r_page]. by rewrite Ha2. }
    rewrite list_insert_insert_eq in Hok3. pose proof (hk_mgr _ _ _ Hok3) as Hm3.
    exists h3, (<[j:=None]> slots). split.
    + change (Z.of_nat (length []) =? 0) with true. cbv iota. unfold release_cache. change (r_addr r2) with (r_addr r) in Hempty.
      rewrite (st_run _ _ _ _ _ Hempty).
      rewrite (st_run _ _ _ _ _ (rd_run _ _ _ (mo_used _ _ _ Hm3))).
      rewrite (st_run _ _ _ _ _ (rd_run _ _ _ (mo_prev _ _ _ Hm3))). by rewrite andb_false_r.
    + split_and!; [done|by apply (live_remove slots j r None)| |].
      { unfold run_released. rewrite Ho3, Ha3, Ho2, Hrk. by split_and!. }
      intros a (i & r0 & c0 & Hi & Hc0 & Ha & Hne & Hij)%(in_live_remove h g slots j r None c []); [|done..].
      pose proof (hk_run _ _ _ Hok i r0 Hi) as Hr0.
      pose proof (cell_span_page r0 c0 a (ro_class _ _ _ Hr0) (used_cell _ _ _ _ Hr0 Hc0) Ha) as Hpage.
      rewrite Hw3.
      * apply Hw2. exact (live_safe h g slots i j r0 r c0 c a Hok Hi Hc0 Ha Hj Hc Hne).
      * exact (λ Hin, hk_apart _ _ _ Hok i j r0 r (Hij eq_refl) Hi Hj _ Hpage Hin).
      * intros Hg. exact (hk_sep _ _ _ Hok i r0 a Hi Hg Hpage).
  - exists h2, (<[j:=Some r2]> slots). cbn [length]. rewrite (proj2 (Z.eqb_neq _ _)) by lia.
    split; [done|]. split_and!; [done|by apply (live_remove slots j r (Some r2))|by split_and!|].
    intros a (i & r0 & c0 & Hi & Hc0 & Ha & Hne & _)%(in_live_remove h g slots j r (Some r2) c (u :: us)); [|done..].
    apply Hw2. exact (live_safe h g slots i j r0 r c0 c a Hok Hi Hc0 Ha Hj Hc Hne).
Qed.

Lemma mgr_dealloc_gave h g slots layout e k cc c fuel depth :
  let pad := calc_header_padding (l_align layout) in
  heap_pre h g slots → l_align layout = 2 ^ e → 0 ≤ e → 0 < l_size layout →
  size_to_class (l_size layout + pad + PTR_SIZE) = Some ((class_size k, cc), k) →
  k ≠ 13%nat → live_cell slots k c →
  (∀ i r, slots !! i = Some (Some r) → r_used r = [c] →
     ∃ a', pa_free_pages (r_page r) (class_pages k) (pages_of h) = Ok (tt, a')) →
  ∃ h' slots' j r us, mgr_dealloc (S fuel) (S depth) g (object_ptr c pad) layout h = Ok (tt, h') ∧
    slots !! j = Some (Some r) ∧ r_class r = k ∧ r_used r ≡ₚ c :: us ∧ gave h h' g slots slots' j r c us.
Proof.
  intros pad Hok Hal He Hsize Hcls H13 (j & r & Hj & Hrk & Hc) Hfree.
  destruct (size_to_class_spec _ _ _ _ Hcls) as (Hk & _ & _ & Hsz). pose proof (hk_run _ _ _ Hok j r Hj) as Hr.
  destruct (padding_spec e He) as ([Hpad0 _] & _ & _). rewrite <- Hal in Hpad0. fold pad in Hpad0.
  pose proof (cf_size _ (class_facts_all _ Hk)) as Hcs. unfold PTR_SIZE in *.
  apply elem_of_Permutation in Hc as [us Hus].
  destruct (dealloc_from_cache_run h g slots j r c us k pad (S fuel) (mgr_dealloc (S fuel) depth g))
    as (h' & slots' & Hrun & Hgave); [done..| |].
  { intros ->. apply (Hfree j r Hj). by apply Permutation_singleton_r in Hus. }
  exists h', slots', j, r, us. split; [|done].
  assert (c ∈ r_used r) as Hcu by (rewrite Hus; by left).
  assert (page_of (object_ptr c pad) ∈ r_pages r) as Hpage.
  { apply (cell_span_page r c); [apply Hr|exact (used_cell _ _ _ _ Hr Hcu)|].
    unfold object_ptr, PTR_SIZE. rewrite Hrk. lia. }
  cbn [mgr_dealloc]. fold pad. unfold PTR_SIZE.
  rewrite (st_run_lift _ _ _ (l_size layout + pad)) by (apply uadd_Ok; unfold U64; lia).
  rewrite (st_run_lift _ _ _ (l_size layout + pad + 8)) by (apply uadd_Ok; unfold U64; lia).
  rewrite (st_run _ _ _ _ _ (first_mgr_run h g fuel (mo_prev _ _ _ (hk_mgr _ _ _ Hok)))).
  rewrite Hcls. replace (object_ptr c pad - (pad + 8)) with c by (unfold object_ptr, PTR_SIZE; lia).
  rewrite (st_run _ _ _ _ _ (rd_run _ _ _ (ro_heads _ _ _ Hr c Hcu))).
  rewrite (dealloc_from_run h g slots _ _ _ k j r _ pad Hok Hj Hpage SLOT_NUM 0) by lia. exact Hrun.
Qed.
End mcache_alloc.
