(* ===== verification/McacheTheorems.v ===== *)
(** * The small-object allocator: theorems

    About the first manager, for all size classes but the largest and alignments up to
    a page; what the allocator does with a larger one is an example at the end. *)

From S2P Require Import Prelude Page Buddy Mcache McacheSpec McacheManager McacheFree McacheAlloc.

Section mcache_theorems.
Context {A : Type} `{!PageAllocator A}.
Implicit Types h : Heap A.

(** ** Theorems *)

(** C5: [alloc] on the first manager, for a class but the largest and an alignment up
    to 4096, when a run has a free cell or there is a slot and pages for a new run,
    returns, without a panic or an access outside its memory: the object is aligned,
    fits into its cell, and the cell overlaps no cell in use; the cell is then in use
    besides those that were; it comes from a run that was there, and no page changes
    hands, or is the first of a new run on pages the page allocator gave; no byte of an
    object in use has changed. *)
Theorem mgr_alloc_correct h g slots layout e k cc fuel depth :
  let pad := calc_header_padding (l_align layout) in
  heap_ok h g slots → l_align layout = 2 ^ e → 0 ≤ e ≤ 12 → 0 < l_size layout →
  size_to_class (l_size layout + pad + PTR_SIZE) = Some ((class_size k, cc), k) →
  k ≠ 13%nat → can_serve h slots k →
  ∃ c h' slots', mgr_alloc (S fuel) (S depth) g layout h = Ok (object_ptr c pad, h') ∧
    heap_ok h' g slots' ∧ live slots' ≡ₚ c :: live slots ∧ live_cell slots' k c ∧
    (∀ i r c', slots !! i = Some (Some r) → c' ∈ r_used r →
       c + class_size k ≤ c' ∨ c' + class_size (r_class r) ≤ c) ∧
    (l_align layout | object_ptr c pad) ∧
    object_ptr c pad + l_size layout ≤ c + class_size k ∧
    (from_run h h' slots slots' k c ∨ from_pages h h' slots slots' k c) ∧
    ∀ a, in_live slots a → words h' !! a = words h !! a.
Proof.
  intros pad Hok Hal He Hsize Hcls H13 Hserve. destruct (size_to_class_spec _ _ _ _ Hcls) as (Hk & _ & _ & Hsz).
  destruct (mgr_alloc_took h g slots layout k cc fuel depth) as (c & h' & slots' & Hrun & Ht); [apply Hok|done..|].
  pose proof (took_ok _ _ _ _ _ _ _ Hok Ht) as Hok'.
  destruct Ht as (_ & Hlive & Hcell & Hap & (r & Hrk & Hc) & Hkind & Hw).
  exists c, h', slots'. split_and!; try done.
  - unfold pad. rewrite Hal. apply (object_aligned r k); [done..|]. rewrite <- Hal. fold pad. lia.
  - unfold object_ptr. lia.
Qed.

(** C6: [dealloc] of an object in use on the first manager, of a class but the
    largest, returns: its cell is no longer in use, all others still are, and no byte
    of theirs has changed.  When it was the last of its run, the slot is emptied, the
    pages of the run are the allocator's no more and have been given back to the page
    allocator, and when not, the cell heads the free list of its run and no page
    changes hands. *)
Theorem mgr_dealloc_correct h g slots layout e k cc c fuel depth :
  let pad := calc_header_padding (l_align layout) in
  heap_ok h g slots → l_align layout = 2 ^ e → 0 ≤ e → 0 < l_size layout →
  size_to_class (l_size layout + pad + PTR_SIZE) = Some ((class_size k, cc), k) →
  k ≠ 13%nat → live_cell slots k c →
  (∀ i r, slots !! i = Some (Some r) → r_used r = [c] →
     ∃ a', pa_free_pages (r_page r) (class_pages k) (pages_of h) = Ok (tt, a')) →
  ∃ h' slots' j r us, mgr_dealloc (S fuel) (S depth) g (object_ptr c pad) layout h = Ok (tt, h') ∧
    heap_ok h' g slots' ∧ live slots ≡ₚ c :: live slots' ∧
    slots !! j = Some (Some r) ∧ r_class r = k ∧ r_used r ≡ₚ c :: us ∧
    (if decide (us = []) then run_released h h' slots slots' j r else cell_returned h h' slots slots' j r c us) ∧
    ∀ a, in_live slots' a → words h' !! a = words h !! a.
Proof.
  intros pad Hok Hal He Hsize Hcls H13 Hcell Hfree.
  destruct (mgr_dealloc_gave h g slots layout e k cc c fuel depth)
    as (h' & slots' & j & r & us & Hrun & Hj & Hrk & Hus & Hgave); [apply Hok|done..|].
  pose proof (gave_ok _ _ _ _ _ _ _ _ _ Hok Hgave) as Hok'. destruct Hgave as (_ & Hlive & Hkind & Hw).
  by exists h', slots', j, r, us.
Qed.

(** ** The first request *)

(** The static memory of the first manager before any request: all zeros. *)
Definition zeroed h (g : Z) : Prop :=
  (∀ i, 0 ≤ i < 1056 → words h !! (g + 8 * i) = Some 0) ∧ ∀ a, in_mgr g a → page_of a ∈ owned h.

Definition no_slots : list (option run) := replicate SLOT_NUM None.

Lemma no_slots_sum (f : option run → nat) : f None = 0%nat → sum_list_with f no_slots = 0%nat.
Proof.
  intros Hf. unfold no_slots. generalize SLOT_NUM. intros n. induction n as [|n IH]; [done|].
  cbn. by rewrite Hf, IH.
Qed.

Lemma no_slots_live : live no_slots = [].
Proof. unfold live, no_slots. generalize SLOT_NUM. intros n. induction n as [|n IH]; [done|]. exact IH. Qed.

Lemma no_slots_none i r : no_slots !! i = Some (Some r) → False.
Proof. by intros [[=] _]%lookup_replicate. Qed.

Lemma zeroed_heap_pre h g : zeroed h g → heap_pre (set_word h (f_next g) 8) g no_slots.
Proof.
  intros [Hz Hown]. pose proof no_slots_none as Hno.
  assert (∀ i, 0 ≤ i < 1056 → i ≠ 1024 → words (set_word h (f_next g) 8) !! (g + 8 * i) = Some 0) as Hw.
  { intros i Hi Hne. cbn [set_word words]. rewrite lookup_insert_ne by (unfold f_next; lia). by apply Hz. }
  constructor.
  - apply length_replicate.
  - constructor.
    + intros i o [-> Hi]%lookup_replicate. unfold f_cache. apply Hw; unfold SLOT_NUM in Hi; lia.
    + exists 8. split; [|done]. cbn [set_word words]. by rewrite lookup_insert_eq.
    + apply (Hw 1025); lia.
    + unfold taken. rewrite no_slots_sum by done. apply (Hw 1055); lia.
    + intros k Hk _. unfold partial. rewrite no_slots_sum by done. unfold SIZE_CLASS_COUNT in Hk.
      apply (Hw (1040 + Z.of_nat k)); lia.
    + intros k Hk. unfold SIZE_CLASS_COUNT in Hk. exists 0. apply (Hw (1026 + Z.of_nat k)); lia.
    + exists 0. apply (Hw 1054); lia.
  - intros i r Hi. by destruct (Hno i r Hi).
  - intros i j r r' _ Hi. by destruct (Hno i r Hi).
  - done.
  - intros i r a Hi. by destruct (Hno i r Hi).
Qed.

Lemma zeroed_heap_ok h g : zeroed h g → heap_ok (set_word h (f_next g) 8) g no_slots.
Proof. intros Hz. constructor; [by apply zeroed_heap_pre|]. intros i r Hi. by destruct (no_slots_none i r). Qed.

(** The manager [m] in memory, with the links to the one before it and to the next one
    with free slots. *)
Definition manager_at h (m prev next_free : Z) : Prop :=
  ∀ i v, CacheManager_words prev next_free !! i = Some v → words h !! (m + 8 * Z.of_nat i) = Some v.

(** The second manager is made in a cell of class 8. *)
Lemma try_init_next_run h g fuel depth p a' :
  zeroed h g → fresh_run (owned h) (pages_of h) 8 p a' →
  ∃ m h' slots', try_init_next (S fuel) (mgr_alloc (S fuel) (S depth)) g h = Ok (tt, h') ∧
    heap_ok h' g slots' ∧ live slots' ≡ₚ [m] ∧ live_cell slots' 8 m ∧ manager_at h' (object_ptr m 0) g 0 ∧
    words h' !! f_next g = Some (object_ptr m 0) ∧ words h' !! f_next_free g = Some (object_ptr m 0) ∧
    pages_of h' = a' ∧ owned h' = owned h ∪ page_run p (class_pages 8) ∧ (taken slots' < SLOT_NUM)%nat.
Proof.
  intros Hz (Hpa & Hp & Hlt & Hfresh). pose proof (zeroed_heap_pre h g Hz) as Hok. destruct Hz as [Hw0 Hown].
  set (h1 := set_word h (f_next g) 8) in *.
  destruct (mgr_alloc_run h1 g (mkLayout CACHE_MANAGER_SIZE 8) 8 8 fuel depth eq_refl) as [_ Hnone].
  destruct (new_cache_alloc_run h1 g no_slots 8 0 p a' fuel (mgr_alloc (S fuel) depth))
    as (j & m & fs & h2 & Hj & Hcells & Hrun & Hok2 & Hw2 & Ho2 & Ha2 & _ & Hnf2); try done.
  { unfold SIZE_CLASS_COUNT. lia. }
  { unfold taken. rewrite no_slots_sum by done. unfold SLOT_NUM. lia. }
  set (r := mkRun p 8 fs [m]) in *. set (slots' := <[j:=Some r]> no_slots) in *.
  assert (slots' !! j = Some (Some r)) as Hj' by (apply list_lookup_insert_eq; by eapply lookup_lt_Some).
  pose proof (hk_run _ _ _ Hok2 j r Hj') as Hr.
  assert (m ∈ cells_at (r_addr r) (r_class r)) as Hm by (change (m ∈ cells_at (PAGE_SIZE * p) 8); rewrite Hcells; by left).
  assert (in_mgr g (f_next g) ∧ in_mgr g (f_next_free g)) as [Hi1 Hi2] by in_fields.
  assert (0 < object_ptr m 0) as Hpos.
  { pose proof (cell_bounds r m (ro_class _ _ _ Hr) Hm). unfold r_addr, object_ptr, PTR_SIZE, CACHE_PAGE_SIZE in *.
    rewrite PAGE_SIZE_val in *. cbn [r r_page] in *. lia. }
  set (h3 := set_word h2 (f_next g) (object_ptr m 0)).
  assert (f_next g ≠ f_next_free g) as Hne by in_fields.
  assert (words h2 !! f_next_free g = Some 0) as Hnf.
  { rewrite Hnf2. cbn [h1 set_word words]. rewrite lookup_insert_ne by done. apply (Hw0 1054). lia. }
  assert (heap_pre h3 g slots') as Hok3.
  { apply (heap_pre_links h2); [done|by apply changes_set; left| |].
    - exists (object_ptr m 0). split; [|lia]. cbn. by rewrite lookup_insert_eq.
    - cbn. rewrite lookup_insert_ne by done. by exists 0. }
  assert (∀ b, object_ptr m 0 ≤ b < object_ptr m 0 + CACHE_MANAGER_SIZE → inside 8 m b) as Hins.
  { intros b. unfold inside, object_ptr, PTR_SIZE, CACHE_MANAGER_SIZE. change (class_size 8) with 16384. lia. }
  destruct (wr_list_run (CacheManager_words g 0) h3 (object_ptr m 0)) as (h4 & Hwr & Hch4 & Hm4).
  { intros b Hb. apply (ro_owned _ _ _ Hr), (cell_span_page r m); [apply Hr|done|].
    specialize (Hins b Hb). unfold inside in Hins. cbn [r r_class]. lia. }
  change (8 * Z.of_nat (length (CacheManager_words g 0))) with CACHE_MANAGER_SIZE in Hch4.
  assert (heap_pre h4 g slots') as Hok4.
  { apply (heap_pre_write h3 h4 g slots' j r m); [done..|]. eapply changes_weaken; [|exact Hch4]. exact Hins. }
  destruct Hch4 as (Ho4 & Ha4 & Hw4).
  assert (∀ a, in_mgr g a → words h4 !! a = words h3 !! a) as Hmw4.
  { intros a Ha. apply Hw4. intros Hb%Hins. unfold inside in Hb.
    apply (hk_sep _ _ _ Hok2 j r a Hj' Ha). apply (cell_span_page r m); [apply Hr|done|cbn [r r_class]; lia]. }
  assert (words h4 !! f_next g = Some (object_ptr m 0)) as Hn4.
  { rewrite Hmw4 by done. cbn. by rewrite lookup_insert_eq. }
  set (h5 := set_word h4 (f_next_free g) (object_ptr m 0)).
  assert (words h5 !! f_next g = Some (object_ptr m 0)) as Hn5 by (cbn; by rewrite lookup_insert_ne).
  assert (live slots' ≡ₚ [m]) as Hlive.
  { unfold slots'. rewrite (live_insert no_slots j None (Some r) [m] Hj (Permutation_refl _)). by rewrite no_slots_live. }
  exists m, h5, slots'. split_and!; [| |done| | |done| | | |].
  - unfold try_init_next. rewrite (st_run _ _ _ _ _ (rd_run _ _ _ (Hw0 1024 ltac:(lia)))). rewrite Z.eqb_refl.
    rewrite (st_run _ _ _ _ _ (wr_run h (f_next g) 8 (Hown _ Hi1))). fold h1.
    rewrite (st_run _ _ _ (object_ptr m 0) h2).
    2: { rewrite (Hnone 0); [exact Hrun| | |done].
         - apply (cache_alloc_none h1 g no_slots); [done|unfold SIZE_CLASS_COUNT; lia|done|].
           intros (i & o & [-> _]%lookup_replicate & []).
         - pose proof (mo_used _ _ _ (hk_mgr _ _ _ Hok)) as Hu. unfold taken in Hu.
           by rewrite no_slots_sum in Hu by done. }
    rewrite (st_run _ _ _ _ _ (wr_run h2 (f_next g) _ (hk_own _ _ _ Hok2 _ Hi1))). fold h3.
    rewrite (st_run _ _ _ _ _ (first_mgr_run h3 g fuel (mo_prev _ _ _ (hk_mgr _ _ _ Hok3)))).
    rewrite (st_run _ _ _ 0 h3) by (apply rd_run; cbn; by rewrite lookup_insert_ne).
    rewrite (st_run _ _ _ _ _ Hwr).
    rewrite (st_run _ _ _ _ _ (first_mgr_run h4 g fuel (mo_prev _ _ _ (hk_mgr _ _ _ Hok4)))).
    apply wr_run. exact (hk_own _ _ _ Hok4 _ Hi2).
  - constructor.
    + apply (heap_pre_links h4); [done|by apply changes_set; right| |].
      * exists (object_ptr m 0). split; [done|lia].
      * cbn. rewrite lookup_insert_eq. done.
    + intros i ri. unfold slots'. rewrite list_lookup_insert_Some.
      intros [(_ & [= <-] & _)|[_ Hi]]; [done|by destruct (no_slots_none i ri)].
  - exists j, r. split_and!; [done..|by left].
  - intros i w Hi. cbn [h5 set_word words]. rewrite lookup_insert_ne; [by apply Hm4|].
    intros Heq. apply lookup_lt_Some in Hi as Hi'. change (length (CacheManager_words g 0)) with 1056%nat in Hi'.
    apply (hk_sep _ _ _ Hok2 j r _ Hj' Hi2). rewrite Heq. apply (cell_span_page r m); [apply Hr|done|].
    cbn [r r_class]. change (class_size 8) with 16384. unfold object_ptr, PTR_SIZE. lia.
  - cbn [h5 set_word words]. apply lookup_insert_eq.
  - cbn [h5 set_word pages_of]. by rewrite Ha4.
  - cbn [h5 set_word owned]. rewrite Ho4. cbn [h3 set_word owned]. by rewrite Ho2.
  - pose proof (sum_list_with_insert slot_taken no_slots j None (Some r) Hj) as Hs.
    rewrite no_slots_sum in Hs by done. fold slots' in Hs. unfold taken. cbn in Hs. unfold SLOT_NUM. lia.
Qed.

End mcache_theorems.

(** ** Witnesses *)

(** A page allocator that hands out page after page. *)
Definition bump : PageAllocator Z := {|
  pa_alloc_pages n a := Ok (inl a, a + n);
  pa_free_pages _ _ a := Ok (tt, a);
|}.
#[local] Existing Instance bump.

(** The first manager at address 4096, before and after [next] is set. *)
Definition demo_zero : Heap Z :=
  mkHeap (page_run 1 3) (gset_to_gmap 0 (list_to_set ((λ i, 4096 + 8 * i) <$> seqZ 0 1056))) 16.
Definition demo_heap : Heap Z := set_word demo_zero (f_next 4096) 8.
Definition demo_request : AllocLayout := mkLayout 24 16.

Lemma demo_zeroed : zeroed demo_zero 4096.
Proof.
  split.
  - intros i Hi. apply lookup_gset_to_gmap_Some. split; [|done]. apply elem_of_list_to_set, list_elem_of_fmap.
    exists i. split; [done|]. apply elem_of_seqZ. lia.
  - intros a Ha. apply page_of_run; [lia|]. unfold in_mgr, CACHE_MANAGER_SIZE in Ha. rewrite PAGE_SIZE_val. lia.
Qed.

Lemma page_runs_apart p n q m : p + n ≤ q → page_run q m ## page_run p n.
Proof.
  intros Hle x. unfold page_run. rewrite !elem_of_list_to_set, !elem_of_seqZ. lia.
Qed.

Lemma demo_can_serve : can_serve demo_heap no_slots 0.
Proof.
  right. split.
  - unfold taken. rewrite no_slots_sum by done. unfold SLOT_NUM. lia.
  - exists 16, 32. split_and!; [done|lia|done|]. by apply page_runs_apart.
Qed.


(** After one request: the run has a cell in use and others that are free. *)
Lemma demo_one_live :
  ∃ c h slots, mgr_alloc 2 2 4096 demo_request demo_heap = Ok (object_ptr c (calc_header_padding 16), h) ∧
    heap_ok h 4096 slots ∧ live slots ≡ₚ [c] ∧ live_cell slots 0 c ∧ can_serve h slots 0.
Proof.
  pose proof (zeroed_heap_ok demo_zero 4096 demo_zeroed) as Hok0.
  destruct (mgr_alloc_took demo_heap 4096 no_slots demo_request 0 1024 1 1)
    as (c & h & slots & Hrun & Ht); [apply Hok0|reflexivity|done|apply demo_can_serve|].
  pose proof (took_ok _ _ _ _ _ _ _ Hok0 Ht) as Hok.
  destruct Ht as (_ & Hlive & Hcell & _ & _ & Hkind & _). exists c, h, slots. rewrite no_slots_live in Hlive.
  split; [exact Hrun|]. clear Hrun. split; [exact Hok|]. split; [exact Hlive|]. split; [exact Hcell|]. left.
  destruct Hkind as [(j & r & fs & Hj & _)|(j & p & fs & Hj & Hcells & _ & -> & _)]; [by destruct (no_slots_none j r)|].
  exists j, (Some (mkRun p 0 fs [c])). split; [apply list_lookup_insert_eq; by eapply lookup_lt_Some|].
  split; [done|]. cbn [r_free]. intros ->. apply (f_equal length) in Hcells. unfold cells_at in Hcells.
  rewrite length_fmap, length_seqZ in Hcells. vm_compute in Hcells. discriminate Hcells.
Qed.

Lemma mgr_alloc_correct_witness :
  let pad := calc_header_padding (l_align demo_request) in
  ∃ c1 h slots c h' slots', live slots ≡ₚ [c1] ∧
    mgr_alloc 2 2 4096 demo_request h = Ok (object_ptr c pad, h') ∧
    heap_ok h' 4096 slots' ∧ live slots' ≡ₚ c :: live slots ∧ live_cell slots' 0 c ∧
    (∀ i r c', slots !! i = Some (Some r) → c' ∈ r_used r →
       c + class_size 0 ≤ c' ∨ c' + class_size (r_class r) ≤ c) ∧
    (l_align demo_request | object_ptr c pad) ∧
    object_ptr c pad + l_size demo_request ≤ c + class_size 0 ∧
    (from_run h h' slots slots' 0 c ∨ from_pages h h' slots slots' 0 c) ∧
    ∀ a, in_live slots a → words h' !! a = words h !! a.
Proof.
  destruct demo_one_live as (c1 & h & slots & _ & Hok & Hlive & _ & Hserve).
  destruct (mgr_alloc_correct h 4096 slots demo_request 4 0 1024 1 1) as (c & h' & slots' & Ha).
  - exact Hok.
  - reflexivity.
  - lia.
  - reflexivity.
  - reflexivity.
  - discriminate.
  - exact Hserve.
  - exists c1, h, slots, c, h', slots'. split; [exact Hlive|exact Ha].
Defined.

Lemma mgr_dealloc_correct_witness :
  let pad := calc_header_padding (l_align demo_request) in
  ∃ c h slots h' slots' j r us, live slots ≡ₚ [c] ∧
    mgr_dealloc 2 2 4096 (object_ptr c pad) demo_request h = Ok (tt, h') ∧
    heap_ok h' 4096 slots' ∧ live slots ≡ₚ c :: live slots' ∧
    slots !! j = Some (Some r) ∧ r_class r = 0%nat ∧ r_used r ≡ₚ c :: us ∧
    (if decide (us = []) then run_released h h' slots slots' j r else cell_returned h h' slots slots' j r c us) ∧
    ∀ a, in_live slots' a → words h' !! a = words h !! a.
Proof.
  destruct demo_one_live as (c & h & slots & _ & Hok & Hlive & Hcell & _).
  destruct (mgr_dealloc_correct h 4096 slots demo_request 4 0 1024 c 1 1) as (h' & slots' & j & r & us & Hd).
  - exact Hok.
  - reflexivity.
  - lia.
  - reflexivity.
  - reflexivity.
  - discriminate.
  - exact Hcell.
  - intros i r _ _. eexists. reflexivity.
  - exists c, h, slots, h', slots', j, r, us. split; [exact Hlive|exact Hd].
Defined.

(** ** Alignments above a page *)

(** A run starts at a page, wherever that is: an object that is to be aligned to two
    pages is not, when the run is on an odd page. *)
Example mgr_alloc_misaligned :
  ∃ ptr h', mgr_alloc 2 2 4096 (mkLayout 100 8192) (mkHeap (owned demo_heap) (words demo_heap) 17) = Ok (ptr, h') ∧
    ptr mod 8192 = 4096.
Proof.
  set (r := mgr_alloc 2 2 4096 (mkLayout 100 8192) (mkHeap (owned demo_heap) (words demo_heap) 17)).
  assert (match r with Ok (ptr, _) => ptr mod 8192 =? 4096 | _ => false end = true) as H by (vm_compute; reflexivity).
  destruct r as [[ptr h']| | |]; [|discriminate H..]. exists ptr, h'. split; [reflexivity|by apply Z.eqb_eq].
Qed.
