(* ===== verification/Heap.v ===== *)
(** * The kernel's heap

    [GLOBAL_ALLOCATOR] of src/src/mcache.rs with the pages of [BUDDY_ALLOCATOR], as
    the containers of the standard library use it.  What a container holds is a value
    of the model; here is the memory its buffers are requested from and given back
    to. *)

From S2P Require Import Prelude Page Buddy Mcache.

(** [kh_inner] is the address of the first manager, [kh_owned] and [kh_words] are the
    memory of the allocator, [kh_objs] the buffers the containers hold. *)
Record KHeap := mkKHeap {
  kh_inner : Z;
  kh_owned : gset Z;
  kh_words : gmap Z Z;
  kh_objs : list (Z * AllocLayout);
}.

Abbreviation HB := (ST (KHeap * BuddyAllocator)).

(** An operation of the allocator, whose pages are those of the buddy allocator. *)
Definition on_words {B} (f : Z → ST (Heap BuddyAllocator) B) : HB B := λ s,
  let kh := s.1 in
  '(b, h) ← f (kh_inner kh) (mkHeap (kh_owned kh) (kh_words kh) s.2);
  Ok (b, (mkKHeap (kh_inner kh) (owned h) (words h) (kh_objs kh), pages_of h)).

(** [alloc] and [dealloc] of the global allocator; [fuel] bounds the walks over the
    managers. *)
Definition ALLOC_DEPTH : nat := 2.
Definition heap_alloc (fuel : nat) (layout : AllocLayout) : HB Z :=
  on_words (λ inner, GlobalAllocator_alloc fuel ALLOC_DEPTH inner layout).
Definition heap_dealloc (fuel : nat) (ptr : Z) (layout : AllocLayout) : HB unit :=
  on_words (λ inner, GlobalAllocator_dealloc fuel ALLOC_DEPTH inner ptr layout).

(** ** Requests of the containers *)

(** A new buffer, or the [i]-th buffer given back; one that grows is a new buffer and
    the old one given back. *)
Inductive heap_op := HAlloc (layout : AllocLayout) | HFree (i : nat).

Definition heap_step (fuel : nat) (op : heap_op) : HB unit :=
  match op with
  | HAlloc layout =>
    ptr ← heap_alloc fuel layout;
    modify (λ s, (mkKHeap (kh_inner s.1) (kh_owned s.1) (kh_words s.1) (kh_objs s.1 ++ [(ptr, layout)]), s.2))
  | HFree i =>
    s ← get;
    '(ptr, layout) ← lift (unwrap (kh_objs s.1 !! i));
    _ ← heap_dealloc fuel ptr layout;
    modify (λ s, (mkKHeap (kh_inner s.1) (kh_owned s.1) (kh_words s.1) (delete i (kh_objs s.1)), s.2))
  end.

Fixpoint heap_ops (fuel : nat) (ops : list heap_op) : HB unit :=
  match ops with
  | [] => mret tt
  | op :: ops => _ ← heap_step fuel op; heap_ops fuel ops
  end.
