(* ===== verification/Task.v ===== *)
(** * Tasks (src/src/task.rs)

    The task structure, its file descriptors and the copies between user and
    kernel memory.  The memory is the bytes the kernel can address, by their
    virtual address in the kernel's page table; the register context is that of
    the architecture. *)

From S2P Require Import Prelude Page Address Bytes Text Mapping Elf Vfs Arch.

Definition USER_STACK_PAGES : Z := 16.

(** ** File descriptors *)

Record FdTable := mkFdTable { max_fd : Z; fd_files : gmap Z VfsFile }.
Definition FdTable_default : FdTable := mkFdTable 0 ∅.

Definition fd_add (file : VfsFile) : ST FdTable Z := λ t,
  let fd := max_fd t in
  max ← max_fd t +! 1;
  Ok (fd, mkFdTable max (<[fd:=file]> (fd_files t))).
Definition fd_get (fd : Z) (t : FdTable) : option VfsFile := fd_files t !! fd.
(** [*self.get_mut(fd) = file] for a descriptor that exists. *)
Definition fd_set (fd : Z) (file : VfsFile) (t : FdTable) : FdTable :=
  mkFdTable (max_fd t) (<[fd:=file]> (fd_files t)).
Definition fd_remove (fd : Z) (t : FdTable) : FdTable :=
  mkFdTable (max_fd t) (delete fd (fd_files t)).

(** ** Tasks *)

Definition KERNEL_PID : Z := 0.
Definition NICE_DEFAULT : Z := 0.
Definition NICE_MAX : Z := 19.
Definition NICE_MIN : Z := -20.

(** [Arc<(v_page, p_page, v_pages, flags)>]: [arc] tells the shared allocations
    apart. *)
Record PageAllocInfo := mkAlloc {
  arc : nat;
  a_vpage : Z;
  a_ppage : PhysPage;
  a_pages : Z;
  a_flags : list PFlags;
}.

(** The bytes of the kernel's memory. *)
Abbreviation bmem := (gmap Z Z).

Section task.
Context {AR : Arch}.

Record Task := mkTask {
  uid : Z;
  pid : Z;
  ppid : Z;
  page : PageMapper;
  nice : Z;
  context : Context;
  page_allocs : list PageAllocInfo;
  next_schedule : option Z;
  t_fds : FdTable;
}.

Definition set_nice (n : Z) (t : Task) : Task :=
  mkTask (uid t) (pid t) (ppid t) (page t) n (context t) (page_allocs t) (next_schedule t) (t_fds t).
Definition set_context (c : Context) (t : Task) : Task :=
  mkTask (uid t) (pid t) (ppid t) (page t) (nice t) c (page_allocs t) (next_schedule t) (t_fds t).
Definition set_next_schedule (n : option Z) (t : Task) : Task :=
  mkTask (uid t) (pid t) (ppid t) (page t) (nice t) (context t) (page_allocs t) n (t_fds t).
Definition set_fds (f : FdTable) (t : Task) : Task :=
  mkTask (uid t) (pid t) (ppid t) (page t) (nice t) (context t) (page_allocs t) (next_schedule t) f.

Definition renice (n : Z) (t : Task) : Task :=
  if (NICE_MIN <=? n) && (n <=? NICE_MAX) then set_nice n t else t.
Definition is_kernel (t : Task) : bool := pid t =? KERNEL_PID.

(** ** Copies between user and kernel memory *)

(** Whether [user_addr >> PAGE_BITS] is one of the pages of the allocation. *)
Definition alloc_contains (a : PageAllocInfo) (user_addr : Z) : res bool :=
  fin ← a_vpage a +! a_pages a;
  let p := Z.shiftr user_addr PAGE_BITS in
  Ok ((a_vpage a <=? p) && (p <? fin)).

(** The first allocation that contains the address. *)
Fixpoint find_alloc (allocs : list PageAllocInfo) (user_addr : Z) : res (option PageAllocInfo) :=
  match allocs with
  | [] => Ok None
  | a :: allocs =>
    b ← alloc_contains a user_addr;
    if b : bool then Ok (Some a) else find_alloc allocs user_addr
  end.

(** The kernel address of the byte at [offset] in the allocation. *)
Definition alloc_addr (a : PageAllocInfo) (offset : Z) : res Z :=
  vp ← VirtualPage_from (a_ppage a);
  b ← vp_0 vp *! PAGE_SIZE;
  b +! offset.

(** The inner loop of [copy_from_user]: [n] bytes of the buffer are left.  The
    bytes that were read. *)
Fixpoint read_run (m : bmem) (a : PageAllocInfo) (n : nat) (offset : Z) : res (list Z) :=
  match n with
  | O => Ok []
  | S n =>
    if offset <? ushl (a_pages a) PAGE_BITS then
      addr ← alloc_addr a offset;
      b ← deref (m !! addr);
      offset ← offset +! 1;
      bs ← read_run m a n offset;
      Ok (b :: bs)
    else Ok []
  end.

(** The outer loop: the bytes that were copied.  Every round copies a byte, so
    one round per byte and a last one are enough. *)
Fixpoint from_user_loop (fuel : nat) (m : bmem) (t : Task) (user_addr : Z) (n : nat) : res (list Z) :=
  match fuel with
  | O => NoFuel
  | S fuel =>
    match n with
    | O => Ok []
    | S _ =>
      r ← find_alloc (page_allocs t) user_addr;
      match r with
      | None => Ok []
      | Some a =>
        offset ← user_addr -! ushl (a_vpage a) PAGE_BITS;
        bs ← read_run m a n offset;
        if (length bs =? n)%nat then Ok bs
        else
          fin ← a_vpage a +! a_pages a;
          rest ← from_user_loop fuel m t (ushl fin PAGE_BITS) (n - length bs);
          Ok (bs ++ rest)
      end
    end
  end.

(** The count of copied bytes and the buffer. *)
Definition copy_from_user (m : bmem) (t : Task) (user_addr : Z) (kernel_buf : list Z) :
    res (nat * list Z) :=
  bs ← from_user_loop (S (length kernel_buf)) m t user_addr (length kernel_buf);
  Ok (length bs, bs ++ drop (length bs) kernel_buf).

(** The inner loop of [copy_to_user]: the memory and the bytes that are left. *)
Fixpoint write_run (m : bmem) (a : PageAllocInfo) (kernel_buf : list Z) (offset : Z) :
    res (bmem * list Z) :=
  match kernel_buf with
  | [] => Ok (m, [])
  | b :: rest =>
    if offset <? ushl (a_pages a) PAGE_BITS then
      addr ← alloc_addr a offset;
      _ ← deref (m !! addr);
      offset ← offset +! 1;
      write_run (<[addr:=b]> m) a rest offset
    else Ok (m, kernel_buf)
  end.

Fixpoint to_user_loop (fuel : nat) (m : bmem) (t : Task) (user_addr : Z) (kernel_buf : list Z) :
    res (bmem * list Z) :=
  match fuel with
  | O => NoFuel
  | S fuel =>
    match kernel_buf with
    | [] => Ok (m, [])
    | _ :: _ =>
      r ← find_alloc (page_allocs t) user_addr;
      match r with
      | None => Ok (m, kernel_buf)
      | Some a =>
        offset ← user_addr -! ushl (a_vpage a) PAGE_BITS;
        '(m, rest) ← write_run m a kernel_buf offset;
        match rest with
        | [] => Ok (m, [])
        | _ :: _ =>
          fin ← a_vpage a +! a_pages a;
          to_user_loop fuel m t (ushl fin PAGE_BITS) rest
        end
      end
    end
  end.

(** The count of copied bytes and the memory. *)
Definition copy_to_user (m : bmem) (t : Task) (user_addr : Z) (kernel_buf : list Z) :
    res (nat * bmem) :=
  '(m, rest) ← to_user_loop (S (length kernel_buf)) m t user_addr kernel_buf;
  Ok ((length kernel_buf - length rest)%nat, m).

Definition BUF_SIZE : nat := 16.

(** The bytes up to the first NUL, and whether there is one. *)
Fixpoint until_nul (l : list Z) : list Z * bool :=
  match l with
  | [] => ([], false)
  | b :: l => if b =? 0 then ([], true) else let '(s, e) := until_nul l in (b :: s, e)
  end.

(** The loop of [copy_user_string]: [user_addr] is the same in every round. *)
Fixpoint user_string_loop (fuel : nat) (m : bmem) (t : Task) (user_addr : Z) (string_vec : list Z) :
    res (list Z) :=
  match fuel with
  | O => NoFuel
  | S fuel =>
    '(len, buf) ← copy_from_user m t user_addr (replicate BUF_SIZE 0);
    let '(s, ended) := until_nul (take len buf) in
    let string_vec := string_vec ++ s in
    if (ended : bool) then Ok string_vec
    else if (len <? BUF_SIZE)%nat then Ok string_vec
    else user_string_loop fuel m t user_addr string_vec
  end.

Definition copy_user_string (fuel : nat) (m : bmem) (t : Task) (user_addr : Z) : res str :=
  s ← user_string_loop fuel m t user_addr [];
  Ok (from_utf8_lossy s).
End task.
