(* ===== verification/UserCopy.v ===== *)
(** * Copies between user and kernel memory: what they copy

    [uaddr] is the kernel address of the byte a user address stands for.  Both
    copies walk through the allocations run by run; here each is shown to move
    exactly the bytes of the longest mapped run of user addresses. *)

From S2P Require Import Prelude Page Address Bytes Text Mapping MappingSpec Elf Vfs Arch Task.

(** The allocation that a user address belongs to. *)
Fixpoint alloc_of (allocs : list PageAllocInfo) (ua : Z) : option PageAllocInfo :=
  match allocs with
  | [] => None
  | a :: allocs =>
    let p := Z.shiftr ua PAGE_BITS in
    if (a_vpage a <=? p) && (p <? a_vpage a + a_pages a) then Some a else alloc_of allocs ua
  end.

(** The kernel address of the first byte of an allocation. *)
Definition kbase (a : PageAllocInfo) : Z := (pp_0 (a_ppage a) + PAGE_OFFSET) * 4096.

Definition uaddr (allocs : list PageAllocInfo) (ua : Z) : option Z :=
  a ← alloc_of allocs ua; Some (kbase a + (ua - a_vpage a * 4096)).

(** An allocation whose pages have kernel addresses that are in memory. *)
Record alloc_ok (m : bmem) (a : PageAllocInfo) : Prop := {
  ok_virt : 0 ≤ a_vpage a ∧ 0 < a_pages a ∧ a_vpage a + a_pages a < 2 ^ 52;
  ok_phys : 0 ≤ pp_0 (a_ppage a) ∧ pp_0 (a_ppage a) + PAGE_OFFSET + a_pages a ≤ 2 ^ 52;
  ok_mem : ∀ o, 0 ≤ o < a_pages a * 4096 → is_Some (m !! (kbase a + o));
}.

(** No two allocations share a user page or a byte of memory. *)
Record allocs_ok (m : bmem) (allocs : list PageAllocInfo) : Prop := {
  ao_each : ∀ a, a ∈ allocs → alloc_ok m a;
  ao_virt : ∀ a b ua, a ∈ allocs → b ∈ allocs →
    a_vpage a * 4096 ≤ ua < (a_vpage a + a_pages a) * 4096 →
    a_vpage b * 4096 ≤ ua < (a_vpage b + a_pages b) * 4096 → a = b;
  ao_phys : ∀ a b o o', a ∈ allocs → b ∈ allocs →
    0 ≤ o < a_pages a * 4096 → 0 ≤ o' < a_pages b * 4096 → kbase a + o = kbase b + o' → a = b;
}.

Section copies.
Context {AR : Arch} (m : bmem) (t : Task) (Hok : allocs_ok m (page_allocs t)).

Abbreviation allocs := (page_allocs t).

Lemma page_of_addr v n ua :
  (v <=? Z.shiftr ua PAGE_BITS) && (Z.shiftr ua PAGE_BITS <? v + n) = true ↔
  v * 4096 ≤ ua < (v + n) * 4096.
Proof.
  unfold PAGE_BITS. rewrite Z.shiftr_div_pow2 by lia. change (2 ^ 12) with 4096.
  rewrite andb_true_iff, Z.leb_le, Z.ltb_lt.
  pose proof (Z.div_mod ua 4096 ltac:(lia)). pose proof (Z.mod_pos_bound ua 4096 ltac:(lia)). lia.
Qed.

Lemma alloc_of_Some l ua a :
  alloc_of l ua = Some a → a ∈ l ∧ a_vpage a * 4096 ≤ ua < (a_vpage a + a_pages a) * 4096.
Proof.
  induction l as [|b l IH]; simpl; [done|]. destruct (_ && _) eqn:Hb.
  - intros [= ->]. apply page_of_addr in Hb. split; [by left|done].
  - intros [Hin Hr]%IH. split; [by right|done].
Qed.

Lemma alloc_of_None l ua a :
  alloc_of l ua = None → a ∈ l → ¬ a_vpage a * 4096 ≤ ua < (a_vpage a + a_pages a) * 4096.
Proof.
  induction l as [|b l IH]; simpl; intros Hn Hin; [by apply elem_of_nil in Hin|].
  destruct (_ && _) eqn:Hb; [done|]. apply elem_of_cons in Hin as [->|Hin]; [|by apply IH].
  rewrite <- page_of_addr, Hb. done.
Qed.

Lemma alloc_of_in a ua :
  a ∈ allocs → a_vpage a * 4096 ≤ ua < (a_vpage a + a_pages a) * 4096 → alloc_of allocs ua = Some a.
Proof.
  intros Ha Hr. destruct (alloc_of allocs ua) as [b|] eqn:Hb.
  - apply alloc_of_Some in Hb as [Hb Hr']. f_equal. symmetry. by apply (ao_virt _ _ Hok a b ua).
  - exfalso. by apply (alloc_of_None _ _ a Hb Ha).
Qed.

Lemma find_alloc_run l ua :
  (∀ a, a ∈ l → alloc_ok m a) → find_alloc l ua = Ok (alloc_of l ua).
Proof.
  induction l as [|a l IH]; intros Hl; [done|]. cbn [find_alloc alloc_of]. unfold alloc_contains.
  destruct (ok_virt _ _ (Hl a ltac:(by left))) as (? & ? & ?).
  rewrite uadd_Ok by (unfold U64; lia). cbn [mbind res_bind].
  destruct (_ && _); [done|]. apply IH. intros b Hb. apply Hl. by right.
Qed.

Lemma ushl_small_page v : 0 ≤ v < 2 ^ 52 → ushl v PAGE_BITS = v * 4096.
Proof.
  intros Hv. unfold ushl, PAGE_BITS. rewrite Z.shiftl_mul_pow2 by lia. change (2 ^ 12) with 4096.
  apply Z.mod_small. unfold U64. lia.
Qed.

Lemma alloc_addr_run a o :
  alloc_ok m a → 0 ≤ o < a_pages a * 4096 → alloc_addr a o = Ok (kbase a + o).
Proof.
  intros [Hv Hp _] Ho. unfold alloc_addr, kbase. destruct (a_ppage a) as [p]. cbn [pp_0] in *.
  rewrite VirtualPage_from_Ok by (unfold U64; lia). cbn [mbind res_bind vp_0].
  change PAGE_SIZE with 4096. rewrite PAGE_OFFSET_val in *.
  rewrite umul_Ok by (unfold U64; lia). cbn [mbind res_bind]. apply uadd_Ok. unfold U64. lia.
Qed.

(** The bytes at [n] kernel addresses from [ka]. *)
Fixpoint mem_bytes (mm : bmem) (ka : Z) (n : nat) : list Z :=
  match n with
  | O => []
  | S n => default 0 (mm !! ka) :: mem_bytes mm (ka + 1) n
  end.

Lemma length_mem_bytes mm ka n : length (mem_bytes mm ka n) = n.
Proof. revert ka. induction n as [|n IH]; intros ka; simpl; [done|]. by rewrite IH. Qed.

Lemma mem_bytes_lookup mm ka n i :
  (i < n)%nat → mem_bytes mm ka n !! i = Some (default 0 (mm !! (ka + Z.of_nat i))).
Proof.
  revert ka i. induction n as [|n IH]; intros ka [|i] Hi; simpl; try lia.
  - by rewrite Z.add_0_r.
  - rewrite IH by lia. by replace (ka + 1 + Z.of_nat i) with (ka + Z.of_nat (S i)) by lia.
Qed.

Lemma read_run_run a n : ∀ o,
  alloc_ok m a → 0 ≤ o →
  read_run m a n o = Ok (mem_bytes m (kbase a + o) (Nat.min n (Z.to_nat (a_pages a * 4096 - o)))).
Proof.
  induction n as [|n IH]; intros o Ha Ho; [done|]. cbn [read_run].
  destruct (ok_virt _ _ Ha) as (Hv1 & Hv2 & Hv3). rewrite ushl_small_page by lia.
  destruct (Z.ltb_spec o (a_pages a * 4096)) as [Hlt|Hge].
  - rewrite alloc_addr_run by done. cbn [mbind res_bind].
    destruct (ok_mem _ _ Ha o ltac:(lia)) as [b Hb]. rewrite Hb. cbn [deref mbind res_bind].
    rewrite uadd_Ok by (unfold U64; lia). cbn [mbind res_bind]. rewrite IH by (done || lia). cbn [mbind res_bind].
    replace (Nat.min (S n) (Z.to_nat (a_pages a * 4096 - o)))
      with (S (Nat.min n (Z.to_nat (a_pages a * 4096 - (o + 1))))) by lia.
    cbn [mem_bytes]. rewrite Hb. by rewrite Z.add_assoc.
  - by replace (Nat.min (S n) (Z.to_nat (a_pages a * 4096 - o))) with 0%nat by lia.
Qed.

(** What is copied from [ua] on: [k] bytes, of which [f i] is the [i]-th kernel
    address; the run is as long as the buffer or ends at an unmapped address. *)
Definition mapped_run (ua : Z) (n k : nat) : Prop :=
  (k ≤ n)%nat ∧ (∀ i, (i < k)%nat → is_Some (uaddr allocs (ua + Z.of_nat i))) ∧
  ((k < n)%nat → uaddr allocs (ua + Z.of_nat k) = None).

Lemma mapped_run_unique ua n k k' : mapped_run ua n k → mapped_run ua n k' → k = k'.
Proof.
  intros (H1 & H2 & H3) (H1' & H2' & H3'). destruct (lt_eq_lt_dec k k') as [[Hlt| ->]|Hlt]; [|done|].
  - destruct (H2' k Hlt) as [ka Hka]. rewrite H3 in Hka by lia. done.
  - destruct (H2 k' Hlt) as [ka Hka]. rewrite H3' in Hka by lia. done.
Qed.

Lemma uaddr_None ua : alloc_of allocs ua = None → uaddr allocs ua = None.
Proof. unfold uaddr. by intros ->. Qed.

(** In one allocation the user addresses and the kernel addresses run together. *)
Lemma uaddr_in a ua :
  a ∈ allocs → a_vpage a * 4096 ≤ ua < (a_vpage a + a_pages a) * 4096 →
  uaddr allocs ua = Some (kbase a + (ua - a_vpage a * 4096)).
Proof. intros Ha Hr. unfold uaddr. by rewrite (alloc_of_in a ua Ha Hr). Qed.

(** Going on after a run of [j] bytes that ends with its allocation. *)
Lemma mapped_run_app a ua n j k :
  a ∈ allocs → a_vpage a * 4096 ≤ ua → ua + Z.of_nat j = (a_vpage a + a_pages a) * 4096 →
  (j ≤ n)%nat → mapped_run (ua + Z.of_nat j) (n - j) k → mapped_run ua n (j + k).
Proof.
  intros Ha Hlo Hj Hn (H1 & H2 & H3). split_and!; [lia| |].
  - intros i Hi. destruct (decide (i < j)%nat) as [Hlt|Hge].
    + rewrite (uaddr_in a) by (done || lia). by eexists.
    + specialize (H2 (i - j)%nat ltac:(lia)).
      by replace (ua + Z.of_nat j + Z.of_nat (i - j)) with (ua + Z.of_nat i) in H2 by lia.
  - intros Hlt. specialize (H3 ltac:(lia)).
    by replace (ua + Z.of_nat (j + k)) with (ua + Z.of_nat j + Z.of_nat k) by lia.
Qed.

Lemma from_user_loop_run fuel : ∀ ua n,
  (n < fuel)%nat → 0 ≤ ua →
  ∃ bs, from_user_loop fuel m t ua n = Ok bs ∧ mapped_run ua n (length bs) ∧
    ∀ i ka, (i < length bs)%nat → uaddr allocs (ua + Z.of_nat i) = Some ka → m !! ka = bs !! i.
Proof.
  induction fuel as [|fuel IH]; intros ua n Hfuel Hua; [lia|]. cbn [from_user_loop].
  destruct n as [|n].
  { exists []. split; [done|]. split; [split_and!; simpl; intros; lia|intros i ka Hi; simpl in Hi; lia]. }
  rewrite find_alloc_run by apply Hok. cbn [mbind res_bind].
  destruct (alloc_of allocs ua) as [a|] eqn:Ha.
  2: { exists []. split; [done|]. split; [|intros i ka Hi; simpl in Hi; lia].
       split_and!; simpl; [lia|lia|]. intros _. rewrite Z.add_0_r. by apply uaddr_None. }
  apply alloc_of_Some in Ha as [Hin Hr]. pose proof (ao_each _ _ Hok a Hin) as Haok.
  destruct (ok_virt _ _ Haok) as (Hv1 & Hv2 & Hv3).
  rewrite ushl_small_page by lia. rewrite usub_Ok by lia. cbn [mbind res_bind].
  rewrite read_run_run by (done || lia). cbn [mbind res_bind]. rewrite length_mem_bytes.
  set (o := ua - a_vpage a * 4096). set (j := Nat.min (S n) (Z.to_nat (a_pages a * 4096 - o))).
  assert (∀ i ka, (i < j)%nat → uaddr allocs (ua + Z.of_nat i) = Some ka →
    m !! ka = mem_bytes m (kbase a + o) j !! i) as Hrun.
  { intros i ka Hi. rewrite (uaddr_in a) by (done || lia). intros [= <-]. rewrite mem_bytes_lookup by done.
    destruct (ok_mem _ _ Haok (o + Z.of_nat i) ltac:(lia)) as [b Hb].
    replace (kbase a + (ua + Z.of_nat i - a_vpage a * 4096)) with (kbase a + (o + Z.of_nat i)) by lia.
    replace (kbase a + o + Z.of_nat i) with (kbase a + (o + Z.of_nat i)) by lia. by rewrite Hb. }
  destruct (Nat.eqb_spec j (S n)) as [Hj|Hj].
  - exists (mem_bytes m (kbase a + o) j). split; [done|]. rewrite length_mem_bytes. split; [|done].
    split_and!; [lia| |lia]. intros i Hi. rewrite (uaddr_in a) by (done || lia). by eexists.
  - rewrite uadd_Ok by (unfold U64; lia). cbn [mbind res_bind]. rewrite ushl_small_page by lia.
    replace ((a_vpage a + a_pages a) * 4096) with (ua + Z.of_nat j) by lia.
    destruct (IH (ua + Z.of_nat j) (S n - j)%nat) as (rest & Hrest & Hmr & Hbytes); [lia|lia|].
    rewrite Hrest. cbn [mbind res_bind]. eexists. split; [done|]. rewrite length_app, length_mem_bytes.
    split; [by apply (mapped_run_app a); [done|lia..|]|].
    intros i ka Hi Hka. destruct (decide (i < j)%nat) as [Hlt|Hge].
    + rewrite lookup_app_l by (by rewrite length_mem_bytes). by apply Hrun.
    + rewrite lookup_app_r, length_mem_bytes by (rewrite length_mem_bytes; lia).
      apply Hbytes; [lia|]. rewrite <- Hka. f_equal. lia.
Qed.
End copies.

Section writes.
Context {AR : Arch}.

(** ** Copies to user memory *)

Fixpoint write_bytes (m : bmem) (ka : Z) (bs : list Z) : bmem :=
  match bs with
  | [] => m
  | b :: bs => write_bytes (<[ka:=b]> m) (ka + 1) bs
  end.

Lemma write_bytes_outside bs : ∀ m ka addr,
  ¬ ka ≤ addr < ka + Z.of_nat (length bs) → write_bytes m ka bs !! addr = m !! addr.
Proof.
  induction bs as [|b bs IH]; intros m ka addr Ha; cbn [write_bytes length] in *; [done|].
  rewrite IH by lia. rewrite lookup_insert_ne; [done|lia].
Qed.

Lemma write_bytes_inside bs : ∀ m ka i,
  (i < length bs)%nat → write_bytes m ka bs !! (ka + Z.of_nat i) = bs !! i.
Proof.
  induction bs as [|b bs IH]; intros m ka [|i] Hi; cbn [write_bytes length] in *; try lia.
  - rewrite Z.add_0_r, write_bytes_outside by lia. by rewrite lookup_insert_eq.
  - replace (ka + Z.of_nat (S i)) with (ka + 1 + Z.of_nat i) by lia. rewrite IH by lia. done.
Qed.

Lemma write_bytes_dom bs : ∀ m ka addr, is_Some (m !! addr) → is_Some (write_bytes m ka bs !! addr).
Proof.
  induction bs as [|b bs IH]; intros m ka addr Ha; [done|]. cbn [write_bytes]. apply IH.
  destruct (decide (addr = ka)) as [->|Hne]; [rewrite lookup_insert_eq; by eexists|].
  by rewrite lookup_insert_ne by congruence.
Qed.

Lemma alloc_ok_mono m m' a :
  (∀ addr, is_Some (m !! addr) → is_Some (m' !! addr)) → alloc_ok m a → alloc_ok m' a.
Proof. intros Hd [Hv Hp Hm]. constructor; auto. Qed.

Lemma allocs_ok_mono m m' l :
  (∀ addr, is_Some (m !! addr) → is_Some (m' !! addr)) → allocs_ok m l → allocs_ok m' l.
Proof.
  intros Hd [He Hv Hp]. constructor; [|done..]. intros a Ha. by eapply alloc_ok_mono, He.
Qed.

Lemma write_run_run a buf : ∀ m o,
  alloc_ok m a → 0 ≤ o →
  let j := Nat.min (length buf) (Z.to_nat (a_pages a * 4096 - o)) in
  write_run m a buf o = Ok (write_bytes m (kbase a + o) (take j buf), drop j buf).
Proof.
  induction buf as [|b buf IH]; intros m o Ha Ho j; [done|]. cbn [write_run].
  destruct (ok_virt _ _ Ha) as (Hv1 & Hv2 & Hv3). rewrite ushl_small_page by lia.
  destruct (Z.ltb_spec o (a_pages a * 4096)) as [Hlt|Hge].
  - rewrite (alloc_addr_run m) by done. cbn [mbind res_bind].
    destruct (ok_mem _ _ Ha o ltac:(lia)) as [b' Hb]. rewrite Hb. cbn [deref mbind res_bind].
    rewrite uadd_Ok by (unfold U64; lia). cbn [mbind res_bind].
    rewrite IH; [|eapply alloc_ok_mono; [|done]|lia].
    + replace j with (S (Nat.min (length buf) (Z.to_nat (a_pages a * 4096 - (o + 1)))))
        by (unfold j; cbn [length]; lia).
      cbn [take drop write_bytes]. by rewrite Z.add_assoc.
    + intros addr Hs. destruct (decide (addr = kbase a + o)) as [->|Hne];
        [rewrite lookup_insert_eq; by eexists|by rewrite lookup_insert_ne by congruence].
  - by replace j with 0%nat by (unfold j; cbn [length]; lia).
Qed.

Lemma uaddr_inj m t ua ua' ka :
  allocs_ok m (page_allocs t) →
  uaddr (page_allocs t) ua = Some ka → uaddr (page_allocs t) ua' = Some ka → ua = ua'.
Proof.
  intros Hok Hu Hu'. unfold uaddr in *.
  destruct (alloc_of (page_allocs t) ua) as [a|] eqn:Ha; [|done].
  destruct (alloc_of (page_allocs t) ua') as [b|] eqn:Hb; [|done]. injection Hu as Hu. injection Hu' as Hu'.
  apply alloc_of_Some in Ha as [Ha Hra]. apply alloc_of_Some in Hb as [Hb Hrb].
  assert (a = b) as ->; [|lia].
  apply (ao_phys _ _ Hok a b (ua - a_vpage a * 4096) (ua' - a_vpage b * 4096)); (done || lia).
Qed.

(** The memory [m'] differs from [m] only in the [k] bytes that the user
    addresses from [ua] on stand for, and these are the first of [buf]. *)
Definition user_written (t : Task) (m m' : bmem) (ua : Z) (buf : list Z) (k : nat) : Prop :=
  (∀ i ka, (i < k)%nat → uaddr (page_allocs t) (ua + Z.of_nat i) = Some ka → m' !! ka = buf !! i) ∧
  (∀ addr, (∀ i, (i < k)%nat → uaddr (page_allocs t) (ua + Z.of_nat i) ≠ Some addr) →
     m' !! addr = m !! addr) ∧
  (∀ addr, is_Some (m !! addr) → is_Some (m' !! addr)).

Lemma user_written_app m t ua buf m1 m2 j k :
  allocs_ok m (page_allocs t) →
  user_written t m m1 ua (take j buf) j →
  user_written t m1 m2 (ua + Z.of_nat j) (drop j buf) k →
  user_written t m m2 ua buf (j + k).
Proof.
  intros Hok (Hw1 & Ho1 & Hd1) (Hw2 & Ho2 & Hd2). split_and!; [| |auto].
  - intros i ka Hi Hka. destruct (decide (i < j)%nat) as [Hlt|Hge].
    + rewrite Ho2; [rewrite (Hw1 i ka Hlt Hka); by apply lookup_take_lt|].
      intros i' _ Heq. assert (ua + Z.of_nat i = ua + Z.of_nat j + Z.of_nat i')
        by (by apply (uaddr_inj m t _ _ ka)). lia.
    + rewrite (Hw2 (i - j)%nat ka); [|lia|rewrite <- Hka; f_equal; lia].
      rewrite lookup_drop. f_equal. lia.
  - intros addr Hout. rewrite Ho2, Ho1; [done| |].
    + intros i Hi. apply Hout. lia.
    + intros i Hi. replace (ua + Z.of_nat j + Z.of_nat i) with (ua + Z.of_nat (j + i)) by lia.
      apply Hout. lia.
Qed.

Lemma user_written_run m t a ua buf j :
  allocs_ok m (page_allocs t) → a ∈ page_allocs t → a_vpage a * 4096 ≤ ua →
  ua + Z.of_nat j ≤ (a_vpage a + a_pages a) * 4096 → (j ≤ length buf)%nat →
  user_written t m (write_bytes m (kbase a + (ua - a_vpage a * 4096)) (take j buf)) ua (take j buf) j.
Proof.
  intros Hok Ha Hlo Hhi Hj. split_and!; [| |intros; by apply write_bytes_dom].
  - intros i ka Hi. rewrite (uaddr_in m t Hok a) by (done || lia). intros [= <-].
    replace (kbase a + (ua + Z.of_nat i - a_vpage a * 4096))
      with (kbase a + (ua - a_vpage a * 4096) + Z.of_nat i) by lia.
    apply write_bytes_inside. rewrite length_take. lia.
  - intros addr Hout. apply write_bytes_outside. rewrite length_take. intros Hin.
    apply (Hout (Z.to_nat (addr - (kbase a + (ua - a_vpage a * 4096))))); [lia|].
    rewrite (uaddr_in m t Hok a) by (done || lia). f_equal. lia.
Qed.

Lemma to_user_loop_run t fuel : ∀ m ua buf,
  allocs_ok m (page_allocs t) → (length buf < fuel)%nat → 0 ≤ ua →
  ∃ k m', to_user_loop fuel m t ua buf = Ok (m', drop k buf) ∧ mapped_run t ua (length buf) k ∧
    user_written t m m' ua buf k.
Proof.
  induction fuel as [|fuel IH]; intros m ua buf Hok Hfuel Hua; [lia|]. cbn [to_user_loop].
  assert (user_written t m m ua buf 0) as Hnone by (split_and!; intros; done || lia).
  destruct buf as [|b0 buf0].
  { exists 0%nat, m. split; [done|]. split; [split_and!; simpl; intros; lia|done]. }
  set (buf := b0 :: buf0) in *. rewrite find_alloc_run with (m := m) by apply Hok. cbn [mbind res_bind].
  destruct (alloc_of (page_allocs t) ua) as [a|] eqn:Ha.
  2: { exists 0%nat, m. split; [done|]. split; [|done]. split_and!; [lia|intros; lia|].
       intros _. rewrite Z.add_0_r. by apply uaddr_None. }
  apply alloc_of_Some in Ha as [Hin Hr]. pose proof (ao_each _ _ Hok a Hin) as Haok.
  destruct (ok_virt _ _ Haok) as (Hv1 & Hv2 & Hv3).
  rewrite ushl_small_page by lia. rewrite usub_Ok by lia. cbn [mbind res_bind].
  rewrite write_run_run by (done || lia). cbn [mbind res_bind].
  set (o := ua - a_vpage a * 4096). set (j := Nat.min (length buf) (Z.to_nat (a_pages a * 4096 - o))).
  set (m1 := write_bytes m (kbase a + o) (take j buf)).
  assert (0 < j)%nat as Hj by (unfold j, buf; cbn [length]; lia).
  assert (user_written t m m1 ua (take j buf) j) as Hw1
    by (apply user_written_run; [done|done|lia|unfold j, o; lia|unfold j; lia]).
  destruct (decide (j = length buf)) as [Hjl|Hjl].
  - rewrite (drop_ge buf j) by lia. exists j, m1. rewrite (drop_ge buf j) by lia. split; [done|].
    split; [|by rewrite (take_ge buf j) in Hw1 by lia].
    split_and!; [lia| |lia]. intros i Hi. rewrite (uaddr_in m t Hok a) by (done || lia). by eexists.
  - destruct (drop j buf) as [|c rest] eqn:Hdrop.
    { apply (f_equal length) in Hdrop. rewrite length_drop in Hdrop.
      change (@length Z []) with 0%nat in Hdrop. lia. }
    rewrite uadd_Ok by (unfold U64; lia). cbn [mbind res_bind]. rewrite ushl_small_page by lia.
    replace ((a_vpage a + a_pages a) * 4096) with (ua + Z.of_nat j) by lia. rewrite <- Hdrop.
    destruct (IH m1 (ua + Z.of_nat j) (drop j buf)) as (k & m2 & Hrun & Hmr & Hw2).
    + eapply allocs_ok_mono; [|done]. apply Hw1.
    + rewrite length_drop. lia.
    + lia.
    + exists (j + k)%nat, m2. rewrite Hrun, drop_drop. split; [done|]. rewrite length_drop in Hmr. split.
      * apply (mapped_run_app m t Hok a); (done || lia).
      * by eapply user_written_app.
Qed.
End writes.
