(* ===== verification/Sched.v ===== *)
(** * The scheduler (src/src/task.rs)

    The scheduler's own state, and the memory its operations work on: the page
    tables, the global page allocator, the heap and the bytes of the kernel's memory.
    [clock n] is the value of the hardware counter at its [n]-th reading. *)

From S2P Require Import Prelude Page Address Bytes Text Buddy Mapping Heap Elf Vfs Arch Task.

#[local] Existing Instances arch_entry arch_mapper.

(** ** State *)

(** A [BTreeSet<(usize, usize)>] is the list of its items in their order, which
    is that of the first component, then of the second. *)
Definition vr_lt (a b : Z * Z) : bool := (a.1 <? b.1) || ((a.1 =? b.1) && (a.2 <? b.2)).

Fixpoint vr_insert (e : Z * Z) (s : list (Z * Z)) : list (Z * Z) :=
  match s with
  | [] => [e]
  | e' :: s' => if vr_lt e e' then e :: s else if bool_decide (e = e') then s else e' :: vr_insert e s'
  end.

Section arch.
Context {AR : Arch}.

Record Scheduler := mkScheduler {
  tasks : gmap Z Task;
  vruntime : list (Z * Z);
  current_pid : Z;
  max_pid : Z;
  trap_stack : VirtPage;
}.

(** [k_reads] counts the readings of the timer, [k_arcs] the shared allocations
    made so far; [k_heap] is the memory of the small-object allocator. *)
Record Kmem := mkKmem {
  k_tabs : tmem;
  k_buddy : BuddyAllocator;
  k_bytes : bmem;
  k_reads : nat;
  k_arcs : nat;
  k_heap : KHeap;
}.

Abbreviation K := (ST (Scheduler * Kmem)).

Definition on_sched {B} (f : ST Scheduler B) : K B := λ s, '(b, x) ← f s.1; Ok (b, (x, s.2)).
Definition on_kmem {B} (f : ST Kmem B) : K B := λ s, '(b, x) ← f s.2; Ok (b, (s.1, x)).

Definition on_tables {B} (f : ST (tmem * BuddyAllocator) B) : ST Kmem B := λ k,
  '(b, (t, a)) ← f (k_tabs k, k_buddy k);
  Ok (b, mkKmem t a (k_bytes k) (k_reads k) (k_arcs k) (k_heap k)).

Definition on_buddy {B} (f : ST BuddyAllocator B) : ST Kmem B := λ k,
  '(b, a) ← f (k_buddy k);
  Ok (b, mkKmem (k_tabs k) a (k_bytes k) (k_reads k) (k_arcs k) (k_heap k)).

Definition on_heap {B} (f : ST (KHeap * BuddyAllocator) B) : ST Kmem B := λ k,
  '(b, (h, a)) ← f (k_heap k, k_buddy k);
  Ok (b, mkKmem (k_tabs k) a (k_bytes k) (k_reads k) (k_arcs k) h).

(** [core::ptr::copy(src, dst, n)] of bytes that were read from [src]. *)
Fixpoint read_mem (m : bmem) (addr : Z) (n : nat) : res (list Z) :=
  match n with
  | O => Ok []
  | S n => b ← deref (m !! addr); bs ← read_mem m (addr + 1) n; Ok (b :: bs)
  end.
Fixpoint write_mem (m : bmem) (addr : Z) (bs : list Z) : res bmem :=
  match bs with
  | [] => Ok m
  | b :: bs => _ ← deref (m !! addr); write_mem (<[addr:=b]> m) (addr + 1) bs
  end.
Definition put_bytes (addr : Z) (bs : list Z) : ST Kmem unit := λ k,
  m ← write_mem (k_bytes k) addr bs;
  Ok (tt, mkKmem (k_tabs k) (k_buddy k) m (k_reads k) (k_arcs k) (k_heap k)).
Definition ptr_copy (src dst : Z) (n : nat) : ST Kmem unit :=
  k ← get;
  bs ← lift (read_mem (k_bytes k) src n);
  put_bytes dst bs.

(** [Arc::new]. *)
Definition arc_new (vp : Z) (pp : PhysPage) (n : Z) (fl : list PFlags) : ST Kmem PageAllocInfo := λ k,
  Ok (mkAlloc (k_arcs k) vp pp n fl,
      mkKmem (k_tabs k) (k_buddy k) (k_bytes k) (k_reads k) (S (k_arcs k)) (k_heap k)).

Section sched.
Context (clock : nat → Z).

(** [get_sys_time] (src/src/time.rs). *)
Definition get_sys_time : ST Kmem Z := λ k,
  t ← sys_nanos (clock (k_reads k));
  Ok (t, mkKmem (k_tabs k) (k_buddy k) (k_bytes k) (S (k_reads k)) (k_arcs k) (k_heap k)).

(** ** Tasks of the scheduler *)

Definition current_task (s : Scheduler) : res Task := unwrap (tasks s !! current_pid s).

Definition set_task (p : Z) (t : Task) (s : Scheduler) : Scheduler :=
  mkScheduler (<[p:=t]> (tasks s)) (vruntime s) (current_pid s) (max_pid s) (trap_stack s).

(** [vruntime += (task.nice + NICE_MAX) as usize]. *)
Definition charge (vr : Z) (t : Task) : res Z := vr +! ((nice t + NICE_MAX) mod U64).

(** The part of a round of [schedule] before the [match]: the first task of the
    set is charged and becomes the current one. *)
Definition pick (s : Scheduler) : res (Task * Scheduler) :=
  match vruntime s with
  | [] => Panic
  | (vr, p) :: rest =>
    task ← unwrap (tasks s !! p);
    vr ← charge vr task;
    let s := mkScheduler (tasks s) (vr_insert (vr, p) rest) p (max_pid s) (trap_stack s) in
    task ← current_task s;
    Ok (task, s)
  end.

Fixpoint schedule (fuel : nat) : K Task := λ s,
  match fuel with
  | O => NoFuel
  | S fuel =>
    '(task, sc) ← pick s.1;
    match next_schedule task with
    | None => Ok (task, (sc, s.2))
    | Some ns =>
      '(now, k) ← get_sys_time s.2;
      if ns <=? now
      then let task := set_next_schedule None task in Ok (task, (set_task (current_pid sc) task sc, k))
      else schedule fuel (sc, k)
    end
  end.

(** [Arc::strong_count]: the clones are those in the tasks' lists. *)
Definition count_arc (i : nat) (l : list PageAllocInfo) : nat :=
  length (filter (λ a, arc a = i) l).
Definition strong_count (i : nat) (own : list PageAllocInfo) (ts : gmap Z Task) : nat :=
  (count_arc i own + sum_list_with (λ t, count_arc i (page_allocs t)) (map_to_list ts).*2)%nat.

(** Enough rounds of [destroy]: at level 2 two for every entry and a last one;
    further up those of the table below and one for every entry, and a last
    one. *)
Fixpoint destroy_rounds (level : nat) : Z :=
  match level with
  | O | S O => 1
  | S level => PTES_PER_DIR * (destroy_rounds level + 1) + 1
  end.
Definition DESTROY_FUEL : nat := Z.to_nat (destroy_rounds (LEVEL - 1)).

(** The second loop of [Task::drop]. *)
Fixpoint drop_allocs (own : list PageAllocInfo) (ts : gmap Z Task) (l : list PageAllocInfo) : ST Kmem unit :=
  match l with
  | [] => mret tt
  | a :: l =>
    _ ← (if (strong_count (arc a) own ts =? 1)%nat then
           vp ← lift (VirtualPage_from (a_ppage a));
           n ← lift (ceil_to_power_2 (a_pages a));
           on_buddy (global_free_pages (vp_0 vp) n)
         else mret tt);
    drop_allocs own ts l
  end.

(** [Drop for Task]; [ts] are the other tasks. *)
Definition drop_task (ts : gmap Z Task) (t : Task) : ST Kmem unit :=
  _ ← on_tables (mapper_destroy DESTROY_FUEL (page t));
  drop_allocs (page_allocs t) ts (page_allocs t).

Definition kill (fuel : nat) (p : Z) : K unit :=
  s ← get;
  let ts := delete p (tasks s.1) in
  _ ← match tasks s.1 !! p with
      | Some t => on_kmem (drop_task ts t)
      | None => mret tt
      end;
  _ ← on_sched (modify (λ s, mkScheduler ts (filter (λ e, e.2 ≠ p) (vruntime s)) (current_pid s)
                                (max_pid s) (trap_stack s)));
  _ ← schedule fuel;
  mret tt.

(** The context in [ctx] is that of the current task; the result is the context
    of the next one. *)
Definition switch_task (fuel : nat) (ctx : Context) : K (Task * Context) :=
  s ← get;
  t ← lift (current_task s.1);
  _ ← on_sched (modify (set_task (current_pid s.1) (set_context ctx t)));
  next_task ← schedule fuel;
  mret (next_task, context next_task).

(** ** New tasks *)

(** [let (min_vruntime, _) = vruntime.first().unwrap(); vruntime.insert(..)]. *)
Definition enqueue (p : Z) : ST Scheduler unit := λ s,
  '(min_vruntime, _) ← unwrap (head (vruntime s));
  Ok (tt, mkScheduler (tasks s) (vr_insert (min_vruntime, p) (vruntime s)) (current_pid s) (max_pid s)
            (trap_stack s)).

(** [max_pid += 1]. *)
Definition new_pid : ST Scheduler Z := λ s,
  p ← max_pid s +! 1;
  Ok (p, mkScheduler (tasks s) (vruntime s) (current_pid s) p (trap_stack s)).

(** A page table with the kernel and the trap stack in it. *)
Definition new_address_space (L : Layout) (stack : VirtPage) : ST Kmem PageMapper :=
  page ← on_tables mapper_new;
  _ ← on_tables (map_kernel_region L page);
  pp ← lift (PhysicalPage_from stack);
  _ ← on_tables (map_data page (vp_0 stack) (pp_0 pp) 16);
  mret page.

(** The mapping of a user segment by its flags. *)
Definition map_user (page : PageMapper) (fl : list PFlags) (vp : Z) (pp : PhysPage) (n : Z) : ST Kmem unit :=
  if bool_decide (PExec ∈ fl) then on_tables (map_text_u page vp (pp_0 pp) n)
  else if bool_decide (PWrite ∈ fl) then on_tables (map_data_u page vp (pp_0 pp) n)
  else on_tables (map_rodata_u page vp (pp_0 pp) n).

(** The loop of [fork] over the allocations of the parent. *)
Fixpoint fork_allocs (page : PageMapper) (l : list PageAllocInfo) : ST Kmem (list PageAllocInfo) :=
  match l with
  | [] => mret []
  | a :: l =>
    a' ← (if negb (bool_decide (PExec ∈ a_flags a)) && bool_decide (PWrite ∈ a_flags a) then
            n ← lift (ceil_to_power_2 (a_pages a));
            vp ← on_buddy (global_alloc_pages n);
            pp ← lift (PhysicalPage_from (@mkVP PAGE_OFFSET vp));
            a' ← arc_new (a_vpage a) pp (a_pages a) (a_flags a);
            _ ← on_tables (map_data_u page (a_vpage a) (pp_0 pp) (a_pages a));
            dst ← lift (VirtualPage_from pp);
            _ ← ptr_copy (ushl (a_vpage a) PAGE_BITS) (ushl (vp_0 dst) PAGE_BITS)
                         (Z.to_nat (ushl (a_pages a) PAGE_BITS));
            mret a'
          else
            _ ← map_user page (a_flags a) (a_vpage a) (a_ppage a) (a_pages a);
            mret a);
    rest ← fork_allocs page l;
    mret (a' :: rest)
  end.

Definition fork (L : Layout) : K Z :=
  p ← on_sched new_pid;
  s ← get;
  page ← on_kmem (new_address_space L (trap_stack s.1));
  t ← lift (current_task s.1);
  allocs ← on_kmem (fork_allocs page (page_allocs t));
  let child := mkTask (uid t) p (pid t) page (nice t) (context t) allocs None FdTable_default in
  _ ← on_sched (modify (set_task p child));
  _ ← on_sched (enqueue p);
  mret p.

(** The loop of [create_from_elf] over the program headers. *)
Fixpoint load_segments (page : PageMapper) (elf_bytes : list Z) (progs : list Program) :
    ST Kmem (list PageAllocInfo) :=
  match progs with
  | [] => mret []
  | prog :: progs =>
    if bool_decide (p_type prog = Load) then
      let v_page := Z.shiftr (v_addr prog) PAGE_BITS in
      let v_pages := div_ceil (p_memsz prog) PAGE_SIZE in
      n ← lift (ceil_to_power_2 v_pages);
      vp ← on_buddy (global_alloc_pages n);
      p_page ← lift (PhysicalPage_from (@mkVP PAGE_OFFSET vp));
      a ← arc_new v_page p_page v_pages (p_flags prog);
      _ ← map_user page (p_flags prog) v_page p_page v_pages;
      let p_off := Z.land (v_addr prog) (PAGE_SIZE - 1) in
      src ← lift (slice_from elf_bytes (Z.to_nat (p_offset prog)));
      bs ← lift (if (Z.to_nat (p_filesz prog) <=? length src)%nat
                 then Ok (take (Z.to_nat (p_filesz prog)) src) else Undef);
      vp ← lift (VirtualPage_from p_page);
      b ← lift (vp_0 vp *! PAGE_SIZE);
      dst ← lift (b +! p_off);
      _ ← put_bytes dst bs;
      rest ← load_segments page elf_bytes progs;
      mret (a :: rest)
    else load_segments page elf_bytes progs
  end.

Definition create_from_elf (L : Layout) (elf_bytes : list Z) : K (Z + ElfError) :=
  r ← lift (Elf_parse elf_bytes);
  match r with
  | inr e => mret (inr e)
  | inl elf =>
    page ← on_kmem (on_tables mapper_new);
    stack ← on_kmem (on_buddy (global_alloc_pages USER_STACK_PAGES));
    s ← get;
    _ ← on_kmem (on_tables (map_kernel_region L page));
    tp ← lift (PhysicalPage_from (trap_stack s.1));
    _ ← on_kmem (on_tables (map_data page (vp_0 (trap_stack s.1)) (pp_0 tp) 16));
    sp ← lift (PhysicalPage_from (@mkVP PAGE_OFFSET stack));
    _ ← on_kmem (on_tables (map_data_u page stack (pp_0 sp) USER_STACK_PAGES));
    a0 ← on_kmem (arc_new stack sp USER_STACK_PAGES [PRead; PWrite]);
    allocs ← on_kmem (load_segments page elf_bytes (p_headers elf));
    top ← lift (stack +! USER_STACK_PAGES);
    ctx ← lift (user_context (e_entry elf) (ushl top PAGE_BITS));
    p ← on_sched new_pid;
    s ← get;
    t ← lift (current_task s.1);
    let task := mkTask (uid t) p (pid t) page (nice t) ctx (a0 :: allocs) None FdTable_default in
    _ ← on_sched (modify (set_task p task));
    _ ← on_sched (enqueue p);
    mret (inl p)
  end.

Definition kernel_fork : K unit :=
  s ← get;
  t ← lift (current_task s.1);
  p ← lift (max_pid s.1 +! 1);
  page ← on_kmem (on_tables mapper_new);
  let new_task := mkTask (uid t) p (pid t) page (nice t) Context_default [] None FdTable_default in
  _ ← on_sched (modify (set_task p new_task));
  _ ← on_sched new_pid;
  mret tt.

(** [task_init] after the trap stack has been allocated: [kernel_pt] is the page
    of [KERNEL_PT]. *)
Definition first_scheduler (kernel_pt : PhysPage) (trap_stack : VirtPage) : res Scheduler :=
  root ← VirtualPage_from kernel_pt;
  let kernel_task := mkTask 0 KERNEL_PID 0 (from_root root) NICE_DEFAULT Context_default [] None
                       FdTable_default in
  Ok (mkScheduler {[KERNEL_PID := kernel_task]} (vr_insert (0, KERNEL_PID) []) KERNEL_PID 0 trap_stack).
End sched.
End arch.
