(* ===== verification/SchedSpec.v ===== *)
(** * The run queue

    The order of the run queue, the invariant of the scheduler, one round of
    [schedule] and the task that its rounds choose while the counter moves on. *)

From Stdlib Require Import Sorting.Sorted.
From S2P Require Import Prelude Page Address Bytes Text Buddy Mapping Elf Vfs Arch Task Sched.

(** ** The order of the queue *)

Definition vlt (a b : Z * Z) : Prop := a.1 < b.1 ∨ (a.1 = b.1 ∧ a.2 < b.2).

Lemma vr_lt_spec a b : reflect (vlt a b) (vr_lt a b).
Proof.
  destruct (vr_lt a b) eqn:Hb; constructor; unfold vr_lt, vlt in *.
  - apply orb_true_iff in Hb as [Hb|[H1 H2]%andb_true_iff]; [left; by apply Z.ltb_lt|].
    right. apply Z.eqb_eq in H1. apply Z.ltb_lt in H2. done.
  - intros Hv. apply orb_false_iff in Hb as [H1%Z.ltb_ge H2]. destruct Hv as [Hv|[Hv1 Hv2]]; [lia|].
    apply andb_false_iff in H2 as [H2%Z.eqb_neq|H2%Z.ltb_ge]; lia.
Qed.

Lemma vlt_trans a b c : vlt a b → vlt b c → vlt a c.
Proof. unfold vlt. lia. Qed.

Abbreviation sorted := (StronglySorted vlt).

Lemma vr_insert_perm e s : e ∉ s → vr_insert e s ≡ₚ e :: s.
Proof.
  induction s as [|e' s IH]; intros He; [done|]. apply not_elem_of_cons in He as [Hne He].
  cbn [vr_insert]. destruct (vr_lt e e'); [done|]. rewrite bool_decide_eq_false_2 by done.
  rewrite IH by done. apply Permutation_swap.
Qed.

Lemma vr_insert_sorted e s : sorted s → e ∉ s → sorted (vr_insert e s).
Proof.
  induction s as [|e' s IH]; intros Hs He; cbn [vr_insert]; [by repeat constructor|].
  apply not_elem_of_cons in He as [Hne He]. inversion Hs as [|? ? Hs' Hall]; subst.
  destruct (vr_lt_spec e e') as [Hlt|Hge].
  - constructor; [done|]. constructor; [done|]. eapply list.Forall_impl; [exact Hall|].
    intros x Hx. by eapply vlt_trans.
  - rewrite bool_decide_eq_false_2 by done. constructor; [by apply IH|].
    assert (vlt e' e) as Hlt.
    { unfold vlt in *. destruct e as [v p], e' as [v' p']. cbn [fst snd] in *.
      destruct (Z.lt_trichotomy v v') as [|[->|]]; [lia| |lia].
      destruct (Z.lt_trichotomy p p') as [|[->|]]; [lia|done|lia]. }
    apply list.Forall_forall. intros x Hx.
    assert (x ∈ e :: s) as [->|Hx']%elem_of_cons by (by rewrite <- vr_insert_perm); [done|].
    by eapply list.Forall_forall in Hall.
Qed.

(** ** The invariant *)

Section sched.
Context {AR : Arch}.

(** Every entry of the queue is that of a task, and no task has two. *)
Record sched_wf (s : Scheduler) : Prop := {
  sw_sorted : sorted (vruntime s);
  sw_once : NoDup (vruntime s).*2;
  sw_task : ∀ v p, (v, p) ∈ vruntime s → is_Some (tasks s !! p);
}.

(** What a task is charged for a turn. *)
Definition turn (t : Task) : Z := nice t + NICE_MAX.

(** A task that may run at time [now]. *)
Definition awake (now : Z) (t : Task) : Prop :=
  match next_schedule t with None => True | Some ns => ns ≤ now end.

#[global] Instance awake_dec now t : Decision (awake now t).
Proof. unfold awake. destruct (next_schedule t); apply _. Defined.

Definition picked (s : Scheduler) (v p : Z) (rest : list (Z * Z)) : Scheduler :=
  mkScheduler (tasks s) (vr_insert (v, p) rest) p (max_pid s) (trap_stack s).

Lemma pick_run s v p rest t :
  vruntime s = (v, p) :: rest → tasks s !! p = Some t → 0 ≤ turn t → v + turn t < U64 → 0 ≤ v →
  pick s = Ok (t, picked s (v + turn t) p rest).
Proof.
  intros Hv Ht Hn Hlt Hv0. unfold pick. rewrite Hv, Ht. cbn [unwrap mbind res_bind].
  unfold charge. fold (turn t). rewrite Z.mod_small by lia. rewrite uadd_Ok by done.
  cbn [mbind res_bind]. unfold current_task. cbn [tasks current_pid]. rewrite Ht. done.
Qed.

Lemma once_fresh (v p v' : Z) (rest : list (Z * Z)) : NoDup ((v, p) :: rest).*2 → (v', p) ∉ rest.
Proof.
  rewrite fmap_cons. intros [Hp _]%list.NoDup_cons Hin. apply Hp. cbn [snd].
  change p with (v', p).2. by apply list_elem_of_fmap_2.
Qed.

Lemma picked_wf s v p rest v' :
  sched_wf s → vruntime s = (v, p) :: rest → sched_wf (picked s v' p rest).
Proof.
  intros [Hs Ho Ht] Hv. rewrite Hv in *. inversion Hs as [|? ? Hs' _]; subst.
  assert ((v', p) ∉ rest) as Hf by (by eapply once_fresh).
  constructor; cbn [picked vruntime tasks].
  - by apply vr_insert_sorted.
  - rewrite vr_insert_perm by done. exact Ho.
  - intros v2 p2. rewrite vr_insert_perm by done. intros [[= -> ->]|Hin]%elem_of_cons.
    + apply (Ht v). by left.
    + apply (Ht v2). by right.
Qed.

Lemma head_least s v p rest e :
  sched_wf s → vruntime s = (v, p) :: rest → e ∈ vruntime s → e = (v, p) ∨ vlt (v, p) e.
Proof.
  intros [Hs _ _] Hv. rewrite Hv in *. inversion Hs as [|? ? _ Hall]; subst.
  intros [->|Hin]%elem_of_cons; [by left|right]. by eapply list.Forall_forall in Hall.
Qed.

(** ** Rounds over sleeping tasks *)

(** How far the entries are below the bound [b], in all. *)
Definition distance (b : Z) (q : list (Z * Z)) : nat :=
  sum_list_with (λ e, Z.to_nat (b - e.1)) q.

Lemma distance_perm b q q' : q ≡ₚ q' → distance b q = distance b q'.
Proof. unfold distance. induction 1; simpl; lia. Qed.

(** ** The clock and the tasks a call starts from *)

(** The next [len] readings of the counter, from number [from] on, show the time
    [nanos], which does not go backwards. *)
Record clock_shows (clock : nat → Z) (nanos : nat → Z) (from len : nat) : Prop := {
  cs_shows : ∀ n, (from ≤ n < from + len)%nat → sys_nanos (clock n) = Ok (nanos n);
  cs_mono : ∀ n m, (from ≤ n ≤ m)%nat → (m < from + len)%nat → nanos n ≤ nanos m;
}.

(** A queue on which [schedule] ends: an awake task has the entry [b].  The task of
    nice -20 is left out, whose charge wraps to [2^64 - 1], and a sleeping one of nice
    -19, which is charged nothing and is tried again until it wakes. *)
Record sched_ready (now : Z) (s : Scheduler) (b : Z) : Prop := {
  sr_wf : sched_wf s;
  sr_nice : ∀ p t, tasks s !! p = Some t → -19 ≤ nice t ≤ 19 ∧ (awake now t ∨ -18 ≤ nice t);
  sr_pos : ∀ v p, (v, p) ∈ vruntime s → 0 ≤ v;
  sr_bound : b + 38 < U64;
  sr_awake : ∃ r t, tasks s !! r = Some t ∧ awake now t ∧ (b, r) ∈ vruntime s;
}.

(** The task may run at one of the readings in the range, or does not sleep. *)
Definition woken (nanos : nat → Z) (from til : nat) (t : Task) : Prop :=
  match next_schedule t with
  | None => True
  | Some ns => ∃ n, (from ≤ n < til)%nat ∧ ns ≤ nanos n
  end.

(** The entry [(v, p)] of the task [t], reached from the queue of [s] by charging
    only tasks that sleep at time [now]. *)
Definition passed_over (now : Z) (s : Scheduler) (v p : Z) (t : Task) : Prop :=
  ∃ v0 m, (v0, p) ∈ vruntime s ∧ 0 ≤ m ∧ v = v0 + m * turn t ∧ (awake now t → m = 0).

(** [schedule] has chosen the task [t] of process [p] at its entry [v]: it may run,
    and its entry comes before those of all tasks that were awake at the start. *)
Record chosen (nanos : nat → Z) (from til : nat) (s : Scheduler) (v p : Z) (t : Task) : Prop := {
  ch_task : tasks s !! p = Some t;
  ch_woken : woken nanos from til t;
  ch_entry : passed_over (nanos from) s v p t;
  ch_first : ∀ v' p' t', (v', p') ∈ vruntime s → tasks s !! p' = Some t' → awake (nanos from) t' →
    (v', p') = (v, p) ∨ vlt (v, p) (v', p');
}.

Section rounds.
Context (clock nanos : nat → Z) (from len : nat).
Context (Hclock : clock_shows clock nanos from len).
Abbreviation now := (nanos from).

(** [s'] comes from [s] by charging tasks that sleep at the start. *)
Definition same_awake (s s' : Scheduler) : Prop :=
  tasks s' = tasks s ∧ (vruntime s').*2 ≡ₚ (vruntime s).*2 ∧
  (∀ v p t, (v, p) ∈ vruntime s' → tasks s !! p = Some t → passed_over now s v p t) ∧
  ∀ v p t, tasks s !! p = Some t → awake now t → ((v, p) ∈ vruntime s ↔ (v, p) ∈ vruntime s').

Lemma same_awake_refl s : same_awake s s.
Proof.
  split_and!; [done..| |done]. intros v p t Hin _. exists v, 0. split_and!; [done|done|lia|done].
Qed.

Definition read_again (k : Kmem) : Kmem :=
  mkKmem (k_tabs k) (k_buddy k) (k_bytes k) (S (k_reads k)) (k_arcs k) (k_heap k).

Lemma schedule_asleep s k v p rest t ns fuel :
  vruntime s = (v, p) :: rest → tasks s !! p = Some t → 0 ≤ turn t → v + turn t < U64 → 0 ≤ v →
  (from ≤ k_reads k < from + len)%nat → next_schedule t = Some ns → nanos (k_reads k) < ns →
  schedule clock (S fuel) (s, k)
  = schedule clock fuel (picked s (v + turn t) p rest, read_again k).
Proof.
  intros Hv Ht H1 H2 H3 Hr Hns Hgt. cbn [schedule fst snd].
  rewrite (pick_run s v p rest t) by done. cbn [mbind res_bind]. rewrite Hns.
  unfold get_sys_time. rewrite (cs_shows _ _ _ _ Hclock) by done. cbn [mbind res_bind].
  by rewrite (proj2 (Z.leb_gt _ _)) by lia.
Qed.

(** The final round, on a task that may run. *)
Lemma schedule_awake s k v p rest t fuel :
  vruntime s = (v, p) :: rest → tasks s !! p = Some t → 0 ≤ turn t → v + turn t < U64 → 0 ≤ v →
  (from ≤ k_reads k < from + len)%nat → awake (nanos (k_reads k)) t →
  ∃ s' k', schedule clock (S fuel) (s, k) = Ok (set_next_schedule None t, (s', k')) ∧
    vruntime s' = vr_insert (v + turn t, p) rest ∧ current_pid s' = p ∧
    tasks s' = <[p:=set_next_schedule None t]> (tasks s) ∧
    woken nanos (k_reads k) (k_reads k') t ∧ (k_reads k ≤ k_reads k' ≤ S (k_reads k))%nat.
Proof.
  intros Hv Ht H1 H2 H3 Hr Ha. cbn [schedule fst snd]. unfold woken, awake in *.
  rewrite (pick_run s v p rest t) by done. cbn [mbind res_bind].
  destruct (next_schedule t) as [ns|] eqn:Hns.
  - unfold get_sys_time. rewrite (cs_shows _ _ _ _ Hclock) by done. cbn [mbind res_bind].
    rewrite (proj2 (Z.leb_le _ _)) by done.
    eexists _, _. split; [done|]. cbn [k_reads]. split_and!; try done; [|lia..].
    exists (k_reads k). split; [lia|done].
  - assert (set_next_schedule None t = t) as Heq by (destruct t; cbn in *; by subst).
    rewrite Heq. eexists _, _. split; [done|]. split_and!; [done..| |done|lia|lia].
    cbn [picked tasks]. by rewrite insert_id.
Qed.

Lemma turn_nice t : turn t = nice t + 19.
Proof. done. Qed.

(** One task that sleeps is charged and goes back into the queue. *)
Lemma same_awake_step s0 s v p rest t :
  sched_wf s → same_awake s0 s → vruntime s = (v, p) :: rest → tasks s0 !! p = Some t → ¬ awake now t →
  same_awake s0 (picked s (v + turn t) p rest).
Proof.
  intros Hwf (Hts & Hperm & Hpass & Haw) Hv Ht Hna.
  assert ((v + turn t, p) ∉ rest) as Hfresh by (eapply once_fresh; rewrite <- Hv; apply Hwf).
  assert (vruntime (picked s (v + turn t) p rest) ≡ₚ (v + turn t, p) :: rest) as Hq by (by apply vr_insert_perm).
  split_and!; [done| | |].
  - rewrite Hq, <- Hperm, Hv. done.
  - intros v2 p2 t2. rewrite Hq. intros [[= -> ->]|Hin]%elem_of_cons Ht2.
    + assert (t2 = t) as -> by congruence.
      destruct (Hpass v p t) as (v0 & m & Hin & Hm & -> & _); [rewrite Hv; by left|done|].
      exists v0, (m + 1). split_and!; [done|lia|lia|done].
    + apply Hpass; [rewrite Hv; by right|done].
  - intros v2 p2 t2 Ht2 Ha2. rewrite (Haw v2 p2 t2 Ht2 Ha2), Hq, Hv, !elem_of_cons.
    assert (p2 ≠ p) as Hne by (intros ->; by simplify_eq).
    split; (intros [[= -> ->]|?]; [done|by right]).
Qed.

(** The sleeping tasks ahead of a task that is awake are passed over. *)
Lemma schedule_rounds s0 b n : ∀ s k,
  sched_ready now s0 b → sched_wf s → same_awake s0 s →
  (∀ v p, (v, p) ∈ vruntime s → 0 ≤ v) → (from ≤ k_reads k)%nat → (k_reads k + n < from + len)%nat →
  (distance (b + 1) (vruntime s) ≤ n)%nat →
  ∃ j s1 k1 v p rest t, (j ≤ n)%nat ∧ sched_wf s1 ∧ same_awake s0 s1 ∧
    vruntime s1 = (v, p) :: rest ∧ tasks s0 !! p = Some t ∧ 0 ≤ v ≤ b ∧
    (k_reads k ≤ k_reads k1 ≤ k_reads k + n)%nat ∧ awake (nanos (k_reads k1)) t ∧
    ∀ fuel, schedule clock (j + fuel) (s, k) = schedule clock fuel (s1, k1).
Proof.
  induction n as [|n IH]; intros s k Hready Hwf Hsame Hpos Hfrom Hlen Hn;
    pose proof Hsame as (Hts & _ & _ & Haw); destruct (sr_awake _ _ _ Hready) as (r & tr & Htr & Hawr & Hbr);
    assert ((b, r) ∈ vruntime s) as Hbs by (by apply (Haw b r tr));
    destruct (vruntime s) as [|[v p] rest] eqn:Hv; try (by apply elem_of_nil in Hbs);
    assert ((v, p) ∈ vruntime s) as Hin by (rewrite Hv; by left);
    destruct (sw_task _ Hwf v p Hin) as [t Ht];
    assert (tasks s0 !! p = Some t) as Ht0 by (by rewrite <- Hts);
    destruct (sr_nice _ _ _ Hready p t Ht0) as [Hnice Hsl]; assert (0 ≤ v) as Hv0 by (apply (Hpos v p); by left);
    assert (v ≤ b) as Hvb by
      (rewrite <- Hv in Hbs; destruct (head_least s v p rest (b, r) Hwf Hv Hbs) as [[= -> ->]|[|[]]];
       cbn [fst snd] in *; lia).
  { exfalso. unfold distance in Hn. cbn [sum_list_with fst] in Hn. lia. }
  pose proof (sr_bound _ _ _ Hready) as Hb38. pose proof (turn_nice t) as Hturn.
  destruct (decide (awake (nanos (k_reads k)) t)) as [Ha|Hna].
  { exists 0%nat, s, k, v, p, rest, t. split_and!; try done; lia. }
  assert (∃ ns, next_schedule t = Some ns ∧ nanos (k_reads k) < ns) as (ns & Hns & Hgt).
  { unfold awake in Hna. destruct (next_schedule t) as [ns|]; [|by destruct Hna]. exists ns. split; [done|lia]. }
  assert (¬ awake now t) as Hna0.
  { unfold awake. rewrite Hns. pose proof (cs_mono _ _ _ _ Hclock from (k_reads k) ltac:(lia) ltac:(lia)). lia. }
  set (s' := picked s (v + turn t) p rest).
  assert ((v + turn t, p) ∉ rest) as Hfresh by (eapply once_fresh; rewrite <- Hv; apply Hwf).
  assert (vruntime s' ≡ₚ (v + turn t, p) :: rest) as Hperm by (by apply vr_insert_perm).
  destruct (IH s' (read_again k))
    as (j & s1 & k1 & v1 & p1 & rest1 & t1 & Hj & Hwf1 & Hsame1 & Hv1 & Ht1 & Hb1 & Hk1 & Ha1 & Hrun); try done.
  - by eapply picked_wf.
  - by apply same_awake_step.
  - intros v2 p2. rewrite Hperm. intros [[= -> ->]|Hin2]%elem_of_cons; [lia|].
    apply (Hpos v2 p2). by right.
  - cbn [read_again k_reads]. lia.
  - cbn [read_again k_reads]. lia.
  - rewrite (distance_perm _ _ _ Hperm). unfold distance in *. cbn [sum_list_with fst] in *.
    destruct Hsl; [done|]. lia.
  - cbn [read_again k_reads] in Hk1. exists (S j), s1, k1, v1, p1, rest1, t1. split_and!; try done; try lia.
    intros fuel. cbn [Nat.add]. rewrite (schedule_asleep s k v p rest t ns) by (done || lia). apply Hrun.
Qed.
End rounds.

(** [schedule] returns and chooses; the queue keeps its processes and its order. *)
Lemma schedule_chooses clock nanos s k b fuel :
  clock_shows clock nanos (k_reads k) (S (distance (b + 1) (vruntime s))) →
  sched_ready (nanos (k_reads k)) s b → (distance (b + 1) (vruntime s) < fuel)%nat →
  ∃ v p t s' k', schedule clock fuel (s, k) = Ok (set_next_schedule None t, (s', k')) ∧
    chosen nanos (k_reads k) (k_reads k') s v p t ∧ current_pid s' = p ∧
    tasks s' = <[p:=set_next_schedule None t]> (tasks s) ∧
    (v + turn t, p) ∈ vruntime s' ∧ (vruntime s').*2 ≡ₚ (vruntime s).*2 ∧ sched_wf s'.
Proof.
  intros Hclock Hready Hfuel. set (from := k_reads k) in *. set (d := distance (b + 1) (vruntime s)) in *.
  destruct (schedule_rounds clock nanos from (S d) Hclock s b d s k)
    as (j & s1 & k1 & v & p & rest & t & Hj & Hwf1 & Hsame & Hv1 & Ht & Hvb & Hk1 & Ha & Hrun);
    [done|apply Hready|by apply same_awake_refl|apply Hready|lia..|].
  pose proof Hsame as (Hts & Hpids & Hpass & Haw).
  destruct (sr_nice _ _ _ Hready p t Ht) as [Hnice _]. pose proof (sr_bound _ _ _ Hready) as Hb38.
  pose proof (turn_nice t) as Hturn. assert (tasks s1 !! p = Some t) as Ht1 by (by rewrite Hts).
  destruct (schedule_awake clock nanos from (S d) Hclock s1 k1 v p rest t (fuel - j - 1))
    as (s' & k' & Hs' & Hq & Hcur & Htasks & Hwk & Hk'); [done|done|lia..| |done|].
  { fold from in Hk1. lia. }
  exists v, p, t, s', k'. specialize (Hrun (S (fuel - j - 1))).
  replace (j + S (fuel - j - 1))%nat with fuel in Hrun by lia. rewrite Hrun.
  assert ((v + turn t, p) ∉ rest) as Hfresh by (eapply once_fresh; rewrite <- Hv1; apply Hwf1).
  split_and!; try done.
  - constructor; [done| |apply Hpass; [rewrite Hv1; by left|done]|].
    + unfold woken in *. destruct (next_schedule t); [|done]. destruct Hwk as (n & Hn & Hle).
      exists n. split; [fold from in Hk1; lia|done].
    + intros v' p' t' Hin' Ht' Ha'. apply (head_least s1 v p rest); [done..|]. by apply (Haw v' p' t').
  - by rewrite Htasks, Hts.
  - rewrite Hq. rewrite vr_insert_perm by done. by left.
  - rewrite Hq, vr_insert_perm by done. rewrite <- Hpids, Hv1. done.
  - pose proof (picked_wf s1 v p rest (v + turn t) Hwf1 Hv1) as [Hs2 Ho2 Ht2]. cbn [picked vruntime tasks] in *.
    constructor; rewrite Hq; [done..|]. intros v2 p2 Hin2. rewrite Htasks.
    destruct (decide (p2 = p)) as [->|Hne]; [rewrite lookup_insert_eq; by eexists|].
    rewrite lookup_insert_ne by congruence. by apply (Ht2 v2).
Qed.

(** ** The current task *)

Lemma current_task_Ok s t : current_task s = Ok t ↔ tasks s !! current_pid s = Some t.
Proof. unfold current_task. destruct (tasks s !! current_pid s); split; intros [=]; by subst. Qed.

(** Saving the context of the current task keeps what does not depend on it. *)
Lemma saved_task (P : Z → Task → Prop) s tc ctx :
  (∀ p t c, P p t → P p (set_context c t)) → sched_wf s → tasks s !! current_pid s = Some tc →
  (∀ p t, tasks s !! p = Some t → P p t) →
  let s' := set_task (current_pid s) (set_context ctx tc) s in
  (∀ p t, tasks s' !! p = Some t → P p t) ∧ sched_wf s' ∧
  ∀ p t, tasks s !! p = Some t → ∃ t', tasks s' !! p = Some t' ∧ next_schedule t' = next_schedule t.
Proof.
  intros HP [Hs Ho Ht] Htc Hall s'. cbn [s' set_task tasks].
  assert (∀ p t, tasks s !! p = Some t → ∃ t', tasks s' !! p = Some t' ∧ next_schedule t' = next_schedule t)
    as Hlook.
  { intros p t Hp. cbn [s' set_task tasks]. destruct (decide (p = current_pid s)) as [->|Hne].
    - rewrite lookup_insert_eq. eexists. split; [done|]. by simplify_eq.
    - rewrite lookup_insert_ne by congruence. by exists t. }
  split_and!; [| |exact Hlook].
  - intros p t. rewrite lookup_insert_Some. intros [[<- <-]|[_ Hp]]; [|by apply Hall].
    by apply HP, Hall.
  - constructor; [done..|]. intros v p Hin. destruct (Ht v p Hin) as [t Hp].
    destruct (Hlook p t Hp) as (t' & Ht' & _). by exists t'.
Qed.

Lemma set_task_twice p t t' s : set_task p t (set_task p t' s) = set_task p t s.
Proof. unfold set_task. cbn [tasks vruntime current_pid max_pid trap_stack]. by rewrite insert_insert_eq. Qed.
End sched.
