(* ===== verification/TaskTheorems.v ===== *)
(** * Tasks and the scheduler: theorems *)

From Stdlib Require Import Sorting.Sorted.
From S2P Require Import Prelude Page Address Bytes Text Buddy Mapping MappingSpec Heap Elf Vfs Arch Task UserCopy Sched SchedSpec.

(** ** Copies *)

(** C32: [copy_from_user] copies the longest run of mapped user bytes that fits:
    it returns without a panic, byte [i] of the buffer is the byte user address
    [ua + i] stands for, the run stops short of the buffer's end only at an
    address outside every allocation, and the rest of the buffer is kept. *)
Theorem copy_from_user_correct {AR : Arch} m t ua buf :
  allocs_ok m (page_allocs t) → 0 ≤ ua →
  ∃ k buf', copy_from_user m t ua buf = Ok (k, buf') ∧ mapped_run t ua (length buf) k ∧
    (∀ i ka, (i < k)%nat → uaddr (page_allocs t) (ua + Z.of_nat i) = Some ka → buf' !! i = m !! ka) ∧
    drop k buf' = drop k buf.
Proof.
  intros Hok Hua.
  destruct (from_user_loop_run m t Hok (S (length buf)) ua (length buf)) as (bs & Hrun & Hmr & Hb); [lia|done|].
  exists (length bs), (bs ++ drop (length bs) buf). unfold copy_from_user. rewrite Hrun. cbn [mbind res_bind].
  split_and!; [done..| |by rewrite drop_app_length].
  intros i ka Hi Hka. rewrite lookup_app_l by done. symmetry. by apply Hb.
Qed.

(** C33: what [copy_to_user] wrote, [copy_from_user] reads back: both copy the
    same number of bytes, the bytes are those of the data, and no byte of memory
    changes but those the user addresses stand for. *)
Theorem copy_roundtrip {AR : Arch} m t ua bs buf :
  allocs_ok m (page_allocs t) → 0 ≤ ua → length buf = length bs →
  ∃ k m', copy_to_user m t ua bs = Ok (k, m') ∧ mapped_run t ua (length bs) k ∧
    user_written t m m' ua bs k ∧
    copy_from_user m' t ua buf = Ok (k, take k bs ++ drop k buf).
Proof.
  intros Hok Hua Hlen.
  destruct (to_user_loop_run t (S (length bs)) m ua bs Hok) as (k & m' & Hrun & Hmr & Hw); [lia|done|].
  assert (allocs_ok m' (page_allocs t)) as Hok' by (eapply allocs_ok_mono; [apply Hw|done]).
  destruct (from_user_loop_run m' t Hok' (S (length buf)) ua (length buf)) as (got & Hrun' & Hmr' & Hb); [lia|done|].
  assert (length got = k) as Hk by (rewrite Hlen in Hmr'; by eapply (mapped_run_unique t)).
  pose proof Hmr as (Hkl & Hall & _). exists k, m'. split_and!; [|done..|].
  - unfold copy_to_user. rewrite Hrun. cbn [mbind res_bind]. rewrite length_drop. do 2 f_equal. lia.
  - unfold copy_from_user. rewrite Hrun'. cbn [mbind res_bind]. rewrite Hk. do 3 f_equal.
    apply list_eq. intros i. destruct (decide (i < k)%nat) as [Hi|Hi].
    + destruct (Hall i Hi) as [ka Hka]. rewrite <- (Hb i ka) by (done || lia).
      rewrite lookup_take_lt by done. by apply Hw.
    + rewrite !lookup_ge_None_2; [done|rewrite length_take; lia|lia].
Qed.

(** The text of a buffer ends before its first NUL. *)
Lemma until_nul_found s rest : 0 ∉ s → until_nul (s ++ 0 :: rest) = (s, true).
Proof.
  induction s as [|b s IH]; [done|]. intros [Hb Hs]%not_elem_of_cons. cbn [until_nul app].
  rewrite (proj2 (Z.eqb_neq b 0)) by done. by rewrite IH.
Qed.
Lemma until_nul_none l : 0 ∉ l → until_nul l = (l, false).
Proof.
  induction l as [|b l IH]; [done|]. intros [Hb Hl]%not_elem_of_cons. cbn [until_nul].
  rewrite (proj2 (Z.eqb_neq b 0)) by done. by rewrite IH.
Qed.

(** A round of [copy_user_string] on the bytes [bs] that are mapped: the last one when
    they hold a NUL or are not all that was asked for. *)
Lemma user_string_loop_run {AR : Arch} m t ua bs :
  copy_from_user m t ua (replicate BUF_SIZE 0) = Ok (length bs, bs ++ drop (length bs) (replicate BUF_SIZE 0)) →
  ∀ fuel acc, user_string_loop (S fuel) m t ua acc =
    if (until_nul bs).2 || (length bs <? BUF_SIZE)%nat then Ok (acc ++ (until_nul bs).1) else NoFuel.
Proof.
  intros Hcopy.
  assert (∀ fuel acc, user_string_loop (S fuel) m t ua acc =
    if (until_nul bs).2 || (length bs <? BUF_SIZE)%nat
    then Ok (acc ++ (until_nul bs).1) else user_string_loop fuel m t ua (acc ++ (until_nul bs).1)) as Hstep.
  { intros fuel acc. cbn [user_string_loop]. rewrite Hcopy. cbn [mbind res_bind].
    rewrite take_app_length. by destruct (until_nul bs) as [s [|]]. }
  induction fuel as [|fuel IH]; intros acc; rewrite Hstep; [by destruct (_ || _)|].
  rewrite IH. by destruct (_ || _).
Qed.

(** C40: [copy_user_string] looks at the 16 bytes at the address over and over.  Let [bs] be
    those that are mapped, up to the first that is not.  When there is a NUL among them
    it returns the text before the first; when there is none and they are less than 16,
    all of them as text; when they are 16 and none is NUL, it never returns. *)
Theorem copy_user_string_result {AR : Arch} m t ua :
  allocs_ok m (page_allocs t) → 0 ≤ ua →
  ∃ bs, mapped_run t ua 16 (length bs) ∧
    (∀ i ka, (i < length bs)%nat → uaddr (page_allocs t) (ua + Z.of_nat i) = Some ka → bs !! i = m !! ka) ∧
    (∀ s rest fuel, bs = s ++ 0 :: rest → 0 ∉ s → copy_user_string (S fuel) m t ua = Ok (from_utf8_lossy s)) ∧
    (∀ fuel, 0 ∉ bs → (length bs < 16)%nat → copy_user_string (S fuel) m t ua = Ok (from_utf8_lossy bs)) ∧
    (∀ fuel, 0 ∉ bs → length bs = 16%nat → copy_user_string fuel m t ua = NoFuel).
Proof.
  intros Hok Hua. set (buf := replicate BUF_SIZE 0).
  assert (length buf = 16%nat) as Hbuf by apply length_replicate.
  destruct (from_user_loop_run m t Hok (S (length buf)) ua (length buf)) as (bs & Hrun & Hmr & Hb); [lia|done|].
  assert (copy_from_user m t ua buf = Ok (length bs, bs ++ drop (length bs) buf)) as Hcopy
    by (unfold copy_from_user; by rewrite Hrun).
  pose proof (λ fuel, user_string_loop_run m t ua bs Hcopy fuel []) as Hloop.
  exists bs. rewrite Hbuf in Hmr. split_and!; [done|intros; symmetry; by apply Hb| | |].
  - intros s rest fuel -> Hs. unfold copy_user_string. by rewrite Hloop, until_nul_found.
  - intros fuel Hs Hlen. unfold copy_user_string. rewrite Hloop, until_nul_none by done.
    cbn [fst snd orb app]. by rewrite (proj2 (Nat.ltb_lt _ BUF_SIZE) Hlen).
  - intros [|fuel] Hs Hlen; [done|]. unfold copy_user_string. rewrite Hloop, until_nul_none by done.
    cbn [fst snd orb]. by rewrite (proj2 (Nat.ltb_ge (length bs) BUF_SIZE)) by (rewrite Hlen; unfold BUF_SIZE; lia).
Qed.

(** ** The scheduler *)

(** C22: while the counter does not go backwards and its readings fit the
    conversion to nanoseconds, no task has nice -20 and no sleeping one nice -19, and
    the runtimes are below [2^64 - 38], [schedule] returns, within one round per unit
    that the entries of the queue are behind that of some task that is awake.  The task
    it makes current may run at a time that was read; its entry, after one charge for
    each round it was found asleep in, comes before those of all tasks that were awake
    at the start; it is charged its turn, its wake-up time is cleared, no other task
    changes, and the queue keeps its processes and its order. *)
Theorem schedule_least_awake {AR : Arch} clock nanos s k b fuel :
  clock_shows clock nanos (k_reads k) (S (distance (b + 1) (vruntime s))) →
  sched_ready (nanos (k_reads k)) s b → (distance (b + 1) (vruntime s) < fuel)%nat →
  ∃ v p t s' k', schedule clock fuel (s, k) = Ok (set_next_schedule None t, (s', k')) ∧
    chosen nanos (k_reads k) (k_reads k') s v p t ∧ current_pid s' = p ∧
    tasks s' = <[p:=set_next_schedule None t]> (tasks s) ∧
    (v + turn t, p) ∈ vruntime s' ∧ (vruntime s').*2 ≡ₚ (vruntime s).*2 ∧ sched_wf s'.
Proof. apply schedule_chooses. Qed.

(** The lowest nice value that [renice] accepts makes the charge of a turn
    [-1 as usize]: once the task has been charged before, its next turn panics
    the kernel. *)
Theorem renice_min_panics {AR : Arch} clock s k v p rest t t0 fuel :
  t = renice NICE_MIN t0 → 0 < v →
  vruntime s = (v, p) :: rest → tasks s !! p = Some t →
  nice t = NICE_MIN ∧ schedule clock (S fuel) (s, k) = Panic.
Proof.
  intros Ht Hv Hq Hp. assert (nice t = NICE_MIN) as Hn by (by rewrite Ht).
  split; [done|]. cbn [schedule fst]. unfold pick. rewrite Hq, Hp. cbn [unwrap mbind res_bind].
  unfold charge. rewrite Hn. change ((NICE_MIN + NICE_MAX) mod U64) with (U64 - 1). unfold uadd.
  rewrite (proj2 (Z.ltb_ge _ _)) by lia. done.
Qed.

(** ** Witnesses *)

#[local] Existing Instance Riscv64_Arch.

(** A task with one page of user memory at [0x10000], full of the letter A. *)
Definition demo_alloc : PageAllocInfo := mkAlloc 0 0x10 (mkPP 0x80400) 1 [PRead; PWrite].
Definition demo_bytes : bmem := gset_to_gmap 65 (list_to_set (seqZ (kbase demo_alloc) 4096)).
Definition demo_task : Task :=
  mkTask 0 1 0 (mkMapper (mkTable 0)) 0 Context_default [demo_alloc] None FdTable_default.

Lemma demo_allocs_ok : allocs_ok demo_bytes (page_allocs demo_task).
Proof.
  assert (∀ a, a ∈ page_allocs demo_task → a = demo_alloc) as Hone.
  { intros a Ha. cbn [demo_task page_allocs] in Ha. by apply list_elem_of_singleton in Ha. }
  constructor.
  - intros a ->%Hone. constructor; cbn [demo_alloc a_vpage a_pages a_ppage pp_0].
    + lia.
    + rewrite PAGE_OFFSET_val. lia.
    + intros o Ho. exists 65. apply lookup_gset_to_gmap_Some. split; [|done].
      apply elem_of_list_to_set, elem_of_seqZ. lia.
  - by intros a b ua ->%Hone ->%Hone.
  - by intros a b o o' ->%Hone ->%Hone.
Qed.

Lemma copy_from_user_correct_witness :
  ∃ k buf', copy_from_user demo_bytes demo_task 0x10ffe (replicate 4 0) = Ok (k, buf') ∧
    mapped_run demo_task 0x10ffe 4 k ∧
    (∀ i ka, (i < k)%nat → uaddr (page_allocs demo_task) (0x10ffe + Z.of_nat i) = Some ka →
       buf' !! i = demo_bytes !! ka) ∧
    drop k buf' = drop k (replicate 4 0).
Proof.
  apply (copy_from_user_correct demo_bytes demo_task 0x10ffe (replicate 4 0)).
  - apply demo_allocs_ok.
  - lia.
Defined.

Lemma copy_roundtrip_witness :
  ∃ k m', copy_to_user demo_bytes demo_task 0x10ffe [1; 2; 3] = Ok (k, m') ∧
    mapped_run demo_task 0x10ffe 3 k ∧ user_written demo_task demo_bytes m' 0x10ffe [1; 2; 3] k ∧
    copy_from_user m' demo_task 0x10ffe [0; 0; 0] = Ok (k, take k [1; 2; 3] ++ drop k [0; 0; 0]).
Proof.
  apply (copy_roundtrip demo_bytes demo_task 0x10ffe [1; 2; 3] [0; 0; 0]).
  - apply demo_allocs_ok.
  - lia.
  - reflexivity.
Defined.

(** What is read of the page is the letter, as far as the page goes. *)
Lemma demo_text ua k bs :
  mapped_run demo_task ua 16 k → mapped_run demo_task ua 16 (length bs) →
  (∀ i ka, (i < length bs)%nat → uaddr (page_allocs demo_task) (ua + Z.of_nat i) = Some ka → bs !! i = demo_bytes !! ka) →
  bs = replicate k 65.
Proof.
  intros Hk Hrun Hb. rewrite (mapped_run_unique _ _ _ _ _ Hk Hrun). apply list_eq. intros i.
  destruct (decide (i < length bs)%nat) as [Hi|Hi].
  - rewrite lookup_replicate_2 by done. destruct Hrun as (_ & Hall & _). destruct (Hall i Hi) as [ka Hka].
    specialize (Hb i ka Hi Hka). destruct (lookup_lt_is_Some_2 bs i Hi) as [b Hbi]. rewrite Hbi in *.
    symmetry in Hb. by apply lookup_gset_to_gmap_Some in Hb as [_ ->].
  - rewrite !lookup_ge_None_2; [done|rewrite length_replicate; lia|lia].
Qed.

(** At the start of the page the string does not end; three bytes before its end it
    has three letters. *)
Lemma copy_user_string_result_witness :
  (∀ fuel, copy_user_string fuel demo_bytes demo_task 0x10000 = NoFuel) ∧
  copy_user_string 1 demo_bytes demo_task 0x10ffd = Ok (from_utf8_lossy [65; 65; 65]).
Proof.
  assert (0 ∉ replicate 16 65) as H16 by (by intros [? _]%elem_of_replicate).
  split.
  - destruct (copy_user_string_result demo_bytes demo_task 0x10000 demo_allocs_ok ltac:(lia))
      as (bs & Hrun & Hb & _ & _ & Hloop).
    assert (bs = replicate 16 65) as ->.
    { apply (demo_text 0x10000); [|done..]. split_and!; [lia| |lia].
      intros i Hi. do 16 (destruct i as [|i]; [vm_compute; eauto|]). lia. }
    intros fuel. by apply Hloop.
  - destruct (copy_user_string_result demo_bytes demo_task 0x10ffd demo_allocs_ok ltac:(lia))
      as (bs & Hrun & Hb & _ & Hend & _).
    assert (bs = replicate 3 65) as ->.
    { apply (demo_text 0x10ffd); [|done..]. split_and!; [lia| |by vm_compute].
      intros i Hi. do 3 (destruct i as [|i]; [vm_compute; eauto|]). lia. }
    apply Hend; [|cbn; lia]. by intros [? _]%elem_of_replicate.
Defined.

(** The kernel's task is awake, another one sleeps until time 200. *)
Definition demo_sleeper : Task := set_next_schedule (Some 200) demo_task.
Definition demo_kernel : Task :=
  mkTask 0 0 0 (mkMapper (mkTable 0)) 0 Context_default [] None FdTable_default.
Definition demo_sched : Scheduler :=
  mkScheduler {[0 := demo_kernel; 1 := demo_sleeper]} [(0, 1); (5, 0)] 0 1 (mkVP 0).
Definition demo_kheap : KHeap := mkKHeap 0 ∅ ∅ [].
Definition demo_kmem : Kmem := mkKmem ∅ (BuddyAllocator_default 0) ∅ 0 0 demo_kheap.

Lemma demo_sched_wf : sched_wf demo_sched.
Proof.
  constructor; cbn [demo_sched vruntime tasks].
  - repeat constructor; unfold vlt; cbn [fst snd]; lia.
  - apply NoDup_ListNoDup. repeat constructor; simpl; lia.
  - intros v p. rewrite !elem_of_cons, elem_of_nil. intros [[= -> ->]|[[= -> ->]|[]]]; by eexists.
Qed.

(** A counter that moves on by one tick, or 100 nanoseconds, from reading to
    reading. *)
Definition demo_clock (n : nat) : Z := 1 + Z.of_nat n.
Definition demo_nanos (n : nat) : Z := 100 + 100 * Z.of_nat n.

Lemma demo_clock_shows from len : (from + len < 1000)%nat → clock_shows demo_clock demo_nanos from len.
Proof.
  intros Hlen. constructor; unfold demo_nanos; [|lia]. intros n Hn. cbn [sys_nanos Riscv64_Arch]. unfold Riscv64.sys_nanos, demo_clock.
  rewrite umul_Ok by (unfold U64; lia). f_equal. lia.
Qed.

Lemma demo_sched_ready : sched_ready 100 demo_sched 5.
Proof.
  constructor.
  - apply demo_sched_wf.
  - intros p t. cbn [demo_sched tasks]. rewrite lookup_insert_Some.
    intros [[_ <-]|[_ [_ <-]%lookup_singleton_Some]]; cbn; (split; [lia|right; lia]).
  - intros v p. cbn [demo_sched vruntime]. rewrite !elem_of_cons, elem_of_nil.
    intros [[= -> ->]|[[= -> ->]|[]]]; lia.
  - done.
  - exists 0, demo_kernel. split_and!; [done..|]. cbn [demo_sched vruntime]. rewrite !elem_of_cons. by right; left.
Qed.

Lemma schedule_least_awake_witness :
  ∃ v p t s' k', schedule demo_clock 20 (demo_sched, demo_kmem) = Ok (set_next_schedule None t, (s', k')) ∧
    chosen demo_nanos (k_reads demo_kmem) (k_reads k') demo_sched v p t ∧ current_pid s' = p ∧
    tasks s' = <[p:=set_next_schedule None t]> (tasks demo_sched) ∧
    (v + turn t, p) ∈ vruntime s' ∧ (vruntime s').*2 ≡ₚ (vruntime demo_sched).*2 ∧ sched_wf s'.
Proof.
  apply (schedule_least_awake demo_clock demo_nanos demo_sched demo_kmem 5 20).
  - apply demo_clock_shows. vm_compute. lia.
  - apply demo_sched_ready.
  - vm_compute. lia.
Defined.

Lemma renice_min_panics_witness :
  nice (renice NICE_MIN demo_kernel) = NICE_MIN ∧
  schedule (λ _, 1) 20 (mkScheduler {[0 := renice NICE_MIN demo_kernel]} [(19, 0)] 0 0 (mkVP 0), demo_kmem)
  = Panic.
Proof.
  apply (renice_min_panics (λ _, 1)
    (mkScheduler {[0 := renice NICE_MIN demo_kernel]} [(19, 0)] 0 0 (mkVP 0)) demo_kmem 19 0 []
    (renice NICE_MIN demo_kernel) demo_kernel 19).
  - reflexivity.
  - lia.
  - reflexivity.
  - reflexivity.
Defined.
