(* ===== verification/Gic.v ===== *)
(** * The Arm interrupt controller and its start-up (src/src/arch/arm64/gic.rs,
    src/src/arch/arm64.rs)

    Accesses to the registers of the controller are kept as a trace; what a read
    returns is decided by the outside, as a function of the trace so far and the
    address. *)

From Stdlib Require Import String.
From S2P Require Import Prelude Page Address Bytes Text Mapping Arm64Page Buddy Elf Vfs Dtb Arch Task Sched.

Inductive Access := ARead (addr v : Z) | AWrite (addr v : Z).

(** The base addresses are uninitialised at first. *)
Record Gic := mkGic {
  GICD_BASE : option Z;
  GICC_BASE : option Z;
  accesses : list Access;
}.

Definition GICD_CTLR : Z := 0x00.
Definition GICD_ISENABLER : Z := 0x100.
Definition GICC_CTLR : Z := 0x00.
Definition GICC_PMR : Z := 0x04.
Definition GICC_IAR : Z := 0x0c.
Definition GICC_EOIR : Z := 0x10.
Definition INTID_VTIMER : Z := 27.

Abbreviation G := (ST Gic).

(** [u32] arithmetic of a debug build. *)
Definition u32_add (a b : Z) : res Z := if a + b <? U32 then Ok (a + b) else Panic.
Definition u32_mul (a b : Z) : res Z := if a * b <? U32 then Ok (a * b) else Panic.

Definition record (a : Access) : G unit :=
  modify (λ g, mkGic (GICD_BASE g) (GICC_BASE g) (accesses g ++ [a])).

Section mmio.
Context (device : list Access → Z → Z).

Definition mmio_read (addr : Z) : G Z :=
  g ← get;
  let v := device (accesses g) addr in
  _ ← record (ARead addr v);
  mret v.

Definition gicd_mmio_read (reg : Z) : G Z :=
  g ← get;
  base ← lift (deref (GICD_BASE g));
  addr ← lift (u32_add base reg);
  mmio_read addr.

Definition gicc_mmio_read (reg : Z) : G Z :=
  g ← get;
  base ← lift (deref (GICC_BASE g));
  addr ← lift (u32_add base reg);
  mmio_read addr.
End mmio.

Definition gicd_mmio_write (reg value : Z) : G unit :=
  g ← get;
  base ← lift (deref (GICD_BASE g));
  addr ← lift (u32_add base reg);
  record (AWrite addr value).

Definition gicc_mmio_write (reg value : Z) : G unit :=
  g ← get;
  base ← lift (deref (GICC_BASE g));
  addr ← lift (u32_add base reg);
  record (AWrite addr value).

Definition gic_enable_irq (irq : Z) : G unit :=
  let reg := irq / 32 in
  let bit := irq mod 32 in
  off ← lift (u32_mul (reg mod U32) 4);
  r ← lift (u32_add GICD_ISENABLER off);
  gicd_mmio_write r (Z.shiftl 1 bit).

(** ** Finding the controller *)

Abbreviation GK := (ST (Gic * Kmem)).

Definition on_gic {B} (f : G B) : GK B := λ s, '(b, g) ← f s.1; Ok (b, (g, s.2)).
Definition on_gic_kmem {B} (f : ST Kmem B) : GK B := λ s, '(b, k) ← f s.2; Ok (b, (s.1, k)).

(** [cond1 || cond2] of two calls of [check_compatible]. *)
Fixpoint check_any (value : list Z) (cs : list str) : res bool :=
  match cs with
  | [] => Ok false
  | c :: cs => b ← check_compatible value c; if (b : bool) then Ok true else check_any value cs
  end.

Definition GIC_COMPATIBLE : list str := [lit "arm,cortex-a15-gic"; lit "arm,gic-400"; lit "arm,gic-v3"].
Definition GIC_ERROR : str := lit "No compatible GIC node found".

Section init.
Context {AR : Arch}.
#[local] Existing Instances arch_entry arch_mapper.

(** The loop that maps registers at their own addresses. *)
Fixpoint map_regs (kernel_pt : PageMapper) (regs : list (Z * Z)) : ST Kmem unit :=
  match regs with
  | [] => mret tt
  | (reg_addr, reg_size) :: regs =>
    _ ← on_tables (map_data kernel_pt (Z.shiftr reg_addr PAGE_BITS) (Z.shiftr reg_addr PAGE_BITS)
                     (div_ceil reg_size PAGE_SIZE));
    map_regs kernel_pt regs
  end.

(** [kernel_pt] is the page of [KERNEL_PT]. *)
Definition init_gic_regs (kernel_pt : PhysPage) (node : Node) : GK (unit + str) :=
  match get_property node (lit "compatible") with
  | None => mret (inr GIC_ERROR)
  | Some compatible =>
    c ← lift (check_any compatible GIC_COMPATIBLE);
    match (c : bool), get_property node (lit "reg") with
    | true, Some reg =>
      root ← lift (VirtualPage_from kernel_pt);
      let pt := from_root root in
      regs ← lift (parse_reg reg (address_cells node) (size_cells node));
      r0 ← lift (index regs 0);
      r1 ← lift (index regs 1);
      _ ← on_gic (modify (λ g, mkGic (Some (r0.1 mod U32)) (Some (r1.1 mod U32)) (accesses g)));
      _ ← on_gic_kmem (map_regs pt regs);
      mret (inl tt)
    | _, _ => mret (inr GIC_ERROR)
    end
  end.

Definition is_intc (node : Node) : bool :=
  bool_decide (node_name (n_name node) = lit "intc") ||
  bool_decide (node_name (n_name node) = lit "interrupt-controller").

(** The node the two loops of [soc_init] stop at: a controller below the root, or
    below a [soc] node that comes before it. *)
Fixpoint find_intc (nodes : list Node) : option Node :=
  match nodes with
  | [] => None
  | node :: nodes =>
    if is_intc node then Some node
    else if bool_decide (node_name (n_name node) = lit "soc") then
      match find is_intc (child_nodes node) with
      | Some soc_node => Some soc_node
      | None => find_intc nodes
      end
    else find_intc nodes
  end.

Definition soc_init (kernel_pt : PhysPage) (dtb : DeviceTree) : GK unit :=
  _ ← match find_intc (child_nodes (dt_root dtb)) with
      | Some node =>
        r ← init_gic_regs kernel_pt node;
        lift (match r with inl _ => Ok tt | inr _ => Panic end)
      | None => mret tt
      end;
  _ ← on_gic (gic_enable_irq 27);
  _ ← on_gic (gicd_mmio_write GICD_CTLR 1);
  _ ← on_gic (gicc_mmio_write GICC_CTLR 1);
  on_gic (gicc_mmio_write GICC_PMR 0xff).
End init.
