(* ===== verification/Syscall.v ===== *)
(** * System calls (src/src/syscall.rs)

    Each call works on the current task, the kernel's memory, the virtual file
    system and what its file systems use.  A result is the [isize] of the source
    as the [u64] that is put into the register. *)

From Stdlib Require Import String.
From S2P Require Import Prelude Page Address Bytes Text Path Buddy Mapping Mcache Heap Elf Device Kmsg Rand Vfs Devfs Arch Task Sched.

Definition SYSCALL_EXIT : Z := 0.
Definition SYSCALL_OPEN : Z := 1.
Definition SYSCALL_READ : Z := 2.
Definition SYSCALL_WRITE : Z := 3.
Definition SYSCALL_LSEEK : Z := 4.
Definition SYSCALL_CLOSE : Z := 5.
Definition SYSCALL_SLEEP : Z := 6.
Definition SYSCALL_FORK : Z := 7.
Definition SYSCALL_UNAME : Z := 8.

Definition SYSCALL_RET_OK : Z := 0.
Definition SYSCALL_RET_ERR : Z := -1.

Section arch.
Context {AR : Arch}.

(** The state a call works on. *)
Record Sys := mkSys {
  s_task : Task;
  s_kmem : Kmem;
  s_world : World;
  s_vfs : VirtualFileSystem DevFS;
}.

Abbreviation Y := (ST Sys).

Definition on_vfs {B} (f : ST (World * VirtualFileSystem DevFS) B) : Y B := λ s,
  '(b, (w, v)) ← f (s_world s, s_vfs s);
  Ok (b, mkSys (s_task s) (s_kmem s) w v).
Definition on_sys_kmem {B} (f : ST Kmem B) : Y B := λ s,
  '(b, k) ← f (s_kmem s);
  Ok (b, mkSys (s_task s) k (s_world s) (s_vfs s)).
Definition set_sys_task (t : Task) : Y unit := λ s,
  Ok (tt, mkSys t (s_kmem s) (s_world s) (s_vfs s)).

(** The copies of the current task. *)
Definition sys_from_user (user_addr : Z) (buf : list Z) : Y (nat * list Z) := λ s,
  r ← copy_from_user (k_bytes (s_kmem s)) (s_task s) user_addr buf; Ok (r, s).
Definition sys_to_user (user_addr : Z) (buf : list Z) : Y nat := λ s,
  '(n, m) ← copy_to_user (k_bytes (s_kmem s)) (s_task s) user_addr buf;
  let k := s_kmem s in
  Ok (n, mkSys (s_task s) (mkKmem (k_tabs k) (k_buddy k) m (k_reads k) (k_arcs k) (k_heap k)) (s_world s) (s_vfs s)).

(** [alloc::vec![0; n]] for a buffer, whose memory comes from the kernel's heap: an
    empty one needs none, a size above [isize::MAX] panics, and so does a heap that
    has no memory left. *)
Definition zero_vec (fuel : nat) (n : Z) : Y (Z * list Z) :=
  if n =? 0 then mret (1, [])
  else if n <? 2 ^ 63 then
    ptr ← on_sys_kmem (on_heap (heap_alloc fuel (mkLayout n 1)));
    mret (ptr, replicate (Z.to_nat n) 0)
  else lift Panic.

(** The buffer is dropped at the end of the call. *)
Definition drop_vec (fuel : nat) (ptr n : Z) : Y unit :=
  if n =? 0 then mret tt else on_sys_kmem (on_heap (heap_dealloc fuel ptr (mkLayout n 1))).

Definition as_u64 (r : Z) : Z := r mod U64.

Section syscalls.
Context (clock : nat → Z).

Definition syscall_open (path : str) : Y Z :=
  r ← on_vfs (vfs_open path);
  match r with
  | inl file =>
    s ← get;
    '(fd, fds) ← lift (fd_add file (t_fds (s_task s)));
    _ ← set_sys_task (set_fds fds (s_task s));
    mret fd
  | inr _ => mret SYSCALL_RET_ERR
  end.

(** The open file is changed in place. *)
Definition syscall_read (fd : Z) (buf : list Z) : Y (Z * list Z) :=
  s ← get;
  match fd_get fd (t_fds (s_task s)) with
  | Some file =>
    '(r, (file, buf)) ← on_vfs (vfs_read file buf);
    _ ← set_sys_task (set_fds (fd_set fd file (t_fds (s_task s))) (s_task s));
    mret (match r with inl size => size | inr _ => SYSCALL_RET_ERR end, buf)
  | None => mret (SYSCALL_RET_ERR, buf)
  end.

Definition syscall_write (fd : Z) (buf : list Z) : Y Z :=
  s ← get;
  match fd_get fd (t_fds (s_task s)) with
  | Some file =>
    '(r, file) ← on_vfs (vfs_write file buf);
    _ ← set_sys_task (set_fds (fd_set fd file (t_fds (s_task s))) (s_task s));
    mret (match r with inl size => size | inr _ => SYSCALL_RET_ERR end)
  | None => mret SYSCALL_RET_ERR
  end.

Definition syscall_lseek (fd position : Z) : Y Z :=
  s ← get;
  match fd_get fd (t_fds (s_task s)) with
  | Some file =>
    let file := mkVfsFile (vf_fd file) position (fs_id file) in
    _ ← set_sys_task (set_fds (fd_set fd file (t_fds (s_task s))) (s_task s));
    mret SYSCALL_RET_OK
  | None => mret SYSCALL_RET_ERR
  end.

Definition syscall_close (fd : Z) : Y Z :=
  s ← get;
  match fd_get fd (t_fds (s_task s)) with
  | Some file =>
    r ← on_vfs (vfs_close file);
    mret (match r with inl _ => SYSCALL_RET_OK | inr _ => SYSCALL_RET_ERR end)
  | None => mret SYSCALL_RET_ERR
  end.

Definition syscall_sleep (timestamp : Z) : Y unit :=
  now ← on_sys_kmem (get_sys_time clock);
  next_time ← lift (now +! timestamp);
  s ← get;
  set_sys_task (set_next_schedule (Some next_time) (s_task s)).

Definition UTS_STRING_LEN : nat := 65.

(** The five fields of [Utsname] in memory order. *)
Record Utsname := mkUtsname {
  sysname : list Z; nodename : list Z; release : list Z; version : list Z; machine : list Z;
}.
Definition Utsname_default : Utsname :=
  let z := replicate UTS_STRING_LEN 0 in mkUtsname z z z z z.

Definition UNAME_SYSNAME : list Z := lit "31kernel".
Definition UNAME_RELEASE : list Z := lit "0.1.0".
Definition UNAME_VERSION : list Z := lit "31kernel version 0.1.0 (Debug channel)".
Definition UNAME_MACHINE : list Z := uname_machine.

Definition syscall_uname (uts_ptr : Z) : Y unit :=
  let uts := Utsname_default in
  sn ← lift (write_slice (sysname uts) 0 UNAME_SYSNAME);
  rl ← lift (write_slice (release uts) 0 UNAME_RELEASE);
  vs ← lift (write_slice (version uts) 0 UNAME_VERSION);
  mc ← lift (write_slice (machine uts) 0 UNAME_MACHINE);
  _ ← sys_to_user uts_ptr (sn ++ nodename uts ++ rl ++ vs ++ mc);
  mret tt.

(** [fuel] bounds the loop of [copy_user_string] and the walks over the managers of
    the heap. *)
Definition dispatch_with_task (fuel : nat) (syscall_num a0 a1 a2 : Z) : Y (option Z) :=
  if syscall_num =? SYSCALL_OPEN then
    s ← get;
    path ← lift (copy_user_string fuel (k_bytes (s_kmem s)) (s_task s) a0);
    r ← syscall_open path;
    mret (Some (as_u64 r))
  else if syscall_num =? SYSCALL_READ then
    '(ptr, buf) ← zero_vec fuel a2;
    '(r, buf) ← syscall_read a0 buf;
    _ ← sys_to_user a1 buf;
    _ ← drop_vec fuel ptr a2;
    mret (Some (as_u64 r))
  else if syscall_num =? SYSCALL_WRITE then
    '(ptr, buf) ← zero_vec fuel a2;
    '(_, buf) ← sys_from_user a1 buf;
    r ← syscall_write a0 buf;
    _ ← drop_vec fuel ptr a2;
    mret (Some (as_u64 r))
  else if syscall_num =? SYSCALL_LSEEK then
    r ← syscall_lseek a0 a1;
    mret (Some (as_u64 r))
  else if syscall_num =? SYSCALL_CLOSE then
    '(ptr, buf) ← zero_vec fuel a2;
    _ ← sys_from_user a1 buf;
    r ← syscall_close a0;
    _ ← drop_vec fuel ptr a2;
    mret (Some (as_u64 r))
  else if syscall_num =? SYSCALL_SLEEP then
    _ ← syscall_sleep a0;
    mret None
  else if syscall_num =? SYSCALL_UNAME then
    _ ← syscall_uname a0;
    mret None
  else mret None.
End syscalls.
End arch.
