(* ===== verification/SyscallTheorems.v ===== *)
(** * System calls: theorems *)

From Stdlib Require Import String.
From S2P Require Import Prelude Page Address Bytes Text Path Buddy Mapping MappingSpec Mcache McacheSpec McacheManager McacheFree McacheAlloc Heap Elf Device Kmsg Rand Vfs Devfs FsTheorems Arch Task UserCopy Sched SchedSpec TaskTheorems Syscall.

(** ** The buffer of a call *)

(** The heap serves a buffer of [n] bytes and takes it back, which leaves it as
    [hb']. *)
Definition buffer_served (fuel : nat) (n : Z) (hb hb' : KHeap * BuddyAllocator) : Prop :=
  (n = 0 ∧ hb' = hb) ∨
  (0 < n ∧ ∃ ptr hb1, heap_alloc fuel (mkLayout n 1) hb = Ok (ptr, hb1) ∧
     heap_dealloc fuel ptr (mkLayout n 1) hb1 = Ok (tt, hb')).

(** A heap in order serves a buffer of up to half the largest class, if it has a cell
    for it or pages that it can give back, and takes it back. *)
Lemma heap_ok_serves fuel kh b slots n k cc :
  let h := mkHeap (kh_owned kh) (kh_words kh) b in
  heap_ok h (kh_inner kh) slots → 0 < n →
  size_to_class (n + PTR_SIZE) = Some ((class_size k, cc), k) → k ≠ 13%nat → can_serve h slots k →
  (∀ p a', pa_alloc_pages (class_pages k) b = Ok (inl p, a') →
     ∃ a'', pa_free_pages p (class_pages k) a' = Ok (tt, a'')) →
  ∃ hb', buffer_served (S fuel) n (kh, b) hb'.
Proof.
  intros h Hok Hn Hcls H13 Hserve Hback. set (layout := mkLayout n 1).
  assert (n + calc_header_padding (l_align layout) + PTR_SIZE = n + PTR_SIZE) as Hsz 
    by (change (calc_header_padding (l_align layout)) with 0; lia).
  rewrite <- Hsz in Hcls. destruct (size_to_class_spec _ _ _ _ Hcls) as (Hk & _).
  pose proof (cf_size _ (class_facts_all _ Hk)) as Hcs.
  destruct (mgr_alloc_took h (kh_inner kh) slots layout k cc fuel 1) as (c & h1 & slots1 & Ha & Ht);
    [apply Hok|done..|].
  pose proof (took_ok _ _ _ _ _ _ _ Hok Ht) as Hok1. destruct Ht as (_ & _ & Hcell & Hap & _ & Hkind & _).
  destruct (mgr_dealloc_gave h1 (kh_inner kh) slots1 layout 0 k cc c fuel 1) as (h2 & _ & _ & _ & _ & Hd & _);
    [apply Hok1|done|done|done|done|done|done| |].
  { intros i r Hi Hr. assert (slots !! i = Some (Some r) → False) as Hold.
    { intros Hi'. pose proof (Hap i r c Hi' ltac:(rewrite Hr; by left)).
      pose proof (cf_size _ (class_facts_all _ (ro_class _ _ _ (hk_run _ _ _ (ho_pre _ _ _ Hok) i r Hi')))). lia. }
    destruct Hkind as [(j & r0 & fs & Hj & _ & _ & -> & _)|(j & p & fs & Hj & _ & Hp & -> & _)];
      apply list_lookup_insert_Some in Hi as [(_ & [= <-] & _)|[_ Hi]]; try by destruct (Hold Hi).
    - injection Hr as Hr. by destruct (ho_used _ _ _ Hok j r0 Hj).
    - by apply Hback. }
  eexists. right. split; [done|].
  exists (object_ptr c (calc_header_padding (l_align layout))), (mkKHeap (kh_inner kh) (owned h1) (words h1) (kh_objs kh), pages_of h1).
  unfold heap_alloc, heap_dealloc, on_words, GlobalAllocator_alloc, GlobalAllocator_dealloc, ALLOC_DEPTH.
  cbn [fst snd kh_inner kh_owned kh_words]. split.
  - fold h layout. by rewrite Ha.
  - fold layout. assert (mkHeap (owned h1) (words h1) (pages_of h1) = h1) as -> by (by destruct h1). by rewrite Hd.
Qed.

Definition heap_of (k : Kmem) : KHeap * BuddyAllocator := (k_heap k, k_buddy k).
Definition set_heap (hb : KHeap * BuddyAllocator) (k : Kmem) : Kmem :=
  mkKmem (k_tabs k) hb.2 (k_bytes k) (k_reads k) (k_arcs k) hb.1.
Definition set_sys_kmem {AR : Arch} (k : Kmem) (s : Sys) : Sys := mkSys (s_task s) k (s_world s) (s_vfs s).

(** The buffer exists between the two requests; neither touches anything but the
    heap. *)
Lemma buffer_served_run {AR : Arch} fuel n hb hb' :
  0 ≤ n < 2 ^ 63 → buffer_served fuel n hb hb' →
  ∃ ptr hb1,
    (∀ s, heap_of (s_kmem s) = hb →
       zero_vec fuel n s = Ok ((ptr, replicate (Z.to_nat n) 0), set_sys_kmem (set_heap hb1 (s_kmem s)) s)) ∧
    ∀ s, heap_of (s_kmem s) = hb1 →
       drop_vec fuel ptr n s = Ok (tt, set_sys_kmem (set_heap hb' (s_kmem s)) s).
Proof.
  intros Hn [[-> ->]|(Hpos & ptr & hb1 & Ha & Hd)].
  - exists 1, hb. unfold zero_vec, drop_vec. split; (intros [t k w v]; cbn [s_kmem]; intros <-; by destruct k).
  - exists ptr, hb1. unfold zero_vec, drop_vec. rewrite (proj2 (Z.eqb_neq n 0)) by lia.
    rewrite (proj2 (Z.ltb_lt n (2 ^ 63))) by lia. unfold on_sys_kmem, on_heap.
    split; (intros s Hs; unfold heap_of in Hs; rewrite ?st_run_bind, Hs, ?Ha, ?Hd).
    + by destruct hb1.
    + by destruct hb'.
Qed.

(** ** Reading the log *)

(** C34: the call that reads from an open [/dev/kmsg], when the heap serves its
    buffer: the bytes of the log from the file's offset on go to the user's buffer, as
    far as it is mapped, the result is their number, the offset of the descriptor
    moves on by it, no other byte of memory changes, and the heap has its buffer back.
    A heap that has no memory for the size the user asks for panics the kernel. *)
Theorem dispatch_read_kmsg {AR : Arch} clock fuel s a0 a1 a2 file :
  fd_get a0 (t_fds (s_task s)) = Some file → kmsg_file (s_vfs s) file →
  0 ≤ offset file → 0 ≤ a2 < 2 ^ 63 → offset file + a2 < U64 →
  allocs_ok (k_bytes (s_kmem s)) (page_allocs (s_task s)) → 0 ≤ a1 →
  let got := take (Z.to_nat a2) (drop (Z.to_nat (offset file)) (log_text (msgs (w_kmsg (s_world s))))) in
  (∀ hb', buffer_served fuel a2 (heap_of (s_kmem s)) hb' →
   ∃ k s', dispatch_with_task clock fuel SYSCALL_READ a0 a1 a2 s = Ok (Some (Z.of_nat (length got)), s') ∧
     mapped_run (s_task s) a1 (Z.to_nat a2) k ∧
     user_written (s_task s) (k_bytes (s_kmem s)) (k_bytes (s_kmem s')) a1
       (got ++ replicate (Z.to_nat a2 - length got) 0) k ∧
     fd_get a0 (t_fds (s_task s')) =
       Some (mkVfsFile (vf_fd file) (offset file + Z.of_nat (length got)) (fs_id file)) ∧
     heap_of (s_kmem s') = hb') ∧
  (0 < a2 → heap_alloc fuel (mkLayout a2 1) (heap_of (s_kmem s)) = Panic →
   dispatch_with_task clock fuel SYSCALL_READ a0 a1 a2 s = Panic).
Proof.
  intros Hfd Hf Hoff Ha2 Hlt Hok Ha1 got. split; last first.
  { intros Hpos Hpanic. unfold dispatch_with_task. change (SYSCALL_READ =? SYSCALL_OPEN) with false. cbv iota.
    rewrite Z.eqb_refl. cbv iota. rewrite st_run_bind. unfold zero_vec.
    rewrite (proj2 (Z.eqb_neq a2 0)), (proj2 (Z.ltb_lt a2 (2 ^ 63))) by lia.
    rewrite st_run_bind. unfold on_sys_kmem, on_heap. fold (heap_of (s_kmem s)). by rewrite Hpanic. }
  intros hb' Hserved. set (buf := replicate (Z.to_nat a2) 0).
  destruct (buffer_served_run fuel a2 _ _ Ha2 Hserved) as (ptr & hb1 & Hvec & Hdrop).
  set (k1 := set_heap hb1 (s_kmem s)) in *.
  assert (length buf = Z.to_nat a2) as Hbuf by apply length_replicate.
  pose proof (vfs_read_kmsg (s_world s) (s_vfs s) file buf Hf Hoff ltac:(lia)) as Hread.
  rewrite Hbuf in Hread. cbv zeta in Hread. fold got in Hread.
  assert (length got ≤ Z.to_nat a2)%nat as Hgot by (unfold got; rewrite length_take; lia).
  set (file' := mkVfsFile (vf_fd file) (offset file + Z.of_nat (length got)) (fs_id file)) in *.
  set (t' := set_fds (fd_set a0 file' (t_fds (s_task s))) (s_task s)).
  set (buf' := got ++ drop (length got) buf) in *.
  assert (buf' = got ++ replicate (Z.to_nat a2 - length got) 0) as Hbuf'.
  { unfold buf', buf. by rewrite drop_replicate. }
  assert (length buf' = Z.to_nat a2) as Hlen' by (rewrite Hbuf', length_app, length_replicate; lia).
  destruct (to_user_loop_run t' (S (length buf')) (k_bytes (s_kmem s)) a1 buf') as (k & m' & Hrun & Hmr & Hw);
    [exact Hok|lia|done|].
  set (s2 := mkSys t' (mkKmem (k_tabs (s_kmem s)) hb1.2 m' (k_reads (s_kmem s)) (k_arcs (s_kmem s)) hb1.1)
    (s_world s) (s_vfs s)).
  exists k, (set_sys_kmem (set_heap hb' (s_kmem s2)) s2). split.
  - unfold dispatch_with_task. change (SYSCALL_READ =? SYSCALL_OPEN) with false. cbv iota.
    rewrite Z.eqb_refl. cbv iota. rewrite (st_run _ _ _ _ _ (Hvec s eq_refl)).
    rewrite (st_run _ _ _ (Z.of_nat (length got), buf') (mkSys t' k1 (s_world s) (s_vfs s))).
    2: { unfold syscall_read. rewrite st_run_get. cbn [set_sys_kmem s_task]. rewrite Hfd.
         rewrite (st_run _ _ _ (inl (Z.of_nat (length got)), (file', buf')) (set_sys_kmem k1 s)).
         - done.
         - unfold on_vfs. cbn [set_sys_kmem s_world s_vfs]. fold buf. rewrite Hread. done. }
    rewrite (st_run _ _ _ k s2).
    2: { unfold sys_to_user, copy_to_user. cbn [s_kmem s_task s_world s_vfs k1 set_heap k_bytes]. rewrite Hrun.
         cbn [mbind res_bind]. rewrite length_drop. do 2 f_equal. destruct Hmr as [? _]. lia. }
    rewrite (st_run _ _ _ _ _ (Hdrop s2 ltac:(by destruct hb1))).
    unfold mret, st_ret, as_u64. rewrite Z.mod_small by (unfold U64; lia). done.
  - cbn [s_kmem s_task k_bytes set_sys_kmem set_heap]. rewrite <- Hbuf'. rewrite Hlen' in Hmr.
    split_and!; [exact Hmr|exact Hw| |by destruct hb'].
    cbn [s2 s_task t' set_fds t_fds fd_set fd_get]. apply lookup_insert_eq.
Qed.

(** Closing a file leaves its descriptor in the table of the task: the call
    reports success, the task is unchanged, and the file system has forgotten the
    number behind the descriptor, which it may give to another file. *)
Theorem dispatch_close_keeps_descriptor {AR : Arch} clock fuel s a0 a1 a2 file fs hb' :
  fd_get a0 (t_fds (s_task s)) = Some file → mounted_fs (s_vfs s) !! fs_id file = Some fs →
  0 ≤ a2 < 2 ^ 63 → allocs_ok (k_bytes (s_kmem s)) (page_allocs (s_task s)) → 0 ≤ a1 →
  buffer_served fuel a2 (heap_of (s_kmem s)) hb' →
  ∃ s' fs', dispatch_with_task clock fuel SYSCALL_CLOSE a0 a1 a2 s = Ok (Some 0, s') ∧
    s_task s' = s_task s ∧ mounted_fs (s_vfs s') !! fs_id file = Some fs' ∧
    fds fs' !! f_fd (vf_fd file) = None.
Proof.
  intros Hfd Hfs Ha2 Hok Ha1 Hserved. set (buf := replicate (Z.to_nat a2) 0).
  destruct (buffer_served_run fuel a2 _ _ Ha2 Hserved) as (ptr & hb1 & Hvec & Hdrop).
  set (s1 := set_sys_kmem (set_heap hb1 (s_kmem s)) s) in *.
  destruct (from_user_loop_run (k_bytes (s_kmem s)) (s_task s) Hok (S (length buf)) a1 (length buf))
    as (bs & Hrun & _); [lia|done|].
  set (s2 := mkSys (s_task s) (s_kmem s1) (s_world s)
    (mkVfs (max_id (s_vfs s)) (mount_points (s_vfs s))
      (<[fs_id file:=mkDevFS (delete (f_fd (vf_fd file)) (fds fs)) (devs fs)]> (mounted_fs (s_vfs s))))).
  exists (set_sys_kmem (set_heap hb' (s_kmem s2)) s2), (mkDevFS (delete (f_fd (vf_fd file)) (fds fs)) (devs fs)).
  split_and!.
  - unfold dispatch_with_task. change (SYSCALL_CLOSE =? SYSCALL_OPEN) with false.
    change (SYSCALL_CLOSE =? SYSCALL_READ) with false. change (SYSCALL_CLOSE =? SYSCALL_WRITE) with false.
    change (SYSCALL_CLOSE =? SYSCALL_LSEEK) with false. cbv iota. rewrite Z.eqb_refl. cbv iota.
    rewrite (st_run _ _ _ _ _ (Hvec s eq_refl)). fold s1 buf.
    rewrite (st_run _ _ _ (length bs, bs ++ drop (length bs) buf) s1).
    2: { unfold sys_from_user, copy_from_user. cbn [s1 set_sys_kmem s_kmem s_task set_heap k_bytes].
         rewrite Hrun. done. }
    rewrite (st_run _ _ _ SYSCALL_RET_OK s2).
    2: { unfold syscall_close. rewrite st_run_get. cbn [s1 set_sys_kmem s_task]. rewrite Hfd, st_run_bind.
         unfold on_vfs, vfs_close. rewrite st_run_get. cbn [snd s_vfs s1 set_sys_kmem s_world]. rewrite Hfs.
         rewrite (st_run_lift _ _ _ fs) by done. done. }
    rewrite (st_run _ _ _ _ _ (Hdrop s2 ltac:(by destruct hb1))). reflexivity.
  - done.
  - cbn [set_sys_kmem s2 s_vfs mounted_fs]. apply lookup_insert_eq.
  - cbn [fds]. apply lookup_delete_eq.
Qed.

(** ** Witnesses *)

#[local] Existing Instance Riscv64_Arch.

(** The task of the copies with [/dev/kmsg] open at offset 15 as descriptor 3; the
    heap has 128 pages and has served no request yet. *)
Definition demo_file : VfsFile := mkVfsFile (mkFile 0 CharDevice) 15 0.
Definition demo_caller : Task := set_fds (mkFdTable 4 {[3 := demo_file]}) demo_task.
Definition demo_pages : BuddyAllocator :=
  match buddy_boot 0x80000000 0x1000 128 with Ok b => b | _ => BuddyAllocator_default 0 end.
Definition demo_zeros : KHeap :=
  mkKHeap 4096 (page_run 1 3) (list_to_map ((λ i, (4096 + 8 * i, 0)) <$> seqZ 0 1056)) [].
Definition demo_sys : Sys :=
  mkSys demo_caller (mkKmem ∅ demo_pages demo_bytes 0 0 demo_zeros) demo_world demo_open.

(** What the heap is left in. *)
Definition served_heap (fuel : nat) (n : Z) (hb : KHeap * BuddyAllocator) : option (KHeap * BuddyAllocator) :=
  match heap_alloc fuel (mkLayout n 1) hb with
  | Ok (ptr, hb1) =>
    match heap_dealloc fuel ptr (mkLayout n 1) hb1 with Ok (_, hb') => Some hb' | _ => None end
  | _ => None
  end.

Lemma served_heap_spec fuel n hb hb' : 0 < n → served_heap fuel n hb = Some hb' → buffer_served fuel n hb hb'.
Proof.
  intros Hn Hs. right. split; [done|]. unfold served_heap in Hs.
  destruct (heap_alloc fuel (mkLayout n 1) hb) as [[ptr hb1]| | |]; [|done..].
  destruct (heap_dealloc fuel ptr (mkLayout n 1) hb1) as [[[] hb2]| | |] eqn:Hd; [|done..].
  injection Hs as <-. by exists ptr, hb1.
Qed.

Lemma demo_served : is_Some (served_heap 10 8 (demo_zeros, demo_pages)).
Proof.
  assert (bool_decide (is_Some (served_heap 10 8 (demo_zeros, demo_pages))) = true) as H by (vm_compute; reflexivity).
  by apply bool_decide_eq_true in H.
Qed.

Lemma dispatch_read_kmsg_witness :
  let got := take (Z.to_nat 8) (drop (Z.to_nat (offset demo_file))
               (log_text (msgs (w_kmsg (s_world demo_sys))))) in
  (∃ k s' hb', dispatch_with_task (λ _, 1) 10 SYSCALL_READ 3 0x10ffe 8 demo_sys
            = Ok (Some (Z.of_nat (length got)), s') ∧
    mapped_run (s_task demo_sys) 0x10ffe (Z.to_nat 8) k ∧
    user_written (s_task demo_sys) (k_bytes (s_kmem demo_sys)) (k_bytes (s_kmem s')) 0x10ffe
      (got ++ replicate (Z.to_nat 8 - length got) 0) k ∧
    fd_get 3 (t_fds (s_task s')) =
      Some (mkVfsFile (vf_fd demo_file) (offset demo_file + Z.of_nat (length got)) (fs_id demo_file)) ∧
    heap_of (s_kmem s') = hb') ∧
  dispatch_with_task (λ _, 1) 10 SYSCALL_READ 3 0x10ffe (2 ^ 24) demo_sys = Panic.
Proof.
  intros got. split.
  - destruct (dispatch_read_kmsg (λ _, 1) 10 demo_sys 3 0x10ffe 8 demo_file) as [Hread _].
    + reflexivity.
    + by eexists.
    + simpl. lia.
    + lia.
    + reflexivity.
    + apply demo_allocs_ok.
    + lia.
    + destruct demo_served as [hb' Hserved]. destruct (Hread hb') as (k & s' & Hs').
      * apply served_heap_spec; [lia|exact Hserved].
      * exists k, s', hb'. exact Hs'.
  - apply (dispatch_read_kmsg (λ _, 1) 10 demo_sys 3 0x10ffe (2 ^ 24) demo_file).
    + reflexivity.
    + by eexists.
    + simpl. lia.
    + lia.
    + reflexivity.
    + apply demo_allocs_ok.
    + lia.
    + lia.
    + change (heap_of (s_kmem demo_sys)) with (demo_zeros, demo_pages). vm_compute. reflexivity.
Defined.

Lemma dispatch_close_keeps_descriptor_witness :
  ∃ s' fs', dispatch_with_task (λ _, 1) 10 SYSCALL_CLOSE 3 0 0 demo_sys = Ok (Some 0, s') ∧
    s_task s' = s_task demo_sys ∧ mounted_fs (s_vfs s') !! fs_id demo_file = Some fs' ∧
    fds fs' !! f_fd (vf_fd demo_file) = None.
Proof.
  apply (dispatch_close_keeps_descriptor (λ _, 1) 10 demo_sys 3 0 0 demo_file
    (mkDevFS {[0 := lit "kmsg"]} ∅) (heap_of (s_kmem demo_sys))).
  - reflexivity.
  - reflexivity.
  - lia.
  - apply demo_allocs_ok.
  - lia.
  - by left.
Defined.
