(* ===== verification/Trap.v ===== *)
(** * Traps and system calls on RISC-V (src/src/arch/riscv64/trap.rs,
    src/src/arch/riscv64/syscall.rs, src/src/arch/riscv64.rs)

    The handler works on the saved context, the scheduler, the file systems and
    the control registers it writes. *)

From S2P Require Import Prelude Page Address Bytes Text Buddy Mapping Sv39 Elf Device Kmsg Rand Vfs Devfs RiscvCpu Arch Task Sched Syscall.

Import Riscv64.
#[local] Existing Instance Riscv64_Arch.

Definition INTERRUPT_FLAG : Z := Z.shiftl 1 63.
Definition MCAUSE_ECALL_U : Z := 8.
Definition MCAUSE_ECALL_S : Z := 9.
Definition MCAUSE_ECALL_M : Z := 11.
Definition SCAUSE_ILLEGAL_INS : Z := 2.
Definition SCAUSE_TIMER_S : Z := Z.lor 5 INTERRUPT_FLAG.
Definition SCAUSE_ECALL_U : Z := 8.
Definition SCAUSE_ECALL_S : Z := 9.

Record Os := mkOs {
  o_sched : Scheduler;
  o_kmem : Kmem;
  o_world : World;
  o_vfs : VirtualFileSystem DevFS;
  o_kernel_pt : PhysPage;
  sstatus : Z;
  satp : Z;
  stimecmp : Z;
}.

Abbreviation O := (ST Os).

Definition on_scheduler {B} (f : ST (Scheduler * Kmem) B) : O B := λ s,
  '(b, (sc, k)) ← f (o_sched s, o_kmem s);
  Ok (b, mkOs sc k (o_world s) (o_vfs s) (o_kernel_pt s) (sstatus s) (satp s) (stimecmp s)).

Definition write_sstatus (v : Z) : O unit :=
  modify (λ s, mkOs (o_sched s) (o_kmem s) (o_world s) (o_vfs s) (o_kernel_pt s) v (satp s) (stimecmp s)).
Definition write_satp (v : Z) : O unit :=
  modify (λ s, mkOs (o_sched s) (o_kmem s) (o_world s) (o_vfs s) (o_kernel_pt s) (sstatus s) v (stimecmp s)).
Definition write_stimecmp (v : Z) : O unit :=
  modify (λ s, mkOs (o_sched s) (o_kmem s) (o_world s) (o_vfs s) (o_kernel_pt s) (sstatus s) (satp s) v).

(** The SPP bit decides the mode that [sret] returns to. *)
Definition switch_privilege_level (next_task : Task) : O unit :=
  s ← get;
  if negb (is_kernel next_task) then write_sstatus (Z.ldiff (sstatus s) (Z.shiftl 1 8))
  else write_sstatus (Z.lor (sstatus s) (Z.shiftl 1 8)).

(** [mtrap_handler]: the new value of [mepc]. *)
Definition mtrap_handler (mcause mepc : Z) : res Z :=
  if (mcause =? MCAUSE_ECALL_M) || (mcause =? MCAUSE_ECALL_S) || (mcause =? MCAUSE_ECALL_U)
  then mepc +! 4 else Ok mepc.

Definition to_kernel_pt : O unit :=
  s ← get;
  write_satp (Z.lor (pp_0 (o_kernel_pt s)) (ushl MODE_SV39 60)).

(** [next_task.page.switch_to()]. *)
Definition switch_page (next_task : Task) : O unit :=
  v ← lift (sv39_switch_to (page next_task));
  write_satp v.

Section trap.
Context (clock : nat → Z).

(** [fuel] bounds the loops of the scheduler and of [copy_user_string]. *)
Variable fuel : nat.

Definition set_timer (interval : Z) : O unit := λ s,
  let k := o_kmem s in
  v ← clock (k_reads k) +! interval;
  Ok (tt, mkOs (o_sched s) (mkKmem (k_tabs k) (k_buddy k) (k_bytes k) (S (k_reads k)) (k_arcs k) (k_heap k))
             (o_world s) (o_vfs s) (o_kernel_pt s) (sstatus s) (satp s) v).

(** The context is returned: it is what the handler leaves in [ctx]. *)
Definition kill_task : O Context :=
  s ← get;
  t ← lift (current_task (o_sched s));
  _ ← on_scheduler (kill clock fuel (pid t));
  s ← get;
  next_task ← lift (current_task (o_sched s));
  _ ← switch_privilege_level next_task;
  _ ← switch_page next_task;
  mret (context next_task).

Definition syscall_fork (L : Layout) (ctx : Context) : O Context :=
  s ← get;
  t ← lift (current_task (o_sched s));
  _ ← on_scheduler (on_sched (modify (set_task (current_pid (o_sched s)) (set_context ctx t))));
  child_pid ← on_scheduler (fork L);
  xs ← lift (update (x ctx) 9 child_pid);
  s ← get;
  child ← lift (unwrap (tasks (o_sched s) !! child_pid));
  cxs ← lift (update (x (context child)) 9 0);
  let child := set_context (mkContext cxs (epc (context child))) child in
  _ ← on_scheduler (on_sched (modify (set_task child_pid child)));
  mret (mkContext xs (epc ctx)).

(** [dispatch_with_task] on the current task. *)
Definition dispatch (num a0 a1 a2 : Z) : O (option Z) := λ s,
  t ← current_task (o_sched s);
  '(r, y) ← dispatch_with_task clock fuel num a0 a1 a2 (mkSys t (o_kmem s) (o_world s) (o_vfs s));
  Ok (r, mkOs (set_task (current_pid (o_sched s)) (s_task y) (o_sched s)) (s_kmem y) (s_world y)
            (s_vfs y) (o_kernel_pt s) (sstatus s) (satp s) (stimecmp s)).

Definition resume_next (ctx : Context) : O Context :=
  '(next_task, next_ctx) ← on_scheduler (switch_task clock fuel ctx);
  _ ← switch_privilege_level next_task;
  _ ← switch_page next_task;
  mret next_ctx.

Definition syscall (L : Layout) (ctx : Context) : O Context :=
  syscall_num ← lift (index (x ctx) 16);
  a0 ← lift (index (x ctx) 9);
  a1 ← lift (index (x ctx) 10);
  a2 ← lift (index (x ctx) 11);
  r ← dispatch syscall_num a0 a1 a2;
  ctx ← lift (match r with
              | Some ret => xs ← update (x ctx) 9 ret; Ok (mkContext xs (epc ctx))
              | None => Ok ctx
              end);
  if syscall_num =? SYSCALL_EXIT then kill_task
  else
    ctx ← (if syscall_num =? SYSCALL_FORK then syscall_fork L ctx else mret ctx);
    resume_next ctx.

Definition strap_handler (L : Layout) (scause : Z) (ctx : Context) : O Context :=
  if (scause =? SCAUSE_ECALL_U) || (scause =? SCAUSE_ECALL_S) then
    pc ← lift (epc ctx +! 4);
    let ctx := mkContext (x ctx) pc in
    if scause =? SCAUSE_ECALL_U then
      _ ← to_kernel_pt;
      syscall L ctx
    else mret ctx
  else if scause =? SCAUSE_TIMER_S then
    _ ← set_timer TIMER_INTERVAL;
    _ ← to_kernel_pt;
    resume_next ctx
  else if scause =? SCAUSE_ILLEGAL_INS then
    _ ← to_kernel_pt;
    kill_task
  else mret ctx.
End trap.
