(* ===== verification/TrapTheorems.v ===== *)
(** * RISC-V traps: theorems

    Each handler returns with the task that the scheduler chooses, under the
    conditions of the scheduler. *)

From Stdlib Require Import String.
From S2P Require Import Prelude Page Address Bytes Text Path Buddy BuddyTheorems Mapping MappingSpec MappingTheorems Sv39 Elf Device Kmsg Rand Vfs Devfs FsTheorems RiscvCpu Arch Task UserCopy Sched SchedSpec TaskTheorems Syscall Trap.

Import Riscv64.
#[local] Existing Instance Riscv64_Arch.

(** ** Returning from a trap *)

(** The registers are set for the task [t]: the mode [sret] returns to and the
    page table. *)
Definition set_for (t : Task) (s : Os) : Prop :=
  Z.testbit (sstatus s) 8 = is_kernel t ∧ sv39_switch_to (page t) = Ok (satp s).

(** What a trap leaves alone. *)
Definition same_files (s s' : Os) : Prop :=
  o_world s' = o_world s ∧ o_vfs s' = o_vfs s ∧ o_kernel_pt s' = o_kernel_pt s ∧ stimecmp s' = stimecmp s.

Lemma switch_registers_run t (c : Context) v s :
  sv39_switch_to (page t) = Ok v →
  ∃ s', (_ ← switch_privilege_level t; _ ← switch_page t; mret c : ST Os Context) s = Ok (c, s') ∧
    set_for t s' ∧ o_sched s' = o_sched s ∧ o_kmem s' = o_kmem s ∧ same_files s s'.
Proof.
  intros Hv. unfold set_for.
  set (m := if is_kernel t then Z.lor (sstatus s) (Z.shiftl 1 8) else Z.ldiff (sstatus s) (Z.shiftl 1 8)).
  exists (mkOs (o_sched s) (o_kmem s) (o_world s) (o_vfs s) (o_kernel_pt s) m v (stimecmp s)).
  split_and!; try done.
  - rewrite st_run_bind. unfold switch_privilege_level. rewrite st_run_get. unfold m.
    destruct (is_kernel t); cbn [negb]; unfold write_sstatus, modify; cbn [mbind res_bind];
      rewrite st_run_bind; unfold switch_page; by rewrite (st_run_lift _ _ _ _ Hv).
  - cbn [sstatus]. unfold m. destruct (is_kernel t).
    + rewrite Z.lor_spec. change (Z.testbit (Z.shiftl 1 8) 8) with true. by rewrite orb_true_r.
    + rewrite Z.ldiff_spec. change (Z.testbit (Z.shiftl 1 8) 8) with true. by rewrite andb_false_r.
Qed.

(** ** The next task *)

(** The next [len] readings of the counter do not go backwards and are no more than
    [2^64 / 100], so that they can be converted to nanoseconds. *)
Definition counts (clock : nat → Z) (from len : nat) : Prop :=
  ∀ n m, (from ≤ n ≤ m)%nat → (m < from + len)%nat → clock n ≤ clock m ∧ clock m * 100 < U64.

Definition nanos (clock : nat → Z) (n : nat) : Z := clock n * 100.

Lemma counts_shows clock from len : counts clock from len → clock_shows clock (nanos clock) from len.
Proof.
  intros Hc. unfold nanos. constructor.
  - intros n Hn. destruct (Hc n n) as [_ Hlt]; [lia..|]. cbn [Arch.sys_nanos Riscv64_Arch]. unfold Riscv64.sys_nanos.
    by rewrite (umul_Ok _ 100 Hlt).
  - intros n m H1 H2. destruct (Hc n m H1 H2). lia.
Qed.

(** The scheduler [s] has a task to resume at the reading [from]: [schedule] ends on
    it, with the bound [b], and the page tables have numbers. *)
Record can_resume (clock : nat → Z) (fuel from : nat) (s : Scheduler) (b : Z) : Prop := {
  cr_counts : counts clock from (S (distance (b + 1) (vruntime s)));
  cr_ready : sched_ready (nanos clock from) s b;
  cr_pages : ∀ p t, tasks s !! p = Some t → ∃ v, sv39_switch_to (page t) = Ok v;
  cr_fuel : (distance (b + 1) (vruntime s) < fuel)%nat;
}.

(** The state [s'] a trap returns in, with the context [c], after [schedule] has run
    on [s]: the task that was chosen is the current one, and the registers are set
    for it. *)
Definition resumed (clock : nat → Z) (from : nat) (s : Scheduler) (c : Context) (s' : Os) : Prop :=
  ∃ v p t, c = context t ∧ chosen (nanos clock) from (k_reads (o_kmem s')) s v p t ∧
    current_pid (o_sched s') = p ∧ tasks (o_sched s') = <[p:=set_next_schedule None t]> (tasks s) ∧
    (vruntime (o_sched s')).*2 ≡ₚ (vruntime s).*2 ∧ sched_wf (o_sched s') ∧ set_for t s'.

Lemma schedule_resumes clock fuel s k b :
  can_resume clock fuel (k_reads k) s b →
  ∃ v p t s' k', schedule clock fuel (s, k) = Ok (set_next_schedule None t, (s', k')) ∧
    chosen (nanos clock) (k_reads k) (k_reads k') s v p t ∧ current_pid s' = p ∧
    tasks s' = <[p:=set_next_schedule None t]> (tasks s) ∧ (vruntime s').*2 ≡ₚ (vruntime s).*2 ∧ sched_wf s' ∧
    ∃ pt, sv39_switch_to (page t) = Ok pt.
Proof.
  intros [Hc Hr Hp Hf].
  destruct (schedule_chooses (AR:=Riscv64_Arch) clock (nanos clock) s k b fuel)
    as (v & p & t & s' & k' & Hrun & Hch & ? & ? & _ & ? & ?); [by apply counts_shows|done..|].
  exists v, p, t, s', k'. split_and!; try done. apply (Hp p), Hch.
Qed.

Lemma resume_next_run clock fuel ctx s tc b :
  current_task (o_sched s) = Ok tc →
  let saved := set_task (current_pid (o_sched s)) (set_context ctx tc) (o_sched s) in
  can_resume clock fuel (k_reads (o_kmem s)) saved b →
  ∃ c s', resume_next clock fuel ctx s = Ok (c, s') ∧
    resumed clock (k_reads (o_kmem s)) saved c s' ∧ same_files s s'.
Proof.
  intros Hcur saved Hcan.
  destruct (schedule_resumes clock fuel saved (o_kmem s) b Hcan)
    as (v & p & t & sc & k & Hrun & Hch & Hp & Hts & Hq & Hwf & pt & Hpt).
  set (s1 := mkOs sc k (o_world s) (o_vfs s) (o_kernel_pt s) (sstatus s) (satp s) (stimecmp s)).
  destruct (switch_registers_run t (context t) pt s1) as (s' & Hsw & Hset & Hsc & Hk & Hsame); [done|].
  exists (context t), s'. split_and!; [| |done].
  - unfold resume_next. rewrite (st_run _ _ _ (set_next_schedule None t, context t) s1); [exact Hsw|].
    unfold on_scheduler, switch_task. rewrite st_run_get. cbn [fst]. rewrite (st_run_lift _ _ _ tc) by done.
    rewrite (st_run _ _ _ tt (saved, o_kmem s)) by done. by rewrite (st_run _ _ _ _ _ Hrun).
  - exists v, p, t. rewrite Hsc, Hk. by split_and!.
Qed.

(** ** The end of a task *)

(** The scheduler without the process [p]. *)
Definition without (p : Z) (s : Scheduler) : Scheduler :=
  mkScheduler (delete p (tasks s)) (filter (λ e, e.2 ≠ p) (vruntime s)) (current_pid s) (max_pid s) (trap_stack s).

Lemma kill_task_run clock fuel s tc k1 b :
  current_task (o_sched s) = Ok tc → pid tc = current_pid (o_sched s) →
  drop_task (delete (pid tc) (tasks (o_sched s))) tc (o_kmem s) = Ok (tt, k1) →
  can_resume clock fuel (k_reads k1) (without (pid tc) (o_sched s)) b →
  ∃ c s', kill_task clock fuel s = Ok (c, s') ∧
    resumed clock (k_reads k1) (without (pid tc) (o_sched s)) c s' ∧ same_files s s'.
Proof.
  intros Hcur Hpid Hdrop Hcan. set (p0 := pid tc) in *.
  assert (tasks (o_sched s) !! p0 = Some tc) as Htc by (rewrite Hpid; by apply current_task_Ok).
  destruct (schedule_resumes clock fuel (without p0 (o_sched s)) k1 b Hcan)
    as (v & p & t & sc & k & Hrun & Hch & Hp & Hts & Hq & Hwf & pt & Hpt).
  set (s1 := mkOs sc k (o_world s) (o_vfs s) (o_kernel_pt s) (sstatus s) (satp s) (stimecmp s)).
  destruct (switch_registers_run (set_next_schedule None t) (context t) pt s1)
    as (s' & Hsw & Hset & Hsc & Hk & Hsame); [done|].
  exists (context t), s'. split_and!; [| |done].
  - unfold kill_task. rewrite st_run_get. rewrite (st_run_lift _ _ _ tc) by done. fold p0.
    rewrite (st_run _ _ _ tt s1).
    + rewrite st_run_get. rewrite (st_run_lift _ _ _ (set_next_schedule None t)); [exact Hsw|].
      apply current_task_Ok. cbn [s1 o_sched]. rewrite Hts, Hp. apply lookup_insert_eq.
    + unfold on_scheduler, kill. rewrite st_run_get. cbn [fst]. rewrite Htc.
      rewrite (st_run _ _ _ tt (o_sched s, k1)).
      2: { unfold on_kmem. cbn [fst snd]. by rewrite Hdrop. }
      rewrite (st_run _ _ _ tt (without p0 (o_sched s), k1)) by done. by rewrite (st_run _ _ _ _ _ Hrun).
  - exists v, p, t. rewrite Hsc, Hk. by split_and!.
Qed.

(** ** Theorems *)

(** C23: a timer interrupt preempts.  While the readings of the counter do not go
    backwards and are no more than [2^64 / 100], no task has nice -20 and no sleeping
    one nice -19, the handler returns; the registers [ctx] of the interrupted task are
    saved in it, the next timer interrupt is armed, and what is resumed, with its
    registers, mode and page table, is the task that [schedule] chooses: it may run,
    and comes before all tasks that were awake. *)
Theorem timer_preempts clock fuel L ctx s tc b :
  let reads := k_reads (o_kmem s) in
  let saved := set_task (current_pid (o_sched s)) (set_context ctx tc) (o_sched s) in
  current_task (o_sched s) = Ok tc → clock reads + TIMER_INTERVAL < U64 →
  can_resume clock fuel (S reads) saved b →
  ∃ c s', strap_handler clock fuel L SCAUSE_TIMER_S ctx s = Ok (c, s') ∧
    resumed clock (S reads) saved c s' ∧ stimecmp s' = clock reads + TIMER_INTERVAL.
Proof.
  intros reads saved Hcur Harm Hcan. set (k := o_kmem s). set (k1 := read_again k).
  set (s1 := mkOs (o_sched s) k1 (o_world s) (o_vfs s) (o_kernel_pt s) (sstatus s)
    (Z.lor (pp_0 (o_kernel_pt s)) (ushl MODE_SV39 60)) (clock reads + TIMER_INTERVAL)).
  destruct (resume_next_run clock fuel ctx s1 tc b) as (c & s' & Hrun & Hres & _ & _ & _ & Hcmp); [done..|].
  exists c, s'. split_and!; [|done..]. unfold strap_handler. simpl (_ || _). cbv iota. rewrite Z.eqb_refl.
  rewrite (st_run _ _ _ tt (mkOs (o_sched s) k1 (o_world s) (o_vfs s) (o_kernel_pt s) (sstatus s) (satp s)
    (clock reads + TIMER_INTERVAL))).
  2: { unfold set_timer. fold k. by rewrite uadd_Ok. }
  by rewrite (st_run _ _ _ tt s1).
Qed.

(** The context a system call with the result [r] leaves. *)
Definition call_context (ctx : Context) (r : option Z) : Context :=
  mkContext (match r with Some ret => <[9%nat:=ret]> (x ctx) | None => x ctx end) (epc ctx + 4).

(** C24: a system call other than exit and fork whose own work returns [r]: the
    handler returns; [r] is in the register [a0] of the caller, which will go on behind
    its [ecall]; the files are as the call left them; and what is resumed, with its
    registers, mode and page table, is the task that [schedule] chooses.  After an
    illegal instruction, when dropping the memory of the task returns, the handler
    returns too: the task is gone from the table and the queue, and one that is left is
    resumed. *)
Theorem trap_resumes_current clock fuel L ctx s tc b :
  current_task (o_sched s) = Ok tc →
  (∀ num a0 a1 a2 r y,
     x ctx !! 16%nat = Some num → x ctx !! 9%nat = Some a0 → x ctx !! 10%nat = Some a1 → x ctx !! 11%nat = Some a2 →
     num ≠ SYSCALL_EXIT → num ≠ SYSCALL_FORK → epc ctx + 4 < U64 →
     dispatch_with_task clock fuel num a0 a1 a2 (mkSys tc (o_kmem s) (o_world s) (o_vfs s)) = Ok (r, y) →
     let saved := set_task (current_pid (o_sched s)) (set_context (call_context ctx r) (s_task y)) (o_sched s) in
     can_resume clock fuel (k_reads (s_kmem y)) saved b →
     ∃ c s', strap_handler clock fuel L SCAUSE_ECALL_U ctx s = Ok (c, s') ∧
       resumed clock (k_reads (s_kmem y)) saved c s' ∧ o_world s' = s_world y ∧ o_vfs s' = s_vfs y) ∧
  (∀ k1, pid tc = current_pid (o_sched s) →
     drop_task (delete (pid tc) (tasks (o_sched s))) tc (o_kmem s) = Ok (tt, k1) →
     can_resume clock fuel (k_reads k1) (without (pid tc) (o_sched s)) b →
     ∃ c s', strap_handler clock fuel L SCAUSE_ILLEGAL_INS ctx s = Ok (c, s') ∧
       resumed clock (k_reads k1) (without (pid tc) (o_sched s)) c s').
Proof.
  intros Hcur. set (satp1 := Z.lor (pp_0 (o_kernel_pt s)) (ushl MODE_SV39 60)). split.
  - intros num a0 a1 a2 r y Hnum Ha0 Ha1 Ha2 Hexit Hfork Hepc Hcall saved Hcan. set (p := current_pid (o_sched s)) in *.
    set (s1 := mkOs (set_task p (s_task y) (o_sched s)) (s_kmem y) (s_world y) (s_vfs y) (o_kernel_pt s)
      (sstatus s) satp1 (stimecmp s)).
    assert (current_task (o_sched s1) = Ok (s_task y)) as Hcur1 by (apply current_task_Ok, lookup_insert_eq).
    pose proof (resume_next_run clock fuel (call_context ctx r) s1 (s_task y) b Hcur1) as Hnext.
    cbv zeta in Hnext. change (current_pid (o_sched s1)) with p in Hnext. cbn [s1 o_sched] in Hnext.
    rewrite set_task_twice in Hnext. destruct (Hnext Hcan) as (c & s' & Hrun & Hres & Hw & Hv & _).
    exists c, s'. split_and!; [|done..]. unfold strap_handler. change (SCAUSE_ECALL_U =? SCAUSE_ECALL_U) with true.
    cbn [orb]. rewrite (st_run_lift _ _ _ _ (uadd_Ok _ _ Hepc)). cbv zeta.
    rewrite (st_run _ _ _ tt (mkOs (o_sched s) (o_kmem s) (o_world s) (o_vfs s) (o_kernel_pt s) (sstatus s) satp1 (stimecmp s))) by done.
    unfold syscall. cbn [x epc]. unfold index.
    rewrite (st_run_lift _ _ _ num), (st_run_lift _ _ _ a0), (st_run_lift _ _ _ a1), (st_run_lift _ _ _ a2) by
      (by rewrite ?Hnum, ?Ha0, ?Ha1, ?Ha2).
    rewrite (st_run _ _ _ r s1).
    2: { unfold dispatch. cbn [o_sched o_kmem o_world o_vfs]. rewrite Hcur. cbn [mbind res_bind]. by rewrite Hcall. }
    rewrite (st_run_lift _ _ _ (call_context ctx r)).
    2: { unfold call_context. destruct r as [ret|]; [|done].
         by rewrite update_Ok by (by eapply lookup_lt_Some). }
    rewrite (proj2 (Z.eqb_neq num SYSCALL_EXIT)), (proj2 (Z.eqb_neq num SYSCALL_FORK)) by done. exact Hrun.
  - intros k1 Hpid Hdrop Hcan.
    set (s1 := mkOs (o_sched s) (o_kmem s) (o_world s) (o_vfs s) (o_kernel_pt s) (sstatus s) satp1 (stimecmp s)).
    destruct (kill_task_run clock fuel s1 tc k1 b) as (c & s' & Hrun & Hres & _); [done..|].
    exists c, s'. split; [|done]. unfold strap_handler. simpl (_ || _). cbv iota.
    change (SCAUSE_ILLEGAL_INS =? SCAUSE_TIMER_S) with false. change (SCAUSE_ILLEGAL_INS =? SCAUSE_ILLEGAL_INS) with true.
    cbv iota. by rewrite (st_run _ _ _ tt s1).
Qed.

(** ** Witnesses *)

(** The kernel's task has been interrupted, whose page table is a page of the
    allocator's; task 1 sleeps until time 200, task 2 is a user task that is awake. *)
Definition demo_space (n : Z) : PageMapper := mkMapper (mkTable (Z.shiftl (PAGE_OFFSET + n) PAGE_BITS)).
Definition demo_user (p : Z) (ns : option Z) : Task :=
  mkTask 0 p 0 (demo_space (0x40a00 + p)) 0 (mkContext (replicate 31 p) 0x1000) [] ns FdTable_default.
Definition demo_os : Os :=
  mkOs (mkScheduler {[0 := demo_user 0 None; 1 := demo_user 1 (Some 200); 2 := demo_user 2 None]}
          [(0, 1); (2, 2); (5, 0)] 0 2 (mkVP 0))
       (mkKmem {[0xffffffc040a00 := ∅]} (after 1 demo_heap) ∅ 0 0 demo_kheap) demo_world demo_open
       (mkPP 0x80500) 0 0 0.
Definition demo_layout : Layout := Build_Layout 0 0 0 0 0 0 0 0 0.
Definition demo_ctx : Context := mkContext (replicate 31 7) 0x2000.

Lemma demo_os_tasks p t : tasks (o_sched demo_os) !! p = Some t → ∃ q ns, t = demo_user q ns ∧ 0 ≤ q ≤ 2.
Proof.
  cbn [demo_os o_sched tasks]. rewrite !lookup_insert_Some.
  intros [[_ <-]|[_ [[_ <-]|[_ [_ <-]%lookup_singleton_Some]]]]; eexists _, _; (split; [reflexivity|lia]).
Qed.

Lemma demo_os_queue v p : (v, p) ∈ vruntime (o_sched demo_os) → 0 ≤ v ∧ is_Some (tasks (o_sched demo_os) !! p).
Proof.
  cbn [demo_os o_sched vruntime tasks]. rewrite !elem_of_cons, elem_of_nil.
  intros [[= -> ->]|[[= -> ->]|[[= -> ->]|[]]]]; (split; [lia|by eexists]).
Qed.

Lemma demo_os_wf : sched_wf (o_sched demo_os).
Proof.
  constructor; [| |intros v p; apply demo_os_queue]; cbn [demo_os o_sched vruntime].
  - repeat constructor; unfold vlt; cbn [fst snd]; lia.
  - apply NoDup_ListNoDup. repeat constructor; simpl; lia.
Qed.

Lemma demo_counts from len : (from + len < 1000)%nat → counts demo_clock from len.
Proof. intros Hlen n m H1 H2. unfold demo_clock, U64. lia. Qed.

(** The queue, or what is left of it, with task 2 awake at 2. *)
Lemma demo_can_resume s from :
  sched_wf s → (from < 100)%nat → (∀ v p, (v, p) ∈ vruntime s → 0 ≤ v) → (2, 2) ∈ vruntime s →
  (∀ p t, tasks s !! p = Some t → nice t = 0 ∧ ∃ q, 0 ≤ q ≤ 2 ∧ page t = demo_space (0x40a00 + q)) →
  tasks s !! 2 = Some (demo_user 2 None) → (distance 3 (vruntime s) < 10)%nat →
  can_resume demo_clock 20 from s 2.
Proof.
  intros Hwf Hfrom Hpos H2 Htasks Ht2 Hd. constructor; change (2 + 1) with 3.
  - apply demo_counts. lia.
  - constructor; [done| |done|done|].
    + intros p t [-> _]%Htasks. split; [lia|right; lia].
    + by exists 2, (demo_user 2 None).
  - intros p t (_ & q & Hq & ->)%Htasks.
    assert (q = 0 ∨ q = 1 ∨ q = 2) as [-> | [-> | ->]] by lia; (eexists; vm_compute; reflexivity).
  - lia.
Qed.

(** The current task with another context. *)
Lemma demo_saved ctx from :
  (from < 100)%nat →
  can_resume demo_clock 20 from (set_task 0 (set_context ctx (demo_user 0 None)) (o_sched demo_os)) 2.
Proof.
  intros Hfrom.
  destruct (saved_task (AR:=Riscv64_Arch) (λ p t, nice t = 0 ∧ ∃ q, 0 ≤ q ≤ 2 ∧ page t = demo_space (0x40a00 + q))
    (o_sched demo_os) (demo_user 0 None) ctx) as (Hall & Hwf & _); [done|apply demo_os_wf|done| |].
  { intros p t (q & ns & -> & Hq)%demo_os_tasks. split; [done|]. by exists q. }
  apply demo_can_resume; try done.
  - intros v p [? _]%demo_os_queue. done.
  - cbn [set_task vruntime demo_os o_sched]. rewrite !elem_of_cons. by right; left.
  - vm_compute. lia.
Qed.

(** What is left without the current task. *)
Lemma demo_left from : (from < 100)%nat → can_resume demo_clock 20 from (without 0 (o_sched demo_os)) 2.
Proof.
  intros Hfrom. apply demo_can_resume; [|done|..].
  - constructor.
    + change (vruntime (without 0 (o_sched demo_os))) with [(0, 1); (2, 2)].
      repeat constructor; unfold vlt; cbn [fst snd]; lia.
    + change (vruntime (without 0 (o_sched demo_os))) with [(0, 1); (2, 2)].
      apply NoDup_ListNoDup. repeat constructor; simpl; lia.
    + intros v p. change (vruntime (without 0 (o_sched demo_os))) with [(0, 1); (2, 2)].
      rewrite !elem_of_cons, elem_of_nil. intros [[= -> ->]|[[= -> ->]|[]]]; by eexists.
  - intros v p. change (vruntime (without 0 (o_sched demo_os))) with [(0, 1); (2, 2)].
    rewrite !elem_of_cons, elem_of_nil. intros [[= -> ->]|[[= -> ->]|[]]]; lia.
  - change (vruntime (without 0 (o_sched demo_os))) with [(0, 1); (2, 2)]. rewrite !elem_of_cons. by right; left.
  - intros p t. cbn [without tasks]. rewrite lookup_delete_Some. intros [_ (q & ns & -> & Hq)%demo_os_tasks].
    split; [done|]. by exists q.
  - done.
  - vm_compute. lia.
Qed.

(** The memory after the current task has been dropped. *)
Definition demo_dropped : res (unit * Kmem) :=
  drop_task (delete 0 (tasks (o_sched demo_os))) (demo_user 0 None) (o_kmem demo_os).

Lemma demo_drop : ∃ k, demo_dropped = Ok (tt, k) ∧ (k_reads k < 100)%nat.
Proof.
  assert (match demo_dropped with Ok (_, k) => (k_reads k <? 100)%nat | _ => false end = true) as H
    by (vm_compute; reflexivity).
  destruct demo_dropped as [[[] k]| | |]; [|discriminate H..]. exists k. split; [reflexivity|by apply Nat.ltb_lt].
Qed.

Lemma timer_preempts_witness :
  let saved := set_task (current_pid (o_sched demo_os)) (set_context demo_ctx (demo_user 0 None)) (o_sched demo_os) in
  ∃ c s', strap_handler demo_clock 20 demo_layout SCAUSE_TIMER_S demo_ctx demo_os = Ok (c, s') ∧
    resumed demo_clock 1 saved c s' ∧ stimecmp s' = 1 + TIMER_INTERVAL.
Proof.
  apply (timer_preempts demo_clock 20 demo_layout demo_ctx demo_os (demo_user 0 None) 2).
  - reflexivity.
  - reflexivity.
  - apply demo_saved. vm_compute. lia.
Defined.

(** A call of [lseek] on a descriptor that is not open, and an illegal
    instruction. *)
Definition lseek_ctx : Context := mkContext (<[16%nat:=SYSCALL_LSEEK]> (replicate 31 7)) 0x2000.

Lemma trap_resumes_current_witness :
  (∃ c s', strap_handler demo_clock 20 demo_layout SCAUSE_ECALL_U lseek_ctx demo_os = Ok (c, s') ∧
     resumed demo_clock 0 (set_task 0 (set_context (call_context lseek_ctx (Some (U64 - 1))) (demo_user 0 None))
       (o_sched demo_os)) c s') ∧
  ∃ from c s', strap_handler demo_clock 20 demo_layout SCAUSE_ILLEGAL_INS demo_ctx demo_os = Ok (c, s') ∧
    resumed demo_clock from (without 0 (o_sched demo_os)) c s'.
Proof.
  split.
  - destruct (trap_resumes_current demo_clock 20 demo_layout lseek_ctx demo_os (demo_user 0 None) 2) as [Hcall _].
    + reflexivity.
    + destruct (Hcall SYSCALL_LSEEK 7 7 7 (Some (U64 - 1)) (mkSys (demo_user 0 None) (o_kmem demo_os) (o_world demo_os)
        (o_vfs demo_os))) as (c & s' & Hrun & Hres & _).
      * reflexivity.
      * reflexivity.
      * reflexivity.
      * reflexivity.
      * discriminate.
      * discriminate.
      * reflexivity.
      * reflexivity.
      * apply demo_saved. vm_compute. lia.
      * exists c, s'. split; [exact Hrun|exact Hres].
  - destruct (trap_resumes_current demo_clock 20 demo_layout demo_ctx demo_os (demo_user 0 None) 2) as [_ Hkill].
    + reflexivity.
    + destruct demo_drop as (k1 & Hdrop & Hk1). exists (k_reads k1). apply (Hkill k1).
      * reflexivity.
      * exact Hdrop.
      * apply demo_left. exact Hk1.
Defined.
