(* ===== verification/GicTheorems.v ===== *)
(** * Mapping device registers, and the start-up of the Arm interrupt controller

    What the loops that map the registers of a device leave behind, for either
    architecture, and what [soc_init] does. *)

From Stdlib Require Import String.
From S2P Require Import Prelude Page Address Bytes Text Buddy BuddyLists BuddyZone BuddySpec BuddyTheorems BuddyLaws StaticAlloc Mapping Heap Sv39 Arm64Page MappingSpec PageFormats MappingTheorems Elf Vfs Dtb DtbSpec DtbTheorems Arch Task Sched Gic.

(** What the page tables of an architecture satisfy. *)
Class ArchLaws `{AR : !Arch} : Prop := {
  al_entry :: @EntryLaws arch_entry;
  al_mapper :: @MapperLaws arch_mapper;
}.
Arguments ArchLaws : clear implicits.

#[export] Instance Riscv64_Laws : ArchLaws Riscv64_Arch.
Proof. split; apply _. Qed.
#[export] Instance Arm64_Laws freq : ArchLaws (Arm64_Arch freq).
Proof. split; apply _. Qed.

(** ** Registers at their own addresses *)

Definition reg_pages (size : Z) : Z := div_ceil size PAGE_SIZE.

(** The page [v] holds registers. *)
Definition in_regs (regs : list (Z * Z)) (v : Z) : Prop :=
  Exists (λ r, r.1 / 4096 ≤ v < r.1 / 4096 + reg_pages r.2) regs.

#[global] Instance in_regs_dec regs v : Decision (in_regs regs v).
Proof. unfold in_regs. apply _. Defined.

Lemma reg_pages_pos s : 0 ≤ s → 0 ≤ reg_pages s.
Proof.
  intros Hs. unfold reg_pages, div_ceil. change PAGE_SIZE with 4096.
  pose proof (Z.div_pos s 4096 Hs ltac:(lia)). destruct (s mod 4096 =? 0); lia.
Qed.

Section regs.
Context {AR : Arch} `{!ArchLaws AR}.
#[local] Existing Instances arch_entry arch_mapper.

(** Registers the page tables can map at their own addresses, and the pages that
    takes at most. *)
Definition reg_fits (r : Z * Z) : Prop :=
  0 ≤ r.1 / 4096 < vpn_limit ∧ 0 ≤ r.2 ∧ r.1 / 4096 + reg_pages r.2 ≤ vpn_limit.
Definition regs_need (regs : list (Z * Z)) : nat :=
  sum_list_with (λ r, table_need (r.1 / 4096) (reg_pages r.2)) regs.

(** The page table at [r] with the registers mapped for the kernel to read and
    write; the other pages translate as before. *)
Definition regs_mapped (regs : list (Z * Z)) (r : Z) (m m' : tmem) : Prop :=
  ∀ v, translate m' r v =
    if decide (in_regs regs (v mod vpn_limit)) then Some (e_new (v mod vpn_limit) true RW)
    else translate m r v.

Lemma vpn_limit_64 : vpn_limit < U64.
Proof.
  unfold vpn_limit, U64. apply Z.pow_lt_mono_r; [lia..|].
  pose proof ml_bits. pose proof (proj2 ml_level). unfold MAX_SUPPORTED_LEVEL in *. nia.
Qed.

Lemma map_regs_then Q regs : ∀ k r n,
  pt_wf (k_tabs k) r (buddy_avail (k_buddy k)) → (∀ x, buddy_avail (k_buddy k) x → okpage x) →
  pages_then Q (regs_need regs + n) (k_buddy k) → Forall reg_fits regs →
  ∃ k', map_regs (mkMapper (table_at r)) regs k = Ok (tt, k') ∧
    pt_wf (k_tabs k') r (buddy_avail (k_buddy k')) ∧ pages_then Q n (k_buddy k') ∧
    (∀ x, buddy_avail (k_buddy k') x → buddy_avail (k_buddy k) x) ∧
    k_bytes k' = k_bytes k ∧ k_reads k' = k_reads k ∧ k_arcs k' = k_arcs k ∧ k_heap k' = k_heap k ∧
    regs_mapped regs r (k_tabs k) (k_tabs k').
Proof.
  induction regs as [|[a s] regs IH]; intros k r n Hwf Hrange Hready Hfits.
  { exists k. split_and!; done. }
  apply list.Forall_cons in Hfits as [(Ha & Hs & Hlim) Hfits]. cbn [fst snd] in *.
  pose proof (reg_pages_pos s Hs) as Hpages.   pose proof vpn_limit_64. pose proof vpn_limit_pos.
  cbn [regs_need sum_list_with fst snd] in Hready. rewrite <- Nat.add_assoc in Hready.
  assert (Z.shiftr a PAGE_BITS = a / 4096) as Hsh by (by rewrite Z.shiftr_div_pow2).
  destruct (map_with_run (PageAllocatorLaws0 := then_laws Q) (k_tabs k) (k_buddy k) r (a / 4096) (a / 4096) (reg_pages s) RW (regs_need regs + n))
    as (m1 & b1 & Hrun & Hwf1 & Hr1 & Hsub1 & Htr1); try done; try lia.
  { rewrite Z.mod_small by lia. lia. }
  destruct (IH (mkKmem m1 b1 (k_bytes k) (k_reads k) (k_arcs k) (k_heap k)) r n)
    as (k' & Hrun' & Hwf' & Hr' & Hsub' & H1 & H2 & H3 & H4 & Htr'); try done; [intros x Hx; apply Hrange, Hsub1, Hx|].
  exists k'. split_and!; try done; [|intros x Hx; apply Hsub1, Hsub', Hx|].
  - cbn [map_regs]. rewrite (st_run _ _ _ tt (mkKmem m1 b1 (k_bytes k) (k_reads k) (k_arcs k) (k_heap k))); [done|].
    unfold on_tables, map_data, mapper_map. rewrite Hsh. fold (reg_pages s). by rewrite Hrun.
  - intros v. rewrite Htr'. cbn [k_tabs]. rewrite Htr1. unfold page_offset, in_regs.
    rewrite (Z.mod_small (a / 4096)) by lia.
    destruct (decide (Exists _ regs)) as [He|He].
    + rewrite decide_True; [done|]. by apply Exists_cons_tl.
    + destruct (decide (0 ≤ _ < _)) as [Hin|Hin].
      * rewrite decide_True by (apply Exists_cons_hd; cbn [fst snd]; lia). do 2 f_equal. lia.
      * rewrite decide_False; [done|]. rewrite Exists_cons. cbn [fst snd]. intros [?|?]; [lia|done].
Qed.

Lemma map_regs_run regs k r n :
  pt_wf (k_tabs k) r (buddy_avail (k_buddy k)) → (∀ x, buddy_avail (k_buddy k) x → okpage x) →
  buddy_ready (regs_need regs + n) (k_buddy k) → Forall reg_fits regs →
  ∃ k', map_regs (mkMapper (table_at r)) regs k = Ok (tt, k') ∧
    pt_wf (k_tabs k') r (buddy_avail (k_buddy k')) ∧ buddy_ready n (k_buddy k') ∧
    (∀ x, buddy_avail (k_buddy k') x → buddy_avail (k_buddy k) x) ∧
    k_bytes k' = k_bytes k ∧ k_reads k' = k_reads k ∧ k_arcs k' = k_arcs k ∧
    regs_mapped regs r (k_tabs k) (k_tabs k').
Proof.
  intros Hwf Hrange Hready%ready_then Hfits.
  destruct (map_regs_then (λ _, True) regs k r n) as (k' & ? & ? & ?%ready_then & ? & ? & ? & ? & _ & ?); [done..|].
  by exists k'.
Qed.
End regs.

(** ** The interrupt controller *)

(** The strings of a [compatible] property. *)
Definition compatible_strings (value : list Z) : list str := removelast (split_at 0 value).

Lemma check_compatible_strings value c :
  check_compatible value c = Ok (bool_decide (c ∈ compatible_strings value)).
Proof. apply compatible_loop_spec. lia. Qed.

Lemma check_any_spec value cs :
  check_any value cs = Ok (bool_decide (Exists (λ c, c ∈ compatible_strings value) cs)).
Proof.
  induction cs as [|c cs IH]; [done|]. cbn [check_any]. rewrite check_compatible_strings. cbn [mbind res_bind].
  destruct (bool_decide_reflect (c ∈ compatible_strings value)) as [Hc|Hc].
  - by rewrite bool_decide_eq_true_2 by (by apply Exists_cons_hd).
  - rewrite IH. f_equal. apply bool_decide_ext. rewrite Exists_cons. tauto.
Qed.

Lemma from_root_table p :
  okpage (p + PAGE_OFFSET) →
  VirtualPage_from (@mkPP PAGE_OFFSET p) = Ok (mkVP (p + PAGE_OFFSET)) ∧
  from_root (mkVP (p + PAGE_OFFSET)) = mkMapper (table_at (p + PAGE_OFFSET)).
Proof.
  intros Hok. split.
  - apply VirtualPage_from_Ok. destruct Hok. unfold U64. lia.
  - unfold from_root, Table_from_page, table_at. cbn [vp_0]. by rewrite ushl_page.
Qed.

(** What [soc_init] writes: the virtual timer's interrupt is enabled, then the
    distributor and the processor's interface, and no priority is masked. *)
Definition gic_started (d c : Z) : list Access :=
  [AWrite (d + GICD_ISENABLER) (2 ^ INTID_VTIMER); AWrite (d + GICD_CTLR) 1;
   AWrite (c + GICC_CTLR) 1; AWrite (c + GICC_PMR) 0xff].

Lemma gicd_write_run d c acc reg v (k : Kmem) :
  d + reg < U32 →
  on_gic (gicd_mmio_write reg v) (mkGic (Some d) (Some c) acc, k)
  = Ok (tt, (mkGic (Some d) (Some c) (acc ++ [AWrite (d + reg) v]), k)).
Proof.
  intros Hd. unfold on_gic, gicd_mmio_write. cbn [fst snd]. rewrite st_run_get. cbn [GICD_BASE].
  rewrite (st_run_lift (deref (Some d)) _ _ d) by done. unfold u32_add. by rewrite (proj2 (Z.ltb_lt _ _)).
Qed.

Lemma gicc_write_run d c acc reg v (k : Kmem) :
  c + reg < U32 →
  on_gic (gicc_mmio_write reg v) (mkGic (Some d) (Some c) acc, k)
  = Ok (tt, (mkGic (Some d) (Some c) (acc ++ [AWrite (c + reg) v]), k)).
Proof.
  intros Hd. unfold on_gic, gicc_mmio_write. cbn [fst snd]. rewrite st_run_get. cbn [GICC_BASE].
  rewrite (st_run_lift (deref (Some c)) _ _ c) by done. unfold u32_add. by rewrite (proj2 (Z.ltb_lt _ _)).
Qed.

Lemma gic_start_run d c acc (k : Kmem) :
  d + 0x1000 < U32 → c + 0x1000 < U32 →
  (_ ← on_gic (gic_enable_irq 27);
   _ ← on_gic (gicd_mmio_write GICD_CTLR 1);
   _ ← on_gic (gicc_mmio_write GICC_CTLR 1);
   on_gic (gicc_mmio_write GICC_PMR 0xff) : ST (Gic * Kmem) unit) (mkGic (Some d) (Some c) acc, k)
  = Ok (tt, (mkGic (Some d) (Some c) (acc ++ gic_started d c), k)).
Proof.
  intros Hd Hc. unfold gic_enable_irq. change (27 / 32) with 0. change (27 mod 32) with 27.
  rewrite (st_run _ _ _ _ _ (gicd_write_run d c acc GICD_ISENABLER (2 ^ 27) k ltac:(unfold GICD_ISENABLER; lia))).
  rewrite (st_run _ _ _ _ _ (gicd_write_run d c _ GICD_CTLR 1 k ltac:(unfold GICD_CTLR; lia))).
  rewrite (st_run _ _ _ _ _ (gicc_write_run d c _ GICC_CTLR 1 k ltac:(unfold GICC_CTLR; lia))).
  rewrite gicc_write_run by (unfold GICC_PMR; lia). unfold gic_started. by rewrite <- !(assoc_L (++)).
Qed.

Section soc.
Context {AR : Arch} `{!ArchLaws AR}.
#[local] Existing Instances arch_entry arch_mapper.

(** A node that describes the controller: a compatible name, and the addresses of
    the distributor and of the processor's interface first. *)
Definition gic_node (node : Node) (d c : Z) (regs : list (Z * Z)) : Prop :=
  (∃ v, get_property node (lit "compatible") = Some v ∧
     Exists (λ name, name ∈ compatible_strings v) GIC_COMPATIBLE) ∧
  (∃ reg, get_property node (lit "reg") = Some reg ∧
     parse_reg reg (address_cells node) (size_cells node) = Ok regs) ∧
  (∃ ds cs rest, regs = (d, ds) :: (c, cs) :: rest) ∧
  0 ≤ d < U32 - 0x1000 ∧ 0 ≤ c < U32 - 0x1000.

(** C27: when the device tree has an interrupt controller, below the root or in
    its [soc] node, [soc_init] returns: the two base addresses are those of the
    tree, the registers are mapped at their own addresses for the kernel to read
    and write, every other page translates as before, and the accesses to the
    controller are exactly the four that enable the virtual timer's interrupt, the
    distributor and the interface, and unmask every priority. *)
Theorem soc_init_correct p dtb node d c regs g k n :
  find_intc (child_nodes (dt_root dtb)) = Some node → gic_node node d c regs →
  Forall reg_fits regs → okpage (p + PAGE_OFFSET) →
  pt_wf (k_tabs k) (p + PAGE_OFFSET) (buddy_avail (k_buddy k)) →
  (∀ x, buddy_avail (k_buddy k) x → okpage x) → buddy_ready (regs_need regs + n) (k_buddy k) →
  ∃ k', soc_init (mkPP p) dtb (g, k)
      = Ok (tt, (mkGic (Some d) (Some c) (accesses g ++ gic_started d c), k')) ∧
    pt_wf (k_tabs k') (p + PAGE_OFFSET) (buddy_avail (k_buddy k')) ∧ buddy_ready n (k_buddy k') ∧
    regs_mapped regs (p + PAGE_OFFSET) (k_tabs k) (k_tabs k').
Proof.
  intros Hnode ((v & Hv & Hcomp) & (reg & Hreg & Hparse) & (ds & cs & rest & Hregs) & Hd & Hc) Hfits Hok Hwf Hrange Hready.
  destruct (map_regs_run regs k (p + PAGE_OFFSET) n Hwf Hrange Hready Hfits)
    as (k' & Hmap & Hwf' & Hr' & _ & _ & _ & _ & Htr).
  exists k'. split_and!; try done. destruct (from_root_table p Hok) as [Hvp Hroot].
  unfold soc_init. rewrite Hnode. rewrite (st_run _ _ _ tt (mkGic (Some d) (Some c) (accesses g), k')).
  { apply gic_start_run; lia. }
  rewrite (st_run _ _ _ (inl tt) (mkGic (Some d) (Some c) (accesses g), k')); [done|].
  unfold init_gic_regs. rewrite Hv, check_any_spec, bool_decide_eq_true_2 by done.
  rewrite (st_run_lift (Ok true) _ _ _ eq_refl). rewrite Hreg, (st_run_lift _ _ _ _ Hvp). cbv zeta. rewrite Hroot.
  rewrite (st_run_lift _ _ _ _ Hparse). assert (index regs 0 = Ok (d, ds) ∧ index regs 1 = Ok (c, cs)) as [Hr0 Hr1] by (by rewrite Hregs).
  rewrite (st_run_lift _ _ _ _ Hr0), (st_run_lift _ _ _ _ Hr1). cbn [fst snd]. rewrite (st_run _ _ _ tt (mkGic (Some d) (Some c) (accesses g), k)).
  2: { unfold on_gic, modify. cbn. by rewrite !Z.mod_small by lia. }
  rewrite (st_run _ _ _ tt (mkGic (Some d) (Some c) (accesses g), k')); [done|].
  unfold on_gic_kmem. cbn [fst snd]. by rewrite Hmap.
Qed.

(** Without a controller in the device tree the base addresses are used before
    they are initialised. *)
Lemma soc_init_no_intc p dtb g k :
  find_intc (child_nodes (dt_root dtb)) = None → GICD_BASE g = None →
  soc_init p dtb (g, k) = Undef.
Proof.
  intros Hnode Hg. unfold soc_init. rewrite Hnode. destruct g as [gd gc acc]. cbn [GICD_BASE] in Hg. by subst gd.
Qed.
End soc.

(** ** Witness *)

Definition soc_intc : Node :=
  mkNode (lit "intc@8000000")
    [mkProperty (lit "compatible") (lit "arm,cortex-a15-gic" ++ [0]);
     mkProperty (lit "reg") (concat (encode_reg 2 2 <$> [(0x8000000, 0x10000); (0x8010000, 0x10000)]))] [] 2 2.
Definition soc_dtb : DeviceTree := mkDeviceTree 17 (mkNode [] [] [mkNode (lit "memory@40000000") [] [] 2 2; soc_intc] 2 2).
Definition soc_kmem : Kmem := mkKmem demo_mem demo_heap ∅ 0 0 (Heap.mkKHeap 0 ∅ ∅ []).

Lemma demo_heap_range x : buddy_avail demo_heap x → okpage x.
Proof.
  intros Hx. destruct demo_heap_ok as (_ & _ & Hr). apply Hr in Hx. unfold okpage. rewrite PAGE_OFFSET_val. lia.
Qed.

Lemma demo_heap_root `{!Entry, !Mapper, !EntryLaws, !MapperLaws} : pt_wf demo_mem demo_root (buddy_avail demo_heap).
Proof.
  apply fresh_root; [unfold okpage; rewrite PAGE_OFFSET_val; unfold demo_root; lia|].
  intros Hx. destruct demo_heap_ok as (_ & _ & Hr). apply Hr in Hx. unfold demo_root in Hx. lia.
Qed.

Lemma soc_init_correct_witness :
  let A := Arm64_Arch 62500000 in
  ∃ k', soc_init (mkPP 0x40000) soc_dtb (mkGic None None [], soc_kmem)
      = Ok (tt, (mkGic (Some 0x8000000) (Some 0x8010000) (gic_started 0x8000000 0x8010000), k')) ∧
    pt_wf (H:=arch_entry) (H0:=arch_mapper) (k_tabs k') demo_root (buddy_avail (k_buddy k')) ∧ buddy_ready 0 (k_buddy k') ∧
    regs_mapped [(0x8000000, 0x10000); (0x8010000, 0x10000)] demo_root demo_mem (k_tabs k').
Proof.
  intros A. apply (soc_init_correct (AR:=A) 0x40000 soc_dtb soc_intc 0x8000000 0x8010000
    [(0x8000000, 0x10000); (0x8010000, 0x10000)] (mkGic None None []) soc_kmem 0).
  - reflexivity.
  - split_and!; [..|done|done|done|done].
    + eexists. split; [reflexivity|]. by_compute.
    + eexists. split; reflexivity.
    + eexists _, _, _. reflexivity.
  - repeat constructor; vm_compute; congruence.
  - by vm_compute.
  - exact demo_heap_root.
  - exact demo_heap_range.
  - apply ready_check_spec; [apply demo_heap_ok|]. vm_compute. reflexivity.
Defined.
