(* ===== verification/Arm64Trap.v ===== *)
(** * Traps and system calls on Arm (src/src/arch/arm64/trap.rs,
    src/src/arch/arm64/syscall.rs, src/src/arch/arm64/cpu.rs, src/src/arch/arm64.rs)

    The handlers work on the saved context, the scheduler, the file systems, the
    system registers and the interrupt controller. *)

From S2P Require Import Prelude Page Address Bytes Text Buddy Mapping Arm64Page Elf Device Kmsg Rand Vfs Devfs Dtb Arch Task Sched Gic Syscall.

Import Arm64.

(** ** The processor *)

Record ArmCpu := mkArmCpu {
  ttbr0 : Z;
  ttbr1 : Z;
  sctlr : Z;
  sp_el0 : Z;
  cntv_tval : Z;
  cntv_ctl : Z;
  tcr : Z;
  mair : Z;
  vbar : Z;
  cpacr : Z;
  daif_i : bool;     (* interrupts are masked *)
}.

Definition TCR_T0SZ : Z := 16.
Definition TCR_TG0_4KB : Z := Z.shiftl 0 6.
Definition TCR_IRGN0 : Z := Z.shiftl 0x01 8.
Definition TCR_ORGN0 : Z := Z.shiftl 0x01 10.
Definition TCR_T1SZ : Z := Z.shiftl 16 16.
Definition TCR_TG1_4KB : Z := Z.shiftl 2 30.
Definition TCR_IRGN1 : Z := Z.shiftl 0x01 24.
Definition TCR_ORGN1 : Z := Z.shiftl 0x01 26.
Definition MAIR_NORMAL_WB : Z := 0xff.
Definition MAIR_ATTR0_OFF : Z := 0.

Abbreviation P := (ST ArmCpu).

Definition set_ttbrx (v : Z) : P unit := modify (λ c,
  mkArmCpu v v (sctlr c) (sp_el0 c) (cntv_tval c) (cntv_ctl c) (tcr c) (mair c) (vbar c) (cpacr c) (daif_i c)).
Definition write_sctlr (v : Z) : P unit := modify (λ c,
  mkArmCpu (ttbr0 c) (ttbr1 c) v (sp_el0 c) (cntv_tval c) (cntv_ctl c) (tcr c) (mair c) (vbar c) (cpacr c) (daif_i c)).
Definition write_sp_el0 (v : Z) : P unit := modify (λ c,
  mkArmCpu (ttbr0 c) (ttbr1 c) (sctlr c) v (cntv_tval c) (cntv_ctl c) (tcr c) (mair c) (vbar c) (cpacr c) (daif_i c)).
Definition write_cntv_tval (v : Z) : P unit := modify (λ c,
  mkArmCpu (ttbr0 c) (ttbr1 c) (sctlr c) (sp_el0 c) v (cntv_ctl c) (tcr c) (mair c) (vbar c) (cpacr c) (daif_i c)).
Definition write_daif (b : bool) : P unit := modify (λ c,
  mkArmCpu (ttbr0 c) (ttbr1 c) (sctlr c) (sp_el0 c) (cntv_tval c) (cntv_ctl c) (tcr c) (mair c) (vbar c) (cpacr c) b).

(** [DAIFClr, #2] and [DAIFSet, #2]. *)
Definition arm_enable_interrupts : P unit := write_daif false.
Definition arm_disable_interrupts : P unit := write_daif true.

(** A timer interrupt after one millisecond; [freq] is CNTFRQ_EL0. *)
Definition arm_set_timer (freq : Z) : P unit := write_cntv_tval (freq / 1000).

Definition arm_cpu_init (freq vector_table : Z) : P unit :=
  let tcr := Z.lor (Z.lor (Z.lor (Z.lor (Z.lor (Z.lor (Z.lor TCR_T0SZ TCR_TG0_4KB) TCR_IRGN0) TCR_ORGN0)
               TCR_T1SZ) TCR_TG1_4KB) TCR_IRGN1) TCR_ORGN1 in
  let mair := Z.shiftl MAIR_NORMAL_WB MAIR_ATTR0_OFF in
  _ ← modify (λ c, mkArmCpu (ttbr0 c) (ttbr1 c) (sctlr c) (sp_el0 c) (cntv_tval c) (cntv_ctl c) tcr mair
                     vector_table (cpacr c) (daif_i c));
  _ ← arm_set_timer freq;
  modify (λ c, mkArmCpu (ttbr0 c) (ttbr1 c) (sctlr c) (sp_el0 c) (cntv_tval c) 1 (Arm64Trap.tcr c)
                 (Arm64Trap.mair c) (vbar c) (Z.shiftl 3 20) (daif_i c)).

(** [switch_to] of the mapper: both base registers, and the MMU is enabled. *)
Definition arm_switch_to (page : PageMapper) : P unit :=
  v ← lift (arm64_switch_to page);
  _ ← set_ttbrx v;
  c ← get;
  write_sctlr (mmu_enable (sctlr c)).

(** ** The handlers *)

Definition ESR_EC_OFFSET : Z := 26.
Definition ESR_EC_MASK : Z := 63.
Definition ESR_EC_UNKOWN : Z := 0x00.
Definition ESR_EC_WFI : Z := 0x01.
Definition ESR_EC_SVC64 : Z := 0x15.
Definition ESR_EC_TRAPPED_MSR : Z := 0x18.
Definition ESR_EC_INST_ABORT : Z := 0x20.
Definition ESR_EC_DATA_ABORT : Z := 0x24.

Section trap.
(** [freq] is CNTFRQ_EL0; [clock] the counter, [device] the interrupt controller;
    [fuel] bounds the loops of the scheduler and of [copy_user_string]. *)
Context (freq : Z).
#[local] Instance arm : Arch := Arm64_Arch freq.
Context (clock : nat → Z) (device : list Access → Z → Z).
Variable fuel : nat.

Record ArmOs := mkArmOs {
  ao_sched : Scheduler;
  ao_kmem : Kmem;
  ao_world : World;
  ao_vfs : VirtualFileSystem DevFS;
  ao_kernel_pt : PhysPage;
  ao_cpu : ArmCpu;
  ao_gic : Gic;
}.

Abbreviation AO := (ST ArmOs).

Definition on_scheduler {B} (f : ST (Scheduler * Kmem) B) : AO B := λ s,
  '(b, (sc, k)) ← f (ao_sched s, ao_kmem s);
  Ok (b, mkArmOs sc k (ao_world s) (ao_vfs s) (ao_kernel_pt s) (ao_cpu s) (ao_gic s)).
Definition on_cpu {B} (f : P B) : AO B := λ s,
  '(b, c) ← f (ao_cpu s);
  Ok (b, mkArmOs (ao_sched s) (ao_kmem s) (ao_world s) (ao_vfs s) (ao_kernel_pt s) c (ao_gic s)).
Definition on_gicc {B} (f : ST Gic B) : AO B := λ s,
  '(b, g) ← f (ao_gic s);
  Ok (b, mkArmOs (ao_sched s) (ao_kmem s) (ao_world s) (ao_vfs s) (ao_kernel_pt s) (ao_cpu s) g).

(** [u64] shift of the page number. *)
Definition to_kernel_pt : AO unit :=
  s ← get;
  on_cpu (set_ttbrx (ushl (pp_0 (ao_kernel_pt s)) 12)).

(** [msr SP_EL0, ctx.sp] for a user task. *)
Definition restore_sp (next_task : Task) (ctx : Context) : AO unit :=
  if negb (is_kernel next_task) then on_cpu (write_sp_el0 (sp ctx)) else mret tt.

(** [mrs ctx.sp, SP_EL0] when the current task is a user task. *)
Definition save_sp (ctx : Context) : AO Context :=
  s ← get;
  t ← lift (current_task (ao_sched s));
  mret (if negb (is_kernel t) then mkContext (x ctx) (sp_el0 (ao_cpu s)) (elr_el1 ctx) (pstate ctx) else ctx).

(** The context is returned: it is what the handler leaves in [ctx]. *)
Definition kill_task : AO Context :=
  s ← get;
  t ← lift (current_task (ao_sched s));
  _ ← on_scheduler (kill clock fuel (pid t));
  s ← get;
  next_task ← lift (current_task (ao_sched s));
  let next_ctx := context next_task in
  _ ← restore_sp next_task next_ctx;
  _ ← on_cpu (arm_switch_to (page next_task));
  mret next_ctx.

Definition syscall_fork (L : Layout) (ctx : Context) : AO Context :=
  s ← get;
  t ← lift (current_task (ao_sched s));
  _ ← on_scheduler (on_sched (modify (set_task (current_pid (ao_sched s)) (set_context (AR:=arm) ctx t))));
  child_pid ← on_scheduler (fork L);
  xs ← lift (update (x ctx) 0 child_pid);
  s ← get;
  child ← lift (unwrap (tasks (ao_sched s) !! child_pid));
  let cc : Context := context child in
  cxs ← lift (update (x cc) 0 0);
  let child := set_context (AR:=arm) (mkContext cxs (sp cc) (elr_el1 cc) (pstate cc)) child in
  _ ← on_scheduler (on_sched (modify (set_task child_pid child)));
  mret (mkContext xs (sp ctx) (elr_el1 ctx) (pstate ctx)).

(** [dispatch_with_task] on the current task. *)
Definition dispatch (num a0 a1 a2 : Z) : AO (option Z) := λ s,
  t ← current_task (ao_sched s);
  '(r, y) ← dispatch_with_task clock fuel num a0 a1 a2 (mkSys t (ao_kmem s) (ao_world s) (ao_vfs s));
  Ok (r, mkArmOs (set_task (current_pid (ao_sched s)) (s_task y) (ao_sched s)) (s_kmem y) (s_world y)
            (s_vfs y) (ao_kernel_pt s) (ao_cpu s) (ao_gic s)).

(** The common end of a system call and of a timer interrupt. *)
Definition resume_next (ctx : Context) : AO Context :=
  '(next_task, next_ctx) ← on_scheduler (switch_task (AR:=arm) clock fuel ctx);
  _ ← restore_sp next_task next_ctx;
  _ ← on_cpu (arm_switch_to (page next_task));
  mret next_ctx.

Definition syscall (L : Layout) (ctx : Context) : AO Context :=
  syscall_num ← lift (index (x ctx) 8);
  a0 ← lift (index (x ctx) 0);
  a1 ← lift (index (x ctx) 1);
  a2 ← lift (index (x ctx) 2);
  ctx ← save_sp ctx;
  r ← dispatch syscall_num a0 a1 a2;
  ctx ← lift (match r with
              | Some ret => xs ← update (x ctx) 0 ret; Ok (mkContext xs (sp ctx) (elr_el1 ctx) (pstate ctx))
              | None => Ok ctx
              end);
  if syscall_num =? SYSCALL_EXIT then kill_task
  else
    ctx ← (if syscall_num =? SYSCALL_FORK then syscall_fork L ctx else mret ctx);
    resume_next ctx.

Definition el1_sync_trap_handler (L : Layout) (esr_el1 : Z) (ctx : Context) : AO Context :=
  _ ← to_kernel_pt;
  let ec := Z.land (Z.shiftr esr_el1 ESR_EC_OFFSET) ESR_EC_MASK in
  if ec =? ESR_EC_SVC64 then syscall L ctx
  else if (ec =? ESR_EC_UNKOWN) || (ec =? ESR_EC_WFI) || (ec =? ESR_EC_TRAPPED_MSR)
          || (ec =? ESR_EC_INST_ABORT) || (ec =? ESR_EC_DATA_ABORT)
  then kill_task
  else mret ctx.

(** The base register is restored after [func] has run on the kernel's table. *)
Definition kernel_pt_do (func : AO unit) : AO unit :=
  s ← get;
  let ttbrx_el1 := ttbr0 (ao_cpu s) in
  _ ← to_kernel_pt;
  _ ← func;
  on_cpu (set_ttbrx ttbrx_el1).

Definition task_switch (ctx : Context) : AO Context :=
  ctx ← save_sp ctx;
  resume_next ctx.

Definition el1_irq_trap_handler (ctx : Context) : AO Context :=
  _ ← to_kernel_pt;
  irq ← on_gicc (gicc_mmio_read device GICC_IAR);
  if irq =? INTID_VTIMER then
    _ ← on_cpu (arm_set_timer freq);
    ctx ← task_switch ctx;
    _ ← kernel_pt_do (on_gicc (gicc_mmio_write GICC_EOIR irq));
    mret ctx
  else mret ctx.
End trap.
