(* ===== verification/Arm64TrapTheorems.v ===== *)
(** * Arm traps: theorems

    Each handler returns with the task that the scheduler chooses, under the
    conditions of the scheduler; and what happens outside of them. *)

From Stdlib Require Import String.
From S2P Require Import Prelude Page Address Bytes Text Path Buddy BuddyTheorems Mapping MappingSpec MappingTheorems Arm64Page Elf Device Kmsg Rand Vfs Devfs FsTheorems Arch Task UserCopy Sched SchedSpec TaskTheorems Gic Syscall Arm64Trap.

Import Arm64.

(** ** Single steps *)

Lemma mmu_enabled v : Z.testbit (mmu_enable v) 0 = true.
Proof. unfold mmu_enable. rewrite !Z.lor_spec. by rewrite !orb_true_r. Qed.

Section trap.
Context (freq : Z).
#[local] Abbreviation arm := (Arm64Trap.arm freq).
#[local] Hint Extern 0 Arch => exact (Arm64Trap.arm freq) : typeclass_instances.
Context (clock : nat → Z) (device : list Access → Z → Z).
Variable fuel : nat.
#[local] Abbreviation ArmOs := (Arm64Trap.ArmOs freq).

(** The registers are set for the task [t] with the saved registers [c]: its page
    table in both base registers, the MMU on and, for a user task, its stack. *)
Definition arm_set_for (t : Task) (c : Context) (s : ArmOs) : Prop :=
  arm64_switch_to (page t) = Ok (ttbr0 (ao_cpu _ s)) ∧ ttbr1 (ao_cpu _ s) = ttbr0 (ao_cpu _ s) ∧
  Z.testbit (sctlr (ao_cpu _ s)) 0 = true ∧ (is_kernel t = false → sp_el0 (ao_cpu _ s) = sp c).

(** The state with another processor. *)
Definition with_cpu (c : ArmCpu) (s : ArmOs) : ArmOs :=
  mkArmOs freq (ao_sched _ s) (ao_kmem _ s) (ao_world _ s) (ao_vfs _ s) (ao_kernel_pt _ s) c (ao_gic _ s).

Definition paging_on (v : Z) (c : ArmCpu) : ArmCpu :=
  mkArmCpu v v (mmu_enable (sctlr c)) (sp_el0 c) (cntv_tval c) (cntv_ctl c) (tcr c) (mair c) (vbar c)
    (cpacr c) (daif_i c).

Lemma arm_switch_to_spec p c :
  arm_switch_to p c = (v ← arm64_switch_to p; Ok (tt, paging_on v c)).
Proof. unfold arm_switch_to. rewrite st_run_bind. unfold lift. by destruct (arm64_switch_to p). Qed.

Definition user_sp (t : Task) (v : Z) (c : ArmCpu) : ArmCpu :=
  if is_kernel t then c
  else mkArmCpu (ttbr0 c) (ttbr1 c) (sctlr c) v (cntv_tval c) (cntv_ctl c) (tcr c) (mair c) (vbar c)
         (cpacr c) (daif_i c).

Lemma restore_sp_spec t (c : Context) s :
  restore_sp freq t c s = Ok (tt, with_cpu (user_sp t (sp c) (ao_cpu _ s)) s).
Proof. unfold restore_sp, user_sp. destruct (is_kernel t); [by destruct s|done]. Qed.

(** The common end of the handlers. *)
Lemma arm_switch_spec t (c : Context) s :
  (_ ← restore_sp freq t c; _ ← on_cpu freq (arm_switch_to (page t)); mret c : ST ArmOs Context) s
  = v ← arm64_switch_to (page t); Ok (c, with_cpu (paging_on v (user_sp t (sp c) (ao_cpu _ s))) s).
Proof.
  rewrite st_run_bind, restore_sp_spec. cbn [mbind res_bind]. rewrite st_run_bind. unfold on_cpu.
  rewrite arm_switch_to_spec. by destruct (arm64_switch_to (page t)).
Qed.

Lemma switched_set t (c : Context) v s :
  arm64_switch_to (page t) = Ok v →
  arm_set_for t c (with_cpu (paging_on v (user_sp t (sp c) (ao_cpu _ s))) s).
Proof.
  intros Hv. unfold arm_set_for, with_cpu, paging_on, user_sp. cbn [ao_cpu ttbr0 ttbr1 sctlr sp_el0].
  rewrite mmu_enabled. split_and!; [done..|]. by intros ->.
Qed.

(** ** The next task *)

(** The next [len] readings of the counter do not go backwards and are no more than
    [2^64 / 10^9], so that they can be converted to nanoseconds. *)
Definition arm_counts (from len : nat) : Prop :=
  ∀ n m, (from ≤ n ≤ m)%nat → (m < from + len)%nat → clock n ≤ clock m ∧ clock m * 1000000000 < U64.

Definition arm_nanos (n : nat) : Z := clock n * 1000000000 / freq.

Lemma arm_counts_shows from len :
  0 < freq → arm_counts from len → clock_shows clock arm_nanos from len.
Proof.
  intros Hf Hc. unfold arm_nanos. constructor.
  - intros n Hn. destruct (Hc n n) as [_ Hlt]; [lia..|]. cbn [Arch.sys_nanos Arm64Trap.arm Arm64_Arch].
    unfold Arm64.sys_nanos. rewrite (umul_Ok _ _ Hlt). cbn [mbind res_bind].
    by rewrite (proj2 (Z.eqb_neq _ _)) by lia.
  - intros n m H1 H2. destruct (Hc n m H1 H2). apply Z.div_le_mono; lia.
Qed.

(** The scheduler [s] has a task to resume at the reading [from]: [schedule] ends on
    it, with the bound [b], and the page tables have numbers. *)
Record arm_can_resume (from : nat) (s : Scheduler) (b : Z) : Prop := {
  ar_counts : arm_counts from (S (distance (b + 1) (vruntime s)));
  ar_ready : sched_ready (arm_nanos from) s b;
  ar_pages : ∀ p t, tasks s !! p = Some t → ∃ v, arm64_switch_to (page t) = Ok v;
  ar_fuel : (distance (b + 1) (vruntime s) < fuel)%nat;
}.

(** The state [s'] a trap returns in, with the context [c], after [schedule] has run
    on [s]: the task that was chosen is the current one, and the registers are set
    for it. *)
Definition arm_resumed (from : nat) (s : Scheduler) (c : Context) (s' : ArmOs) : Prop :=
  ∃ v p t, c = context t ∧ chosen arm_nanos from (k_reads (ao_kmem _ s')) s v p t ∧
    current_pid (ao_sched _ s') = p ∧ tasks (ao_sched _ s') = <[p:=set_next_schedule None t]> (tasks s) ∧
    (vruntime (ao_sched _ s')).*2 ≡ₚ (vruntime s).*2 ∧ sched_wf (ao_sched _ s') ∧ arm_set_for t c s'.

(** What the scheduler does not touch. *)
Definition arm_same (s s' : ArmOs) : Prop :=
  ao_world _ s' = ao_world _ s ∧ ao_vfs _ s' = ao_vfs _ s ∧ ao_gic _ s' = ao_gic _ s ∧
  cntv_tval (ao_cpu _ s') = cntv_tval (ao_cpu _ s).

(** The state with another scheduler and memory. *)
Definition with_sched (sc : Scheduler) (k : Kmem) (s : ArmOs) : ArmOs :=
  mkArmOs freq sc k (ao_world _ s) (ao_vfs _ s) (ao_kernel_pt _ s) (ao_cpu _ s) (ao_gic _ s).

Lemma arm_schedule_resumes s sc k b :
  0 < freq → arm_can_resume (k_reads k) sc b →
  ∃ t sc' k' s', schedule clock fuel (sc, k) = Ok (set_next_schedule None t, (sc', k')) ∧
    (∀ u, page u = page t → is_kernel u = is_kernel t →
       (_ ← restore_sp freq u (context t); _ ← on_cpu freq (arm_switch_to (page u)); mret (context t) : ST ArmOs Context)
         (with_sched sc' k' s) = Ok (context t, s')) ∧
    current_task sc' = Ok (set_next_schedule None t) ∧
    arm_resumed (k_reads k) sc (context t) s' ∧ arm_same s s'.
Proof.
  intros Hfreq [Hc Hr Hp Hf].
  destruct (schedule_chooses (AR:=arm) clock arm_nanos sc k b fuel)
    as (v & p & t & sc' & k' & Hrun & Hch & Hcur & Hts & _ & Hq & Hwf); [by apply arm_counts_shows|done..|].
  destruct (Hp p t) as [ttbr Httbr]; [apply Hch|].
  exists t, sc', k', (with_cpu (paging_on ttbr (user_sp t (sp (context t)) (ao_cpu _ s))) (with_sched sc' k' s)).
  split_and!; [done| | | |].
  - intros u Hu Hk. rewrite arm_switch_spec, Hu, Httbr. cbn [mbind res_bind]. unfold user_sp. by rewrite Hk.
  - apply current_task_Ok. rewrite Hts, Hcur. apply lookup_insert_eq.
  - exists v, p, t. split_and!; try done.
    exact (switched_set t (context t) ttbr (with_sched sc' k' s) Httbr).
  - unfold arm_same, with_cpu, paging_on, user_sp. cbn. split_and!; try done. by destruct (is_kernel t).
Qed.

Lemma arm_resume_run ctx s tc b :
  0 < freq → current_task (ao_sched _ s) = Ok tc →
  let saved := set_task (current_pid (ao_sched _ s)) (set_context (AR:=arm) ctx tc) (ao_sched _ s) in
  arm_can_resume (k_reads (ao_kmem _ s)) saved b →
  ∃ c s', resume_next freq clock fuel ctx s = Ok (c, s') ∧
    arm_resumed (k_reads (ao_kmem _ s)) saved c s' ∧ arm_same s s'.
Proof.
  intros Hfreq Hcur saved Hcan.
  destruct (arm_schedule_resumes s saved (ao_kmem _ s) b Hfreq Hcan) as (t & sc & k & s' & Hrun & Hsw & _ & Hres & Hsame).
  exists (context t), s'. split_and!; [|done..]. unfold resume_next.
  rewrite (st_run _ _ _ (set_next_schedule None t, context t) (with_sched sc k s)); [by apply Hsw|].
  unfold on_scheduler, switch_task. rewrite st_run_get. cbn [fst]. rewrite (st_run_lift _ _ _ tc) by done.
  rewrite (st_run _ _ _ tt (saved, ao_kmem _ s)) by done. by rewrite (st_run _ _ _ _ _ Hrun).
Qed.

(** The scheduler without the process [p]. *)
Definition arm_without (p : Z) (s : Scheduler) : Scheduler :=
  mkScheduler (delete p (tasks s)) (filter (λ e, e.2 ≠ p) (vruntime s)) (current_pid s) (max_pid s) (trap_stack s).

Lemma arm_kill_run s tc k1 b :
  0 < freq → current_task (ao_sched _ s) = Ok tc → pid tc = current_pid (ao_sched _ s) →
  drop_task (delete (pid tc) (tasks (ao_sched _ s))) tc (ao_kmem _ s) = Ok (tt, k1) →
  arm_can_resume (k_reads k1) (arm_without (pid tc) (ao_sched _ s)) b →
  ∃ c s', kill_task freq clock fuel s = Ok (c, s') ∧
    arm_resumed (k_reads k1) (arm_without (pid tc) (ao_sched _ s)) c s'.
Proof.
  intros Hfreq Hcur Hpid Hdrop Hcan. set (p0 := pid tc) in *.
  assert (tasks (ao_sched _ s) !! p0 = Some tc) as Htc by (rewrite Hpid; by apply current_task_Ok).
  destruct (arm_schedule_resumes s _ k1 b Hfreq Hcan) as (t & sc & k & s' & Hrun & Hsw & Hcur' & Hres & _).
  exists (context t), s'. split; [|done]. unfold kill_task. rewrite st_run_get.
  rewrite (st_run_lift _ _ _ tc) by done. fold p0. rewrite (st_run _ _ _ tt (with_sched sc k s)).
  - rewrite st_run_get. rewrite (st_run_lift _ _ _ _ Hcur'). by apply (Hsw (set_next_schedule None t)).
  - unfold on_scheduler, kill. rewrite st_run_get. cbn [fst]. rewrite Htc.
    rewrite (st_run _ _ _ tt (ao_sched _ s, k1)).
    2: { unfold on_kmem. cbn [fst snd]. by rewrite Hdrop. }
    rewrite (st_run _ _ _ tt (arm_without p0 (ao_sched _ s), k1)) by done. by rewrite (st_run _ _ _ _ _ Hrun).
Qed.

(** ** Synchronous exceptions *)

(** The exception classes that end the task. *)
Definition fatal_classes : list Z :=
  [ESR_EC_UNKOWN; ESR_EC_WFI; ESR_EC_TRAPPED_MSR; ESR_EC_INST_ABORT; ESR_EC_DATA_ABORT].
Definition exception_class (esr : Z) : Z := Z.land (Z.shiftr esr ESR_EC_OFFSET) ESR_EC_MASK.

Lemma fatal_spec ec :
  ec ∈ fatal_classes →
  (ec =? ESR_EC_SVC64) = false ∧
  ((ec =? ESR_EC_UNKOWN) || (ec =? ESR_EC_WFI) || (ec =? ESR_EC_TRAPPED_MSR)
          || (ec =? ESR_EC_INST_ABORT) || (ec =? ESR_EC_DATA_ABORT)) = true.
Proof.
  unfold fatal_classes. rewrite !elem_of_cons, elem_of_nil. intros [->|[->|[->|[->|[->|[]]]]]]; done.
Qed.

(** The registers of an interrupted task: the handler adds the stack pointer of a
    user task, which the hardware keeps apart. *)
Definition saved_context (tc : Task) (ctx : Context) (s : ArmOs) : Context :=
  if is_kernel tc then ctx else mkContext (x ctx) (sp_el0 (ao_cpu _ s)) (elr_el1 ctx) (pstate ctx).

Lemma save_sp_run tc ctx s :
  current_task (ao_sched _ s) = Ok tc → save_sp freq ctx s = Ok (saved_context tc ctx s, s).
Proof.
  intros Ht. unfold save_sp. rewrite st_run_get. rewrite (st_run_lift _ _ _ tc) by done.
  unfold saved_context. by destruct (is_kernel tc).
Qed.

(** The context a system call with the result [r] leaves. *)
Definition svc_context (ctx : Context) (r : option Z) : Context :=
  mkContext (match r with Some ret => <[0%nat:=ret]> (x ctx) | None => x ctx end) (sp ctx) (elr_el1 ctx) (pstate ctx).

(** The state on the kernel's page table. *)
Definition on_kernel_pt (s : ArmOs) : ArmOs :=
  let kpt := ushl (pp_0 (ao_kernel_pt _ s)) 12 in
  let c := ao_cpu _ s in
  with_cpu (mkArmCpu kpt kpt (sctlr c) (sp_el0 c) (cntv_tval c) (cntv_ctl c) (tcr c) (mair c) (vbar c) (cpacr c)
    (daif_i c)) s.

(** C26: a system call other than exit and fork whose own work returns [r]: the
    handler returns; [r] is in the register [x0] of the caller, whose stack pointer is
    saved too; the files are as the call left them; and what is resumed, with its
    registers, its page table with the MMU on and, for a user task, its stack, is the
    task that [schedule] chooses.  After an exception of a class that ends the task,
    when dropping its memory returns, the handler returns too: the task is gone from
    the table and the queue, and one that is left is resumed. *)
Theorem arm_sync_trap_resumes L esr ctx s tc b :
  0 < freq → current_task (ao_sched _ s) = Ok tc →
  (∀ num a0 a1 a2 r y,
     exception_class esr = ESR_EC_SVC64 →
     x ctx !! 8%nat = Some num → x ctx !! 0%nat = Some a0 → x ctx !! 1%nat = Some a1 → x ctx !! 2%nat = Some a2 →
     num ≠ SYSCALL_EXIT → num ≠ SYSCALL_FORK →
     dispatch_with_task clock fuel num a0 a1 a2 (mkSys tc (ao_kmem _ s) (ao_world _ s) (ao_vfs _ s)) = Ok (r, y) →
     let saved := set_task (current_pid (ao_sched _ s))
                    (set_context (AR:=arm) (svc_context (saved_context tc ctx s) r) (s_task y)) (ao_sched _ s) in
     arm_can_resume (k_reads (s_kmem y)) saved b →
     ∃ c s', el1_sync_trap_handler freq clock fuel L esr ctx s = Ok (c, s') ∧
       arm_resumed (k_reads (s_kmem y)) saved c s' ∧ ao_world _ s' = s_world y ∧ ao_vfs _ s' = s_vfs y) ∧
  (∀ k1, exception_class esr ∈ fatal_classes → pid tc = current_pid (ao_sched _ s) →
     drop_task (delete (pid tc) (tasks (ao_sched _ s))) tc (ao_kmem _ s) = Ok (tt, k1) →
     arm_can_resume (k_reads k1) (arm_without (pid tc) (ao_sched _ s)) b →
     ∃ c s', el1_sync_trap_handler freq clock fuel L esr ctx s = Ok (c, s') ∧
       arm_resumed (k_reads k1) (arm_without (pid tc) (ao_sched _ s)) c s').
Proof.
  intros Hfreq Hcur. set (s0 := on_kernel_pt s).
  assert (∀ f, (_ ← to_kernel_pt freq; f : ST ArmOs Context) s = f s0) as Hkpt by (intros f; by rewrite (st_run _ _ _ tt s0)).
  split.
  - intros num a0 a1 a2 r y Hec Hnum Ha0 Ha1 Ha2 Hexit Hfork Hcall saved Hcan. set (p := current_pid (ao_sched _ s)) in *.
    set (s1 := mkArmOs freq (set_task p (s_task y) (ao_sched _ s)) (s_kmem y) (s_world y) (s_vfs y) (ao_kernel_pt _ s)
      (ao_cpu _ s0) (ao_gic _ s)).
    set (ctx1 := saved_context tc ctx s) in *.
    assert (x ctx1 = x ctx) as Hx by (unfold ctx1, saved_context; by destruct (is_kernel tc)).
    assert (current_task (ao_sched _ s1) = Ok (s_task y)) as Hcur1 by (apply current_task_Ok, lookup_insert_eq).
    pose proof (arm_resume_run (svc_context ctx1 r) s1 (s_task y) b Hfreq Hcur1) as Hnext.
    cbv zeta in Hnext. change (current_pid (ao_sched _ s1)) with p in Hnext. cbn [s1 ao_sched] in Hnext.
    rewrite set_task_twice in Hnext. destruct (Hnext Hcan) as (c & s' & Hrun & Hres & Hw & Hv & _).
    exists c, s'. split_and!; [|done..]. unfold el1_sync_trap_handler. rewrite Hkpt. cbv zeta.
    fold (exception_class esr). rewrite Hec, Z.eqb_refl. unfold syscall, index.
    rewrite (st_run_lift _ _ _ num), (st_run_lift _ _ _ a0), (st_run_lift _ _ _ a1), (st_run_lift _ _ _ a2) by
      (by rewrite ?Hnum, ?Ha0, ?Ha1, ?Ha2).
    rewrite (st_run _ _ _ _ _ (save_sp_run tc ctx s0 Hcur)). change (saved_context tc ctx s0) with ctx1.
    rewrite (st_run _ _ _ r s1).
    2: { unfold dispatch. cbn [s0 on_kernel_pt with_cpu ao_sched ao_kmem ao_world ao_vfs]. rewrite Hcur.
         cbn [mbind res_bind]. by rewrite Hcall. }
    rewrite (st_run_lift _ _ _ (svc_context ctx1 r)).
    2: { unfold svc_context. destruct r as [ret|]; [|by destruct ctx1].
         rewrite update_Ok by (rewrite Hx; by eapply lookup_lt_Some). done. }
    rewrite (proj2 (Z.eqb_neq num SYSCALL_EXIT)), (proj2 (Z.eqb_neq num SYSCALL_FORK)) by done. exact Hrun.
  - intros k1 Hec Hpid Hdrop Hcan. apply fatal_spec in Hec as [Hsvc Hfatal].
    destruct (arm_kill_run s0 tc k1 b) as (c & s' & Hrun & Hres); [done..|].
    exists c, s'. split; [|done]. unfold el1_sync_trap_handler. rewrite Hkpt. cbv zeta.
    fold (exception_class esr). by rewrite Hsvc, Hfatal.
Qed.

(** ** Interrupts *)

(** [s] on the kernel's page table, after the acknowledgement of an interrupt. *)
Definition acknowledged (base : Z) (s : ArmOs) : ArmOs :=
  let kpt := ushl (pp_0 (ao_kernel_pt _ s)) 12 in
  let c := ao_cpu _ s in
  let g := ao_gic _ s in
  mkArmOs freq (ao_sched _ s) (ao_kmem _ s) (ao_world _ s) (ao_vfs _ s) (ao_kernel_pt _ s)
    (mkArmCpu kpt kpt (sctlr c) (sp_el0 c) (cntv_tval c) (cntv_ctl c) (tcr c) (mair c) (vbar c) (cpacr c) (daif_i c))
    (mkGic (GICD_BASE g) (GICC_BASE g)
       (accesses g ++ [ARead (base + GICC_IAR) (device (accesses g) (base + GICC_IAR))])).

Lemma irq_acknowledge base ctx s :
  GICC_BASE (ao_gic _ s) = Some base → base + GICC_EOIR < U32 →
  el1_irq_trap_handler freq clock device fuel ctx s
  = (let irq := device (accesses (ao_gic _ s)) (base + GICC_IAR) in
     if irq =? INTID_VTIMER then
       _ ← on_cpu freq (arm_set_timer freq);
       ctx ← task_switch freq clock fuel ctx;
       _ ← kernel_pt_do freq (on_gicc freq (gicc_mmio_write GICC_EOIR irq));
       mret ctx
     else mret ctx) (acknowledged base s).
Proof.
  intros Hb Hlt. unfold el1_irq_trap_handler. rewrite (st_run _ _ _ tt (with_cpu
    (mkArmCpu (ushl (pp_0 (ao_kernel_pt _ s)) 12) (ushl (pp_0 (ao_kernel_pt _ s)) 12) (sctlr (ao_cpu _ s))
      (sp_el0 (ao_cpu _ s)) (cntv_tval (ao_cpu _ s)) (cntv_ctl (ao_cpu _ s)) (tcr (ao_cpu _ s)) (mair (ao_cpu _ s))
      (vbar (ao_cpu _ s)) (cpacr (ao_cpu _ s)) (daif_i (ao_cpu _ s))) s)) by done.
  rewrite (st_run _ _ _ (device (accesses (ao_gic _ s)) (base + GICC_IAR)) (acknowledged base s)); [done|].
  unfold on_gicc, gicc_mmio_read. cbn [with_cpu ao_gic]. rewrite st_run_get, Hb.
  rewrite (st_run_lift (deref (Some base)) _ _ base) by done.
  unfold u32_add. unfold GICC_EOIR, GICC_IAR in *. rewrite (proj2 (Z.ltb_lt _ _)) by lia.
  reflexivity.
Qed.

(** C39: an interrupt other than the timer's is acknowledged but its end is never
    signalled, and the handler returns to the interrupted task on the page table
    of the kernel. *)
Theorem arm_other_irq_stranded base ctx s :
  GICC_BASE (ao_gic _ s) = Some base → base + GICC_EOIR < U32 →
  device (accesses (ao_gic _ s)) (base + GICC_IAR) ≠ INTID_VTIMER →
  ∃ s', el1_irq_trap_handler freq clock device fuel ctx s = Ok (ctx, s') ∧
    ao_sched _ s' = ao_sched _ s ∧
    ttbr0 (ao_cpu _ s') = ushl (pp_0 (ao_kernel_pt _ s)) 12 ∧
    accesses (ao_gic _ s') = accesses (ao_gic _ s) ++
      [ARead (base + GICC_IAR) (device (accesses (ao_gic _ s)) (base + GICC_IAR))].
Proof.
  intros Hb Hlt Hne. exists (acknowledged base s). rewrite (irq_acknowledge base) by done.
  cbv zeta. by rewrite (proj2 (Z.eqb_neq _ _)) by done.
Qed.

(** The end of an interrupt is signalled on the kernel's page table; the table of
    the task is then restored. *)
Definition ended (base irq : Z) (s : ArmOs) : ArmOs :=
  let c := ao_cpu _ s in
  let g := ao_gic _ s in
  mkArmOs freq (ao_sched _ s) (ao_kmem _ s) (ao_world _ s) (ao_vfs _ s) (ao_kernel_pt _ s)
    (mkArmCpu (ttbr0 c) (ttbr0 c) (sctlr c) (sp_el0 c) (cntv_tval c) (cntv_ctl c) (tcr c) (mair c) (vbar c)
       (cpacr c) (daif_i c))
    (mkGic (GICD_BASE g) (GICC_BASE g) (accesses g ++ [AWrite (base + GICC_EOIR) irq])).

Lemma signal_end base irq s :
  GICC_BASE (ao_gic _ s) = Some base → base + GICC_EOIR < U32 →
  kernel_pt_do freq (on_gicc freq (gicc_mmio_write GICC_EOIR irq)) s = Ok (tt, ended base irq s).
Proof.
  intros Hb Hlt. unfold kernel_pt_do. rewrite st_run_get. cbv zeta.
  set (kpt := ushl (pp_0 (ao_kernel_pt _ s)) 12). set (c := ao_cpu _ s).
  rewrite (st_run _ _ _ tt (with_cpu (mkArmCpu kpt kpt (sctlr c) (sp_el0 c) (cntv_tval c) (cntv_ctl c) (tcr c)
    (mair c) (vbar c) (cpacr c) (daif_i c)) s)) by done.
  rewrite st_run_bind. unfold on_gicc, gicc_mmio_write. rewrite st_run_get. cbn [with_cpu ao_gic]. rewrite Hb.
  rewrite (st_run_lift (deref (Some base)) _ _ base) by done.
  unfold u32_add. rewrite (proj2 (Z.ltb_lt _ _)) by lia. reflexivity.
Qed.

(** C25: a timer interrupt preempts.  While the readings of the counter do not go
    backwards and are no more than [2^64 / 10^9], no task has nice -20 and no sleeping
    one nice -19, the handler returns; the registers of the interrupted task are saved
    in it, a user task's stack pointer too, the next timer interrupt is armed after a
    millisecond, and the end of the interrupt is signalled, as the last access to the
    controller.  What is resumed, with its registers, its page table and its stack, is
    the task that [schedule] chooses: it may run, and comes before all tasks that were
    awake. *)
Theorem arm_timer_preempts base ctx s tc b :
  0 < freq → GICC_BASE (ao_gic _ s) = Some base → base + GICC_EOIR < U32 →
  device (accesses (ao_gic _ s)) (base + GICC_IAR) = INTID_VTIMER →
  current_task (ao_sched _ s) = Ok tc →
  let saved := set_task (current_pid (ao_sched _ s))
                 (set_context (AR:=arm) (saved_context tc ctx s) tc) (ao_sched _ s) in
  arm_can_resume (k_reads (ao_kmem _ s)) saved b →
  ∃ c s', el1_irq_trap_handler freq clock device fuel ctx s = Ok (c, s') ∧
    arm_resumed (k_reads (ao_kmem _ s)) saved c s' ∧ cntv_tval (ao_cpu _ s') = freq / 1000 ∧
    accesses (ao_gic _ s') = accesses (ao_gic _ s) ++
      [ARead (base + GICC_IAR) INTID_VTIMER; AWrite (base + GICC_EOIR) INTID_VTIMER].
Proof.
  intros Hfreq Hb Hlt Hirq Hcur saved Hcan. set (c := ao_cpu _ (acknowledged base s)).
  set (s1 := with_cpu (mkArmCpu (ttbr0 c) (ttbr1 c) (sctlr c) (sp_el0 c) (freq / 1000) (cntv_ctl c) (tcr c) (mair c)
    (vbar c) (cpacr c) (daif_i c)) (acknowledged base s)).
  destruct (arm_resume_run (saved_context tc ctx s) s1 tc b Hfreq Hcur Hcan)
    as (c' & s2 & Hrun & Hres & _ & _ & Hgic & Htval).
  exists c', (ended base INTID_VTIMER s2). split_and!.
  - rewrite (irq_acknowledge base) by done. cbv zeta. rewrite Hirq, Z.eqb_refl.
    rewrite (st_run _ _ _ tt s1) by done. rewrite (st_run _ _ _ c' s2).
    + rewrite (st_run _ _ _ _ _ (signal_end base INTID_VTIMER s2 ltac:(by rewrite Hgic) Hlt)). done.
    + unfold task_switch. by rewrite (st_run _ _ _ _ _ (save_sp_run tc ctx s1 Hcur)).
  - destruct Hres as (v & p & t & Hc & Hch & Hp & Hts & Hq & Hwf & H1 & H2 & H3 & H4).
    exists v, p, t. unfold arm_set_for. by split_and!.
  - cbn [ended ao_cpu cntv_tval]. by rewrite Htval.
  - cbn [ended ao_gic accesses]. rewrite Hgic. cbn [s1 with_cpu acknowledged ao_gic accesses].
    by rewrite Hirq, <- app_assoc.
Qed.
End trap.

(** ** The clock *)

(** A sleeping task at the head of the queue panics the kernel once the counter times
    10^9 no longer fits in 64 bits: at 62.5 MHz, 296 seconds after it starts. *)
Theorem arm_sleep_panics freq clock fuel s k v p rest t ns :
  vruntime (AR:=Arm64_Arch freq) s = (v, p) :: rest → tasks s !! p = Some t → next_schedule t = Some ns →
  0 ≤ turn t → 0 ≤ v → v + turn t < U64 → U64 ≤ clock (k_reads k) * 1000000000 →
  schedule clock (S fuel) (s, k) = Panic.
Proof.
  intros Hq Ht Hns Hturn Hv Hlt Hover. cbn [schedule fst snd].
  rewrite (pick_run s v p rest t) by done. cbn [mbind res_bind]. rewrite Hns. unfold get_sys_time.
  cbn [Arch.sys_nanos Arm64_Arch]. unfold Arm64.sys_nanos, umul.
  by rewrite (proj2 (Z.ltb_ge _ _)) by done.
Qed.

(** ** Witnesses *)

(** A counter of 1 MHz that moves on from reading to reading; the user task 3 has been
    interrupted, whose page table is a page of the allocator's, task 1 sleeps until
    time 200000, task 2 is a user task that is awake. *)
Definition arm_space (n : Z) : PageMapper := mkMapper (mkTable (Z.shiftl (PAGE_OFFSET + n) PAGE_BITS)).
Definition arm_freq : Z := 1000000.
Definition arm_ticks (n : nat) : Z := 100 + Z.of_nat n.
#[local] Hint Extern 0 Arch => exact (Arm64Trap.arm arm_freq) : typeclass_instances.
Definition arm_user (p : Z) (ns : option Z) : Task :=
  @mkTask (Arm64Trap.arm arm_freq) 1 p 0 (arm_space (0x40a03 - p)) 0 (mkContext (replicate 31 p) (0x7000 + p) 0x1000 0) [] ns FdTable_default.
Definition arm_sched : Scheduler :=
  mkScheduler {[3 := arm_user 3 None; 1 := arm_user 1 (Some 200000); 2 := arm_user 2 None]}
    [(0, 1); (2, 2); (5, 3)] 3 3 (mkVP 0).
Definition arm_cpu : ArmCpu := mkArmCpu 0 0 0 0x6000 0 1 0 0 0 0 false.
Definition arm_os : Arm64Trap.ArmOs arm_freq :=
  mkArmOs arm_freq arm_sched (mkKmem {[0xffffffc040a00 := ∅]} (after 1 demo_heap) ∅ 0 0 demo_kheap) demo_world
    demo_open (mkPP 0x40100) arm_cpu (mkGic (Some 0x8000000) (Some 0x8010000) []).
Definition arm_layout : Layout := Build_Layout 0 0 0 0 0 0 0 0 0.
Definition arm_ctx : Context := mkContext (replicate 31 7) 0 0x2000 0.

Lemma arm_sched_tasks p t : tasks arm_sched !! p = Some t → ∃ q ns, t = arm_user q ns ∧ 1 ≤ q ≤ 3.
Proof.
  unfold arm_sched. cbn [tasks]. rewrite !lookup_insert_Some.
  intros [[_ <-]|[_ [[_ <-]|[_ [_ <-]%lookup_singleton_Some]]]]; eexists _, _; (split; [reflexivity|lia]).
Qed.

Lemma arm_sched_queue v p : (v, p) ∈ vruntime arm_sched → 0 ≤ v ∧ is_Some (tasks arm_sched !! p).
Proof.
  unfold arm_sched. cbn [vruntime tasks]. rewrite !elem_of_cons, elem_of_nil.
  intros [[= -> ->]|[[= -> ->]|[[= -> ->]|[]]]]; (split; [lia|by eexists]).
Qed.

Lemma arm_sched_wf : sched_wf arm_sched.
Proof.
  constructor; [| |intros v p; apply arm_sched_queue]; unfold arm_sched; cbn [vruntime].
  - repeat constructor; unfold vlt; cbn [fst snd]; lia.
  - apply NoDup_ListNoDup. repeat constructor; simpl; lia.
Qed.

(** The queue, or what is left of it, with task 2 awake at 2. *)
Lemma arm_demo_resume s from :
  sched_wf s → (from < 100)%nat → (∀ v p, (v, p) ∈ vruntime s → 0 ≤ v) → (2, 2) ∈ vruntime s →
  (∀ p t, tasks s !! p = Some t → nice t = 0 ∧ ∃ q, 1 ≤ q ≤ 3 ∧ page t = arm_space (0x40a03 - q)) →
  tasks s !! 2 = Some (arm_user 2 None) → (distance 3 (vruntime s) < 10)%nat →
  arm_can_resume arm_freq arm_ticks 20 from s 2.
Proof.
  intros Hwf Hfrom Hpos H2 Htasks Ht2 Hd. constructor; change (2 + 1) with 3.
  - intros n m H1 H3. unfold arm_ticks, U64. lia.
  - constructor; [done| |done|done|].
    + intros p t [-> _]%Htasks. split; [lia|right; lia].
    + by exists 2, (arm_user 2 None).
  - intros p t (_ & q & Hq & ->)%Htasks.
    assert (q = 1 ∨ q = 2 ∨ q = 3) as [-> | [-> | ->]] by lia; (eexists; vm_compute; reflexivity).
  - lia.
Qed.

Lemma arm_demo_saved ctx from :
  (from < 100)%nat →
  arm_can_resume arm_freq arm_ticks 20 from
    (set_task 3 (set_context (AR:=Arm64Trap.arm arm_freq) ctx (arm_user 3 None)) arm_sched) 2.
Proof.
  intros Hfrom.
  destruct (saved_task (λ p t, nice t = 0 ∧ ∃ q, 1 ≤ q ≤ 3 ∧ page t = arm_space (0x40a03 - q))
    arm_sched (arm_user 3 None) ctx) as (Hall & Hwf & _); [done|apply arm_sched_wf|done| |].
  { intros p t (q & ns & -> & Hq)%arm_sched_tasks. split; [done|]. by exists q. }
  apply arm_demo_resume; try done.
  - intros v p [? _]%arm_sched_queue. done.
  - unfold arm_sched. cbn [set_task vruntime]. rewrite !elem_of_cons. by right; left.
  - vm_compute. lia.
Qed.

Lemma arm_demo_left from :
  (from < 100)%nat → arm_can_resume arm_freq arm_ticks 20 from (arm_without arm_freq 3 arm_sched) 2.
Proof.
  assert (vruntime (arm_without arm_freq 3 arm_sched) = [(0, 1); (2, 2)]) as Hq by reflexivity.
  assert (∀ v p, (v, p) ∈ [(0, 1); (2, 2)] → 0 ≤ v ∧ is_Some (tasks (arm_without arm_freq 3 arm_sched) !! p)) as Hin.
  { intros v p. rewrite !elem_of_cons, elem_of_nil. intros [[= -> ->]|[[= -> ->]|[]]]; (split; [lia|by eexists]). }
  intros Hfrom. apply arm_demo_resume; rewrite ?Hq; try done.
  - constructor; rewrite Hq; [|apply NoDup_ListNoDup|apply Hin]; repeat constructor; unfold vlt; simpl; lia.
  - intros v p [? _]%Hin. done.
  - rewrite !elem_of_cons. by right; left.
  - intros p t. cbn [arm_without tasks]. rewrite lookup_delete_Some. intros [_ (q & ns & -> & Hq3)%arm_sched_tasks].
    split; [done|]. by exists q.
  - vm_compute. lia.
Qed.

(** The memory after the current task has been dropped. *)
Definition arm_dropped : res (unit * Kmem) :=
  drop_task (delete 3 (tasks arm_sched)) (arm_user 3 None) (ao_kmem _ arm_os).

Lemma arm_drop : ∃ k, arm_dropped = Ok (tt, k) ∧ (k_reads k < 100)%nat.
Proof.
  assert (match arm_dropped with Ok (_, k) => (k_reads k <? 100)%nat | _ => false end = true) as H
    by (vm_compute; reflexivity).
  destruct arm_dropped as [[[] k]| | |]; [|discriminate H..]. exists k. split; [reflexivity|by apply Nat.ltb_lt].
Qed.

(** A call of [lseek] on a descriptor that is not open, and an instruction that is
    not known. *)
Definition svc_ctx : Context := mkContext (<[8%nat:=SYSCALL_LSEEK]> (replicate 31 7)) 0 0x2000 0.

Lemma arm_sync_trap_resumes_witness :
  (∃ c s', el1_sync_trap_handler arm_freq arm_ticks 20 arm_layout (0x15 * 2 ^ 26) svc_ctx arm_os = Ok (c, s') ∧
     arm_resumed arm_freq arm_ticks 0 (set_task 3 (set_context (AR:=Arm64Trap.arm arm_freq)
       (svc_context (saved_context arm_freq (arm_user 3 None) svc_ctx arm_os) (Some (U64 - 1))) (arm_user 3 None))
       arm_sched) c s') ∧
  ∃ from c s', el1_sync_trap_handler arm_freq arm_ticks 20 arm_layout 0 arm_ctx arm_os = Ok (c, s') ∧
    arm_resumed arm_freq arm_ticks from (arm_without arm_freq 3 arm_sched) c s'.
Proof.
  split.
  - destruct (arm_sync_trap_resumes arm_freq arm_ticks 20 arm_layout (0x15 * 2 ^ 26) svc_ctx arm_os
      (arm_user 3 None) 2) as [Hcall _].
    + reflexivity.
    + reflexivity.
    + destruct (Hcall SYSCALL_LSEEK 7 7 7 (Some (U64 - 1)) (mkSys (arm_user 3 None) (ao_kmem _ arm_os) (ao_world _ arm_os)
        (ao_vfs _ arm_os))) as (c & s' & Hrun & Hres & _).
      * reflexivity.
      * reflexivity.
      * reflexivity.
      * reflexivity.
      * reflexivity.
      * discriminate.
      * discriminate.
      * reflexivity.
      * apply arm_demo_saved. vm_compute. lia.
      * exists c, s'. split; [exact Hrun|exact Hres].
  - destruct (arm_sync_trap_resumes arm_freq arm_ticks 20 arm_layout 0 arm_ctx arm_os (arm_user 3 None) 2)
      as [_ Hkill].
    + reflexivity.
    + reflexivity.
    + destruct arm_drop as (k1 & Hdrop & Hk1). exists (k_reads k1). apply (Hkill k1).
      * unfold fatal_classes. rewrite !elem_of_cons. by left.
      * reflexivity.
      * exact Hdrop.
      * apply arm_demo_left. exact Hk1.
Defined.

Lemma arm_other_irq_stranded_witness :
  ∃ s', el1_irq_trap_handler arm_freq arm_ticks (λ _ _, 33) 20 arm_ctx arm_os = Ok (arm_ctx, s') ∧
    ao_sched _ s' = arm_sched ∧ ttbr0 (ao_cpu _ s') = 0x40100000 ∧
    accesses (ao_gic _ s') = [ARead 0x801000c 33].
Proof.
  apply (arm_other_irq_stranded arm_freq arm_ticks (λ _ _, 33) 20 0x8010000 arm_ctx arm_os); done.
Defined.

Lemma arm_timer_preempts_witness :
  let saved := set_task 3 (set_context (AR:=Arm64Trap.arm arm_freq)
                 (saved_context arm_freq (arm_user 3 None) arm_ctx arm_os) (arm_user 3 None)) arm_sched in
  ∃ c s', el1_irq_trap_handler arm_freq arm_ticks (λ _ _, 27) 20 arm_ctx arm_os = Ok (c, s') ∧
    arm_resumed arm_freq arm_ticks 0 saved c s' ∧ cntv_tval (ao_cpu _ s') = 1000 ∧
    accesses (ao_gic _ s') = [ARead 0x801000c 27; AWrite 0x8010010 27].
Proof.
  apply (arm_timer_preempts arm_freq arm_ticks (λ _ _, 27) 20 0x8010000 arm_ctx arm_os (arm_user 3 None) 2).
  - reflexivity.
  - reflexivity.
  - reflexivity.
  - reflexivity.
  - reflexivity.
  - apply arm_demo_saved. vm_compute. lia.
Defined.

Lemma arm_sleep_panics_witness :
  schedule (AR:=Arm64_Arch 62500000) (λ _, 300 * 62500000) 20
    (@mkScheduler (Arm64_Arch 62500000)
       {[1 := @mkTask (Arm64_Arch 62500000) 1 1 0 (arm_space 0) 0 (mkContext [] 0 0 0) [] (Some 1) FdTable_default]}
       [(0, 1)] 1 1 (mkVP 0), demo_kmem) = Panic.
Proof.
  apply (arm_sleep_panics 62500000 (λ _, 300 * 62500000) 19 _ demo_kmem 0 1 []
    (@mkTask (Arm64_Arch 62500000) 1 1 0 (arm_space 0) 0 (mkContext [] 0 0 0) [] (Some 1) FdTable_default) 1).
  - reflexivity.
  - reflexivity.
  - reflexivity.
  - vm_compute. discriminate.
  - lia.
  - reflexivity.
  - vm_compute. discriminate.
Defined.
