(* ===== verification/Main.v ===== *)
(** * Start-up (src/src/main.rs, src/src/lang_items.rs, [kernel_pt_init] of
    src/src/page.rs and [task_init] of src/src/task.rs)

    The sequence of [kernel_main] on the kernel's global variables, which are
    uninitialised at first, for either architecture.  The memory layout is that of
    the linker script. *)

From Stdlib Require Import String.
From S2P Require Import Prelude Page Address Bytes Text Path BTree Buddy StaticAlloc Mapping Heap Sv39 Arm64Page Elf Device Kmsg Rand Vfs Devfs Dtb RiscvCpu Arch Task Sched Gic Syscall Arm64Trap.

(** ** The two architectures *)

(** What the code under [#[cfg(target_arch)]] does during start-up. *)
Class Platform := {
  pf_arch : Arch;
  plat : Type;
  pf_cpu_init : ST (plat * Kmem) unit;
  pf_soc_init : PhysPage → DeviceTree → ST (plat * Kmem) unit;
  pf_trap_stack_init : VirtPage → ST plat unit;
  pf_switch_to : PageMapper → ST plat unit;
  pf_enable_interrupts : ST plat unit;
  pf_disable_interrupts : ST plat unit;
}.

(** RISC-V, started in supervisor mode: the timer reads the counter once. *)
Definition rv_cpu_setup (clock : nat → Z) : ST (Csrs * Kmem) unit := λ s,
  let k := s.2 in
  '(_, c) ← rv_cpu_init false s.1;
  '(_, c) ← enable_timer false (clock (k_reads k)) c;
  Ok (tt, (c, mkKmem (k_tabs k) (k_buddy k) (k_bytes k) (S (k_reads k)) (k_arcs k) (k_heap k))).

Definition Riscv64_Platform (clock : nat → Z) : Platform := {|
  pf_arch := Riscv64_Arch;
  plat := Csrs;
  pf_cpu_init := rv_cpu_setup clock;
  pf_soc_init := λ _ _, mret tt;
  pf_trap_stack_init := rv_trap_stack_init;
  pf_switch_to := rv_switch_to;
  pf_enable_interrupts := rv_enable_interrupts;
  pf_disable_interrupts := rv_disable_interrupts;
|}.

(** Arm: [freq] is CNTFRQ_EL0, [vector_table] the address of the vectors. *)
Definition on_arm_cpu {B} (f : ST ArmCpu B) : ST (ArmCpu * Gic) B := λ s,
  '(b, c) ← f s.1; Ok (b, (c, s.2)).

Definition Arm64_Platform (freq vector_table : Z) : Platform := {|
  pf_arch := Arm64_Arch freq;
  plat := ArmCpu * Gic;
  pf_cpu_init := λ s, '(_, c) ← arm_cpu_init freq vector_table s.1.1; Ok (tt, ((c, s.1.2), s.2));
  pf_soc_init := λ kernel_pt dtb s,
    '(_, (g, k)) ← soc_init (AR := Arm64_Arch freq) kernel_pt dtb (s.1.2, s.2);
    Ok (tt, ((s.1.1, g), k));
  pf_trap_stack_init := λ _, mret tt;
  pf_switch_to := λ page, on_arm_cpu (arm_switch_to page);
  pf_enable_interrupts := on_arm_cpu arm_enable_interrupts;
  pf_disable_interrupts := on_arm_cpu arm_disable_interrupts;
|}.

Section main.
Context {PF : Platform}.
#[local] Existing Instance pf_arch.
#[local] Existing Instances arch_entry arch_mapper.

(** ** The global variables *)

Record Machine := mkMachine {
  mc_plat : plat;
  mc_kmem : Kmem;
  mc_static : StaticPageAllocator;          (* STATIC_ALLOCATOR *)
  mc_kernel_pt : option PhysPage;           (* KERNEL_PT *)
  mc_sched : option Scheduler;              (* SCHEDULER *)
  mc_rng : option MT19937;                  (* GLOBAL_RNG *)
  mc_vfs : option (VirtualFileSystem DevFS);(* ROOT_VFS *)
  mc_devices : option DeviceManager;        (* DEVICE_MGR *)
  mc_kmsg : KernelMessage;                  (* KMSG *)
  mc_mmio : Mmio;
}.

Abbreviation M := (ST Machine).

Definition set_plat (p : plat) (s : Machine) : Machine :=
  mkMachine p (mc_kmem s) (mc_static s) (mc_kernel_pt s) (mc_sched s) (mc_rng s) (mc_vfs s) (mc_devices s) (mc_kmsg s) (mc_mmio s).
Definition set_kmem (k : Kmem) (s : Machine) : Machine :=
  mkMachine (mc_plat s) k (mc_static s) (mc_kernel_pt s) (mc_sched s) (mc_rng s) (mc_vfs s) (mc_devices s) (mc_kmsg s) (mc_mmio s).
Definition set_static (a : StaticPageAllocator) (s : Machine) : Machine :=
  mkMachine (mc_plat s) (mc_kmem s) a (mc_kernel_pt s) (mc_sched s) (mc_rng s) (mc_vfs s) (mc_devices s) (mc_kmsg s) (mc_mmio s).
Definition set_kernel_pt (p : PhysPage) (s : Machine) : Machine :=
  mkMachine (mc_plat s) (mc_kmem s) (mc_static s) (Some p) (mc_sched s) (mc_rng s) (mc_vfs s) (mc_devices s) (mc_kmsg s) (mc_mmio s).
Definition set_sched (c : Scheduler) (s : Machine) : Machine :=
  mkMachine (mc_plat s) (mc_kmem s) (mc_static s) (mc_kernel_pt s) (Some c) (mc_rng s) (mc_vfs s) (mc_devices s) (mc_kmsg s) (mc_mmio s).
Definition set_rng (g : MT19937) (s : Machine) : Machine :=
  mkMachine (mc_plat s) (mc_kmem s) (mc_static s) (mc_kernel_pt s) (mc_sched s) (Some g) (mc_vfs s) (mc_devices s) (mc_kmsg s) (mc_mmio s).
Definition set_vfs (v : VirtualFileSystem DevFS) (s : Machine) : Machine :=
  mkMachine (mc_plat s) (mc_kmem s) (mc_static s) (mc_kernel_pt s) (mc_sched s) (mc_rng s) (Some v) (mc_devices s) (mc_kmsg s) (mc_mmio s).
Definition set_devices (d : DeviceManager) (s : Machine) : Machine :=
  mkMachine (mc_plat s) (mc_kmem s) (mc_static s) (mc_kernel_pt s) (mc_sched s) (mc_rng s) (mc_vfs s) (Some d) (mc_kmsg s) (mc_mmio s).
Definition set_kmsg (k : KernelMessage) (t : Mmio) (s : Machine) : Machine :=
  mkMachine (mc_plat s) (mc_kmem s) (mc_static s) (mc_kernel_pt s) (mc_sched s) (mc_rng s) (mc_vfs s) (mc_devices s) k t.

Definition on_machine_kmem {B} (f : ST Kmem B) : M B := λ s,
  '(b, k) ← f (mc_kmem s); Ok (b, set_kmem k s).
Definition on_plat {B} (f : ST plat B) : M B := λ s,
  '(b, p) ← f (mc_plat s); Ok (b, set_plat p s).
Definition on_plat_kmem {B} (f : ST (plat * Kmem) B) : M B := λ s,
  '(b, (p, k)) ← f (mc_plat s, mc_kmem s); Ok (b, set_kmem k (set_plat p s)).

(** ** The steps *)

(** src/src/trap.rs: what the architecture provides. *)
Definition enable_interrupts : M unit := on_plat pf_enable_interrupts.
Definition disable_interrupts : M unit := on_plat pf_disable_interrupts.
Definition trap_stack_init (trap_stack : VirtPage) : M unit := on_plat (pf_trap_stack_init trap_stack).

Definition cpu_init : M unit := on_plat_kmem pf_cpu_init.

(** [soc_init] of src/src/main.rs, with the page of [KERNEL_PT]. *)
Definition main_soc_init (dtb : DeviceTree) : M unit :=
  s ← get;
  pt ← lift (deref (mc_kernel_pt s));
  on_plat_kmem (pf_soc_init pt dtb).

Definition STACK_SIZE : Z := 64 * 4096.

(** The stack at the start of the section is in use and is left alone. *)
Definition clear_bss (L : Layout) : ST Kmem unit :=
  bss_start ← lift (BSS_START L +! STACK_SIZE);
  n ← lift (BSS_END L -! bss_start);
  put_bytes bss_start (replicate (Z.to_nat n) 0).

(** [kernel_pt_init] with the tables of the static allocator. *)
Definition on_static {B} (f : ST (tmem * StaticPageAllocator) B) : M B := λ s,
  let k := mc_kmem s in
  '(b, (t, a)) ← f (k_tabs k, mc_static s);
  Ok (b, set_static a (set_kmem (mkKmem t (k_buddy k) (k_bytes k) (k_reads k) (k_arcs k) (k_heap k)) s)).

Definition init_kernel_pt (L : Layout) : M unit :=
  '(kernel_page, pn) ← on_static (kernel_pt_init L);
  _ ← on_plat (pf_switch_to kernel_page);
  modify (set_kernel_pt pn).

(** [PageMapper::from_root(VirtPage::from(KERNEL_PT.assume_init()))]. *)
Definition kernel_page : M PageMapper :=
  s ← get;
  pt ← lift (deref (mc_kernel_pt s));
  root ← lift (VirtualPage_from pt);
  mret (from_root root).

(** An aligned big-endian word in memory. *)
Definition detect_totalsize (m : bmem) (ptr : Z) : res Z :=
  if ptr mod 4 =? 0 then bs ← read_mem m (ptr + 4) 4; Ok (from_be_bytes bs) else Undef.

(** The tree is mapped at its own physical address, where the kernel sees its image
    and its heap at an offset.  [n] bytes at [addr] that overlap neither are what the
    boot loader left there; of others the model says nothing. *)
Definition apart_from_kernel (L : Layout) (addr n : Z) : bool :=
  (addr + n <=? KERNEL_START L - ADDR_OFFSET) || (HEAP_START L + MEM_SIZE - ADDR_OFFSET <=? addr).
Definition untouched (L : Layout) (addr n : Z) : res unit :=
  if apart_from_kernel L addr n then Ok tt else Undef.

(** The requests that the containers of the standard library make of the heap in a
    part of start-up. *)
Definition use_heap (fuel : nat) (ops : list heap_op) : M unit := on_machine_kmem (on_heap (heap_ops fuel ops)).

(** [parse] makes the requests [ops]. *)
Definition load_dtb (fuel : nat) (ops : list heap_op) (L : Layout) (dtb_addr : Z) : M (DeviceTree + ParseError) :=
  page ← kernel_page;
  let vpn := Z.shiftr dtb_addr PAGE_BITS in
  _ ← on_machine_kmem (on_tables (map_rodata page vpn vpn 1));
  _ ← lift (untouched L dtb_addr 8);
  s ← get;
  dtb_size ← lift (detect_totalsize (k_bytes (mc_kmem s)) dtb_addr);
  n ← lift (div_ceil dtb_size PAGE_SIZE -! 1);
  vpn1 ← lift (vpn +! 1);
  _ ← on_machine_kmem (on_tables (map_rodata page vpn1 vpn1 n));
  _ ← lift (untouched L dtb_addr dtb_size);
  s ← get;
  dtb_bytes ← lift (read_mem (k_bytes (mc_kmem s)) dtb_addr (Z.to_nat dtb_size));
  _ ← use_heap fuel ops;
  lift (DeviceTree_parse dtb_bytes).

(** The table and the queue of the tasks make the requests [ops]. *)
Definition task_init (fuel : nat) (ops : list heap_op) : M unit :=
  ts ← on_machine_kmem (on_buddy (global_alloc_pages 16));
  _ ← trap_stack_init (mkVP ts);
  s ← get;
  pt ← lift (deref (mc_kernel_pt s));
  sched ← lift (first_scheduler pt (mkVP ts));
  _ ← use_heap fuel ops;
  modify (set_sched sched).

(** ** The console *)

(** [regs[0].0] of a node whose [compatible] names the driver: the branches of
    [setup_by_serial0_node] before the mapping. *)
Definition compatible_reg (node : Node) (compatible : str) : res (option Z) :=
  match get_property node (lit "compatible") with
  | None => Ok None
  | Some value =>
    b ← check_compatible value compatible;
    match (b : bool), get_property node (lit "reg") with
    | true, Some reg =>
      regs ← parse_reg reg (address_cells node) (size_cells node);
      r ← index regs 0;
      Ok (Some r.1)
    | _, _ => Ok None
    end
  end.

(** The device becomes the output of the log and the file [/dev/tty0]. *)
Definition attach_console (dev : CharDev) : M unit :=
  _ ← modify (λ s, set_kmsg (mkKmsg (msgs (mc_kmsg s)) (max_log (mc_kmsg s)) (Some dev)) (mc_mmio s) s);
  s ← get;
  mgr ← lift (deref (mc_devices s));
  '(id, mgr) ← lift (register_char_dev dev mgr);
  _ ← modify (set_devices mgr);
  vfs ← lift (deref (mc_vfs s));
  '(fs_id, fs) ← lift (unwrap (get_fs_mut (lit "/dev") vfs));
  '(r, (_, fs)) ← lift (devfs_mknod (Path_new (lit "tty0")) CharDevice (CHAR_DEV_MAJOR, Z.of_nat id) (tt, fs));
  _ ← lift (match r with inl _ => Ok tt | inr _ => Panic end);
  modify (set_vfs (mkVfs (max_id vfs) (mount_points vfs) (<[fs_id:=fs]> (mounted_fs vfs)))).

(** The loop that maps the registers at their own addresses. *)
Fixpoint map_uart (kernel_pt : PageMapper) (regs : list (Z * Z)) : ST Kmem unit :=
  match regs with
  | [] => mret tt
  | (reg_addr, reg_size) :: regs =>
    _ ← on_tables (map_data kernel_pt (reg_addr / PAGE_SIZE) (reg_addr / PAGE_SIZE)
                     (div_ceil reg_size PAGE_SIZE));
    map_uart kernel_pt regs
  end.

Definition setup_by_serial0_node (serial0_node : Node) : M unit :=
  s ← get;
  _ ← lift (deref (mc_devices s));
  _ ← lift (deref (mc_vfs s));
  r ← lift (compatible_reg serial0_node (lit "arm,pl011"));
  _ ← match r with Some addr => attach_console (PL011 addr) | None => mret tt end;
  r ← lift (compatible_reg serial0_node (lit "ns16550a"));
  _ ← match r with Some addr => attach_console (NS16550 addr) | None => mret tt end;
  match get_property serial0_node (lit "reg") with
  | Some reg =>
    regs ← lift (parse_reg reg (address_cells serial0_node) (size_cells serial0_node));
    s ← get;
    sched ← lift (deref (mc_sched s));
    t ← lift (current_task sched);
    on_machine_kmem (map_uart (page t) regs)
  | None => mret tt
  end.

(** [fuel] bounds the search for an alias. *)
Fixpoint console_loop (fuel : nat) (root : Node) (nodes : list Node) : M unit :=
  match nodes with
  | [] => mret tt
  | node :: nodes =>
    if bool_decide (node_name (n_name node) = lit "serial0") then setup_by_serial0_node node
    else
      match bool_decide (n_name node = lit "aliases"), get_property node (lit "serial0") with
      | true, Some serial0 =>
        r ← lift (node_by_alias fuel root serial0);
        node ← lift (unwrap r);
        setup_by_serial0_node node
      | _, _ => console_loop fuel root nodes
      end
  end.
Definition setup_console (fuel : nat) (dtb : DeviceTree) : M unit :=
  console_loop fuel (dt_root dtb) (child_nodes (dt_root dtb)).

(** ** The sequence *)

(** The parts of start-up in which containers use the heap.  The vectors of registers
    are dropped after the pages they name have been mapped. *)
Inductive BootStage :=
| InParse | InSoc | AfterSoc | InTaskInit | InFiles | InConsole | AfterConsole | InPanic.

Section boot.
Context (clock : nat → Z) (containers : BootStage → list heap_op).

(** The panic handler up to its endless loop: [msg] and [location] as they are
    formatted. *)
Definition panic_handler (msg : str) (location : option str) : M unit :=
  now ← on_machine_kmem (get_sys_time clock);
  s ← get;
  let text := match location with
              | Some l => msg ++ lit " at " ++ l ++ [10]
              | None => msg ++ [10]
              end in
  '(_, (k, t)) ← lift (add_message now None Fatal text (mc_kmsg s, mc_mmio s));
  modify (set_kmsg k t).

(** [kernel_main]; it ends in [panic!()], whose handler waits for interrupts. *)
Definition kernel_main (fuel : nat) (L : Layout) (location : str) (dtb_addr : Z) : M unit :=
  _ ← on_machine_kmem (clear_bss L);
  _ ← cpu_init;
  _ ← on_machine_kmem (on_buddy buddy_init);
  _ ← on_machine_kmem (on_buddy (add_zone (Z.shiftr (HEAP_START L) PAGE_BITS) (Z.shiftr MEM_SIZE PAGE_BITS)));
  _ ← init_kernel_pt L;
  dtb ← load_dtb fuel (containers InParse) L dtb_addr;
  _ ← match dtb with
      | inl dtb =>
        _ ← use_heap fuel (containers InSoc);
        _ ← main_soc_init dtb;
        use_heap fuel (containers AfterSoc)
      | inr _ => mret tt
      end;
  _ ← task_init fuel (containers InTaskInit);
  rng ← lift rand_init;
  _ ← modify (set_rng rng);
  '(_, vfs) ← lift (vfs_init tt);
  _ ← modify (set_vfs vfs);
  _ ← modify (set_devices device_init);
  _ ← use_heap fuel (containers InFiles);
  _ ← match dtb with
      | inl dtb =>
        _ ← use_heap fuel (containers InConsole);
        _ ← setup_console fuel dtb;
        use_heap fuel (containers AfterConsole)
      | inr _ => mret tt
      end;
  _ ← enable_interrupts;
  _ ← use_heap fuel (containers InPanic);
  panic_handler (lit "explicit panic") (Some location).
End boot.
End main.
