(* ===== verification/MainTheorems.v ===== *)
(** * Start-up: theorems *)

From Stdlib Require Import String.
From S2P Require Import Prelude Page Address Bytes Text Path BTree Buddy BuddyLists BuddyZone BuddySpec BuddyTheorems BuddyLaws StaticAlloc Mapping Sv39 Arm64Page MappingSpec PageFormats MappingTheorems Elf Device Kmsg Rand Vfs Devfs FsTheorems Dtb DtbSpec DtbTheorems RiscvCpu Arch Task Sched SchedSpec Gic GicTheorems Syscall Arm64Trap Main.

(** ** The console node *)

(** A child of the root that decides which node is the console's. *)
Definition console_hint (node : Node) : Prop :=
  node_name (n_name node) = lit "serial0" ∨
  (n_name node = lit "aliases" ∧ is_Some (get_property node (lit "serial0"))).

(** The node of the console: a child called [serial0], or the node that the alias
    [serial0] names by its path, of [n] components. *)
Inductive console_at (root : Node) (node : Node) : nat → Prop :=
| console_child before after :
    child_nodes root = before ++ node :: after → Forall (λ nd, ¬ console_hint nd) before →
    node_name (n_name node) = lit "serial0" → console_at root node 0
| console_alias before al after path :
    child_nodes root = before ++ al :: after → Forall (λ nd, ¬ console_hint nd) before →
    n_name al = lit "aliases" → get_property al (lit "serial0") = Some (alias_value path) →
    path ≠ [] → Forall (λ p, SLASH ∉ p ∧ Forall (λ b, 0 ≤ b < 128) p) path →
    node_at root path = Some node → console_at root node (length path).

(** A UART with one of the two drivers, and its registers. *)
Definition uart_node (node : Node) (dev : CharDev) (regs : list (Z * Z)) : Prop :=
  ∃ v reg a s rest, get_property node (lit "compatible") = Some v ∧ get_property node (lit "reg") = Some reg ∧
    parse_reg reg (address_cells node) (size_cells node) = Ok regs ∧ regs = (a, s) :: rest ∧
    ((dev = PL011 a ∧ lit "arm,pl011" ∈ compatible_strings v ∧ lit "ns16550a" ∉ compatible_strings v) ∨
     (dev = NS16550 a ∧ lit "ns16550a" ∈ compatible_strings v ∧ lit "arm,pl011" ∉ compatible_strings v)).

(** The device files with [/dev/tty0] for the character device [id]. *)
Definition tty_vfs (id : Z) : VirtualFileSystem DevFS :=
  mkVfs 1 [(0, lit "/dev")] {[0 := mkDevFS ∅ {[lit "tty0" := (CHAR_DEV_MAJOR, id)]}]}.

(** What is written to [/dev/tty0] goes to the device. *)
Lemma tty_write kmsg rng mgr mmio (dev : CharDev) id buf :
  char_devs mgr !! id = Some dev → Z.of_nat (length buf) < U64 →
  ∃ fd fd' v1, vfs_open (lit "/dev/tty0") (mkWorld kmsg rng mgr mmio, tty_vfs (Z.of_nat id))
      = Ok (inl fd, (mkWorld kmsg rng mgr mmio, v1)) ∧
    vfs_write fd buf (mkWorld kmsg rng mgr mmio, v1)
      = Ok ((inl (Z.of_nat (length buf)), fd'),
            (mkWorld kmsg rng mgr (mmio ++ printed dev (from_utf8_lossy buf)), v1)).
Proof.
  intros Hdev Hlen.
  set (fs := mkDevFS {[0 := lit "tty0"]} {[lit "tty0" := (CHAR_DEV_MAJOR, Z.of_nat id)]}).
  exists (mkVfsFile (mkFile 0 CharDevice) 0 0), (mkVfsFile (mkFile 0 CharDevice) (Z.of_nat (length buf)) 0),
    (mkVfs 1 [(0, lit "/dev")] {[0 := fs]}).
  split; [reflexivity|].
  unfold vfs_write. rewrite st_run_get. cbn [snd mounted_fs fs_id vf_fd offset].
  rewrite (st_run_lift _ _ _ fs) by done.
  rewrite (st_run _ _ _ (inl (Z.of_nat (length buf)))
    (mkWorld kmsg rng mgr (mmio ++ printed dev (from_utf8_lossy buf)), mkVfs 1 [(0, lit "/dev")] {[0 := fs]})).
  - rewrite uadd_Ok by lia. by rewrite Z.add_0_l.
  - unfold on_fs. cbn [fst snd fs_write DevFS_FileSystem]. unfold devfs_write.
    change (fds fs !! f_fd (mkFile 0 CharDevice)) with (Some (lit "tty0")). cbv iota beta.
    change (is_name (lit "tty0") "null") with false. cbv iota.
    change (devs fs !! lit "tty0") with (Some (CHAR_DEV_MAJOR, Z.of_nat id)). cbv iota beta.
    rewrite Nat2Z.id. cbn [w_devices w_mmio]. unfold index. rewrite Hdev. cbn [unwrap mbind res_bind].
    rewrite print_str_run. reflexivity.
Qed.

(** ** Single steps *)

Section console.
Context {PF : Platform} `{!ArchLaws pf_arch}.
#[local] Existing Instance pf_arch.
#[local] Existing Instances arch_entry arch_mapper.

Lemma map_uart_regs page regs k : map_uart page regs k = map_regs page regs k.
Proof.
  revert k. induction regs as [|[a s] regs IH]; intros k; [done|]. cbn [map_uart map_regs].
  rewrite Z.shiftr_div_pow2 by done. change (2 ^ PAGE_BITS) with PAGE_SIZE.
  rewrite !st_run_bind. destruct (on_tables _ k) as [[[] k1]| | |]; [apply IH|done..].
Qed.

(** The state with the console attached. *)
Definition with_console (dev : CharDev) (mgr : DeviceManager) (s : Machine) : Machine :=
  mkMachine (mc_plat s) (mc_kmem s) (mc_static s) (mc_kernel_pt s) (mc_sched s) (mc_rng s)
    (Some (tty_vfs (Z.of_nat (length (char_devs mgr))))) (Some (mkDeviceManager (char_devs mgr ++ [dev])))
    (mkKmsg (msgs (mc_kmsg s)) (max_log (mc_kmsg s)) (Some dev)) (mc_mmio s).

Lemma attach_console_run dev mgr v s :
  mc_devices s = Some mgr → mc_vfs s = Some v → vfs_init tt = Ok (tt, v) →
  attach_console dev s = Ok (tt, with_console dev mgr s).
Proof.
  intros Hmgr Hv [= <-]. destruct s as [pl k st kp sc rn vf de km mm].
  cbn [mc_devices mc_vfs] in *. subst de vf. reflexivity.
Qed.

Lemma compatible_reg_run node v reg regs a sz rest c :
  get_property node (lit "compatible") = Some v → get_property node (lit "reg") = Some reg →
  parse_reg reg (address_cells node) (size_cells node) = Ok regs → regs = (a, sz) :: rest →
  compatible_reg node c = Ok (if bool_decide (c ∈ compatible_strings v) then Some a else None).
Proof.
  intros Hv Hreg Hparse ->. unfold compatible_reg. rewrite Hv, check_compatible_strings, Hreg. cbn [mbind res_bind].
  destruct (bool_decide _); [|done]. by rewrite Hparse.
Qed.

Lemma setup_by_node_then Q node dev regs s sched t r v mgr n :
  uart_node node dev regs → Forall reg_fits regs →
  vfs_init tt = Ok (tt, v) → mc_vfs s = Some v → mc_devices s = Some mgr →
  mc_sched s = Some sched → current_task sched = Ok t → page t = mkMapper (table_at r) →
  pt_wf (k_tabs (mc_kmem s)) r (buddy_avail (k_buddy (mc_kmem s))) →
  (∀ x, buddy_avail (k_buddy (mc_kmem s)) x → okpage x) →
  pages_then Q (regs_need regs + n) (k_buddy (mc_kmem s)) →
  ∃ k', setup_by_serial0_node node s = Ok (tt, set_kmem k' (with_console dev mgr s)) ∧
    pt_wf (k_tabs k') r (buddy_avail (k_buddy k')) ∧ pages_then Q n (k_buddy k') ∧
    k_bytes k' = k_bytes (mc_kmem s) ∧ k_reads k' = k_reads (mc_kmem s) ∧ k_heap k' = k_heap (mc_kmem s) ∧
    (∀ x, buddy_avail (k_buddy k') x → buddy_avail (k_buddy (mc_kmem s)) x) ∧
    regs_mapped regs r (k_tabs (mc_kmem s)) (k_tabs k').
Proof.
  intros (cv & reg & a & sz & rest & Hcv & Hreg & Hparse & Hregs & Hdev) Hfits Hinit Hvfs Hmgr Hsched Ht Hpage Hwf Hrange Hready.
  destruct (map_regs_then Q regs (mc_kmem s) r n Hwf Hrange Hready Hfits)
    as (k' & Hmap & Hwf' & Hr' & Hsub & Hb & Hrd & _ & Hh & Htr).
  exists k'. split_and!; try done. unfold setup_by_serial0_node. rewrite st_run_get.
  rewrite (st_run_lift _ _ _ mgr) by (by rewrite Hmgr). rewrite (st_run_lift _ _ _ v) by (by rewrite Hvfs).
  pose proof (λ c, compatible_reg_run node cv reg regs a sz rest c Hcv Hreg Hparse Hregs) as Hcr.
  pose proof (attach_console_run dev mgr v s Hmgr Hvfs Hinit) as Hattach.
  assert (∀ f : unit → ST Machine unit,
    (r ← lift (compatible_reg node (lit "arm,pl011"));
     _ ← match r with Some addr => attach_console (PL011 addr) | None => mret tt end;
     r ← lift (compatible_reg node (lit "ns16550a"));
     _ ← match r with Some addr => attach_console (NS16550 addr) | None => mret tt end;
     f tt) s = f tt (with_console dev mgr s)) as Hdrv.
  { intros f. rewrite (st_run_lift _ _ _ _ (Hcr _)).
    destruct Hdev as [(-> & Hin & Hout)|(-> & Hin & Hout)].
    - rewrite bool_decide_eq_true_2 by done. rewrite (st_run _ _ _ _ _ Hattach).
      rewrite (st_run_lift _ _ _ _ (Hcr _)), bool_decide_eq_false_2 by done. done.
    - rewrite bool_decide_eq_false_2 by done. rewrite (st_run _ _ _ tt s) by done.
      rewrite (st_run_lift _ _ _ _ (Hcr _)), bool_decide_eq_true_2 by done. by rewrite (st_run _ _ _ _ _ Hattach). }
  rewrite (Hdrv (λ _, _)). rewrite Hreg, (st_run_lift _ _ _ _ Hparse), st_run_get.
  rewrite (st_run_lift _ _ _ sched) by (cbn [with_console mc_sched]; by rewrite Hsched).
  rewrite (st_run_lift _ _ _ _ Ht), Hpage. unfold on_machine_kmem. cbn [with_console mc_kmem].
  by rewrite map_uart_regs, Hmap.
Qed.

Lemma console_loop_skip fuel root before nodes :
  Forall (λ nd, ¬ console_hint nd) before →
  console_loop fuel root (before ++ nodes) = console_loop fuel root nodes.
Proof.
  intros Hb. induction Hb as [|nd before Hnd Hb IH]; [done|]. cbn [app console_loop].
  rewrite bool_decide_eq_false_2 by (intros H; apply Hnd; by left).
  destruct (bool_decide_reflect (n_name nd = lit "aliases")) as [Ha|Ha];
    destruct (get_property nd (lit "serial0")) as [p|] eqn:Hp; try done.
  exfalso. apply Hnd. right. split; [done|]. by rewrite Hp.
Qed.

Lemma console_node_run fuel dtb node n :
  console_at (dt_root dtb) node n → (n ≤ fuel)%nat →
  ∀ s, setup_console fuel dtb s = setup_by_serial0_node node s.
Proof.
  intros Hc Hfuel s. unfold setup_console.
  destruct Hc as [before after -> Hb Hn|before al after path -> Hb Hal Hp Hne Hpath Hnode];
    rewrite console_loop_skip by done; cbn [console_loop].
  - by rewrite bool_decide_eq_true_2.
  - rewrite Hal. rewrite bool_decide_eq_false_2 by done. rewrite bool_decide_eq_true_2 by done. rewrite Hp.
    pose proof (node_by_alias_path (dt_root dtb) path fuel Hne Hpath Hfuel) as Halias. rewrite Hnode in Halias.
    by rewrite (st_run_lift _ _ _ _ Halias), (st_run_lift _ _ _ node).
Qed.

(** C13: for a device tree with a console (a child of the root called [serial0],
    or the node the alias [serial0] names) and a driver for it, [setup_console]
    returns: the device is the output of the log, it is the file [/dev/tty0], so
    that what is written to that file after opening it comes out of the device,
    byte by byte and nothing else, and its registers are mapped at their own
    addresses in the current address space, where every other page translates as
    before.  The log, the scheduler and the bytes of memory are left alone. *)
Theorem setup_console_correct fuel dtb node dev regs s sched t r v mgr n d :
  console_at (dt_root dtb) node d → (d ≤ fuel)%nat → uart_node node dev regs → Forall reg_fits regs →
  vfs_init tt = Ok (tt, v) → mc_vfs s = Some v → mc_devices s = Some mgr →
  mc_sched s = Some sched → current_task sched = Ok t → page t = mkMapper (table_at r) →
  pt_wf (k_tabs (mc_kmem s)) r (buddy_avail (k_buddy (mc_kmem s))) →
  (∀ x, buddy_avail (k_buddy (mc_kmem s)) x → okpage x) →
  buddy_ready (regs_need regs + n) (k_buddy (mc_kmem s)) →
  ∃ s' v' mgr', setup_console fuel dtb s = Ok (tt, s') ∧
    mc_vfs s' = Some v' ∧ mc_devices s' = Some mgr' ∧ mc_sched s' = Some sched ∧ mc_mmio s' = mc_mmio s ∧
    mc_kmsg s' = mkKmsg (msgs (mc_kmsg s)) (max_log (mc_kmsg s)) (Some dev) ∧
    (∀ rng buf, Z.of_nat (length buf) < U64 →
       let w := mkWorld (mc_kmsg s') rng mgr' (mc_mmio s') in
       ∃ fd fd' v1, vfs_open (lit "/dev/tty0") (w, v') = Ok (inl fd, (w, v1)) ∧
         vfs_write fd buf (w, v1)
         = Ok ((inl (Z.of_nat (length buf)), fd'),
               (mkWorld (mc_kmsg s') rng mgr' (mc_mmio s' ++ printed dev (from_utf8_lossy buf)), v1))) ∧
    pt_wf (k_tabs (mc_kmem s')) r (buddy_avail (k_buddy (mc_kmem s'))) ∧
    buddy_ready n (k_buddy (mc_kmem s')) ∧ k_bytes (mc_kmem s') = k_bytes (mc_kmem s) ∧
    regs_mapped regs r (k_tabs (mc_kmem s)) (k_tabs (mc_kmem s')).
Proof.
  intros Hcon Hfuel Huart Hfits Hinit Hvfs Hmgr Hsched Ht Hpage Hwf Hrange Hready%ready_then.
  destruct (setup_by_node_then (λ _, True) node dev regs s sched t r v mgr n)
    as (k' & Hrun & Hwf' & Hr'%ready_then & Hb & _ & _ & _ & Htr); try done.
  exists (set_kmem k' (with_console dev mgr s)), (tty_vfs (Z.of_nat (length (char_devs mgr)))),
    (mkDeviceManager (char_devs mgr ++ [dev])).
  split_and!; try done; [by rewrite (console_node_run fuel dtb node d)|].
  intros rng buf Hlen w. apply tty_write; [by apply list_lookup_middle|done].
Qed.
End console.

(** ** Witness *)

(** A RISC-V machine as [kernel_main] has set it up, and the device tree of the
    parser's witness, whose alias names an NS16550. *)
#[local] Instance main_platform : Platform := Riscv64_Platform (λ _, 1).
Definition main_task : @Task Riscv64_Arch :=
  @mkTask Riscv64_Arch 0 0 0 (mkMapper (table_at demo_root)) 0 Riscv64.Context_default [] None FdTable_default.
Definition main_sched : @Scheduler Riscv64_Arch := @mkScheduler Riscv64_Arch {[0 := main_task]} [(0, 0)] 0 0 (mkVP 0).
Definition main_machine : Machine :=
  mkMachine (mkCsrs 0 0 0 0 0 0 0 0 0 0 0 0 0) soc_kmem demo_static (Some (mkPP 0x40000)) (Some main_sched) None
    (Some demo_vfs) (Some device_init) (mkKmsg [] 1024 None) [].
Definition main_dtb : DeviceTree := mkDeviceTree 17 dtb_tree.
Definition main_uart : Node := default dtb_tree (node_at dtb_tree [lit "serial@10000000"]).

Lemma main_console : console_at dtb_tree main_uart 1.
Proof.
  apply (console_alias _ _ [main_uart] (nth 1 (child_nodes dtb_tree) dtb_tree) [] [lit "serial@10000000"]);
    try reflexivity; [repeat constructor|done|by_compute].
  intros [H|[H _]]; vm_compute in H; discriminate H.
Qed.

Lemma main_uart_node : uart_node main_uart (NS16550 0x10000000) [(0x10000000, 0x100)].
Proof. eexists _, _, _, _, _. split_and!; try reflexivity. right. split_and!; [done|by_compute..]. Qed.

Lemma setup_console_correct_witness :
  ∃ s' v' mgr', setup_console 1 main_dtb main_machine = Ok (tt, s') ∧
    mc_vfs s' = Some v' ∧ mc_devices s' = Some mgr' ∧ mc_sched s' = Some main_sched ∧ mc_mmio s' = [] ∧
    mc_kmsg s' = mkKmsg [] 1024 (Some (NS16550 0x10000000)) ∧
    (∀ rng buf, Z.of_nat (length buf) < U64 →
       let w := mkWorld (mc_kmsg s') rng mgr' (mc_mmio s') in
       ∃ fd fd' v1, vfs_open (lit "/dev/tty0") (w, v') = Ok (inl fd, (w, v1)) ∧
         vfs_write fd buf (w, v1)
         = Ok ((inl (Z.of_nat (length buf)), fd'),
               (mkWorld (mc_kmsg s') rng mgr' (mc_mmio s' ++ printed (NS16550 0x10000000) (from_utf8_lossy buf)), v1))) ∧
    pt_wf (H:=Sv39_Entry) (H0:=Sv39_Mapper) (k_tabs (mc_kmem s')) demo_root (buddy_avail (k_buddy (mc_kmem s'))) ∧
    buddy_ready 0 (k_buddy (mc_kmem s')) ∧ k_bytes (mc_kmem s') = k_bytes soc_kmem ∧
    regs_mapped (AR:=Riscv64_Arch) [(0x10000000, 0x100)] demo_root demo_mem (k_tabs (mc_kmem s')).
Proof.
  apply (setup_console_correct 1 main_dtb main_uart (NS16550 0x10000000) [(0x10000000, 0x100)] main_machine
    main_sched main_task demo_root demo_vfs device_init 0 1); try reflexivity.
  - apply main_console.
  - apply main_uart_node.
  - repeat constructor; vm_compute; congruence.
  - exact demo_heap_root.
  - exact demo_heap_range.
  - apply ready_check_spec; [apply demo_heap_ok|]. vm_compute. reflexivity.
Defined.
