(* ===== verification/BootPlan.v ===== *)
(** * The memory start-up needs

    What start-up asks of the page allocator, in order: pages for tables, a block for
    a stack, and the requests of the containers on the heap.  A plan is served when
    each of them is; a run decides it. *)

From S2P Require Import Prelude Page Buddy BuddyLists BuddyZone BuddySpec BuddyTheorems BuddyLaws Mcache Heap.

(** At most [n] single pages; a block of [n] pages; requests on the heap. *)
Inductive request := Pages (n : nat) | Block (n : Z) | Objects (ops : list heap_op).

(** The heap serves the requests and takes no page from anyone else: the pages that
    are free afterwards were free before. *)
Definition objects_served (fuel : nat) (ops : list heap_op) (h h' : KHeap) (b b' : BuddyAllocator) : Prop :=
  heap_ops fuel ops (h, b) = Ok (tt, (h', b')) ∧ ∀ x, buddy_avail b' x → buddy_avail b x.

Fixpoint plan_served (fuel : nat) (rs : list request) (h : KHeap) (b : BuddyAllocator) : Prop :=
  match rs with
  | [] => True
  | Pages n :: rs => pages_then (plan_served fuel rs h) n b
  | Block n :: rs =>
    buddy_wf b ∧ MIN_POOL_REMAIN < freenode_remain (pool (mem b)) ∧
    ∃ p b', alloc_pages n b = Ok (inl p, b') ∧ plan_served fuel rs h b'
  | Objects ops :: rs => ∃ h' b', objects_served fuel ops h h' b b' ∧ plan_served fuel rs h' b'
  end.

(** ** Deciding a plan *)

(** The allocator after requests for blocks of these sizes. *)
Fixpoint after_all (ns : list Z) (b : BuddyAllocator) : BuddyAllocator :=
  match ns with [] => b | n :: ns => after_all ns (after n b) end.

(** Each request is for a power of two and is served while the pool has nodes to
    spare. *)
Fixpoint blocks_check (ns : list Z) (b : BuddyAllocator) : bool :=
  match ns with
  | [] => true
  | n :: ns =>
    (n =? 2 ^ Z.log2 n) && (MIN_POOL_REMAIN <? freenode_remain (pool (mem b))) &&
    match ceil_to_power_2 n with Ok m => m =? n | _ => false end &&
    match alloc_pages n b with Ok (inl _, _) => true | _ => false end && blocks_check ns (after n b)
  end.

Lemma blocks_check_spec ns : ∀ b,
  buddy_wf b → blocks_check ns b = true →
  buddy_wf (after_all ns b) ∧ ∀ x, buddy_avail (after_all ns b) x → buddy_avail b x.
Proof.
  induction ns as [|n ns IH]; intros b Hwf; [done|]. cbn [blocks_check after_all].
  rewrite !andb_true_iff, Z.ltb_lt. intros [[[[Hpow%Z.eqb_eq Hrem] Hceil] Ha] Hns].
  destruct (ceil_to_power_2 n) as [m| | |] eqn:Hm; try done. apply Z.eqb_eq in Hceil as ->.
  destruct (alloc_pages n b) as [[[p|] b']| | |] eqn:Hrun; try done.
  assert (after n b = b') as Hb by (unfold after; by rewrite Hrun). rewrite Hb in *.
  destruct (alloc_takes b n (Z.to_nat (Z.log2 n)) p b' Hwf Hrem) as (Hwf' & _ & _ & Hsub); [|done|].
  { rewrite Hm. f_equal. rewrite Z2Nat.id by apply Z.log2_nonneg. done. }
  destruct (IH b' Hwf' Hns) as [Hwf2 Hsub2]. split; [done|]. intros x Hx. by apply Hsub, Hsub2.
Qed.

#[global] Instance pool_eq_dec : EqDecision FreeNodePool.
Proof. solve_decision. Defined.
#[global] Instance free_node_eq_dec : EqDecision FreeNode.
Proof. solve_decision. Defined.
#[global] Instance nodes_eq_dec : EqDecision Nodes.
Proof. solve_decision. Defined.
#[global] Instance zone_eq_dec : EqDecision MemoryZone.
Proof. solve_decision. Defined.
#[global] Instance buddy_eq_dec : EqDecision BuddyAllocator.
Proof. solve_decision. Defined.

Fixpoint pages_check (Q : BuddyAllocator → bool) (n : nat) (b : BuddyAllocator) : bool :=
  Q b &&
  match n with
  | O => true
  | S n => blocks_check [1] b && pages_check Q n (after 1 b)
  end.

(** Each request comes with the sizes of the blocks the heap takes for it. *)
Fixpoint plan_check (fuel : nat) (rs : list (request * list Z)) (h : KHeap) (b : BuddyAllocator) : bool :=
  match rs with
  | [] => true
  | (Pages n, _) :: rs => pages_check (plan_check fuel rs h) n b
  | (Block n, _) :: rs => blocks_check [n] b && plan_check fuel rs h (after n b)
  | (Objects ops, ns) :: rs =>
    match heap_ops fuel ops (h, b) with
    | Ok (_, (h', b')) => bool_decide (b' = after_all ns b) && blocks_check ns b && plan_check fuel rs h' b'
    | _ => false
    end
  end.

(** One block, in the order of its fields. *)
Lemma block_check_spec n b :
  buddy_wf b → blocks_check [n] b = true →
  MIN_POOL_REMAIN < freenode_remain (pool (mem b)) ∧
  (∃ p, alloc_pages n b = Ok (inl p, after n b)) ∧ buddy_wf (after n b).
Proof.
  intros Hwf Hc. pose proof (blocks_check_spec [n] b Hwf Hc) as [Hwf' _].
  cbn [blocks_check] in Hc. rewrite !andb_true_iff, Z.ltb_lt in Hc. destruct Hc as [[[[_ Hrem] _] Ha] _].
  split_and!; try done. unfold after. destruct (alloc_pages n b) as [[[p|] b']| | |]; try done. by exists p.
Qed.

Lemma pages_check_spec Q (P : BuddyAllocator → Prop) n : ∀ b,
  (∀ b, buddy_wf b → Q b = true → P b) → buddy_wf b → pages_check Q n b = true → pages_then P n b.
Proof.
  induction n as [|n IH]; intros b HQ Hwf; cbn [pages_check pages_then]; rewrite andb_true_iff; intros [Hq Hn];
    (split; [done|]; split; [by apply HQ|]); [done|]. apply andb_true_iff in Hn as [Hb Hn].
  destruct (block_check_spec 1 b Hwf Hb) as (Hrem & [p Hp] & Hwf'). split; [done|].
  exists p, (after 1 b). split; [done|]. by apply IH.
Qed.

Lemma plan_check_spec fuel rs : ∀ h b,
  buddy_wf b → plan_check fuel rs h b = true → plan_served fuel rs.*1 h b.
Proof.
  induction rs as [|[[n|n|ops] ns] rs IH]; intros h b Hwf; cbn [plan_check fmap list_fmap fst plan_served]; [done|..].
  - apply pages_check_spec; [|done]. intros b'. apply IH.
  - rewrite andb_true_iff. intros [Hb Hrs]. destruct (block_check_spec n b Hwf Hb) as (Hrem & [p Hp] & Hwf').
    split_and!; [done..|]. exists p, (after n b). split; [done|]. by apply IH.
  - destruct (heap_ops fuel ops (h, b)) as [[[] [h' b']]| | |] eqn:Hrun; try done.
    rewrite !andb_true_iff, bool_decide_eq_true. intros [[Hb' Hns] Hrs].
    destruct (blocks_check_spec ns b Hwf Hns) as [Hwf' Hsub]. rewrite <- Hb' in *.
    exists h', b'. split; [by split|]. by apply IH.
Qed.
