(* ===== verification/BootTheorems.v ===== *)
(** * The whole of start-up on RISC-V

    [kernel_main] from the state the boot loader leaves to the wait for
    interrupts: the steps of Main put together. *)

From Stdlib Require Import String.
From S2P Require Import Prelude Page Address Bytes Text Path BTree Buddy BuddyLists BuddyZone BuddySpec BuddyTheorems BuddyLaws StaticAlloc Mapping Mcache Heap Sv39 Arm64Page MappingSpec PageFormats MappingTheorems KernelPt Elf Device Kmsg Rand Vfs Devfs FsTheorems Dtb DtbSpec DtbTheorems RiscvCpu Arch Task Sched SchedSpec Gic GicTheorems Syscall Arm64Trap Main MainTheorems BootPlan.

(** ** Bytes in memory *)

Definition mem_holds (m : bmem) (a : Z) (bs : list Z) : Prop :=
  ∀ i b, bs !! i = Some b → m !! (a + Z.of_nat i) = Some b.

Lemma read_mem_run bs : ∀ m a, mem_holds m a bs → read_mem m a (length bs) = Ok bs.
Proof.
  induction bs as [|b bs IH]; intros m a Hm; [done|]. cbn [length read_mem].
  pose proof (Hm 0%nat b eq_refl) as H0. rewrite Z.add_0_r in H0. rewrite H0. cbn [deref mbind res_bind].
  rewrite IH; [done|]. intros i c Hi. specialize (Hm (S i) c Hi).
  by replace (a + 1 + Z.of_nat i) with (a + Z.of_nat (S i)) by lia.
Qed.

Lemma write_mem_run bs : ∀ m a,
  (∀ i, (i < length bs)%nat → is_Some (m !! (a + Z.of_nat i))) →
  ∃ m', write_mem m a bs = Ok m' ∧
    ∀ x, x < a ∨ a + Z.of_nat (length bs) ≤ x → m' !! x = m !! x.
Proof.
  induction bs as [|b bs IH]; intros m a Hm; [by exists m|]. cbn [length write_mem].
  destruct (Hm 0%nat) as [c Hc]; [simpl; lia|]. rewrite Z.add_0_r in Hc. rewrite Hc. cbn [deref mbind res_bind].
  destruct (IH (<[a:=b]> m) (a + 1)) as (m' & Hrun & Hout).
  - intros i Hi. rewrite lookup_insert_ne by lia.
    replace (a + 1 + Z.of_nat i) with (a + Z.of_nat (S i)) by lia. apply Hm. simpl. lia.
  - exists m'. split; [done|]. intros x Hx. rewrite Hout by lia. apply lookup_insert_ne. lia.
Qed.

Lemma mem_holds_mono m m' a bs :
  (∀ x, a ≤ x < a + Z.of_nat (length bs) → m' !! x = m !! x) → mem_holds m a bs → mem_holds m' a bs.
Proof.
  intros Heq Hm i b Hi. rewrite Heq; [by apply Hm|]. apply lookup_lt_Some in Hi. lia.
Qed.

Lemma mem_holds_slice m a bs o n :
  mem_holds m a bs → mem_holds m (a + Z.of_nat o) (take n (drop o bs)).
Proof.
  intros Hm i b Hi. rewrite lookup_take_Some, lookup_drop in Hi. destruct Hi as [Hi _].
  replace (a + Z.of_nat o + Z.of_nat i) with (a + Z.of_nat (o + i)) by lia. by apply Hm.
Qed.

Lemma testbit_lor_r a b i : Z.testbit b i = true → Z.testbit (Z.lor a b) i = true.
Proof. intros Hb. by rewrite Z.lor_spec, Hb, orb_true_r. Qed.

(** ** The steps *)

Section boot.
Context (clock : nat → Z) (containers : BootStage → list heap_op) (fuel : nat).
#[local] Instance boot_platform : Platform := Riscv64_Platform clock.
#[local] Existing Instances Sv39_Entry Sv39_Mapper.
#[local] Abbreviation mach := (@mkMachine boot_platform).

(** The memory of the variables. *)
Definition bss_held (L : Layout) (m : bmem) : Prop :=
  BSS_START L + STACK_SIZE ≤ BSS_END L < U64 ∧
  ∀ x, BSS_START L + STACK_SIZE ≤ x < BSS_END L → is_Some (m !! x).

Lemma clear_bss_run L k :
  bss_held L (k_bytes k) →
  ∃ m, clear_bss L k = Ok (tt, mkKmem (k_tabs k) (k_buddy k) m (k_reads k) (k_arcs k) (k_heap k)) ∧
    ∀ x, x < BSS_START L + STACK_SIZE ∨ BSS_END L ≤ x → m !! x = k_bytes k !! x.
Proof.
  intros [Hle Hm]. unfold clear_bss.
  rewrite (st_run_lift _ _ _ _ (uadd_Ok (BSS_START L) STACK_SIZE ltac:(lia))).
  rewrite (st_run_lift _ _ _ _ (usub_Ok (BSS_END L) (BSS_START L + STACK_SIZE) (proj1 Hle))).
  set (a := BSS_START L + STACK_SIZE) in *. set (n := Z.to_nat (BSS_END L - a)).
  destruct (write_mem_run (replicate n 0) (k_bytes k) a) as (m & Hrun & Hout).
  { rewrite length_replicate. intros i Hi. apply Hm. lia. }
  exists m. unfold put_bytes. rewrite Hrun. split; [done|]. intros x Hx. apply Hout.
  rewrite length_replicate. lia.
Qed.

(** The registers after [cpu_init]: the timer is armed and its interrupt enabled. *)
Definition timer_on (time : Z) (c : Csrs) : Csrs :=
  mkCsrs (r_sstatus c) (Z.lor (r_sie c) 32) (time + TIMER_INTERVAL) (r_sscratch c) (r_satp c) (r_mie c)
    (r_mideleg c) (r_medeleg c) (r_menvcfg c) (r_mcounteren c) (r_mtvec c) (r_mepc c) (r_sepc c).

Lemma rv_cpu_setup_run c k :
  clock (k_reads k) + TIMER_INTERVAL < U64 →
  rv_cpu_setup clock (c, k)
  = Ok (tt, (timer_on (clock (k_reads k)) c,
             mkKmem (k_tabs k) (k_buddy k) (k_bytes k) (S (k_reads k)) (k_arcs k) (k_heap k))).
Proof.
  intros Hlt. unfold rv_cpu_setup. cbn [fst snd rv_cpu_init mret st_ret mbind res_bind].
  unfold enable_timer. rewrite (st_run _ _ _ tt (mkCsrs (r_sstatus c) (r_sie c) (clock (k_reads k) + TIMER_INTERVAL)
    (r_sscratch c) (r_satp c) (r_mie c) (r_mideleg c) (r_medeleg c) (r_menvcfg c) (r_mcounteren c) (r_mtvec c)
    (r_mepc c) (r_sepc c))); [done|].
  unfold set_timer_at. by rewrite (st_run_lift _ _ _ _ (uadd_Ok _ _ Hlt)).
Qed.

Lemma buddy_boot_steps base L b :
  buddy_boot base (Z.shiftr (HEAP_START L) PAGE_BITS) (Z.shiftr MEM_SIZE PAGE_BITS) = Ok b →
  ∃ b0, buddy_init (BuddyAllocator_default base) = Ok (tt, b0) ∧
    add_zone (Z.shiftr (HEAP_START L) PAGE_BITS) (Z.shiftr MEM_SIZE PAGE_BITS) b0 = Ok (tt, b).
Proof.
  unfold buddy_boot. destruct (buddy_init _) as [[[] b0]| | |]; [|done..]. cbn [mbind res_bind].
  destruct (add_zone _ _ b0) as [[[] b1]| | |] eqn:Hz; [|done..]. intros [= <-]. by exists b0.
Qed.

(** The registers with another page table. *)
Definition with_satp (v : Z) (c : Csrs) : Csrs :=
  mkCsrs (r_sstatus c) (r_sie c) (r_stimecmp c) (r_sscratch c) v (r_mie c) (r_mideleg c) (r_medeleg c)
    (r_menvcfg c) (r_mcounteren c) (r_mtvec c) (r_mepc c) (r_sepc c).

Lemma init_kernel_pt_run L s page pn m a v :
  kernel_pt_init L (k_tabs (mc_kmem s), mc_static s) = Ok ((page, pn), (m, a)) →
  sv39_switch_to page = Ok v →
  init_kernel_pt L s
  = Ok (tt, mach (with_satp v (mc_plat s))
              (mkKmem m (k_buddy (mc_kmem s)) (k_bytes (mc_kmem s)) (k_reads (mc_kmem s)) (k_arcs (mc_kmem s)) (k_heap (mc_kmem s)))
              a (Some pn) (mc_sched s) (mc_rng s) (mc_vfs s) (mc_devices s) (mc_kmsg s) (mc_mmio s)).
Proof.
  intros Hpt Hv. unfold init_kernel_pt.
  rewrite (st_run _ _ _ (page, pn) (mach (mc_plat s)
    (mkKmem m (k_buddy (mc_kmem s)) (k_bytes (mc_kmem s)) (k_reads (mc_kmem s)) (k_arcs (mc_kmem s)) (k_heap (mc_kmem s)))
    a (mc_kernel_pt s) (mc_sched s) (mc_rng s) (mc_vfs s) (mc_devices s) (mc_kmsg s) (mc_mmio s))).
  2: { unfold on_static. cbn [pf_arch boot_platform Riscv64_Platform arch_entry arch_mapper Riscv64_Arch]. by rewrite Hpt. }
  rewrite (st_run _ _ _ tt (mach (with_satp v (mc_plat s))
    (mkKmem m (k_buddy (mc_kmem s)) (k_bytes (mc_kmem s)) (k_reads (mc_kmem s)) (k_arcs (mc_kmem s)) (k_heap (mc_kmem s)))
    a (mc_kernel_pt s) (mc_sched s) (mc_rng s) (mc_vfs s) (mc_devices s) (mc_kmsg s) (mc_mmio s))); [done|].
  unfold on_plat. cbn [pf_switch_to boot_platform Riscv64_Platform]. unfold rv_switch_to.
  by rewrite (st_run_lift _ _ _ _ Hv).
Qed.

(** ** The device tree *)

(** The tree [dtb] in memory at the address [addr], in [n] bytes, where the pages
    it takes can be mapped at their own addresses. *)
Record dtb_in_memory (m : bmem) (addr : Z) (bs : list Z) (dtb : DeviceTree) : Prop := {
  dm_held : mem_holds m addr bs;
  dm_align : addr mod 4 = 0;
  dm_size : from_be_bytes (take 4 (drop 4 bs)) = Z.of_nat (length bs);
  dm_parse : DeviceTree_parse bs = Ok (inl dtb);
  dm_header : (8 ≤ length bs)%nat;
  dm_pages : 0 ≤ addr / 4096 ∧ addr / 4096 + reg_pages (Z.of_nat (length bs)) ≤ vpn_limit - 2 ^ 26;
}.

Definition dtb_need (addr n : Z) : nat := table_need (addr / 4096) 1 + table_need (addr / 4096 + 1) (reg_pages n - 1).

Lemma reg_pages_nonzero n : 0 < n → 1 ≤ reg_pages n.
Proof.
  intros Hn. unfold reg_pages, div_ceil. change PAGE_SIZE with 4096. destruct (Z.eqb_spec (n mod 4096) 0) as [H|H].
  - pose proof (Z.div_mod n 4096 ltac:(done)). lia.
  - pose proof (Z.div_pos n 4096 ltac:(lia) ltac:(done)). lia.
Qed.

(** One range of pages mapped at their own addresses, read-only. *)
Lemma map_rodata_run Q n k r vpn pages :
  pt_wf (k_tabs k) r (buddy_avail (k_buddy k)) → (∀ x, buddy_avail (k_buddy k) x → okpage x) →
  pages_then Q (table_need vpn pages + n) (k_buddy k) → 0 ≤ vpn < vpn_limit → 0 ≤ pages → vpn + pages ≤ vpn_limit →
  ∃ t b, on_tables (map_rodata (mkMapper (table_at r)) vpn vpn pages) k
      = Ok (tt, mkKmem t b (k_bytes k) (k_reads k) (k_arcs k) (k_heap k)) ∧
    pt_wf t r (buddy_avail b) ∧ pages_then Q n b ∧ (∀ x, buddy_avail b x → buddy_avail (k_buddy k) x) ∧
    ∀ v, translate t r v =
      if decide (vpn ≤ v mod vpn_limit < vpn + pages) then Some (e_new (v mod vpn_limit) true RO)
      else translate (k_tabs k) r v.
Proof.
  intros Hwf Hrange Hready Hvpn Hpages Hlim. pose proof (vpn_limit_64 (AR:=Riscv64_Arch)) as H64.
  change (vpn_limit < U64) in H64.
  destruct (map_with_run (PageAllocatorLaws0 := then_laws Q) (k_tabs k) (k_buddy k) r vpn vpn pages RO n)
    as (t & b & Hrun & Hwf' & Hr' & Hsub & Htr); try done; try lia.
  { rewrite Z.mod_small by lia. lia. }
  exists t, b. split_and!; try done.
  - unfold on_tables, map_rodata, mapper_map. by rewrite Hrun.
  - intros v. rewrite Htr. unfold page_offset. rewrite (Z.mod_small vpn) by lia.
    destruct (decide _), (decide _); try lia; [|done]. do 2 f_equal. lia.
Qed.

(** The requests of the containers, which leave everything but the heap and the free
    pages as it is. *)
Lemma use_heap_run ops s h' b' :
  objects_served fuel ops (k_heap (mc_kmem s)) h' (k_buddy (mc_kmem s)) b' →
  use_heap fuel ops s
  = Ok (tt, set_kmem (mkKmem (k_tabs (mc_kmem s)) b' (k_bytes (mc_kmem s)) (k_reads (mc_kmem s)) (k_arcs (mc_kmem s)) h') s).
Proof. intros [Hrun _]. unfold use_heap, on_machine_kmem, on_heap. by rewrite Hrun. Qed.

Lemma untouched_run L addr n n' :
  apart_from_kernel L addr n = true → 0 ≤ n' ≤ n → untouched L addr n' = Ok tt.
Proof.
  unfold untouched, apart_from_kernel. rewrite orb_true_iff, !Z.leb_le. intros Ha Hn.
  assert ((addr + n' <=? KERNEL_START L - ADDR_OFFSET) || (HEAP_START L + MEM_SIZE - ADDR_OFFSET <=? addr) = true) as ->;
    [|done]. rewrite orb_true_iff, !Z.leb_le. lia.
Qed.

Lemma load_dtb_run L addr bs dtb s p ops rs :
  dtb_in_memory (k_bytes (mc_kmem s)) addr bs dtb → apart_from_kernel L addr (Z.of_nat (length bs)) = true →
  mc_kernel_pt s = Some (mkPP p) → okpage (p + PAGE_OFFSET) →
  pt_wf (k_tabs (mc_kmem s)) (p + PAGE_OFFSET) (buddy_avail (k_buddy (mc_kmem s))) →
  (∀ x, buddy_avail (k_buddy (mc_kmem s)) x → okpage x) →
  plan_served fuel (Pages (dtb_need addr (Z.of_nat (length bs))) :: Objects ops :: rs)
    (k_heap (mc_kmem s)) (k_buddy (mc_kmem s)) →
  ∃ t b h, load_dtb fuel ops L addr s
      = Ok (inl dtb, set_kmem (mkKmem t b (k_bytes (mc_kmem s)) (k_reads (mc_kmem s)) (k_arcs (mc_kmem s)) h) s) ∧
    pt_wf t (p + PAGE_OFFSET) (buddy_avail b) ∧ plan_served fuel rs h b ∧
    (∀ x, buddy_avail b x → buddy_avail (k_buddy (mc_kmem s)) x) ∧
    ∀ v, translate t (p + PAGE_OFFSET) v =
      if decide (addr / 4096 ≤ v mod vpn_limit < addr / 4096 + reg_pages (Z.of_nat (length bs)))
      then Some (e_new (v mod vpn_limit) true RO) else translate (k_tabs (mc_kmem s)) (p + PAGE_OFFSET) v.
Proof.
  intros [Hheld Halign Hsize Hparse Hhead [Ha Hlim]] Hapart Hpt Hok Hwf Hrange Hready.
  destruct (from_root_table p Hok) as [Hvp Hroot]. set (r := p + PAGE_OFFSET) in *.
  pose proof (reg_pages_nonzero (Z.of_nat (length bs)) ltac:(lia)) as Hp1. set (np := reg_pages (Z.of_nat (length bs))) in *.
  assert (Z.shiftr addr PAGE_BITS = addr / 4096) as Hsh by (by rewrite Z.shiftr_div_pow2).
  cbn [plan_served] in Hready. set (Q := λ b, ∃ h' b', _) in Hready.
  unfold dtb_need in Hready. rewrite <- (Nat.add_0_r (_ + _)), <- Nat.add_assoc in Hready.
  destruct (map_rodata_run Q _ (mc_kmem s) r (addr / 4096) 1 Hwf Hrange Hready)
    as (t1 & b1 & Hrun1 & Hwf1 & Hr1 & Hs1 & Ht1); [lia..|].
  set (k1 := mkKmem t1 b1 (k_bytes (mc_kmem s)) (k_reads (mc_kmem s)) (k_arcs (mc_kmem s)) (k_heap (mc_kmem s))).
  destruct (map_rodata_run Q 0 k1 r (addr / 4096 + 1) (np - 1))
    as (t2 & b2 & Hrun2 & Hwf2 & Hr2 & Hs2 & Ht2); [done|by intros x Hx; apply Hrange, Hs1|done|lia..|].
  set (k2 := mkKmem t2 b2 (k_bytes (mc_kmem s)) (k_reads (mc_kmem s)) (k_arcs (mc_kmem s)) (k_heap (mc_kmem s))).
  destruct (pages_then_now _ _ _ Hr2) as [_ (h3 & b3 & Hobj & Hplan)]. pose proof (proj2 Hobj) as Hs3.
  exists t2, b3, h3. split_and!; [| |done|intros x Hx; by apply Hs1, Hs2, Hs3|].
  - unfold load_dtb. rewrite (st_run _ _ _ (mkMapper (table_at r)) s).
    2: { unfold kernel_page. rewrite st_run_get, Hpt. rewrite (st_run_lift (deref (Some _)) _ _ (mkPP p)) by done.
         rewrite (st_run_lift _ _ _ _ Hvp). unfold mret, st_ret. by rewrite Hroot. }
    cbv zeta. rewrite Hsh. rewrite (st_run _ _ _ tt (set_kmem k1 s)).
    2: { unfold on_machine_kmem. cbn [pf_arch boot_platform Riscv64_Platform arch_entry arch_mapper Riscv64_Arch].
         by rewrite Hrun1. }
    rewrite (st_run_lift _ _ _ _ (untouched_run L addr _ 8 Hapart ltac:(lia))).
    rewrite st_run_get. cbn [set_kmem mc_kmem].
    rewrite (st_run_lift _ _ _ (Z.of_nat (length bs))).
    2: { unfold detect_totalsize. rewrite Halign. cbn [k1 k_bytes Z.eqb].
         pose proof (mem_holds_slice _ _ _ 4 4 Hheld) as Hs. apply read_mem_run in Hs.
         rewrite length_take, length_drop, Nat.min_l in Hs by lia. change (Z.of_nat 4) with 4 in Hs.
         rewrite Hs. cbn [mbind res_bind]. by rewrite Hsize. }
    change (div_ceil (Z.of_nat (length bs)) PAGE_SIZE) with np.
    rewrite (st_run_lift _ _ _ _ (usub_Ok np 1 Hp1)).
    pose proof (vpn_limit_64 (AR:=Riscv64_Arch)) as H64. change (vpn_limit < U64) in H64.
    rewrite (st_run_lift _ _ _ _ (uadd_Ok (addr / 4096) 1 ltac:(lia))).
    rewrite (st_run _ _ _ tt (set_kmem k2 s)).
    2: { unfold on_machine_kmem. cbn [set_kmem mc_kmem pf_arch boot_platform Riscv64_Platform arch_entry arch_mapper Riscv64_Arch].
         by rewrite Hrun2. }
    rewrite (st_run_lift _ _ _ _ (untouched_run L addr _ (Z.of_nat (length bs)) Hapart ltac:(lia))).
    rewrite st_run_get. cbn [set_kmem mc_kmem k_bytes k2]. rewrite Nat2Z.id.
    rewrite (st_run_lift _ _ _ _ (read_mem_run _ _ _ Hheld)).
    rewrite (st_run _ _ _ _ _ (use_heap_run ops (set_kmem k2 s) h3 b3 Hobj)). unfold lift. by rewrite Hparse.
  - eapply pt_wf_mono; [|exact Hwf2]. exact Hs3.
  - intros v. rewrite Ht2. cbn [k1 k_tabs]. rewrite Ht1.
    repeat destruct (decide _); try lia; done.
Qed.

(** ** The first task *)

Definition with_sscratch (v : Z) (c : Csrs) : Csrs :=
  mkCsrs (r_sstatus c) (r_sie c) (r_stimecmp c) v (r_satp c) (r_mie c) (r_mideleg c) (r_medeleg c)
    (r_menvcfg c) (r_mcounteren c) (r_mtvec c) (r_mepc c) (r_sepc c).

(** The kernel's task, on the page table at [r]. *)
Definition kernel_task (r : Z) : @Task Riscv64_Arch :=
  @mkTask Riscv64_Arch 0 KERNEL_PID 0 (mkMapper (table_at r)) NICE_DEFAULT Riscv64.Context_default [] None FdTable_default.
Definition first_sched (r ts : Z) : @Scheduler Riscv64_Arch :=
  @mkScheduler Riscv64_Arch {[KERNEL_PID := kernel_task r]} [(0, KERNEL_PID)] KERNEL_PID 0 (mkVP ts).

Lemma task_init_run s p ops rs :
  mc_kernel_pt s = Some (mkPP p) → okpage (p + PAGE_OFFSET) →
  plan_served fuel (Block 16 :: Objects ops :: rs) (k_heap (mc_kmem s)) (k_buddy (mc_kmem s)) →
  (∀ x, buddy_avail (k_buddy (mc_kmem s)) x → okpage x) →
  ∃ ts b h, task_init fuel ops s
    = Ok (tt, mach (with_sscratch (ushl (ts + 16) PAGE_BITS) (mc_plat s))
                (mkKmem (k_tabs (mc_kmem s)) b (k_bytes (mc_kmem s)) (k_reads (mc_kmem s)) (k_arcs (mc_kmem s)) h)
                (mc_static s) (mc_kernel_pt s) (Some (first_sched (p + PAGE_OFFSET) ts)) (mc_rng s) (mc_vfs s)
                (mc_devices s) (mc_kmsg s) (mc_mmio s)) ∧
    buddy_avail (k_buddy (mc_kmem s)) ts ∧ plan_served fuel rs h b ∧
    (∀ x, buddy_avail b x → buddy_avail (k_buddy (mc_kmem s)) x).
Proof.
  intros Hpt Hok (Hwf & Hrem & ts & b1 & Hrun & h & b & Hobj & Hplan) Hrange.
  destruct (alloc_takes _ 16 4 ts b1 Hwf Hrem eq_refl Hrun) as (_ & Hts & _ & Hsub).
  destruct (from_root_table p Hok) as [Hvp Hroot]. destruct (Hrange ts Hts) as [_ Hts2].
  exists ts, b, h. split_and!; try done; [|intros x Hx; by apply Hsub, Hobj]. unfold task_init.
  set (k := mkKmem (k_tabs (mc_kmem s)) b1 (k_bytes (mc_kmem s)) (k_reads (mc_kmem s)) (k_arcs (mc_kmem s)) (k_heap (mc_kmem s))).
  set (s1 := set_plat (with_sscratch (ushl (ts + 16) PAGE_BITS) (mc_plat s) : @plat boot_platform) (set_kmem k s)).
  rewrite (st_run _ _ _ ts (set_kmem k s)).
  2: { unfold on_machine_kmem, on_buddy, global_alloc_pages. by rewrite (st_run _ _ _ _ _ Hrun). }
  rewrite (st_run _ _ _ tt s1).
  2: { unfold trap_stack_init, on_plat. cbn [pf_trap_stack_init boot_platform Riscv64_Platform]. unfold rv_trap_stack_init.
       cbn [vp_0]. by rewrite (st_run_lift _ _ _ _ (uadd_Ok ts 16 ltac:(unfold U64; lia))). }
  rewrite st_run_get. cbn [s1 set_plat set_kmem mc_kernel_pt]. rewrite Hpt.
  rewrite (st_run_lift (deref (Some _)) _ _ (mkPP p)) by done.
  rewrite (st_run_lift _ _ _ (first_sched (p + PAGE_OFFSET) ts)).
  2: { unfold first_scheduler. rewrite Hvp. cbn [mbind res_bind]. by rewrite Hroot. }
  rewrite (st_run _ _ _ _ _ (use_heap_run ops s1 h b Hobj)).
  unfold modify, set_sched. cbn. by rewrite Hpt.
Qed.

(** ** The whole sequence *)

(** What start-up asks of the memory, in order. *)
Definition boot_requests (addr n : Z) (regs : list (Z * Z)) : list request :=
  [Pages (dtb_need addr n); Objects (containers InParse); Objects (containers InSoc); Objects (containers AfterSoc);
   Block 16; Objects (containers InTaskInit); Objects (containers InFiles); Objects (containers InConsole);
   Pages (regs_need (AR:=Riscv64_Arch) regs); Objects (containers AfterConsole); Objects (containers InPanic)].

(** What the state must be before [kernel_main]: the page pool and the log are as
    the image has them, nothing has been written to a device, the image is in
    place and overlaps the device tree neither in its own memory nor in the heap's,
    the static pages are enough for the kernel's tables and the heap for all requests,
    and the hardware counter does not overflow. *)
Record boot_state (L : Layout) (addr : Z) (bs : list Z) (dtb : DeviceTree) (regs : list (Z * Z)) (s : Machine) : Prop := {
  bs_layout : layout_ok L;
  bs_bss : bss_held L (k_bytes (mc_kmem s));
  bs_dtb : dtb_in_memory (k_bytes (mc_kmem s)) addr bs dtb;
  bs_apart : addr + Z.of_nat (length bs) ≤ KERNEL_START L - ADDR_OFFSET ∨
             HEAP_START L + MEM_SIZE - ADDR_OFFSET ≤ addr;
  bs_timer : clock (k_reads (mc_kmem s)) + TIMER_INTERVAL < U64;
  bs_clock : clock (S (k_reads (mc_kmem s))) * 100 < U64;
  bs_static : ∀ x, pa_avail (mc_static s) x → okpage x ∧ ¬ heap_page L x;
  bs_static_ready : pa_ready (kernel_pt_need L) (mc_static s);
  bs_heap : ∃ base b, k_buddy (mc_kmem s) = BuddyAllocator_default base ∧
    buddy_boot base (Z.shiftr (HEAP_START L) PAGE_BITS) (Z.shiftr MEM_SIZE PAGE_BITS) = Ok b ∧
    plan_served fuel (boot_requests addr (Z.of_nat (length bs)) regs) (k_heap (mc_kmem s)) b;
  bs_log : mc_kmsg s = KernelMessage_default;
}.

(** What the console shows in the end. *)
Definition panic_entry (now : Z) (location : str) : KernelMessageEntry :=
  call_entry (now, None, Fatal, lit "explicit panic" ++ lit " at " ++ location ++ [10]).

(** The state [kernel_main] waits for interrupts in. *)
Record booted (L : Layout) (addr : Z) (bs : list Z) (dev : CharDev) (regs : list (Z * Z)) (now : Z) (location : str)
    (s0 s : Machine) (r : Z) : Prop := {
  bt_table : mc_kernel_pt s = Some (mkPP (r - PAGE_OFFSET)) ∧
    sv39_switch_to (mkMapper (table_at r)) = Ok (r_satp (mc_plat s));
  bt_timer : r_stimecmp (mc_plat s) = clock (k_reads (mc_kmem s0)) + TIMER_INTERVAL ∧
    Z.testbit (r_sie (mc_plat s)) 5 = true ∧ Z.testbit (r_sstatus (mc_plat s)) 1 = true;
  bt_wf : pt_wf (k_tabs (mc_kmem s)) r (buddy_avail (k_buddy (mc_kmem s)));
  bt_kernel : ∀ v, okpage v → translate (k_tabs (mc_kmem s)) r v =
    (λ mode, e_new (v - PAGE_OFFSET) true mode) <$> kernel_access L v;
  bt_low : ∀ v, 0 ≤ v < vpn_limit - 2 ^ 26 → translate (k_tabs (mc_kmem s)) r v =
    if decide (in_regs regs v) then Some (e_new v true RW)
    else if decide (addr / 4096 ≤ v < addr / 4096 + reg_pages (Z.of_nat (length bs)))
         then Some (e_new v true RO) else None;
  bt_task : ∃ ts, mc_sched s = Some (first_sched r ts) ∧
    r_sscratch (mc_plat s) = ushl (ts + 16) PAGE_BITS ∧ heap_page L ts;
  bt_files : mc_vfs s = Some (tty_vfs 0) ∧ mc_devices s = Some (mkDeviceManager [dev]);
  bt_rng : rand_init = match mc_rng s with Some g => Ok g | None => Panic end;
  bt_log : mc_kmsg s = mkKmsg [panic_entry now location] KMSG_MAX (Some dev);
  bt_console : mc_mmio s = mc_mmio s0 ++ printed dev (entry_to_string (panic_entry now location));
}.

(** The heap's pages, as the allocator has them after its start. *)
Lemma boot_heap L base b x :
  layout_ok L → buddy_boot base (Z.shiftr (HEAP_START L) PAGE_BITS) (Z.shiftr MEM_SIZE PAGE_BITS) = Ok b →
  buddy_avail b x → heap_page L x.
Proof.
  intros HL Hboot. pose proof HL as [Hal Htext [Hro1 Hro] [Hda1 Hda] [Hbs1 Hbs] [Hhe1 Hhe]].
  assert (4096 | HEAP_START L) as [q Hq] by (repeat (apply list.Forall_cons in Hal as [? Hal]); done).
  change VIRT_ADDR with 0xffffffc040000000 in Htext. unfold U64 in Hhe.
  rewrite Hq, shiftr_page in Hboot. change (Z.shiftr MEM_SIZE PAGE_BITS) with 32768 in Hboot.
  assert (MEM_SIZE = 32768 * 4096) as HM by done.
  destruct (buddy_boot_ok base q 32768) as (b' & Hrun & _ & _ & _ & Hat); [lia..|].
  rewrite Hrun in Hboot. injection Hboot as ->. unfold buddy_avail, heap_page. rewrite Hat. unfold span.
  destruct (Z.leb_spec q x), (Z.ltb_spec x (q + 32768)); simpl; lia.
Qed.

(** A page of the low half is no page of the kernel's. *)
Lemma low_not_kernel v x : 0 ≤ v < vpn_limit - 2 ^ 26 → okpage x → x mod vpn_limit ≠ v mod vpn_limit.
Proof.
  intros Hv Hx. rewrite (okpage_mod ltac:(by vm_compute) x Hx). rewrite (Z.mod_small v) by lia.
  destruct Hx. rewrite PAGE_OFFSET_val in *. lia.
Qed.

(** A tree in the low half is no memory that [clear_bss] writes to. *)
Lemma tree_below_bss m L addr bs dtb :
  layout_ok L → dtb_in_memory m addr bs dtb → addr + Z.of_nat (length bs) ≤ BSS_START L + STACK_SIZE.
Proof.
  intros [_ Htext Hro Hda Hbs _] [_ _ _ _ _ [Ha Hlim]].
  change VIRT_ADDR with 0xffffffc040000000 in Htext. change vpn_limit with (2 ^ 27) in Hlim.
  assert (Z.of_nat (length bs) ≤ 4096 * reg_pages (Z.of_nat (length bs))) as Hn.
  { unfold reg_pages. pose proof (div_ceil_spec (Z.of_nat (length bs)) PAGE_SIZE ltac:(done) ltac:(lia)). change PAGE_SIZE with 4096 in *. lia. }
  pose proof (Z.div_mod addr 4096 ltac:(lia)). pose proof (Z.mod_pos_bound addr 4096 ltac:(lia)).
  change STACK_SIZE with 262144. lia.
Qed.

Lemma boot_tables L addr bs dtb regs s :
  boot_state L addr bs dtb regs s →
  ∃ r t a b h m v, okpage r ∧ sv39_switch_to (mkMapper (table_at r)) = Ok v ∧
    (∀ f, (_ ← on_machine_kmem (clear_bss L);
           _ ← cpu_init;
           _ ← on_machine_kmem (on_buddy buddy_init);
           _ ← on_machine_kmem (on_buddy (add_zone (Z.shiftr (HEAP_START L) PAGE_BITS) (Z.shiftr MEM_SIZE PAGE_BITS)));
           _ ← init_kernel_pt L;
           dtb ← load_dtb fuel (containers InParse) L addr;
           f dtb : ST Machine unit) s
      = f (inl dtb) (mach (with_satp v (timer_on (clock (k_reads (mc_kmem s))) (mc_plat s)))
          (mkKmem t b m (S (k_reads (mc_kmem s))) (k_arcs (mc_kmem s)) h) a (Some (mkPP (r - PAGE_OFFSET)))
          (mc_sched s) (mc_rng s) (mc_vfs s) (mc_devices s) (mc_kmsg s) (mc_mmio s))) ∧
    pt_wf t r (buddy_avail b) ∧
    plan_served fuel (drop 2 (boot_requests addr (Z.of_nat (length bs)) regs)) h b ∧
    (∀ x, buddy_avail b x → heap_page L x) ∧
    (∀ v, okpage v → translate t r v = (λ mode, e_new (v - PAGE_OFFSET) true mode) <$> kernel_access L v) ∧
    (∀ v, 0 ≤ v < vpn_limit - 2 ^ 26 → translate t r v =
       if decide (addr / 4096 ≤ v < addr / 4096 + reg_pages (Z.of_nat (length bs)))
       then Some (e_new v true RO) else None).
Proof.
  intros [HL Hbss Hdtb Hapart Htimer _ Hstatic Hsready (base & b0 & Hdef & Hboot & Hserves) _].
  destruct (clear_bss_run L (mc_kmem s) Hbss) as (m & Hclear & Hm).
  destruct (buddy_boot_steps base L b0 Hboot) as (bi & Hinit & Hzone).
  pose proof (λ x, boot_heap L base b0 x HL Hboot) as Hheap.
  pose proof (λ x Hx, heap_page_ok L x HL (Hheap x Hx)) as Hrange.
  set (k := mc_kmem s) in *. set (c1 := timer_on (clock (k_reads k)) (mc_plat s)).
  destruct (kernel_pt_init_run (PageAllocatorLaws0 := framed_laws Static_Laws (heap_page L))
    ltac:(by vm_compute) L (k_tabs k) (mc_static s) 0 HL) as (r & t1 & a & Hpt & Hr & Hwf1 & _ & _ & Htr1 & Hno1).
  { intros x [Hx|Hx]; [by apply Hstatic|by apply (heap_page_ok L)]. }
  { rewrite Nat.add_0_r. split; [done|]. intros x Hx Ha. by apply Hstatic in Ha as [_ ?]. }
  assert (∃ v, sv39_switch_to (mkMapper (table_at r)) = Ok v) as [v Hv].
  { unfold sv39_switch_to. cbn [root]. rewrite (Table_page_number_run r Hr). eexists. reflexivity. }
  set (s1 := mach (with_satp v c1) (mkKmem t1 b0 m (S (k_reads k)) (k_arcs k) (k_heap k)) a (Some (mkPP (r - PAGE_OFFSET)))
    (mc_sched s) (mc_rng s) (mc_vfs s) (mc_devices s) (mc_kmsg s) (mc_mmio s)).
  assert (r - PAGE_OFFSET + PAGE_OFFSET = r) as Hback by lia.
  destruct (load_dtb_run L addr bs dtb s1 (r - PAGE_OFFSET) (containers InParse)
    (drop 2 (boot_requests addr (Z.of_nat (length bs)) regs)))
    as (t2 & b2 & h2 & Hload & Hwf2 & Hserves2 & Hsub2 & Htr2); rewrite ?Hback; try done.
  { destruct Hdtb as [Hheld ? ? ? ? ?]. constructor; try done. cbn [s1 mc_kmem k_bytes].
    eapply mem_holds_mono; [|exact Hheld]. intros x Hx. apply Hm. left.
    pose proof (tree_below_bss (k_bytes k) L addr bs dtb HL ltac:(by constructor)). lia. }
  { unfold apart_from_kernel. by rewrite orb_true_iff, !Z.leb_le. }
  { eapply pt_wf_mono; [|exact Hwf1]. intros x Hx. right. by apply Hheap. }
  rewrite Hback in *. exists r, t2, a, b2, h2, m, v. split_and!; try done.
  - intros f. pose proof (init_kernel_pt_run L (mach c1 (mkKmem (k_tabs k) b0 m (S (k_reads k)) (k_arcs k) (k_heap k)) (mc_static s)
      (mc_kernel_pt s) (mc_sched s) (mc_rng s) (mc_vfs s) (mc_devices s) (mc_kmsg s) (mc_mmio s)) _ _ t1 a v Hpt Hv) as Hipt.
    rewrite (st_run _ _ _ tt (set_kmem (mkKmem (k_tabs k) (k_buddy k) m (k_reads k) (k_arcs k) (k_heap k)) s)).
    2: { unfold on_machine_kmem. fold k. by rewrite Hclear. }
    rewrite (st_run _ _ _ tt (set_kmem (mkKmem (k_tabs k) (k_buddy k) m (S (k_reads k)) (k_arcs k) (k_heap k)) (set_plat (c1 : @plat boot_platform) s))).
    2: { unfold cpu_init, on_plat_kmem. cbn [pf_cpu_init boot_platform Riscv64_Platform set_kmem mc_kmem mc_plat].
         by rewrite rv_cpu_setup_run. }
    rewrite (st_run _ _ _ tt (set_kmem (mkKmem (k_tabs k) bi m (S (k_reads k)) (k_arcs k) (k_heap k)) (set_plat (c1 : @plat boot_platform) s))).
    2: { unfold on_machine_kmem, on_buddy. cbn [set_kmem set_plat mc_kmem k_buddy]. by rewrite Hdef, Hinit. }
    rewrite (st_run _ _ _ tt (set_kmem (mkKmem (k_tabs k) b0 m (S (k_reads k)) (k_arcs k) (k_heap k)) (set_plat (c1 : @plat boot_platform) s))).
    2: { unfold on_machine_kmem, on_buddy. cbn [set_kmem set_plat mc_kmem k_buddy]. by rewrite Hzone. }
    rewrite (st_run _ _ _ _ _ Hipt). rewrite (st_run _ _ _ _ _ Hload). reflexivity.
  - intros x Hx. by apply Hheap, Hsub2.
  - intros w Hw. rewrite Htr2. cbn [s1 mc_kmem k_tabs]. rewrite decide_False; [by apply Htr1|].
    intros Hin. apply (low_not_kernel (w mod vpn_limit) w); [|done|].
    + pose proof (dm_pages _ _ _ _ Hdtb). lia.
    + rewrite Z.mod_mod; [done|]. pose proof vpn_limit_pos. lia.
  - intros w Hw. rewrite Htr2. cbn [s1 mc_kmem k_tabs]. rewrite (Z.mod_small w) by lia.
    destruct (decide _); [done|]. apply Hno1. intros x Hx. by apply low_not_kernel.
Qed.

(** Registers in the low half leave the kernel's pages alone. *)
Lemma regs_mapped_low regs r t t' :
  Forall (λ g, reg_fits (AR:=Riscv64_Arch) g ∧ g.1 / 4096 + reg_pages g.2 ≤ vpn_limit - 2 ^ 26) regs →
  regs_mapped (AR:=Riscv64_Arch) regs r t t' →
  (∀ w, okpage w → translate t' r w = translate t r w) ∧
  (∀ w, 0 ≤ w < vpn_limit - 2 ^ 26 →
     translate t' r w = if decide (in_regs regs w) then Some (e_new w true RW) else translate t r w).
Proof.
  intros Hregs Hmapped. unfold regs_mapped in Hmapped. cbn [arch_entry arch_mapper Riscv64_Arch] in Hmapped. split.
  - intros w Hw. rewrite Hmapped. rewrite decide_False; [done|].
    intros (g & Hg & Hin)%list.Exists_exists.
    pose proof (proj1 (list.Forall_forall _ _) Hregs g Hg) as [((Hg0 & _) & _) Hlow].
    apply (low_not_kernel (w mod vpn_limit) w); [lia|done|].
    rewrite Z.mod_mod; [done|]. pose proof vpn_limit_pos. lia.
  - intros w Hw. rewrite Hmapped. by rewrite (Z.mod_small w) by lia.
Qed.

(** The registers with interrupts enabled. *)
Definition interrupts_on (c : Csrs) : Csrs :=
  mkCsrs (Z.lor (r_sstatus c) 2) (r_sie c) (r_stimecmp c) (r_sscratch c) (r_satp c) (r_mie c) (r_mideleg c)
    (r_medeleg c) (r_menvcfg c) (r_mcounteren c) (r_mtvec c) (r_mepc c) (r_sepc c).

(** The end of the sequence, with the console attached. *)
Lemma boot_finish location s dev now h b :
  mc_kmsg s = mkKmsg [] KMSG_MAX (Some dev) → clock (k_reads (mc_kmem s)) * 100 < U64 →
  now = clock (k_reads (mc_kmem s)) * 100 →
  objects_served fuel (containers InPanic) (k_heap (mc_kmem s)) h (k_buddy (mc_kmem s)) b →
  (_ ← enable_interrupts; _ ← use_heap fuel (containers InPanic);
   panic_handler clock (lit "explicit panic") (Some location)) s
  = Ok (tt, mach (interrupts_on (mc_plat s))
      (mkKmem (k_tabs (mc_kmem s)) b (k_bytes (mc_kmem s)) (S (k_reads (mc_kmem s))) (k_arcs (mc_kmem s)) h)
      (mc_static s) (mc_kernel_pt s) (mc_sched s) (mc_rng s) (mc_vfs s) (mc_devices s)
      (mkKmsg [panic_entry now location] KMSG_MAX (Some dev))
      (mc_mmio s ++ printed dev (entry_to_string (panic_entry now location)))).
Proof.
  intros Hk Hclock -> Hobj. set (now := clock (k_reads (mc_kmem s)) * 100).
  set (k := mkKmem (k_tabs (mc_kmem s)) b (k_bytes (mc_kmem s)) (S (k_reads (mc_kmem s))) (k_arcs (mc_kmem s)) h).
  set (s1 := set_plat (interrupts_on (mc_plat s) : @plat boot_platform) s).
  rewrite (st_run _ _ _ tt s1) by reflexivity. rewrite (st_run _ _ _ _ _ (use_heap_run _ s1 h b Hobj)).
  unfold panic_handler. rewrite (st_run _ _ _ now (set_kmem k s1)).
  2: { unfold on_machine_kmem, get_sys_time. cbn [s1 set_plat set_kmem mc_kmem k_reads].
       cbn [sys_nanos pf_arch boot_platform Riscv64_Platform Riscv64_Arch]. unfold Riscv64.sys_nanos.
       by rewrite (umul_Ok _ 100 Hclock). }
  rewrite st_run_get. cbv zeta. cbn [s1 set_plat set_kmem mc_kmsg mc_mmio]. rewrite Hk.
  pose proof (add_message_run now None Fatal (lit "explicit panic" ++ lit " at " ++ location ++ [10])
    (mkKmsg [] KMSG_MAX (Some dev)) (mc_mmio s) ltac:(done) ltac:(cbn [msgs length]; lia)) as Hmsg.
  by rewrite (st_run_lift _ _ _ _ Hmsg).
Qed.

(** A sequence continued after its first part has been run. *)
Lemma boot_rest (f1 f2 f3 : ST Machine unit) (f4 : ST Machine unit) s s1 r :
  (_ ← f1; _ ← f2; f3) s = Ok (tt, s1) → f4 s1 = r → (_ ← f1; _ ← (_ ← f2; f3); f4) s = r.
Proof.
  rewrite !st_run_bind. destruct (f1 s) as [[[] s2]| | |]; [|done..]. cbn [mbind res_bind]. rewrite !st_run_bind.
  destruct (f2 s2) as [[[] s3]| | |]; [|done..]. cbn [mbind res_bind]. intros ->. by intros <-.
Qed.

(** The console, with the requests of its containers around the mapping. *)
Lemma boot_console s node dev regs r sched d dtb rs :
  console_at (dt_root dtb) node d → (d ≤ fuel)%nat → uart_node node dev regs →
  Forall (λ g, reg_fits (AR:=Riscv64_Arch) g ∧ g.1 / 4096 + reg_pages g.2 ≤ vpn_limit - 2 ^ 26) regs →
  mc_vfs s = Some demo_vfs → mc_devices s = Some device_init →
  mc_sched s = Some sched → current_task sched = Ok (kernel_task r) →
  pt_wf (k_tabs (mc_kmem s)) r (buddy_avail (k_buddy (mc_kmem s))) →
  (∀ x, buddy_avail (k_buddy (mc_kmem s)) x → okpage x) →
  plan_served fuel (Objects (containers InFiles) :: Objects (containers InConsole) ::
    Pages (regs_need (AR:=Riscv64_Arch) regs) :: Objects (containers AfterConsole) :: rs)
    (k_heap (mc_kmem s)) (k_buddy (mc_kmem s)) →
  ∃ k', (_ ← use_heap fuel (containers InFiles); _ ← use_heap fuel (containers InConsole);
         _ ← setup_console fuel dtb; use_heap fuel (containers AfterConsole)) s
      = Ok (tt, set_kmem k' (with_console dev device_init s)) ∧
    pt_wf (k_tabs k') r (buddy_avail (k_buddy k')) ∧ plan_served fuel rs (k_heap k') (k_buddy k') ∧
    k_reads k' = k_reads (mc_kmem s) ∧
    regs_mapped (AR:=Riscv64_Arch) regs r (k_tabs (mc_kmem s)) (k_tabs k').
Proof.
  intros Hcon Hfuel Huart Hregs Hvfs Hdevs Hsched Hcur Hwf Hrange (h1 & b1 & Hobj1 & h2 & b2 & Hobj2 & Hpages).
  assert (∀ x, buddy_avail b2 x → buddy_avail (k_buddy (mc_kmem s)) x) as Hsub2
    by (intros x Hx; by apply Hobj1, Hobj2).
  pose proof (use_heap_run _ s h1 b1 Hobj1) as Hrun1. set (s1 := set_kmem _ s) in Hrun1.
  pose proof (use_heap_run _ s1 h2 b2 Hobj2) as Hrun2. set (s2 := set_kmem _ s1) in Hrun2.
  rewrite <- (Nat.add_0_r (regs_need regs)) in Hpages.
  destruct (setup_by_node_then (PF:=boot_platform)
    (plan_served fuel (Objects (containers AfterConsole) :: rs) h2) node dev regs s2 sched (kernel_task r) r demo_vfs device_init 0)
    as (k & Hset & Hwf' & Hthen & _ & Hreads & Hheap & _ & Hmapped); try done.
  { eapply list.Forall_impl; [exact Hregs|]. by intros ? [? _]. }
  { eapply pt_wf_mono; [|exact Hwf]. exact Hsub2. }
  { intros x Hx. by apply Hrange, Hsub2. }
  destruct (pages_then_now _ _ _ Hthen) as [_ (h3 & b3 & Hobj3 & Hplan)].
  set (s3 := set_kmem k (with_console dev device_init s2)) in *.
  change (k_heap (mc_kmem s2)) with h2 in Hheap. rewrite <- Hheap in Hobj3. pose proof (use_heap_run _ s3 h3 b3 Hobj3) as Hrun3.
  eexists. split_and!.
  - rewrite (st_run _ _ _ _ _ Hrun1), (st_run _ _ _ _ _ Hrun2), (st_run _ _ _ tt s3).
    + exact Hrun3.
    + by rewrite (console_node_run fuel dtb node d Hcon Hfuel).
  - cbn [k_tabs k_buddy s3 set_kmem mc_kmem]. eapply pt_wf_mono; [|exact Hwf']. apply Hobj3.
  - exact Hplan.
  - exact Hreads.
  - exact Hmapped.
Qed.

End boot.

(** ** Witness *)

(** Bytes placed in a memory. *)
Fixpoint place (a : Z) (bs : list Z) (m : bmem) : bmem :=
  match bs with [] => m | b :: bs => <[a:=b]> (place (a + 1) bs m) end.

Lemma place_other bs : ∀ a m x, x < a ∨ a + Z.of_nat (length bs) ≤ x → place a bs m !! x = m !! x.
Proof.
  induction bs as [|b bs IH]; intros a m x Hx; [done|]. cbn [place length] in *.
  rewrite lookup_insert_ne by lia. apply IH. lia.
Qed.

Lemma place_holds bs : ∀ a m, mem_holds (place a bs m) a bs.
Proof.
  induction bs as [|b bs IH]; intros a m i c Hi; [done|]. cbn [place]. destruct i as [|i].
  - injection Hi as <-. rewrite Z.add_0_r. apply lookup_insert_eq.
  - rewrite lookup_insert_ne by lia. specialize (IH (a + 1) m i c Hi).
    by replace (a + Z.of_nat (S i)) with (a + 1 + Z.of_nat i) by lia.
Qed.

(** An image with the static pages in its data and a page of variables behind the
    stack; the device tree of the parser's witness lies above it. *)
Definition boot_image : Layout := {|
  KERNEL_START := 0xffffffc040001000; KERNEL_END := 0xffffffc040080000;
  RODATA_START := 0xffffffc040080000; RODATA_END := 0xffffffc0400a0000;
  DATA_START := 0xffffffc0400a0000; DATA_END := 0xffffffc040200000;
  BSS_START := 0xffffffc040200000; BSS_END := 0xffffffc040241000;
  HEAP_START := 0xffffffc040241000;
|}.
Definition boot_dtb_addr : Z := 0x87000000.
Definition boot_bytes : bmem := place 0xffffffc040240000 (replicate 4096 0) (place boot_dtb_addr demo_dtb ∅).
Definition boot_clock (n : nat) : Z := 1000 + Z.of_nat n.
#[local] Existing Instance boot_platform.
(** The heap before its first request, and requests for buffers of several sizes, one
    of which is given back. *)
Definition boot_kheap : KHeap :=
  mkKHeap 0xffffffc0400c0000 (page_run 0xffffffc0400c0 3)
    (list_to_map ((λ i, (0xffffffc0400c0000 + 8 * i, 0)) <$> seqZ 0 1056)) [].
Definition boot_containers (st : BootStage) : list heap_op :=
  match st with
  | InParse => [HAlloc (mkLayout 96 8); HAlloc (mkLayout 24 1)]
  | InTaskInit => [HAlloc (mkLayout 200 8)]
  | InFiles => [HAlloc (mkLayout 40 8)]
  | InConsole => [HAlloc (mkLayout 16 8); HAlloc (mkLayout 8 8)]
  | AfterConsole => [HFree 4]
  | InPanic => [HAlloc (mkLayout 40 1)]
  | _ => []
  end.
(** The blocks the heap takes for them. *)
Definition boot_uses : list (list Z) := [[]; [32; 16; 16]; []; []; []; [16]; []; []; []; []; []].
Definition boot_machine : @Machine (boot_platform boot_clock) :=
  @mkMachine (boot_platform boot_clock) (mkCsrs 0 0 0 0 0 0 0 0 0 0 0 0 0) (mkKmem ∅ (BuddyAllocator_default 0xffffffc0400b0000) boot_bytes 0 0 boot_kheap)
    demo_static None None None None None KernelMessage_default [].
Definition boot_regs : list (Z * Z) := [(0x10000000, 0x100)].
#[local] Existing Instances Sv39_Entry Sv39_Mapper.

Lemma boot_image_ok : layout_ok boot_image.
Proof.
  constructor; cbn -[MEM_SIZE VIRT_ADDR].
  - repeat constructor; apply Z.mod_divide; done.
  - by vm_compute.
  - split; [done|by vm_compute].
  - split; [done|by vm_compute].
  - split; [done|by vm_compute].
  - split; by vm_compute.
Qed.

Lemma boot_dtb_held : dtb_in_memory boot_bytes boot_dtb_addr demo_dtb main_dtb.
Proof.
  constructor.
  - unfold boot_bytes. eapply mem_holds_mono; [|apply place_holds].
    intros x Hx. apply place_other. left.
    assert (Z.of_nat (length demo_dtb) < 2 ^ 20) by by vm_compute. unfold boot_dtb_addr in *. lia.
  - reflexivity.
  - vm_compute. reflexivity.
  - vm_compute. reflexivity.
  - vm_compute. lia.
  - split; vm_compute; congruence.
Qed.

Lemma boot_machine_ready : boot_state boot_clock boot_containers 4 boot_image boot_dtb_addr demo_dtb main_dtb boot_regs boot_machine.
Proof.
  constructor.
  - apply boot_image_ok.
  - split; [split; vm_compute; congruence|]. intros x Hx.
    change (BSS_START boot_image + STACK_SIZE) with 0xffffffc040240000 in Hx.
    change (BSS_END boot_image) with 0xffffffc040241000 in Hx.
    destruct (lookup_lt_is_Some_2 (replicate 4096 0) (Z.to_nat (x - 0xffffffc040240000))) as [b Hb].
    { rewrite length_replicate. lia. }
    exists b. pose proof (place_holds (replicate 4096 0) 0xffffffc040240000 (place boot_dtb_addr demo_dtb ∅) _ b Hb) as Hp.
    rewrite Z2Nat.id in Hp by lia. replace (0xffffffc040240000 + (x - 0xffffffc040240000)) with x in Hp by lia. exact Hp.
  - apply boot_dtb_held.
  - right. vm_compute. congruence.
  - reflexivity.
  - reflexivity.
  - intros x Hx. split; [by apply demo_static_range|].
    apply (static_avail_range demo_static x eq_refl) in Hx.
    change (pages_addr demo_static / 4096) with 0xffffffc040100 in Hx.
    unfold heap_page, STATIC_PAGE_CAP in *. cbn [boot_image HEAP_START]. lia.
  - apply demo_static_ready. vm_compute. lia.
  - destruct (buddy_boot_ok 0xffffffc0400b0000 0xffffffc040241 32768) as (b & Hrun & Hwf & _); [lia..|].
    exists 0xffffffc0400b0000, b. split; [reflexivity|]. split; [exact Hrun|].
    set (rs := boot_requests boot_containers boot_dtb_addr (Z.of_nat (length demo_dtb)) boot_regs).
    change rs with (zip rs boot_uses).*1. apply plan_check_spec; [exact Hwf|].
    assert (match buddy_boot 0xffffffc0400b0000 0xffffffc040241 32768 with
            | Ok b => plan_check 4 (zip rs boot_uses) boot_kheap b | _ => false end = true) as Hc by (vm_compute; reflexivity).
    by rewrite Hrun in Hc.
  - reflexivity.
Qed.

